(** * A sequential model of the segmented best-fit allocator (my_malloc.c)

    The development embeds the allocator of [my_malloc.c] in Rocq and checks
    the statements of its specification against it.

    Conventions of the embedding:
    - the target is an LP64 machine: [size_t] and pointers are 64-bit
      unsigned quantities, written as [Z] with the wrap-around made explicit,
      and [sizeof(block_header)] is 32 (8 + 8 + 8 + 1, padded, + 4);
    - a pointer is its address, [NULL] is [0];
    - the backing region is seen through the block headers stored in it: a
      finite map from the address of a header to its five fields.  Headers
      are read and written field by field, in the order of the C statements.
      Headers are stored as units: a write to one entry of the map changes
      no other entry.  The map is therefore exact on heaps whose headers lie
      at least sizeof(block_header) bytes apart ([headers_apart]) and are
      reached through links that point to headers ([links_closed]), and it
      is to be read on such heaps.  Every state reached by calls whose
      footprint does not wrap is of this kind, which is proved below.  The
      payload bytes are not part of the map: in these states no live
      allocation shares a byte with a header, also proved below.  The
      C code overlays two headers when a footprint wraps (the tail header
      then starts inside the header of the block being split); the
      statements about such requests speak of the returned pointers and of
      the start of the region only, which do not depend on the overlay;
    - calls are executed one at a time (sequential interleaving), so the
      mutexes do not appear; a call to [pthread_cond_timedwait] is logged
      with its deadline and, since no other call can broadcast meanwhile,
      returns [ETIMEDOUT];
    - [assert] is active: a failed assertion aborts the call;
    - of the test harness, [choose_size] is embedded, with the results of
      its two calls to rand() as arguments. *)

From Stdlib Require Import ZArith Lia List Bool Floats.

From stdpp Require Import base option list gmap.

Local Open Scope Z_scope.

(** ** Outcomes of a call *)

Inductive outcome (A : Type) : Type :=
| Ok (a : A)          (* the call returns *)
| AssertFail          (* an [assert] fired *)
| Undefined           (* NULL, dangling or indeterminate memory was used *)
| Diverges.           (* a list walk never reaches NULL *)

Arguments Ok {A} a.

Arguments AssertFail {A}.

Arguments Undefined {A}.

Arguments Diverges {A}.

#[global] Instance outcome_ret : MRet outcome := fun A a => Ok a.

#[global] Instance outcome_bind : MBind outcome := fun A B f c =>
  match c with
  | Ok a => f a
  | AssertFail => AssertFail
  | Undefined => Undefined
  | Diverges => Diverges
  end.

Definition assert (b : bool) : outcome unit :=
  if b then Ok tt else AssertFail.

(** ** Constants and C conversions *)

Definition TRUE : bool := true.

Definition FALSE : bool := false.

(* my_malloc.h *)
Definition TOTAL_SIZE : Z := 104857600.

Definition NUM_SEGMENTS : Z := 5.

Definition MIN_SPLIT_SIZE : Z := 32.

Definition LARGE_SIZE : Z := 4194304.

(* LP64 *)
Definition SIZE_MAX : Z := 18446744073709551615.

Definition sizeof_block_header : Z := 32.

(* Arithmetic on size_t, and on addresses in a flat 64-bit address space. *)
Definition size_t (z : Z) : Z := z mod (SIZE_MAX + 1).

(* (double) i, for an int that fits 63 bits *)
Definition double_of_int (i : Z) : float := PrimFloat.of_uint63 (Uint63.of_Z i).

(* Conversion of a double to an integer type: the fraction is discarded. *)
Definition trunc_double (f : float) : Z :=
  match Prim2SF f with
  | S754_finite s m e =>
      let a := if 0 <=? e then Z.shiftl (Z.pos m) e else Z.shiftr (Z.pos m) (- e) in
      if s then - a else a
  | _ => 0
  end.

(* The double nearest to 0.1, which is what the literal 0.1 denotes. *)
Definition MAX_WAIT_TIME : float := 0x1.999999999999ap-4%float.

Definition SEG_1_TO_4_SIZE : float :=
  ((double_of_int TOTAL_SIZE * (20.0 / 100.0)) / double_of_int (NUM_SEGMENTS - 1))%float.

Definition SEG_5_SIZE : float :=
  (double_of_int TOTAL_SIZE * (80.0 / 100.0))%float.

(** ** Data *)

Record block_header : Type := mk_block_header {
  size : Z;
  next : Z;
  prev : Z;
  free : bool;
  segment_id : Z
}.

(* The mutex and the condition variable of a segment are left out. *)
Record segment : Type := mk_segment {
  seg_size : Z;
  start_ptr : Z;
  free_list : Z
}.

Record timespec : Type := mk_timespec { tv_sec : Z; tv_nsec : Z }.

Definition set_size (v : Z) (h : block_header) : block_header :=
  mk_block_header v (next h) (prev h) (free h) (segment_id h).

Definition set_next (v : Z) (h : block_header) : block_header :=
  mk_block_header (size h) v (prev h) (free h) (segment_id h).

Definition set_prev (v : Z) (h : block_header) : block_header :=
  mk_block_header (size h) (next h) v (free h) (segment_id h).

Definition set_free (v : bool) (h : block_header) : block_header :=
  mk_block_header (size h) (next h) (prev h) v (segment_id h).

Definition set_segment_id (v : Z) (h : block_header) : block_header :=
  mk_block_header (size h) (next h) (prev h) (free h) v.

Definition set_free_list (v : Z) (s : segment) : segment :=
  mk_segment (seg_size s) (start_ptr s) v.

(** ** Memory: the headers stored in the backing region *)

Abbreviation memory := (gmap Z block_header).

(* What a header holds before its fields are assigned.  [split_block] and
   [initialize_allocator] assign the five fields of a header before they
   read any of them. *)
Definition indeterminate : block_header := mk_block_header 0 0 0 false 0.

(* Reading a field through [p]. *)
Definition deref (m : memory) (p : Z) : outcome block_header :=
  match m !! p with
  | Some h => Ok h
  | None => Undefined
  end.

(* [p->field = v].  The write changes the header at [p] and no other entry:
   this is what the C statement does when no other header shares a byte
   with the header at [p]. *)
Definition assign (m : memory) (p : Z) (f : block_header -> block_header)
  : outcome memory :=
  if decide (p = 0) then Undefined
  else Ok (<[p := f (default indeterminate (m !! p))]> m).

(** ** The host: malloc and the clock *)

Record host : Type := mk_host {
  host_region : Z;      (* what malloc(TOTAL_SIZE) returns, 0 for NULL *)
  host_array : bool;    (* whether malloc(sizeof(segment) * NUM_SEGMENTS) succeeds *)
  host_time : Z         (* what time(NULL) returns *)
}.

(** ** The allocator's globals and statics *)

Record allocator : Type := mk_allocator {
  base_ptr : Z;                        (* static void* base_ptr *)
  segments : option (list segment);    (* static segment* segments; None is NULL *)
  heap : memory;                       (* contents of the backing region *)
  host_live : bool;                    (* the host blocks have not been passed to free() *)
  current_segment : Z;                 (* static int current_segment *)
  initialized : bool;                  (* static bool initialized *)
  waits : list timespec;               (* deadlines of the timed waits performed, latest first *)
  mutexes_destroyed : bool             (* init_mutex and round_robin_mutex have been destroyed *)
}.

Definition startup : allocator :=
  mk_allocator 0 None ∅ false 0 FALSE [] false.

Definition with_heap (m : memory) (st : allocator) : allocator :=
  mk_allocator (base_ptr st) (segments st) m (host_live st)
    (current_segment st) (initialized st) (waits st) (mutexes_destroyed st).

(* segments + i, read *)
Definition segment_at (st : allocator) (i : Z) : outcome segment :=
  match segments st with
  | Some segs =>
      if host_live st && (0 <=? i) then
        match segs !! Z.to_nat i with
        | Some s => Ok s
        | None => Undefined
        end
      else Undefined
  | None => Undefined
  end.

(* *(segments + i) = s *)
Definition with_segment (i : Z) (s : segment) (st : allocator) : allocator :=
  mk_allocator (base_ptr st) (option_map (fun segs => <[Z.to_nat i := s]> segs) (segments st))
    (heap st) (host_live st) (current_segment st) (initialized st) (waits st) (mutexes_destroyed st).

(** ** initialize_allocator *)

(* The five assignments through (new_segments+i)->free_list. *)
Definition write_initial_block (m : memory) (p : Z) (segment_size i : Z) : memory :=
  let m := <[p := set_size (size_t (segment_size - sizeof_block_header))
                    (default indeterminate (m !! p))]> m in
  let m := <[p := set_next 0 (default indeterminate (m !! p))]> m in
  let m := <[p := set_prev 0 (default indeterminate (m !! p))]> m in
  let m := <[p := set_free TRUE (default indeterminate (m !! p))]> m in
  <[p := set_segment_id i (default indeterminate (m !! p))]> m.

(* The for loop: [n] iterations remain, [i] is the loop counter,
   [allocation_iterator] the cursor, [segs] the segments filled so far. *)
Fixpoint initialize_loop (n : nat) (i : Z) (allocation_iterator : Z)
    (segs : list segment) (m : memory) : list segment * memory :=
  match n with
  | O => (segs, m)
  | S n' =>
      let segment_size :=
        trunc_double (if i <? NUM_SEGMENTS - 1 then SEG_1_TO_4_SIZE else SEG_5_SIZE) in
      let s := mk_segment segment_size allocation_iterator allocation_iterator in
      let m := write_initial_block m allocation_iterator segment_size i in
      initialize_loop n' (i + 1) (allocation_iterator + segment_size) (segs ++ [s]) m
  end.

(* Returns the new array (None for NULL) and the globals it has set. *)
Definition initialize_allocator (H : host) (st : allocator)
  : option (list segment) * allocator :=
  let st := mk_allocator (host_region H) (segments st) (heap st) (host_live st)
              (current_segment st) (initialized st) (waits st) (mutexes_destroyed st) in
  if decide (host_region H = 0) then (None, st)
  else if negb (host_array H) then (None, st)
  else
    let '(segs, m) := initialize_loop (Z.to_nat NUM_SEGMENTS) 0 (host_region H) [] ∅ in
    (Some segs,
     mk_allocator (host_region H) (segments st) m true
       (current_segment st) (initialized st) (waits st) (mutexes_destroyed st)).

(** ** add_to_free_list *)

(* Returns the new head of the list, with the memory it has written. *)
Definition add_to_free_list (m : memory) (free_list new_block : Z)
  : outcome (memory * Z) :=
  assert (negb (new_block =? 0));;
  nb ← deref m new_block;
  assert (Bool.eqb (free nb) TRUE);;
  m ← (if decide (free_list = 0) then
         m ← assign m new_block (set_next 0);
         assign m new_block (set_prev 0)
       else
         m ← assign m new_block (set_next free_list);
         m ← assign m free_list (set_prev new_block);
         assign m new_block (set_prev 0));
  Ok (m, new_block).

(** ** find_best_fit *)

(* current->free && current->size >= size *)
Definition free_and_fits (sz : Z) (h : block_header) : bool :=
  free h && (sz <=? size h).

Fixpoint find_best_fit_loop (fuel : nat) (m : memory) (sz : Z)
    (best_fit current : Z) : outcome Z :=
  if decide (current = 0) then Ok best_fit
  else
    match fuel with
    | O => Diverges
    | S fuel' =>
        c ← deref m current;
        best_fit' ←
          (if free_and_fits sz c then
             if decide (best_fit = 0) then Ok current
             else
               b ← deref m best_fit;
               Ok (if size c <? size b then current else best_fit)
           else Ok best_fit);
        find_best_fit_loop fuel' m sz best_fit' (next c)
    end.

(* A walk that visits more headers than the memory holds is on a cycle. *)
Definition find_best_fit (m : memory) (free_list : Z) (sz : Z) : outcome Z :=
  assert (0 <? sz);;
  find_best_fit_loop (stdpp.base.size m) m sz 0 free_list.

(** ** split_block *)

Definition split_block (m : memory) (seg : segment) (block : Z) (sz : Z)
  : outcome (memory * segment) :=
  assert (negb (block =? 0));;
  assert (0 <? sz);;
  b ← deref m block;
  if MIN_SPLIT_SIZE + sizeof_block_header <=? size_t (size b - sz) then
    let new_block := size_t (block + sizeof_block_header + sz) in
    m ← assign m new_block (set_free TRUE);
    b ← deref m block;
    m ← assign m new_block (set_size (size_t (size b - sz - sizeof_block_header)));
    b ← deref m block;
    m ← assign m new_block (set_next (next b));
    n ← deref m new_block;
    m ← (if decide (next n = 0) then Ok m
         else b ← deref m block; assign m (next b) (set_prev new_block));
    m ← assign m new_block (set_prev block);
    m ← assign m block (set_next new_block);
    b ← deref m block;
    m ← assign m new_block (set_segment_id (segment_id b));
    (* Shrink original block *)
    m ← assign m block (set_size sz);
    m ← assign m block (set_free FALSE);
    (* Unlink original block immediately *)
    b ← deref m block;
    m ← (if decide (prev b = 0) then Ok m
         else assign m (prev b) (set_next (next b)));
    b ← deref m block;
    m ← (if decide (next b = 0) then Ok m
         else assign m (next b) (set_prev (prev b)));
    b ← deref m block;
    Ok (m, if decide (free_list seg = block) then set_free_list (next b) seg else seg)
  else Ok (m, seg).

(** ** merge_blocks *)

Definition merge_blocks (m : memory) (block1 block2 : Z) : outcome memory :=
  assert (negb (block1 =? 0));;
  assert (negb (block2 =? 0));;
  b1 ← deref m block1;
  b2 ← deref m block2;
  assert (free b1 && free b2);;
  assert (size_t (block1 + sizeof_block_header + size b1) =? block2);;
  m ← (if decide (prev b2 = 0) then Ok m
       else assign m (prev b2) (set_next (next b2)));
  b2 ← deref m block2;
  m ← (if decide (next b2 = 0) then Ok m
       else assign m (next b2) (set_prev (prev b2)));
  b1 ← deref m block1;
  b2 ← deref m block2;
  m ← assign m block1 (set_size (size_t (size b1 + (size b2 + sizeof_block_header))));
  b2 ← deref m block2;
  m ← assign m block1 (set_next (next b2));
  b2 ← deref m block2;
  if decide (next b2 = 0) then Ok m
  else assign m (next b2) (set_prev block1).

(** ** wait_for_free_block *)

(* timeout.tv_sec = start_time + (time_t) MAX_WAIT_TIME; timeout.tv_nsec = 0 *)
Definition wait_timeout (start_time : Z) : timespec :=
  mk_timespec (start_time + trunc_double MAX_WAIT_TIME) 0.

(* On a segment the caller indexes as [i].  The loop body runs once: either
   the search succeeds or the request exceeds TOTAL_SIZE, or the timed wait
   is entered and times out. *)
Definition wait_for_free_block (H : host) (i : Z) (sz : Z) (st : allocator)
  : outcome (Z * allocator) :=
  seg ← segment_at st i;
  assert (0 <? sz);;
  assert (negb (free_list seg =? 0));;
  let timeout := wait_timeout (host_time H) in
  block ← find_best_fit (heap st) (free_list seg) sz;
  if negb (block =? 0) || (TOTAL_SIZE <? sz) then Ok (block, st)
  else
    Ok (block,
        mk_allocator (base_ptr st) (segments st) (heap st) (host_live st)
          (current_segment st) (initialized st) (timeout :: waits st)
          (mutexes_destroyed st)).

(** ** my_malloc *)

(* size_t actual_size = size + sizeof(block_header) *)
Definition actual_size (sz : Z) : Z := size_t (sz + sizeof_block_header).

(* for(i = 0; i < NUM_SEGMENTS-1; i++) over the small segments; returns the
   block found (0 if none) and the segment it was found in. *)
Fixpoint wait_small_segments (H : host) (n : nat) (i : Z) (sz : Z) (st : allocator)
  : outcome (Z * Z * allocator) :=
  match n with
  | O => Ok (0, i, st)
  | S n' =>
      '(block, st) ← wait_for_free_block H i sz st;
      if negb (block =? 0) then Ok (block, i, st)
      else wait_small_segments H n' (i + 1) sz st
  end.

(* The common tail of both branches: split, then mark allocated. *)
Definition take_block (seg_id : Z) (block : Z) (sz : Z) (st : allocator)
  : outcome (Z * allocator) :=
  seg ← segment_at st seg_id;
  '(m, seg) ← split_block (heap st) seg block sz;
  let ptr := size_t (block + sizeof_block_header) in
  m ← assign m block (set_free FALSE);
  Ok (ptr, with_segment seg_id seg (with_heap m st)).

Definition my_malloc (H : host) (sz : Z) (st : allocator) : outcome (Z * allocator) :=
  assert (0 <? sz);;
  (* pthread_mutex_lock(&init_mutex), on a destroyed mutex after a failed start *)
  if mutexes_destroyed st then Undefined else
  let '(ready, st) :=
    if initialized st then (true, st)
    else
      let '(segs, st) := initialize_allocator H st in
      match segs with
      | None =>
          (false,
           mk_allocator (base_ptr st) None (heap st) false
             (current_segment st) (initialized st) (waits st) true)
      | Some _ =>
          (true,
           mk_allocator (base_ptr st) segs (heap st) (host_live st)
             (current_segment st) TRUE (waits st) (mutexes_destroyed st))
      end in
  if negb ready then Ok (0, st)
  else
    let seg_id := current_segment st in
    let st := mk_allocator (base_ptr st) (segments st) (heap st) (host_live st)
                ((current_segment st + 1) mod (NUM_SEGMENTS - 1))
                (initialized st) (waits st) (mutexes_destroyed st) in
    seg ← segment_at st seg_id;
    block ← find_best_fit (heap st) (free_list seg) (actual_size sz);
    if negb (block =? 0) then take_block seg_id block sz st
    else
      '(block, seg_id, st) ←
        (if sz <=? LARGE_SIZE then
           wait_small_segments H (Z.to_nat (NUM_SEGMENTS - 1)) 0 (actual_size sz) st
         else
           '(block, st) ← wait_for_free_block H (NUM_SEGMENTS - 1) (actual_size sz) st;
           Ok (block, NUM_SEGMENTS - 1, st));
      if block =? 0 then Ok (0, st)
      else
        m ← assign (heap st) block (set_segment_id seg_id);
        take_block seg_id block sz (with_heap m st).

(** ** my_free *)

Definition my_free (ptr : Z) (st : allocator) : outcome allocator :=
  if decide (ptr = 0) then Ok st
  else
    let hdr := size_t (ptr - sizeof_block_header) in
    if negb (host_live st) then Undefined
    else
      h ← deref (heap st) hdr;
      _ ← segment_at st (segment_id h);
      m ← assign (heap st) hdr (set_free TRUE);
      (* Coalesce with prev *)
      h ← deref m hdr;
      c ← (if decide (prev h = 0) then Ok false
           else
             p ← deref m (prev h);
             Ok (free p && (size_t (prev h + sizeof_block_header + size p) =? hdr)));
      '(m, hdr) ←
        (if c : bool then
           m ← merge_blocks m (prev h) hdr;
           h ← deref m hdr;
           Ok (m, prev h)
         else Ok (m, hdr));
      (* Coalesce with next *)
      h ← deref m hdr;
      c ← (if decide (next h = 0) then Ok false
           else
             n ← deref m (next h);
             Ok (free n && (size_t (hdr + sizeof_block_header + size h) =? next h)));
      m ← (if c : bool then merge_blocks m hdr (next h) else Ok m);
      Ok (with_heap m st).

(** ** free_base_memory *)

Definition free_base_memory (st : allocator) : outcome allocator :=
  match segments st with
  | Some _ =>
      if host_live st then
        Ok (mk_allocator (base_ptr st) (segments st) (heap st) false
              (current_segment st) (initialized st) (waits st) (mutexes_destroyed st))
      else Undefined
  | None => Undefined
  end.

(** ** The test harness: choose_size *)

Definition SIXTEEN_B : Z := 16.

Definition ONE_KB : Z := 1024.

Definition FIFTY_KB : Z := 51200.

Definition ONE_HUNDRED_KB : Z := 102400.

(* [r1] and [r2] are the results of the two calls to rand(), [RAND_MAX] is
   the constant of the C library.  The literals 0.90 and 0.95 denote the
   doubles nearest to them; [%] on ints truncates toward zero. *)
Definition choose_size (RAND_MAX r1 r2 : Z) : Z :=
  let p := (double_of_int r1 / double_of_int RAND_MAX)%float in
  if (p <? 0x1.ccccccccccccdp-1)%float then
    SIXTEEN_B + Z.rem r2 (ONE_KB - SIXTEEN_B + 1)
  else if (p <? 0x1.e666666666666p-1)%float then
    ONE_KB + Z.rem r2 (FIFTY_KB - ONE_KB + 1)
  else
    FIFTY_KB + Z.rem r2 (ONE_HUNDRED_KB - FIFTY_KB + 1).

(** ** Runs *)

(* A client script: [Malloc s] calls my_malloc(s) and remembers the result;
   [Free k] calls my_free on the result of the k-th call to my_malloc;
   [Teardown] calls free_base_memory. *)
Inductive command : Type :=
| Malloc (sz : Z)
| Free (k : nat)
| Teardown.

Fixpoint run (H : host) (cs : list command) (ptrs : list Z) (st : allocator)
  : outcome (list Z * allocator) :=
  match cs with
  | [] => Ok (ptrs, st)
  | Malloc sz :: cs =>
      '(p, st) ← my_malloc H sz st;
      run H cs (ptrs ++ [p]) st
  | Free k :: cs =>
      st ← my_free (default 0 (ptrs !! k)) st;
      run H cs ptrs st
  | Teardown :: cs =>
      st ← free_base_memory st;
      run H cs ptrs st
  end.

(** ** Observations on a state *)

(* The blocks met from [p] along the [next] links, up to NULL. *)
Fixpoint list_walk (fuel : nat) (m : memory) (p : Z) : option (list Z) :=
  if decide (p = 0) then Some []
  else
    match fuel with
    | O => None
    | S fuel' =>
        h ← m !! p;
        l ← list_walk fuel' m (next h);
        Some (p :: l)
    end.

Definition free_list_blocks (m : memory) (seg : segment) : option (list Z) :=
  list_walk (stdpp.base.size m) m (free_list seg).

(* The blocks of a segment in physical order: the right neighbour of the
   block at [a] starts at [a + sizeof(header) + size]. *)
Fixpoint physical_walk (fuel : nat) (m : memory) (a stop : Z) : option (list Z) :=
  if decide (stop <= a) then Some []
  else
    match fuel with
    | O => None
    | S fuel' =>
        h ← m !! a;
        l ← physical_walk fuel' m (a + sizeof_block_header + size h) stop;
        Some (a :: l)
    end.

Definition segment_blocks (m : memory) (seg : segment) : option (list Z) :=
  physical_walk (stdpp.base.size m) m (start_ptr seg) (start_ptr seg + seg_size seg).

Definition is_free (m : memory) (a : Z) : bool :=
  match m !! a with
  | Some h => free h
  | None => false
  end.


(* Invariant 4, on one segment: no two neighbours in physical order are
   both free. *)
Fixpoint no_free_neighbours (m : memory) (bs : list Z) : bool :=
  match bs with
  | a :: (b :: _) as bs' => negb (is_free m a && is_free m b) && no_free_neighbours m bs'
  | _ => true
  end.

Definition coalesced (m : memory) (seg : segment) : Prop :=
  ∃ bs, segment_blocks m seg = Some bs ∧ no_free_neighbours m bs = true.

(* Two payloads, each given by its first byte and its length, share a byte. *)
Definition payloads_overlap (p s q t : Z) : Prop := p < q + t ∧ q < p + s.

Definition in_backing_region (st : allocator) (p s : Z) : Prop :=
  base_ptr st <= p ∧ p + s <= base_ptr st + TOTAL_SIZE.

(** ** A reference host *)

Definition host0 : host := mk_host 4096 true 1000.

(** ** Vocabulary of the statements *)

Definition first_pointer (o : outcome (Z * allocator)) : option Z :=
  match o with
  | Ok (p, _) => Some p
  | _ => None
  end.

(* The state that a successful initialization builds on a region at [b]. *)
Definition initial_segments (b : Z) : list segment :=
  [ mk_segment 5242880 b b;
    mk_segment 5242880 (b + 5242880) (b + 5242880);
    mk_segment 5242880 (b + 10485760) (b + 10485760);
    mk_segment 5242880 (b + 15728640) (b + 15728640);
    mk_segment 83886080 (b + 20971520) (b + 20971520) ].

Definition initial_heap (b : Z) : memory :=
  <[b + 20971520 := mk_block_header 83886048 0 0 TRUE 4]>
  (<[b + 15728640 := mk_block_header 5242848 0 0 TRUE 3]>
  (<[b + 10485760 := mk_block_header 5242848 0 0 TRUE 2]>
  (<[b + 5242880 := mk_block_header 5242848 0 0 TRUE 1]>
  (<[b := mk_block_header 5242848 0 0 TRUE 0]> ∅)))).

(* Following [next] from [p] visits the blocks [l], in this order, and then
   reaches NULL. *)
Fixpoint chain (m : memory) (p : Z) (l : list Z) : Prop :=
  match l with
  | [] => p = 0
  | a :: l' => p = a ∧ a ≠ 0 ∧ ∃ h, m !! a = Some h ∧ chain m (next h) l'
  end.

(* [b] is the first block of [l] that has the least size among the blocks of
   [l] accepted by [ok]; it is NULL when [ok] accepts none. *)
Definition first_smallest (ok : block_header → bool) (m : memory) (l : list Z) (b : Z)
  : Prop :=
  (b = 0 ∧ ∀ a h, a ∈ l → m !! a = Some h → ok h = false) ∨
  (b ≠ 0 ∧ ∃ (i : nat) hb,
     l !! i = Some b ∧ m !! b = Some hb ∧ ok hb = true ∧
     ∀ (j : nat) a h, l !! j = Some a → m !! a = Some h → ok h = true →
       size hb ≤ size h ∧ ((j < i)%nat → size hb < size h)).

(* The test of the specification: the size alone. *)
Definition fits (sz : Z) (h : block_header) : bool := sz <=? size h.

(* A stretch of a doubly linked list: from [p], whose predecessor is [pv],
   the [next] links visit [l] and then reach [nx]; [lst] is the last block
   visited ([pv] when [l] is empty). *)
Fixpoint dlseg (m : memory) (pv p : Z) (l : list Z) (lst nx : Z) : Prop :=
  match l with
  | [] => p = nx ∧ lst = pv
  | a :: l' =>
      p = a ∧ a ≠ 0 ∧
      ∃ h, m !! a = Some h ∧ prev h = pv ∧ dlseg m a (next h) l' lst nx
  end.

(* The free list of a segment is the doubly linked list [l]. *)
Definition free_list_is (m : memory) (seg : segment) (l : list Z) : Prop :=
  ∃ lst, dlseg m 0 (free_list seg) l lst 0.

(* The state right after a successful initialization on [H]. *)
Definition fresh (H : host) : allocator :=
  mk_allocator (host_region H) (Some (initial_segments (host_region H)))
    (initial_heap (host_region H)) true 0 TRUE [] false.

(* The state reached by a script from the start of the program. *)
Definition state_after (H : host) (cs : list command) : allocator :=
  match run H cs [] startup with
  | Ok (_, st) => st
  | _ => startup
  end.

(* Segment 0 of a state. *)
Definition segment0 (st : allocator) : segment :=
  default (mk_segment 0 0 0) (segs ← segments st; segs !! 0%nat).

(* A first request that leaves a residual of 32 bytes in segment 0. *)
Definition whole_block_request : Z := 5242816.

(* The segment array keeps the sizes and starts set by initialization on a
   region at [b]; only the free-list heads move. *)
Definition same_geometry (b : Z) (segs : list segment) : Prop :=
  Forall2 (λ s s0, seg_size s = seg_size s0 ∧ start_ptr s = start_ptr s0)
    segs (initial_segments b).

(* [a] is the head of the free list of some segment. *)
Definition is_head (segs : list segment) (a : Z) : Prop :=
  ∃ (i : nat) seg, segs !! i = Some seg ∧ free_list seg = a.

(* What the calls maintain on the headers. *)
Record heap_inv (segs : list segment) (m : memory) : Prop := mk_heap_inv {
  (* the head of each free list is the last block of its segment, and the
     end of its list *)
  inv_heads : ∀ (i : nat) seg, segs !! i = Some seg →
    ∃ h, m !! free_list seg = Some h ∧ next h = 0 ∧ 0 <= size h ∧
         start_ptr seg <= free_list seg ∧
         free_list seg + sizeof_block_header + size h = start_ptr seg + seg_size seg;
  (* every header lies in a segment, at or below the head *)
  inv_place : ∀ a h, m !! a = Some h →
    ∃ (i : nat) seg, segs !! i = Some seg ∧ start_ptr seg <= a <= free_list seg;
  (* no [prev] link points to a head *)
  inv_prev : ∀ a h, m !! a = Some h → ¬ is_head segs (prev h);
  (* the links point to headers *)
  inv_closed : ∀ a h, m !! a = Some h →
    (prev h = 0 ∨ is_Some (m !! prev h)) ∧ (next h = 0 ∨ is_Some (m !! next h))
}.

(* The state of an allocator that has been initialized on [H]. *)
Definition ready (H : host) (st : allocator) : Prop :=
  host_region H ≠ 0 ∧ initialized st = TRUE ∧ host_live st = true ∧
  ∃ segs, segments st = Some segs ∧ same_geometry (host_region H) segs ∧
          heap_inv segs (heap st).

(* Before a successful initialization. *)
Definition unready (st : allocator) : Prop :=
  initialized st = FALSE ∧ host_live st = false ∧ segments st = None.

(* The region that the host returns lies in the address space. *)
Definition host_ok (H : host) : Prop :=
  0 <= host_region H ∧ host_region H + TOTAL_SIZE <= SIZE_MAX.

(* Requests whose footprint does not wrap, and no teardown. *)
Fixpoint plain_script (cs : list command) : Prop :=
  match cs with
  | [] => True
  | Malloc sz :: cs => 0 < sz <= SIZE_MAX - sizeof_block_header ∧ plain_script cs
  | Free _ :: cs => plain_script cs
  | Teardown :: _ => False
  end.

(* Where a live allocation of [s] bytes at [p] sits: below the head of its
   segment's free list, or in the head itself, handed out whole and marked
   allocated. *)
Definition placed (segs : list segment) (m : memory) (p s : Z) : Prop :=
  0 < s ∧
  ∃ (i : nat) seg,
    segs !! i = Some seg ∧
    ((start_ptr seg + sizeof_block_header <= p ∧ p + s <= free_list seg) ∨
     (p = free_list seg + sizeof_block_header ∧
      p + s <= start_ptr seg + seg_size seg ∧
      is_free m (free_list seg) = false)).

(* No two payloads of the list share a byte. *)
Fixpoint apart (live : list (Z * Z)) : Prop :=
  match live with
  | [] => True
  | (p, s) :: l => (∀ q t, (q, t) ∈ l → ¬ payloads_overlap p s q t) ∧ apart l
  end.

Definition live_inv (segs : list segment) (m : memory) (live : list (Z * Z)) : Prop :=
  (∀ p s, (p, s) ∈ live → placed segs m p s) ∧ apart live.

(* What holds of a reached state and its live allocations. *)
Definition safe (H : host) (st : allocator) (live : list (Z * Z)) : Prop :=
  (unready st ∧ live = []) ∨
  (ready H st ∧ ∃ segs, segments st = Some segs ∧ live_inv segs (heap st) live).

(* The states reached from the start of the program by calls to my_malloc
   whose footprint does not wrap and by calls to my_free on NULL or on a
   pointer that my_malloc returned and that has not been released since;
   with each state, the allocations that are live in it. *)
Inductive reachable (H : host) : allocator → list (Z * Z) → Prop :=
| reach_start : reachable H startup []
| reach_malloc (st st' : allocator) (live : list (Z * Z)) (sz p : Z) :
    reachable H st live →
    0 < sz <= SIZE_MAX - sizeof_block_header →
    my_malloc H sz st = Ok (p, st') →
    reachable H st' (if decide (p = 0) then live else (p, sz) :: live)
| reach_free (st st' : allocator) (live : list (Z * Z)) (p sz : Z) :
    reachable H st live →
    (p, sz) ∈ live →
    my_free p st = Ok st' →
    reachable H st' (filter (λ e, e ≠ (p, sz)) live)
| reach_free_null (st st' : allocator) (live : list (Z * Z)) :
    reachable H st live →
    my_free 0 st = Ok st' →
    reachable H st' live.

(** ** Vocabulary for the choice of a segment *)

(* The head of the free list of segment [n] is marked free and has room for
   a footprint of [a] bytes: the test of find_best_fit on that block. *)
Definition head_fits (segs : list segment) (m : memory) (n : nat) (a : Z) : bool :=
  match segs !! n with
  | Some seg =>
      match m !! free_list seg with
      | Some h => free_and_fits a h
      | None => false
      end
  | None => false
  end.

(* The first of the [n] segments from index [i] on whose head fits. *)
Fixpoint first_fit (segs : list segment) (m : memory) (n i : nat) (a : Z)
  : option nat :=
  match n with
  | O => None
  | S n' => if head_fits segs m i a then Some i else first_fit segs m n' (S i) a
  end.

(* The head of the free list of segment [n]. *)
Definition head_of (segs : list segment) (n : nat) : Z :=
  default 0 (free_list <$> segs !! n).

(* Every header carries the index of a segment. *)
Definition valid_ids (m : memory) : Prop :=
  ∀ a h, m !! a = Some h → 0 <= segment_id h < NUM_SEGMENTS.

(* A started allocator whose statics are in order. *)
Definition steady (H : host) (st : allocator) : Prop :=
  ready H st ∧ mutexes_destroyed st = false ∧
  0 <= current_segment st < NUM_SEGMENTS - 1 ∧ valid_ids (heap st).

Definition with_waits (ws : list timespec) (st : allocator) : allocator :=
  mk_allocator (base_ptr st) (segments st) (heap st) (host_live st)
    (current_segment st) (initialized st) ws (mutexes_destroyed st).

(* The state after the round robin step of my_malloc. *)
Definition advance (st : allocator) : allocator :=
  mk_allocator (base_ptr st) (segments st) (heap st) (host_live st)
    ((current_segment st + 1) mod (NUM_SEGMENTS - 1))
    (initialized st) (waits st) (mutexes_destroyed st).

(* Every header carries the index of the segment it lies in. *)
Definition ids_match (segs : list segment) (m : memory) : Prop :=
  ∀ a h, m !! a = Some h →
    0 <= segment_id h ∧
    ∃ seg, segs !! Z.to_nat (segment_id h) = Some seg ∧
           start_ptr seg <= a <= free_list seg.

(* The calls that the workers of the harness make, in any order in which
   the calls of the sixteen threads may follow one another: each my_malloc
   asks for a size drawn by choose_size, each my_free releases the result
   of an earlier my_malloc, free_base_memory comes after the workers. *)
Definition harness_script (RAND_MAX : Z) (cs : list command) : Prop :=
  Forall (λ c, match c with
               | Malloc sz => ∃ r1 r2, 0 <= r2 ∧ sz = choose_size RAND_MAX r1 r2
               | Free _ => True
               | Teardown => False
               end) cs.

(** ** Well-formed heaps, and the pointers handed out and released *)

(* No header lies at NULL or runs past the end of the address space, and no
   two headers share a byte. *)
Definition headers_apart (m : memory) : Prop :=
  (∀ a, is_Some (m !! a) → 0 < a ∧ a + sizeof_block_header <= SIZE_MAX + 1) ∧
  ∀ a b, is_Some (m !! a) → is_Some (m !! b) → a < b → a + sizeof_block_header <= b.

(* Every link is NULL or the address of a header. *)
Definition links_closed (m : memory) : Prop :=
  ∀ a h, m !! a = Some h →
    (prev h = 0 ∨ is_Some (m !! prev h)) ∧ (next h = 0 ∨ is_Some (m !! next h)).

(* [m] has the headers of [m0], at the same addresses, with closed links. *)
Definition relinked (m0 m : memory) : Prop :=
  links_closed m ∧ ∀ a, is_Some (m !! a) ↔ is_Some (m0 !! a).

(* The states reached from the start of the program by calls to my_malloc
   whose footprint does not wrap and by calls to my_free on NULL or on a
   pointer that my_malloc has returned, released before or not; with each
   state, the results of the calls to my_malloc and the arguments of the
   calls to my_free so far, latest first. *)
Inductive history (H : host) : allocator → list Z → list Z → Prop :=
| history_start : history H startup [] []
| history_malloc (st st' : allocator) (out rel : list Z) (sz p : Z) :
    history H st out rel →
    0 < sz <= SIZE_MAX - sizeof_block_header →
    my_malloc H sz st = Ok (p, st') →
    history H st' (p :: out) rel
| history_free (st st' : allocator) (out rel : list Z) (p : Z) :
    history H st out rel →
    p = 0 ∨ p ∈ out →
    my_free p st = Ok st' →
    history H st' out (p :: rel).

(* What the calls maintain between the flags, the heads and the pointers
   handed out and released. *)
Record served_inv (segs : list segment) (m : memory) (out rel : list Z) : Prop :=
  mk_served_inv {
  (* a pointer handed out is NULL or leaves room for a header below it *)
  inv_out : ∀ p, p ∈ out → p = 0 ∨ sizeof_block_header < p <= SIZE_MAX;
  (* a block marked free is a head or has been released *)
  inv_free : ∀ a, is_free m a = true →
    is_head segs a ∨ a + sizeof_block_header ∈ rel;
  (* a head is marked free or has been handed out *)
  inv_head : ∀ (i : nat) seg, segs !! i = Some seg →
    is_free m (free_list seg) = true ∨ free_list seg + sizeof_block_header ∈ out;
  inv_apart : headers_apart m;
  (* sizes are unsigned *)
  inv_sizes : map_Forall (λ _ h, 0 <= size h) m
}.

(* Every live allocation has a header marked allocated right below it, and
   no header starts or ends inside its bytes. *)
Definition payloads_clear (m : memory) (live : list (Z * Z)) : Prop :=
  ∀ p s, (p, s) ∈ live →
    is_free m (p - sizeof_block_header) = false ∧
    is_Some (m !! (p - sizeof_block_header)) ∧
    ∀ a, is_Some (m !! a) → a + sizeof_block_header <= p ∨ p + s <= a.

(** * Facts checked on the model *)

(** ** Timed wait *)
Lemma trunc_MAX_WAIT_TIME : trunc_double MAX_WAIT_TIME = 0.
Proof. reflexivity. Qed.

Lemma wait_timeout_eq (start_time : Z) :
  wait_timeout start_time = mk_timespec start_time 0.
Proof.
  unfold wait_timeout. rewrite trunc_MAX_WAIT_TIME. f_equal. lia.
Qed.

(** C6: the deadline handed to pthread_cond_timedwait.  The cast
    [(time_t) MAX_WAIT_TIME] discards the fraction of 0.1, so every wait that
    [wait_for_free_block] performs is logged with the deadline
    [tv_sec = time(NULL)], [tv_nsec = 0]: the start time itself, not the
    start time plus 0.1 s. *)
Theorem wait_deadline_is_start_time (H : host) (i sz : Z) (st st' : allocator) (block : Z) :
  wait_for_free_block H i sz st = Ok (block, st') →
  waits st' = waits st ∨
  (block = 0 ∧ waits st' = mk_timespec (host_time H) 0 :: waits st).
Proof.
  unfold wait_for_free_block. intros Hw.
  destruct (segment_at st i) as [seg| | |]; simpl in Hw; try discriminate.
  destruct (assert (0 <? sz)); simpl in Hw; try discriminate.
  destruct (assert (negb (free_list seg =? 0))); simpl in Hw; try discriminate.
  destruct (find_best_fit (heap st) (free_list seg) sz) as [b| | |];
    simpl in Hw; try discriminate.
  destruct (negb (b =? 0) || (TOTAL_SIZE <? sz)) eqn:Hc.
  - injection Hw as <- <-. by left.
  - injection Hw as <- <-. right. simpl. rewrite wait_timeout_eq.
    apply orb_false_elim in Hc as [Hb _].
    apply negb_false_iff, Z.eqb_eq in Hb. done.
Qed.

(** ** Teardown *)

(** C5: a call to my_malloc after free_base_memory.  Teardown leaves the
    static [initialized] set, so the call skips initialize_allocator and
    indexes the segment array that has been handed back to the host. *)
Theorem my_malloc_after_teardown (H : host) (sz : Z) (st st' : allocator) :
  initialized st = TRUE →
  free_base_memory st = Ok st' →
  0 < sz →
  initialized st' = TRUE ∧ my_malloc H sz st' = Undefined.
Proof.
  intros Hi Hf Hsz. unfold free_base_memory in Hf.
  destruct (segments st) as [segs|] eqn:Hs; [|discriminate].
  destruct (host_live st) eqn:Hl; [|discriminate].
  injection Hf as <-. split; [exact Hi|].
  unfold my_malloc. simpl.
  assert (Ha : assert (0 <? sz) = Ok tt).
  { unfold assert. by rewrite (proj2 (Z.ltb_lt 0 sz) Hsz). }
  rewrite Ha, Hi. simpl. by destruct (mutexes_destroyed st).
Qed.

(** ** Requests whose footprint wraps *)

(** C9: a request larger than the backing capacity.  For size SIZE_MAX,
    which exceeds TOTAL_SIZE, the footprint wraps to 31, the first search
    accepts the initial block of segment 0, and the first call returns the
    payload address of that block, not NULL. *)
Theorem oversize_request_is_served :
  TOTAL_SIZE < SIZE_MAX ∧
  first_pointer (my_malloc host0 SIZE_MAX startup)
    = Some (host_region host0 + sizeof_block_header) ∧
  host_region host0 + sizeof_block_header ≠ 0.
Proof. split; [reflexivity|]. split; [vm_compute; reflexivity|discriminate]. Qed.

(** C1: two live allocations.  The first call asks for SIZE_MAX bytes and
    the second for 64: both return a pointer, the SIZE_MAX bytes from the
    first pointer run past the end of the backing region, and they cover the
    64 bytes of the second. *)
Theorem live_payloads_overlap :
  ∃ p q st,
    run host0 [Malloc SIZE_MAX; Malloc 64] [] startup = Ok ([p; q], st) ∧
    p ≠ 0 ∧ q ≠ 0 ∧
    ¬ in_backing_region st p SIZE_MAX ∧
    in_backing_region st q 64 ∧
    payloads_overlap p SIZE_MAX q 64.
Proof.
  do 3 eexists. split; [vm_compute; reflexivity|].
  unfold in_backing_region, payloads_overlap, SIZE_MAX, TOTAL_SIZE. simpl.
  repeat split; lia.
Qed.

(** ** Coalescing *)

(** C3: coalescing on release.  Two blocks are carved one after the other
    from segment 0 (first and fifth call, the round robin sending the three
    calls in between to segments 1 to 3); then the first and the second are
    released.  The second release merges with the free tail on its right,
    but its [prev] link is NULL, so the first block and the merged block
    stay apart: two physical neighbours, both free. *)
Theorem freed_neighbours_not_merged :
  ∃ ps st segs seg,
    run host0 [Malloc 64; Malloc 64; Malloc 64; Malloc 64; Malloc 64;
               Free 0%nat; Free 4%nat] [] startup = Ok (ps, st) ∧
    segments st = Some segs ∧ segs !! 0%nat = Some seg ∧
    segment_blocks (heap st) seg = Some [start_ptr seg; start_ptr seg + 96] ∧
    is_free (heap st) (start_ptr seg) = true ∧
    is_free (heap st) (start_ptr seg + 96) = true ∧
    ¬ coalesced (heap st) seg.
Proof.
  do 4 eexists. split; [vm_compute; reflexivity|].
  split; [reflexivity|]. split; [reflexivity|].
  assert (Hb : ∀ m seg bs, segment_blocks m seg = Some bs →
               no_free_neighbours m bs = false → ¬ coalesced m seg).
  { intros m seg bs Hbs Hn (bs' & Hbs' & Hn'). congruence. }
  split; [vm_compute; reflexivity|].
  split; [vm_compute; reflexivity|].
  split; [vm_compute; reflexivity|].
  eapply Hb; vm_compute; reflexivity.
Qed.

(** ** Initialization *)

Lemma write_initial_block_eq (m : memory) (p segment_size i : Z) :
  write_initial_block m p segment_size i
  = <[p := mk_block_header (size_t (segment_size - sizeof_block_header)) 0 0 TRUE i]> m.
Proof.
  unfold write_initial_block. cbv zeta.
  rewrite !lookup_insert_eq. simpl. rewrite !insert_insert_eq. reflexivity.
Qed.

Lemma SEG_1_TO_4_SIZE_eq : trunc_double SEG_1_TO_4_SIZE = 5242880.
Proof. reflexivity. Qed.

Lemma SEG_5_SIZE_eq : trunc_double SEG_5_SIZE = 83886080.
Proof. reflexivity. Qed.

Lemma initialize_loop_eq (b : Z) :
  initialize_loop (Z.to_nat NUM_SEGMENTS) 0 b [] ∅ = (initial_segments b, initial_heap b).
Proof.
  change (Z.to_nat NUM_SEGMENTS) with 5%nat. cbn [initialize_loop].
  rewrite !write_initial_block_eq.
  change (0 <? NUM_SEGMENTS - 1) with true.
  change (0 + 1 <? NUM_SEGMENTS - 1) with true.
  change (0 + 1 + 1 <? NUM_SEGMENTS - 1) with true.
  change (0 + 1 + 1 + 1 <? NUM_SEGMENTS - 1) with true.
  change (0 + 1 + 1 + 1 + 1 <? NUM_SEGMENTS - 1) with false.
  cbv iota. rewrite SEG_1_TO_4_SIZE_eq, SEG_5_SIZE_eq.
  unfold initial_segments, initial_heap. cbn [app].
  replace (b + 5242880 + 5242880) with (b + 10485760) by lia.
  replace (b + 10485760 + 5242880) with (b + 15728640) by lia.
  replace (b + 15728640 + 5242880) with (b + 20971520) by lia.
  reflexivity.
Qed.

Lemma initialize_allocator_eq (H : host) (st : allocator) :
  host_region H ≠ 0 → host_array H = true →
  initialize_allocator H st
  = (Some (initial_segments (host_region H)),
     mk_allocator (host_region H) (segments st) (initial_heap (host_region H)) true
       (current_segment st) (initialized st) (waits st) (mutexes_destroyed st)).
Proof.
  intros Hb Ha. unfold initialize_allocator.
  destruct (decide (host_region H = 0)) as [|_]; [done|].
  rewrite Ha. cbn [negb]. rewrite initialize_loop_eq. reflexivity.
Qed.

Ltac initial_heap_lookup :=
  unfold initial_heap;
  repeat (rewrite lookup_insert_ne by lia);
  first [rewrite lookup_insert_eq | rewrite lookup_empty].


(** ** Reading and writing headers *)

Lemma deref_Some (m : memory) (p : Z) (h : block_header) :
  m !! p = Some h → deref m p = Ok h.
Proof. intros Hh. unfold deref. by rewrite Hh. Qed.

Lemma deref_Ok (m : memory) (p : Z) (h : block_header) :
  deref m p = Ok h → m !! p = Some h.
Proof. unfold deref. destruct (m !! p); congruence. Qed.

Lemma assign_Ok (m : memory) (p : Z) (f : block_header → block_header) :
  p ≠ 0 → assign m p f = Ok (<[p := f (default indeterminate (m !! p))]> m).
Proof. intros Hp. unfold assign. by destruct (decide (p = 0)). Qed.

Lemma assert_true (b : bool) : b = true → assert b = Ok tt.
Proof. by intros ->. Qed.

(** ** Free lists as chains *)

Lemma chain_functional (m : memory) (l l' : list Z) (p : Z) :
  chain m p l → chain m p l' → l = l'.
Proof.
  revert p l'. induction l as [|a l IH]; intros p [|a' l']; simpl; try done.
  - intros -> (? & ? & _). congruence.
  - intros (? & ? & _) ->. congruence.
  - intros (-> & _ & h & Hh & Hc) (<- & _ & h' & Hh' & Hc').
    rewrite Hh in Hh'. injection Hh' as <-. f_equal. eauto.
Qed.

Lemma chain_suffix (m : memory) (l1 l2 : list Z) (a p : Z) :
  chain m p (l1 ++ a :: l2) → chain m a (a :: l2).
Proof.
  revert p. induction l1 as [|x l1 IH]; simpl; intros p.
  - intros (-> & Hc). done.
  - intros (_ & _ & h & _ & Hc). exact (IH _ Hc).
Qed.

Lemma chain_NoDup (m : memory) (l : list Z) (p : Z) :
  chain m p l → NoDup l.
Proof.
  revert p. induction l as [|a l IH]; intros p Hc; [constructor|].
  pose proof Hc as (-> & Hne & h & Hh & Hc').
  constructor; [|eauto].
  intros Hin. apply list_elem_of_split in Hin as (l1 & l2 & ->).
  pose proof (chain_suffix _ _ _ _ _ Hc') as Hs.
  pose proof (chain_functional _ _ _ _ Hc Hs) as Heq.
  apply (f_equal length) in Heq. simpl in Heq. rewrite length_app in Heq.
  simpl in Heq. lia.
Qed.

Lemma chain_dom (m : memory) (l : list Z) (p a : Z) :
  chain m p l → a ∈ l → is_Some (m !! a).
Proof.
  revert p. induction l as [|x l IH]; simpl; intros p Hc Hin.
  - by apply not_elem_of_nil in Hin.
  - destruct Hc as (-> & _ & h & Hh & Hc).
    apply elem_of_cons in Hin as [->|Hin]; eauto.
Qed.

Lemma chain_length (m : memory) (l : list Z) (p : Z) :
  chain m p l → (length l ≤ stdpp.base.size m)%nat.
Proof.
  intros Hc. rewrite <- size_dom.
  rewrite <- (size_list_to_set (C := gset Z) l) by (eapply chain_NoDup; eauto).
  apply subseteq_size. intros a Ha. apply elem_of_list_to_set in Ha.
  apply elem_of_dom. eapply chain_dom; eauto.
Qed.

Lemma list_walk_chain (fuel : nat) (m : memory) (l : list Z) (p : Z) :
  chain m p l → (length l ≤ fuel)%nat → list_walk fuel m p = Some l.
Proof.
  revert p l. induction fuel as [|fuel IH]; intros p [|a l]; simpl.
  - intros -> _. done.
  - intros _ Hl. lia.
  - intros -> _. done.
  - intros (-> & Hne & h & Hh & Hc) Hl.
    destruct (decide (a = 0)); [done|].
    rewrite Hh. simpl. rewrite (IH _ l) by (done || lia). done.
Qed.

Lemma free_list_blocks_chain (m : memory) (seg : segment) (l : list Z) :
  chain m (free_list seg) l → free_list_blocks m seg = Some l.
Proof.
  intros Hc. apply list_walk_chain; [done|]. eapply chain_length; eauto.
Qed.

(** ** Best fit *)

Lemma first_smallest_snoc_skip ok m l a h b :
  m !! a = Some h → ok h = false →
  first_smallest ok m l b → first_smallest ok m (l ++ [a]) b.
Proof.
  intros Hh Hok [[-> Hnone]|(Hne & i & hb & Hi & Hb & Hokb & Hmin)].
  - left. split; [done|]. intros a' h' Hin Hh'.
    apply elem_of_app in Hin as [Hin|Hin]; [eauto|].
    apply list_elem_of_singleton in Hin as ->. congruence.
  - right. split; [done|]. exists i, hb. split; [by apply lookup_app_l_Some|].
    split; [done|]. split; [done|].
    intros j a' h' Hj Hh' Hok'.
    apply lookup_snoc_Some in Hj as [[_ Hj]|[_ <-]]; [eauto|congruence].
Qed.

Lemma first_smallest_snoc_keep ok m l a h b hb :
  m !! a = Some h → m !! b = Some hb → b ≠ 0 → size hb ≤ size h →
  first_smallest ok m l b → first_smallest ok m (l ++ [a]) b.
Proof.
  intros Hh Hb Hne Hle [[-> _]|(_ & i & hb' & Hi & Hb' & Hokb & Hmin)]; [done|].
  right. split; [done|]. exists i, hb'. split; [by apply lookup_app_l_Some|].
  split; [done|]. split; [done|].
  intros j a' h' Hj Hh' Hok'.
  apply lookup_snoc_Some in Hj as [[_ Hj]|[-> <-]]; [eauto|].
  apply lookup_lt_Some in Hi.
  assert (hb' = hb) as -> by congruence. assert (h' = h) as -> by congruence.
  split; [done|lia].
Qed.

Lemma first_smallest_snoc_take ok m l a h b :
  a ≠ 0 → m !! a = Some h → ok h = true →
  (b = 0 ∨ ∃ hb, m !! b = Some hb ∧ size h < size hb) →
  first_smallest ok m l b → first_smallest ok m (l ++ [a]) a.
Proof.
  intros Ha Hh Hok Hb Hfs. right. split; [done|]. exists (length l), h.
  split; [by apply list_lookup_middle|]. split; [done|]. split; [done|].
  intros j a' h' Hj Hh' Hok'.
  apply lookup_snoc_Some in Hj as [[Hlt Hj]|[-> <-]].
  - destruct Hfs as [[-> Hnone]|(Hne & i & hb & Hi & Hbb & Hokb & Hmin)].
    + apply list_elem_of_lookup_2 in Hj. rewrite (Hnone _ _ Hj Hh') in Hok'. done.
    + destruct Hb as [->|(hb' & Hb' & Hlt')]; [done|].
      assert (hb' = hb) as -> by congruence.
      destruct (Hmin _ _ _ Hj Hh' Hok') as [Hle _]. split; [lia|intros _; lia].
  - assert (h' = h) as -> by congruence. split; [lia|lia].
Qed.

Lemma find_best_fit_loop_spec (m : memory) (sz : Z) (rest : list Z) :
  ∀ (fuel : nat) (seen : list Z) (best_fit current : Z),
    chain m current rest → (length rest ≤ fuel)%nat →
    first_smallest (free_and_fits sz) m seen best_fit →
    ∃ b, find_best_fit_loop fuel m sz best_fit current = Ok b ∧
         first_smallest (free_and_fits sz) m (seen ++ rest) b.
Proof.
  induction rest as [|a rest IH]; intros fuel seen best_fit current Hc Hl Hfs.
  - simpl in Hc. subst current. exists best_fit. rewrite app_nil_r.
    split; [|done]. by destruct fuel.
  - destruct Hc as (-> & Hne & h & Hh & Hc).
    destruct fuel as [|fuel]; [simpl in Hl; lia|].
    simpl in Hl. cbn [find_best_fit_loop].
    destruct (decide (a = 0)) as [|_]; [done|].
    rewrite (deref_Some _ _ _ Hh). cbn [mbind outcome_bind].
    replace (seen ++ a :: rest) with ((seen ++ [a]) ++ rest)
      by (by rewrite <- app_assoc).
    destruct (free_and_fits sz h) eqn:Hok.
    + destruct (decide (best_fit = 0)) as [->|Hbne].
      * cbn [mbind outcome_bind]. apply IH; [done|lia|].
        eapply first_smallest_snoc_take; eauto.
      * destruct Hfs as [[-> _]|(_ & i & hb & Hi & Hb & Hokb & Hmin)]; [done|].
        rewrite (deref_Some _ _ _ Hb). cbn [mbind outcome_bind].
        destruct (size h <? size hb) eqn:Hlt.
        -- apply Z.ltb_lt in Hlt. apply IH; [done|lia|].
           eapply (first_smallest_snoc_take _ _ _ _ _ best_fit); eauto.
           right. split; [done|]. eauto 10.
        -- apply Z.ltb_ge in Hlt. apply IH; [done|lia|].
           eapply first_smallest_snoc_keep; eauto.
           right. split; [done|]. eauto 10.
    + cbn [mbind outcome_bind]. apply IH; [done|lia|].
      eapply first_smallest_snoc_skip; eauto.
Qed.

Lemma find_best_fit_spec (m : memory) (free_list : Z) (l : list Z) (sz : Z) :
  0 < sz → chain m free_list l →
  ∃ b, find_best_fit m free_list sz = Ok b ∧
       first_smallest (free_and_fits sz) m l b.
Proof.
  intros Hsz Hc. unfold find_best_fit.
  rewrite (proj2 (Z.ltb_lt 0 sz) Hsz). cbn [assert mbind outcome_bind].
  apply (find_best_fit_loop_spec m sz l _ [] 0 free_list Hc).
  - eapply chain_length; eauto.
  - left. split; [done|]. intros a h Hin. by apply not_elem_of_nil in Hin.
Qed.

(** C8, as the code has it: on a NULL-terminated free list and for a
    positive size, find_best_fit returns a result.  It is NULL exactly when
    no listed block is both marked free and of size >= the request.
    Otherwise it is a listed block, marked free and large enough, whose size
    is least among the listed blocks that are marked free and large enough,
    and every such block met earlier in the list is strictly larger. *)
Theorem find_best_fit_first_smallest_free (m : memory) (free_list : Z) (l : list Z) (sz : Z) :
  0 < sz → chain m free_list l →
  ∃ b,
    find_best_fit m free_list sz = Ok b ∧
    (b = 0 ↔ ∀ a h, a ∈ l → m !! a = Some h → ¬ (free h = true ∧ sz <= size h)) ∧
    (b ≠ 0 →
     ∃ (i : nat) hb,
       l !! i = Some b ∧ m !! b = Some hb ∧ free hb = true ∧ sz <= size hb ∧
       ∀ (j : nat) a h,
         l !! j = Some a → m !! a = Some h → free h = true → sz <= size h →
         size hb <= size h ∧ ((j < i)%nat → size hb < size h)).
Proof.
  intros Hsz Hc.
  destruct (find_best_fit_spec m free_list l sz Hsz Hc) as (b & Hrun & Hfs).
  assert (Hq : ∀ h, free_and_fits sz h = true ↔ free h = true ∧ sz <= size h).
  { intros h. unfold free_and_fits. rewrite andb_true_iff, Z.leb_le. done. }
  exists b. split; [exact Hrun|].
  destruct Hfs as [[-> Hnone]|(Hne & i & hb & Hi & Hb & Hok & Hmin)].
  - split; [|done]. split; [|done]. intros _ a h Hin Hh Hfit.
    apply Hq in Hfit. rewrite (Hnone _ _ Hin Hh) in Hfit. done.
  - apply Hq in Hok as [Hfree Hfit]. split.
    + split; [done|]. intros Hnone. exfalso.
      apply (Hnone b hb); [by eapply list_elem_of_lookup_2|done|done].
    + intros _. exists i, hb. repeat split; try done.
      * apply (Hmin j a h); [done|done|]. apply Hq. done.
      * apply (Hmin j a h); [done|done|]. apply Hq. done.
Qed.

(** ** Symbolic execution of the list surgery *)

Ltac solve_ne := first [assumption | congruence | lia].

(* Normalises the look-ups through the updates performed so far. *)
Ltac lookups :=
  repeat first
    [ rewrite lookup_insert_eq
    | rewrite lookup_insert_ne by solve_ne
    | match goal with H : _ !! _ = Some _ |- _ => rewrite H end ];
  cbn [default from_option id size next prev free segment_id
       set_size set_next set_prev set_free set_segment_id].

(* One statement: an assertion, a test against NULL, a read or a write. *)
Ltac step :=
  first
    [ rewrite assert_true by (first [reflexivity | assumption | lia])
    | rewrite assign_Ok by solve_ne
    | erewrite deref_Some by (lookups; first [eassumption | reflexivity])
    | rewrite decide_True by (first [reflexivity | assumption])
    | rewrite decide_False by solve_ne ];
  cbn [mbind outcome_bind]; lookups.

Lemma split_block_split (m : memory) (seg : segment) (block sz : Z) (b : block_header) :
  m !! block = Some b → block ≠ 0 → 0 < sz →
  MIN_SPLIT_SIZE + sizeof_block_header <= size_t (size b - sz) →
  ∀ new_block, new_block = size_t (block + sizeof_block_header + sz) →
  new_block ≠ 0 → new_block ≠ block → new_block ≠ next b → new_block ≠ prev b →
  block ≠ prev b → block ≠ next b → (next b = 0 ∨ next b ≠ prev b) →
  ∃ m',
    split_block m seg block sz
    = Ok (m', if decide (free_list seg = block) then set_free_list new_block seg else seg) ∧
    m' !! new_block
    = Some (mk_block_header (size_t (size b - sz - sizeof_block_header))
              (next b) (prev b) TRUE (segment_id b)) ∧
    m' !! block = Some (mk_block_header sz new_block (prev b) FALSE (segment_id b)) ∧
    (next b ≠ 0 →
     m' !! next b = Some (set_prev new_block (default indeterminate (m !! next b)))) ∧
    (prev b ≠ 0 →
     m' !! prev b = Some (set_next new_block (default indeterminate (m !! prev b)))) ∧
    (∀ a, a ≠ new_block → a ≠ block →
          (next b ≠ 0 → a ≠ next b) → (prev b ≠ 0 → a ≠ prev b) → m' !! a = m !! a).
Proof.
  intros Hb Hne Hsz Hres new_block Hnew Hn0 Hnb Hnx Hnp Hbp Hbx Hxp.
  unfold split_block. rewrite <- Hnew. clear Hnew.
  assert (Hz : (block =? 0) = false) by (apply Z.eqb_neq; done).
  rewrite Hz. cbn [negb].
  assert (Hs : (0 <? sz) = true) by (apply Z.ltb_lt; done).
  rewrite Hs.
  assert (Hr : (MIN_SPLIT_SIZE + sizeof_block_header <=? size_t (size b - sz)) = true)
    by (apply Z.leb_le; done).
  cbn [assert mbind outcome_bind].
  rewrite (deref_Some _ _ _ Hb). cbn [mbind outcome_bind]. rewrite Hr.
  destruct b as [bs bn bp bf bi]. cbn [size next prev free segment_id] in *.
  destruct (decide (bn = 0)) as [->|Hx]; destruct (decide (bp = 0)) as [->|Hp];
    try (destruct Hxp as [|Hxp]; [done|]);
    repeat step;
    (eexists; split; [reflexivity|]); lookups;
    repeat split; intros;
    repeat match goal with
           | Hi : ?x ≠ 0 → _, Hx : ?x ≠ 0 |- _ => specialize (Hi Hx)
           end;
    lookups; done.
Qed.

Lemma split_block_whole (m : memory) (seg : segment) (block sz : Z) (b : block_header) :
  m !! block = Some b → block ≠ 0 → 0 < sz →
  size_t (size b - sz) < MIN_SPLIT_SIZE + sizeof_block_header →
  split_block m seg block sz = Ok (m, seg).
Proof.
  intros Hb Hne Hsz Hres. unfold split_block.
  rewrite (proj2 (Z.eqb_neq block 0) Hne), (proj2 (Z.ltb_lt 0 sz) Hsz).
  cbn [negb assert mbind outcome_bind].
  rewrite (deref_Some _ _ _ Hb). cbn [mbind outcome_bind].
  by rewrite (proj2 (Z.leb_gt _ _) Hres).
Qed.

(** ** Doubly linked free lists *)

Lemma dlseg_app (m : memory) (l1 l2 : list Z) (pv p lst nx : Z) :
  dlseg m pv p (l1 ++ l2) lst nx ↔
  ∃ mid q, dlseg m pv p l1 mid q ∧ dlseg m mid q l2 lst nx.
Proof.
  revert pv p. induction l1 as [|a l1 IH]; intros pv p; simpl.
  - split.
    + intros Hd. exists pv, p. done.
    + intros (mid & q & [-> ->] & Hd). done.
  - split.
    + intros (-> & Hne & h & Hh & Hp & Hd).
      apply IH in Hd as (mid & q & Hd1 & Hd2).
      exists mid, q. split; [|done]. eauto 10.
    + intros (mid & q & (-> & Hne & h & Hh & Hp & Hd1) & Hd2).
      split; [done|]. split; [done|]. exists h. split; [done|]. split; [done|].
      apply IH. eauto.
Qed.

Lemma dlseg_chain (m : memory) (l : list Z) (pv p lst : Z) :
  dlseg m pv p l lst 0 → chain m p l.
Proof.
  revert pv p. induction l as [|a l IH]; intros pv p; simpl.
  - by intros [-> _].
  - intros (-> & Hne & h & Hh & _ & Hd). eauto 10.
Qed.

(* The list structure only depends on the links of the listed blocks. *)
Lemma dlseg_frame (m m' : memory) (l : list Z) (pv p lst nx : Z) :
  (∀ a h, a ∈ l → m !! a = Some h →
          ∃ h', m' !! a = Some h' ∧ next h' = next h ∧ prev h' = prev h) →
  dlseg m pv p l lst nx → dlseg m' pv p l lst nx.
Proof.
  revert pv p. induction l as [|a l IH]; intros pv p Hf; simpl; [done|].
  intros (-> & Hne & h & Hh & Hp & Hd).
  destruct (Hf a h) as (h' & Hh' & Hn' & Hp'); [by left|done|].
  split; [done|]. split; [done|]. exists h'. split; [done|].
  split; [congruence|]. rewrite Hn'. apply IH; [|done].
  intros a' h0 Hin. apply Hf. by right.
Qed.

Lemma dlseg_last_in (m : memory) (l : list Z) (pv p lst nx : Z) :
  dlseg m pv p l lst nx → l ≠ [] → lst ∈ l.
Proof.
  revert pv p. induction l as [|a l IH]; intros pv p; simpl; [done|].
  intros (-> & _ & h & _ & _ & Hd) _.
  destruct l as [|a' l].
  - destruct Hd as [_ ->]. by left.
  - right. eapply IH; eauto.
Qed.

(* Redirecting the [next] link of the last block of a stretch. *)
Lemma dlseg_retarget (m m' : memory) (l : list Z) (pv p lst nx nx' : Z) :
  NoDup l →
  (∀ a, a ∈ l → a ≠ lst → m' !! a = m !! a) →
  (∀ h, l ≠ [] → m !! lst = Some h → m' !! lst = Some (set_next nx' h)) →
  dlseg m pv p l lst nx →
  dlseg m' pv (if decide (l = []) then nx' else p) l lst nx'.
Proof.
  revert pv p. induction l as [|a l IH]; intros pv p Hnd Hsame Hlast; simpl.
  - intros [_ ->]. done.
  - intros (-> & Hne & h & Hh & Hp & Hd).
    apply NoDup_cons in Hnd as [Hnin Hnd].
    split; [done|]. split; [done|].
    destruct l as [|a' l].
    + simpl in Hd. destruct Hd as [Hn ->].
      exists (set_next nx' h). split; [by apply Hlast|]. simpl. done.
    + assert (Hal : a ≠ lst).
      { intros ->. apply Hnin. eapply dlseg_last_in; eauto. }
      exists h. split; [rewrite Hsame; [done|by left|done]|]. split; [done|].
      specialize (IH a (next h) Hnd).
      destruct (decide (a' :: l = [])) as [|_]; [done|].
      apply IH; [|by intros h0 _; apply Hlast|done].
      intros a0 Hin Hne0. apply Hsame; [by right|done].
Qed.

Lemma dlseg_nonzero (m : memory) (l : list Z) (pv p lst nx a : Z) :
  dlseg m pv p l lst nx → a ∈ l → a ≠ 0.
Proof.
  revert pv p. induction l as [|x l IH]; intros pv p; simpl.
  - intros _ Hin. by apply not_elem_of_nil in Hin.
  - intros (-> & Hne & h & _ & _ & Hd) Hin.
    apply elem_of_cons in Hin as [->|Hin]; eauto.
Qed.

Lemma dlseg_head (m : memory) (l : list Z) (pv p lst nx : Z) :
  dlseg m pv p l lst nx → l = [] ∧ p = nx ∨ p ∈ l.
Proof.
  destruct l as [|a l]; simpl.
  - intros [-> _]. by left.
  - intros (-> & _). right. by left.
Qed.

Lemma segment_at_Ok (st : allocator) (i : Z) (seg : segment) :
  segment_at st i = Ok seg →
  ∃ segs, segments st = Some segs ∧ host_live st = true ∧ 0 <= i ∧
          segs !! Z.to_nat i = Some seg.
Proof.
  unfold segment_at. destruct (segments st) as [segs|]; [|done].
  destruct (host_live st); [|done]. cbn [andb].
  destruct (0 <=? i) eqn:Hi; [|done]. apply Z.leb_le in Hi.
  destruct (segs !! Z.to_nat i) as [s|] eqn:Hs; [|done].
  intros [= <-]. eauto.
Qed.

Lemma segment_at_with_segment (st : allocator) (i : Z) (seg s : segment) (m : memory) :
  segment_at st i = Ok seg →
  segment_at (with_segment i s (with_heap m st)) i = Ok s.
Proof.
  intros (segs & Hs & Hl & Hi & Hseg)%segment_at_Ok.
  unfold segment_at, with_segment, with_heap. cbn. rewrite Hs, Hl. cbn.
  rewrite (proj2 (Z.leb_le 0 i) Hi).
  rewrite list_lookup_insert_eq; [done|]. by eapply lookup_lt_Some.
Qed.

Lemma size_t_small (z : Z) : 0 <= z <= SIZE_MAX → size_t z = z.
Proof. intros Hz. unfold size_t. apply Z.mod_small. unfold SIZE_MAX in *. lia. Qed.

(** ** Taking a block off the free list *)

(** C4, as the code has it.  The block chosen sits on its segment's free
    list between [l1] and [l2], and holds at least the requested bytes.  If
    the residual is at least MIN_SPLIT_SIZE + sizeof(header), a free header
    for the residual payload is written at block + sizeof(header) + requested,
    with the block's segment_id, and takes the block's place in the list,
    while the block shrinks to the requested size, is marked allocated and is
    off the list.  Otherwise the block is marked allocated as it is and the
    list is left alone: the block stays linked where it was. *)
Theorem take_block_effect (st : allocator) (seg_id : Z) (seg : segment)
    (block sz : Z) (b : block_header) (l1 l2 : list Z) :
  segment_at st seg_id = Ok seg →
  free_list_is (heap st) seg (l1 ++ block :: l2) →
  heap st !! block = Some b →
  0 < sz <= size b → size b <= SIZE_MAX →
  0 <= block → block + sizeof_block_header + sz <= SIZE_MAX →
  block + sizeof_block_header + sz ∉ l1 ++ l2 →
  ∃ st' seg',
    take_block seg_id block sz st = Ok (block + sizeof_block_header, st') ∧
    segment_at st' seg_id = Ok seg' ∧
    if decide (MIN_SPLIT_SIZE + sizeof_block_header <= size b - sz) then
      let new_block := block + sizeof_block_header + sz in
      heap st' !! new_block
      = Some (mk_block_header (size b - sz - sizeof_block_header)
                (next b) (prev b) TRUE (segment_id b)) ∧
      heap st' !! block
      = Some (mk_block_header sz new_block (prev b) FALSE (segment_id b)) ∧
      free_list_is (heap st') seg' (l1 ++ new_block :: l2) ∧
      block ∉ l1 ++ new_block :: l2
    else
      heap st' = <[block := set_free FALSE b]> (heap st) ∧
      seg' = seg ∧
      free_list_is (heap st') seg' (l1 ++ block :: l2).
Proof.
  intros Hseg [lst Hd] Hb [Hsz Hle] Hmax Hblk Hfit Hfresh.
  pose proof (chain_NoDup _ _ _ (dlseg_chain _ _ _ _ _ Hd)) as Hnd.
  apply dlseg_app in Hd as (mid & q & Hd1 & Hd2). simpl in Hd2.
  destruct Hd2 as (-> & Hne & b' & Hb' & Hpv & Hd2).
  rewrite Hb in Hb'. injection Hb' as <-.
  apply NoDup_app in Hnd as (Hnd1 & Hnd12 & Hnd2).
  apply NoDup_cons in Hnd2 as [Hb2 Hnd2].
  assert (Hb1 : block ∉ l1) by (intros Hin; apply (Hnd12 _ Hin); by left).
  assert (Hf1 : block + sizeof_block_header + sz ∉ l1)
    by (intros Hin; apply Hfresh, elem_of_app; by left).
  assert (Hf2 : block + sizeof_block_header + sz ∉ l2)
    by (intros Hin; apply Hfresh, elem_of_app; by right).
  assert (Hsz32 : sizeof_block_header = 32) by reflexivity.
  assert (Hmin : MIN_SPLIT_SIZE = 32) by reflexivity.
  assert (Hptr : size_t (block + sizeof_block_header) = block + sizeof_block_header)
    by (apply size_t_small; lia).
  assert (Hres : size_t (size b - sz) = size b - sz) by (apply size_t_small; lia).
  unfold take_block. rewrite Hseg. cbn [mbind outcome_bind].
  destruct (decide (MIN_SPLIT_SIZE + sizeof_block_header <= size b - sz)) as [Hsplit|Hwhole].
  - (* the block is split *)
    set (new_block := block + sizeof_block_header + sz) in *.
    assert (Hnew : new_block = size_t (block + sizeof_block_header + sz))
      by (symmetry; apply size_t_small; unfold new_block; lia).
    assert (Hmid : l1 = [] ∧ mid = 0 ∨ mid ∈ l1).
    { destruct l1 as [|a l1]; [left; by destruct Hd1 as [_ ->]|].
      right. eapply dlseg_last_in; eauto. }
    assert (Hnx : l2 = [] ∧ next b = 0 ∨ next b ∈ l2) by (eapply dlseg_head; eauto).
    assert (Hmid0 : mid ∈ l1 → mid ≠ 0) by (eapply dlseg_nonzero; eauto).
    assert (Hnx0 : next b ∈ l2 → next b ≠ 0) by (eapply dlseg_nonzero; eauto).
    destruct (split_block_split (heap st) seg block sz b Hb Hne Hsz
                ltac:(rewrite Hres; done) new_block Hnew)
      as (m' & Hrun & Hmn & Hmb & Hmx & Hmp & Hmo').
    { unfold new_block. lia. }
    { unfold new_block. lia. }
    { destruct Hnx as [[_ ->]|Hin]; [unfold new_block; lia|congruence]. }
    { rewrite Hpv. destruct Hmid as [[_ ->]|Hin]; [unfold new_block; lia|congruence]. }
    { rewrite Hpv. destruct Hmid as [[_ ->]|Hin]; [done|congruence]. }
    { destruct Hnx as [[_ ->]|Hin]; [done|congruence]. }
    { destruct Hnx as [[_ ->]|Hin]; [by left|right].
      rewrite Hpv. destruct Hmid as [[_ ->]|Hin']; [by apply Hnx0|].
      intros Heq. apply (Hnd12 _ Hin'). right. by rewrite <- Heq. }
    assert (Hmo : ∀ a, a ≠ new_block → a ≠ block → a ≠ next b → a ≠ prev b →
                       m' !! a = heap st !! a) by (intros; apply Hmo'; auto).
    clear Hmo'.
    rewrite Hrun. cbn [mbind outcome_bind].
    rewrite assign_Ok by done. cbn [mbind outcome_bind]. rewrite Hptr.
    rewrite Hmb. cbn [default from_option id set_free size next prev free segment_id].
    eexists _, _. split; [reflexivity|].
    split; [eapply segment_at_with_segment; eauto|].
    cbn [heap with_segment with_heap].
    rewrite lookup_insert_ne by (unfold new_block; lia).
    rewrite lookup_insert_eq.
    split; [rewrite Hmn; do 2 f_equal; apply size_t_small; lia|].
    split; [done|]. split.
    + (* the tail has the block's place in the list *)
      assert (Hkeep : ∀ a, a ≠ new_block → a ≠ block →
                <[block := mk_block_header sz new_block (prev b) FALSE (segment_id b)]> m' !! a
                = m' !! a) by (intros; by rewrite lookup_insert_ne).
      exists (if decide (l2 = []) then new_block else lst).
      apply dlseg_app. exists mid, new_block. split.
      * replace (free_list (if decide (free_list seg = block)
                            then set_free_list new_block seg else seg))
          with (if decide (l1 = []) then new_block else free_list seg).
        2:{ destruct l1 as [|a l1].
            - destruct Hd1 as [-> _]. by rewrite !decide_True.
            - destruct Hd1 as (Heq & _).
              rewrite (decide_False (P := a :: l1 = [])) by done.
              rewrite decide_False; [done|].
              rewrite Heq. intros ->. apply Hb1. by left. }
        eapply (dlseg_retarget (heap st)); [done| | |exact Hd1].
        -- intros a Hin Hnl. rewrite Hkeep by congruence.
           apply Hmo; try congruence.
           destruct Hnx as [[_ ->]|Hin2];
             [exact (dlseg_nonzero _ _ _ _ _ _ _ Hd1 Hin)|].
           intros Heq. apply (Hnd12 _ Hin). right. by rewrite Heq.
        -- intros h Hl1 Hh.
           destruct Hmid as [[? _]|Hin]; [done|].
           rewrite Hkeep by congruence.
           rewrite <- Hpv, Hmp by (rewrite Hpv; auto).
           by rewrite Hpv, Hh.
      * simpl. split; [done|]. split; [unfold new_block; lia|].
        eexists. split; [rewrite lookup_insert_ne by (unfold new_block; lia); exact Hmn|].
        cbn [prev next]. split; [done|].
        destruct l2 as [|x l2].
        -- destruct Hd2 as [-> _]. by rewrite decide_True.
        -- rewrite decide_False by done.
           destruct Hd2 as (Hx & Hx0 & hx & Hhx & Hpx & Hd2).
           apply NoDup_cons in Hnd2 as [Hx2 Hnd2'].
           simpl. split; [done|]. split; [done|].
           exists (set_prev new_block hx).
           assert (Hxn : x ≠ new_block) by (intros ->; apply Hf2; by left).
           assert (Hxb : x ≠ block) by (intros ->; apply Hb2; by left).
           split.
           { rewrite Hkeep by done.
             rewrite <- Hx in Hhx. rewrite <- Hx, Hmx by congruence.
             by rewrite Hhx. }
           split; [done|]. cbn [next set_prev].
           eapply dlseg_frame; [|exact Hd2].
           intros a h Hin Hh. exists h. split; [|done].
           rewrite Hkeep.
           ++ rewrite Hmo; [done| | | |].
              ** intros ->. apply Hf2. by right.
              ** intros ->. apply Hb2. by right.
              ** rewrite Hx. by intros ->.
              ** rewrite Hpv. destruct Hmid as [[_ ->]|Hin1].
                 --- exact (dlseg_nonzero _ _ _ _ _ _ _ Hd2 Hin).
                 --- intros ->. apply (Hnd12 _ Hin1). do 2 right. done.
           ++ intros ->. apply Hf2. by right.
           ++ intros ->. apply Hb2. by right.
    + (* the block is off the list *)
      rewrite elem_of_app, elem_of_cons. intros [?|[?|?]]; try done.
      unfold new_block in *. lia.
  - (* the block is handed out whole *)
    rewrite (split_block_whole _ _ _ _ _ Hb Hne Hsz) by (rewrite Hres; lia).
    cbn [mbind outcome_bind].
    rewrite assign_Ok by done. cbn [mbind outcome_bind]. rewrite Hptr, Hb.
    cbn [default from_option id].
    eexists _, _. split; [reflexivity|].
    split; [eapply segment_at_with_segment; eauto|].
    cbn [heap with_segment with_heap]. split; [done|]. split; [done|].
    exists lst. apply dlseg_app. exists mid, block.
    assert (Hframe : ∀ (l : list Z) a h, a ∈ l → heap st !! a = Some h →
              ∃ h', <[block := set_free FALSE b]> (heap st) !! a = Some h' ∧
                    next h' = next h ∧ prev h' = prev h).
    { intros l a h _ Hh. destruct (decide (a = block)) as [->|Hab].
      - rewrite lookup_insert_eq. eexists. split; [done|].
        rewrite Hb in Hh. injection Hh as <-. done.
      - rewrite lookup_insert_ne by done. eauto. }
    split; [eapply dlseg_frame; [apply Hframe|done]|].
    eapply dlseg_frame; [apply Hframe|].
    simpl. split; [done|]. split; [done|]. eauto.
Qed.

(** * Concrete runs *)

(** C4, counterexample: the first call, for 5242816 bytes, is served from the
    initial block of segment 0, whose 5242848 bytes leave a residual of 32,
    less than MIN_SPLIT_SIZE + sizeof(header).  The block is handed out
    whole, marked allocated, and it is still the head of the free list. *)
Lemma whole_block_stays_linked :
  ∃ p st b,
    my_malloc host0 whole_block_request startup = Ok (p, st) ∧
    p = host_region host0 + sizeof_block_header ∧
    heap st !! (p - sizeof_block_header) = Some b ∧
    size b - whole_block_request < MIN_SPLIT_SIZE + sizeof_block_header ∧
    free b = FALSE ∧
    free_list_blocks (heap st) (segment0 st) = Some [p - sizeof_block_header].
Proof.
  eexists _, _, _. split; [vm_compute; reflexivity|].
  repeat split; vm_compute; congruence.
Qed.

(** C8, counterexample: in the state reached by that call, the free list of
    segment 0 holds the block at the start of the segment, whose size is
    at least 64, and find_best_fit returns NULL for a request of 64: the
    block is skipped because it is not marked free. *)
Lemma find_best_fit_skips_allocated :
  let st := state_after host0 [Malloc whole_block_request] in
  let m := heap st in
  let fl := free_list (segment0 st) in
  chain m fl [fl] ∧
  (∃ b, m !! fl = Some b ∧ fits 64 b = true) ∧
  find_best_fit m fl 64 = Ok 0 ∧
  ¬ first_smallest (fits 64) m [fl] 0.
Proof.
  intros st m fl.
  assert (Hb : m !! fl = Some (mk_block_header 5242848 0 0 FALSE 0))
    by (vm_compute; reflexivity).
  assert (Hfl : fl ≠ 0) by (vm_compute; congruence).
  assert (Hf : find_best_fit m fl 64 = Ok 0) by (vm_compute; reflexivity).
  clearbody m fl. clear st.
  split; [|split; [|split]].
  - cbn [chain]. split; [done|]. split; [done|].
    eexists. split; [exact Hb|]. reflexivity.
  - eexists. split; [exact Hb|]. reflexivity.
  - exact Hf.
  - intros [[_ Hnone]|[Hne _]]; [|done].
    specialize (Hnone fl _ ltac:(by left) Hb). discriminate.
Qed.


(* After one allocation and its release, the block at the start of
   segment 0 spans the whole segment and is free, while the free list still
   holds the header of the former tail, 96 bytes into that block. *)
Lemma released_block_not_relisted :
  let st := state_after host0 [Malloc 64; Free 0%nat] in
  segment_blocks (heap st) (segment0 st) = Some [start_ptr (segment0 st)] ∧
  is_free (heap st) (start_ptr (segment0 st)) = true ∧
  free_list_blocks (heap st) (segment0 st) = Some [start_ptr (segment0 st) + 96].
Proof. intros st. repeat split; vm_compute; reflexivity. Qed.

(* After four allocations of 5242000 bytes, each released at once, every
   small segment is one free block again and nothing is live; yet a request
   for 1000 bytes is refused after four timed waits: each free list still
   holds only the 816-byte tail that was split off. *)
Lemma released_memory_is_not_reused :
  let st := state_after host0
              [Malloc 5242000; Free 0%nat; Malloc 5242000; Free 1%nat;
               Malloc 5242000; Free 2%nat; Malloc 5242000; Free 3%nat] in
  map (λ seg, (segment_blocks (heap st) seg, is_free (heap st) (start_ptr seg),
               free_list_blocks (heap st) seg))
      (take 4 (default [] (segments st)))
  = [(Some [4096], true, Some [5246128]);
     (Some [5246976], true, Some [10489008]);
     (Some [10489856], true, Some [15731888]);
     (Some [15732736], true, Some [20974768])] ∧
  ∃ st', my_malloc host0 1000 st = Ok (0, st') ∧ length (waits st') = 4%nat.
Proof.
  intros st. split; [vm_compute; reflexivity|].
  eexists. split; [vm_compute; reflexivity|]. vm_compute. reflexivity.
Qed.

(** ** Instances of the general statements *)

Lemma wait_deadline_is_start_time_witness :
  ∃ st',
    wait_for_free_block host0 0 6000000 (fresh host0) = Ok (0, st') ∧
    (waits st' = waits (fresh host0) ∨
     (0 = 0 ∧ waits st' = mk_timespec (host_time host0) 0 :: waits (fresh host0))).
Proof.
  eexists. split; [vm_compute; reflexivity|].
  apply (wait_deadline_is_start_time host0 0 6000000 (fresh host0)).
  vm_compute. reflexivity.
Defined.

Lemma my_malloc_after_teardown_witness :
  let st := state_after host0 [Malloc 128; Free 0%nat] in
  ∃ st',
    initialized st = TRUE ∧
    free_base_memory st = Ok st' ∧
    0 < 128 ∧
    initialized st' = TRUE ∧ my_malloc host0 128 st' = Undefined.
Proof.
  intros st.
  assert (Hi : initialized st = TRUE) by (vm_compute; reflexivity).
  assert (Hf : ∃ st', free_base_memory st = Ok st')
    by (eexists; vm_compute; reflexivity).
  clearbody st. destruct Hf as [st' Hf].
  exists st'. split; [exact Hi|]. split; [exact Hf|]. split; [lia|].
  apply (my_malloc_after_teardown host0 128 st st'); [exact Hi|exact Hf|lia].
Defined.


Lemma find_best_fit_first_smallest_free_witness :
  ∃ b,
    find_best_fit (heap (fresh host0)) 4096 64 = Ok b ∧
    (b = 0 ↔ ∀ a h, a ∈ [4096] → heap (fresh host0) !! a = Some h →
               ¬ (free h = true ∧ 64 <= size h)) ∧
    (b ≠ 0 →
     ∃ (i : nat) hb,
       [4096] !! i = Some b ∧ heap (fresh host0) !! b = Some hb ∧
       free hb = true ∧ 64 <= size hb ∧
       ∀ (j : nat) a h,
         [4096] !! j = Some a → heap (fresh host0) !! a = Some h →
         free h = true → 64 <= size h →
         size hb <= size h ∧ ((j < i)%nat → size hb < size h)).
Proof.
  assert (Hb : heap (fresh host0) !! 4096 = Some (mk_block_header 5242848 0 0 TRUE 0))
    by (vm_compute; reflexivity).
  apply (find_best_fit_first_smallest_free (heap (fresh host0)) 4096 [4096] 64); [lia|].
  cbn [chain]. split; [reflexivity|]. split; [lia|].
  exists (mk_block_header 5242848 0 0 TRUE 0). split; [exact Hb|reflexivity].
Defined.

Lemma take_block_effect_witness :
  ∃ st' seg',
    take_block 0 4096 64 (fresh host0) = Ok (4096 + sizeof_block_header, st') ∧
    segment_at st' 0 = Ok seg' ∧
    heap st' !! 4096 = Some (mk_block_header 64 4192 0 FALSE 0) ∧
    heap st' !! 4192 = Some (mk_block_header 5242752 0 0 TRUE 0) ∧
    free_list_is (heap st') seg' [4192].
Proof.
  assert (Hb : heap (fresh host0) !! 4096 = Some (mk_block_header 5242848 0 0 TRUE 0))
    by (vm_compute; reflexivity).
  destruct (take_block_effect (fresh host0) 0 (mk_segment 5242880 4096 4096) 4096 64
              (mk_block_header 5242848 0 0 TRUE 0) [] [])
    as (st' & seg' & Hrun & Hseg & Hrest).
  - vm_compute. reflexivity.
  - exists 4096. cbn [app dlseg free_list]. split; [reflexivity|]. split; [lia|].
    eexists. split; [exact Hb|]. cbn [prev next]. repeat split; reflexivity.
  - exact Hb.
  - cbn [size]. lia.
  - cbn [size]. unfold SIZE_MAX. lia.
  - lia.
  - unfold sizeof_block_header, SIZE_MAX. lia.
  - cbn [app]. apply not_elem_of_nil.
  - rewrite decide_True in Hrest
      by (cbn [size]; unfold MIN_SPLIT_SIZE, sizeof_block_header; lia).
    destruct Hrest as (Hn & Hbk & Hfl & _).
    exists st', seg'. repeat split; assumption.
Defined.

(** * The footprint of a request *)




(** * Reachable states *)

Lemma geometry_lookup (b : Z) (segs : list segment) (i : nat) (seg : segment) :
  same_geometry b segs → segs !! i = Some seg →
  (i < 5)%nat ∧
  start_ptr seg = b + Z.of_nat i * 5242880 ∧
  seg_size seg = (if decide (i < 4)%nat then 5242880 else 83886080).
Proof.
  intros Hg Hi. unfold same_geometry, initial_segments in Hg.
  repeat match goal with
         | H : Forall2 _ _ (_ :: _) |- _ =>
             apply Forall2_cons_inv_r in H as (? & ? & [? ?] & ? & ->)
         | H : Forall2 _ _ [] |- _ => apply Forall2_nil_inv_r in H as ->
         end.
  destruct i as [|[|[|[|[|i]]]]]; cbn in Hi; try discriminate;
    injection Hi as <-; cbn [seg_size start_ptr] in *;
    (split; [lia|]); split; try lia; done.
Qed.

Lemma geometry_insert (b : Z) (segs : list segment) (i : nat) (seg : segment) (v : Z) :
  same_geometry b segs → segs !! i = Some seg →
  same_geometry b (<[i := set_free_list v seg]> segs).
Proof.
  intros Hg Hi. unfold same_geometry.
  rewrite <- (list_insert_id (initial_segments b) i
                (default seg (initial_segments b !! i))).
  - apply Forall2_insert; [done|].
    destruct (initial_segments b !! i) as [s0|] eqn:Hs0.
    + cbn [default set_free_list seg_size start_ptr].
      eapply Forall2_lookup_lr in Hg; eauto.
    + apply lookup_ge_None in Hs0. apply Forall2_length in Hg.
      apply lookup_lt_Some in Hi. lia.
  - destruct (initial_segments b !! i) as [s0|] eqn:Hs0; [done|].
    apply lookup_ge_None in Hs0. apply Forall2_length in Hg.
    apply lookup_lt_Some in Hi. lia.
Qed.

Lemma assign_inv (m m' : memory) (p : Z) (f : block_header → block_header) :
  assign m p f = Ok m' →
  p ≠ 0 ∧ m' = <[p := f (default indeterminate (m !! p))]> m.
Proof.
  unfold assign. destruct (decide (p = 0)); [done|]. by intros [= <-].
Qed.

Lemma assign_is_Some (m m' : memory) (p x : Z) (f : block_header → block_header) :
  assign m p f = Ok m' → is_Some (m !! x) → is_Some (m' !! x).
Proof.
  intros [_ ->]%assign_inv Hx. apply lookup_insert_is_Some'. by right.
Qed.

Lemma heap_inv_update (segs : list segment) (m : memory) (p : Z) (h h' : block_header) :
  heap_inv segs m → m !! p = Some h →
  (is_head segs p → next h' = next h ∧ size h' = size h) →
  ¬ is_head segs (prev h') →
  (prev h' = 0 ∨ is_Some (m !! prev h')) →
  (next h' = 0 ∨ is_Some (m !! next h')) →
  heap_inv segs (<[p := h']> m).
Proof.
  intros [Hheads Hplace Hprev Hclosed] Hp Hhead Hpv Hcp Hcn.
  assert (Hsome : ∀ x, is_Some (m !! x) → is_Some (<[p := h']> m !! x))
    by (intros x Hx; apply lookup_insert_is_Some'; by right).
  split.
  - intros i seg Hi. destruct (Hheads i seg Hi) as (hd & Hhd & Hn & Hs & Hlo & Hend).
    destruct (decide (free_list seg = p)) as [Heq|Hne].
    + rewrite Heq, lookup_insert_eq. exists h'.
      rewrite Heq, Hp in Hhd. injection Hhd as <-.
      destruct Hhead as [Hn' Hs']; [by exists i, seg|].
      rewrite Hn', Hs', <- Heq. done.
    + rewrite lookup_insert_ne by done. eauto 10.
  - intros a ha Ha. destruct (decide (a = p)) as [->|Hne].
    + eapply Hplace; eauto.
    + rewrite lookup_insert_ne in Ha by done. eapply Hplace; eauto.
  - intros a ha Ha. destruct (decide (a = p)) as [->|Hne].
    + rewrite lookup_insert_eq in Ha. injection Ha as <-. done.
    + rewrite lookup_insert_ne in Ha by done. eapply Hprev; eauto.
  - intros a ha Ha. destruct (decide (a = p)) as [->|Hne].
    + rewrite lookup_insert_eq in Ha. injection Ha as <-.
      split; [destruct Hcp|destruct Hcn]; auto.
    + rewrite lookup_insert_ne in Ha by done.
      destruct (Hclosed _ _ Ha) as [[?|?] [?|?]]; split; auto.
Qed.

Ltac heap_inv_field :=
  first
    [ done
    | eapply inv_prev; eauto; fail
    | eapply inv_closed; eauto; fail ].

Lemma heap_inv_set_free segs m m' p v :
  heap_inv segs m → is_Some (m !! p) → assign m p (set_free v) = Ok m' →
  heap_inv segs m'.
Proof.
  intros Hinv [h Hp] [_ ->]%assign_inv. rewrite Hp. cbn [default from_option id].
  eapply heap_inv_update; eauto; cbn [set_free prev next size]; heap_inv_field.
Qed.

Lemma heap_inv_set_segment_id segs m m' p v :
  heap_inv segs m → is_Some (m !! p) → assign m p (set_segment_id v) = Ok m' →
  heap_inv segs m'.
Proof.
  intros Hinv [h Hp] [_ ->]%assign_inv. rewrite Hp. cbn [default from_option id].
  eapply heap_inv_update; eauto; cbn [set_segment_id prev next size]; heap_inv_field.
Qed.

Lemma heap_inv_set_size segs m m' p v :
  heap_inv segs m → is_Some (m !! p) → ¬ is_head segs p →
  assign m p (set_size v) = Ok m' → heap_inv segs m'.
Proof.
  intros Hinv [h Hp] Hnh [_ ->]%assign_inv. rewrite Hp. cbn [default from_option id].
  eapply heap_inv_update; eauto; cbn [set_size prev next size]; heap_inv_field.
Qed.

Lemma heap_inv_set_next segs m m' p v :
  heap_inv segs m → is_Some (m !! p) → ¬ is_head segs p →
  (v = 0 ∨ is_Some (m !! v)) →
  assign m p (set_next v) = Ok m' → heap_inv segs m'.
Proof.
  intros Hinv [h Hp] Hnh Hv [_ ->]%assign_inv. rewrite Hp. cbn [default from_option id].
  eapply heap_inv_update; eauto; cbn [set_next prev next size]; heap_inv_field.
Qed.

Lemma heap_inv_set_prev segs m m' p v :
  heap_inv segs m → is_Some (m !! p) → ¬ is_head segs v →
  (v = 0 ∨ is_Some (m !! v)) →
  assign m p (set_prev v) = Ok m' → heap_inv segs m'.
Proof.
  intros Hinv [h Hp] Hnh Hv [_ ->]%assign_inv. rewrite Hp. cbn [default from_option id].
  eapply heap_inv_update; eauto; cbn [set_prev prev next size]; heap_inv_field.
Qed.

(* A block whose [next] link is set is not a head. *)
Lemma linked_not_head segs m a h :
  heap_inv segs m → m !! a = Some h → next h ≠ 0 → ¬ is_head segs a.
Proof.
  intros Hinv Ha Hn (i & seg & Hi & Hfl).
  destruct (inv_heads _ _ Hinv i seg Hi) as (hd & Hhd & Hn0 & _).
  rewrite Hfl, Ha in Hhd. injection Hhd as <-. done.
Qed.

Lemma bind_Ok {A B : Type} (c : outcome A) (k : A → outcome B) (r : B) :
  c ≫= k = Ok r → ∃ a, c = Ok a ∧ k a = Ok r.
Proof. destruct c as [a| | |]; cbn; try done. eauto. Qed.

Lemma merge_blocks_inv (segs : list segment) (m m' : memory) (block1 block2 : Z) :
  heap_inv segs m → ¬ is_head segs block1 →
  merge_blocks m block1 block2 = Ok m' → heap_inv segs m'.
Proof.
  intros Hinv Hnh Hrun. unfold merge_blocks in Hrun.
  apply bind_Ok in Hrun as (_ & _ & Hrun).
  apply bind_Ok in Hrun as (_ & _ & Hrun).
  apply bind_Ok in Hrun as (b1 & Hb1%deref_Ok & Hrun).
  apply bind_Ok in Hrun as (b2 & Hb2%deref_Ok & Hrun).
  apply bind_Ok in Hrun as (_ & _ & Hrun).
  apply bind_Ok in Hrun as (_ & _ & Hrun).
  apply bind_Ok in Hrun as (m1 & Hm1 & Hrun).
  assert (Hinv1 : heap_inv segs m1).
  { destruct (decide (prev b2 = 0)); [by injection Hm1 as <-|].
    destruct (inv_closed _ _ Hinv _ _ Hb2) as [[?|?] ?]; [done|].
    eapply heap_inv_set_next; [exact Hinv|done| |done|exact Hm1].
    eapply inv_prev; eauto. }
  clear Hm1 Hinv Hb1 Hb2 b1 b2.
  apply bind_Ok in Hrun as (b2 & Hb2%deref_Ok & Hrun).
  apply bind_Ok in Hrun as (m2 & Hm2 & Hrun).
  assert (Hinv2 : heap_inv segs m2).
  { destruct (decide (next b2 = 0)); [by injection Hm2 as <-|].
    destruct (inv_closed _ _ Hinv1 _ _ Hb2) as [? [?|?]]; [done|].
    eapply heap_inv_set_prev; [exact Hinv1|done| |done|exact Hm2].
    eapply inv_prev; eauto. }
  clear Hm2 Hinv1 Hb2 b2 m1.
  apply bind_Ok in Hrun as (b1 & Hb1%deref_Ok & Hrun).
  apply bind_Ok in Hrun as (b2 & Hb2%deref_Ok & Hrun).
  apply bind_Ok in Hrun as (m3 & Hm3 & Hrun).
  assert (Hinv3 : heap_inv segs m3)
    by (eapply (heap_inv_set_size segs m2 m3 block1); [exact Hinv2|eauto|done|exact Hm3]).
  assert (Hs3 : is_Some (m3 !! block1)) by (eapply assign_is_Some; eauto).
  clear Hm3 Hinv2 Hb1 Hb2 b1 b2 m2.
  apply bind_Ok in Hrun as (b2 & Hb2%deref_Ok & Hrun).
  apply bind_Ok in Hrun as (m4 & Hm4 & Hrun).
  assert (Hinv4 : heap_inv segs m4).
  { eapply (heap_inv_set_next segs m3 m4 block1); [exact Hinv3|done|done| |exact Hm4].
    eapply inv_closed; eauto. }
  assert (Hs4 : is_Some (m4 !! block1)) by (eapply assign_is_Some; eauto).
  clear Hm4 Hinv3 Hb2 b2 Hs3 m3.
  apply bind_Ok in Hrun as (b2 & Hb2%deref_Ok & Hrun).
  destruct (decide (next b2 = 0)); [by injection Hrun as <-|].
  destruct (inv_closed _ _ Hinv4 _ _ Hb2) as [? [?|?]]; [done|].
  eapply heap_inv_set_prev; [exact Hinv4|done|done| |exact Hrun].
  by right.
Qed.

Lemma my_free_ready (H : host) (ptr : Z) (st st' : allocator) :
  ready H st → my_free ptr st = Ok st' → ready H st'.
Proof.
  intros (Hb0 & Hi & Hl & segs & Hs & Hg & Hinv) Hrun. unfold my_free in Hrun.
  destruct (decide (ptr = 0)); [injection Hrun as <-; by repeat split; eauto|].
  rewrite Hl in Hrun. cbn [negb] in Hrun.
  set (hdr := size_t (ptr - sizeof_block_header)) in *. clearbody hdr.
  apply bind_Ok in Hrun as (h & Hh%deref_Ok & Hrun).
  apply bind_Ok in Hrun as (_ & _ & Hrun).
  apply bind_Ok in Hrun as (m1 & Hm1 & Hrun).
  assert (Hinv1 : heap_inv segs m1) by (eapply heap_inv_set_free; eauto).
  clear Hm1 Hh h Hinv.
  apply bind_Ok in Hrun as (h & Hh%deref_Ok & Hrun).
  apply bind_Ok in Hrun as (c & Hc & Hrun).
  apply bind_Ok in Hrun as ([m2 hdr2] & Hm2 & Hrun).
  assert (Hinv2 : heap_inv segs m2).
  { destruct c.
    - apply bind_Ok in Hm2 as (m' & Hm' & Hm2).
      apply bind_Ok in Hm2 as (h' & _ & Hm2). injection Hm2 as <- <-.
      eapply merge_blocks_inv; [exact Hinv1| |exact Hm'].
      eapply inv_prev; eauto.
    - by injection Hm2 as <- <-. }
  clear Hm2 Hc c Hh h Hinv1 m1.
  apply bind_Ok in Hrun as (h & Hh%deref_Ok & Hrun).
  apply bind_Ok in Hrun as (c & Hc & Hrun).
  apply bind_Ok in Hrun as (m3 & Hm3 & Hrun). injection Hrun as <-.
  split; [exact Hb0|]. split; [exact Hi|]. split; [exact Hl|]. exists segs.
  split; [exact Hs|]. split; [exact Hg|]. cbn [heap with_heap].
  destruct c; [|by injection Hm3 as <-].
  destruct (decide (next h = 0)) as [|Hn]; [by injection Hc|].
  eapply merge_blocks_inv; [exact Hinv2| |exact Hm3].
  eapply linked_not_head; eauto.
Qed.

(* The blocks of a segment lie between its start and its end. *)
Lemma head_in_segment (b : Z) (segs : list segment) (m : memory) (i : nat) (seg : segment) :
  same_geometry b segs → heap_inv segs m → segs !! i = Some seg →
  start_ptr seg <= free_list seg ∧
  free_list seg + sizeof_block_header <= start_ptr seg + seg_size seg.
Proof.
  intros Hg Hinv Hi.
  destruct (inv_heads _ _ Hinv i seg Hi) as (h & _ & _ & Hs & Hlo & Hend). lia.
Qed.

(* Two segments do not share an address. *)
Lemma segments_apart (b : Z) (segs : list segment) (i j : nat) (si sj : segment) (x y : Z) :
  same_geometry b segs → segs !! i = Some si → segs !! j = Some sj → i ≠ j →
  start_ptr si <= x < start_ptr si + seg_size si →
  start_ptr sj <= y < start_ptr sj + seg_size sj →
  x ≠ y.
Proof.
  intros Hg Hi Hj Hne Hx Hy.
  destruct (geometry_lookup _ _ _ _ Hg Hi) as (Hi5 & Hsi & Hzi).
  destruct (geometry_lookup _ _ _ _ Hg Hj) as (Hj5 & Hsj & Hzj).
  destruct (decide (i < 4)%nat); destruct (decide (j < 4)%nat); lia.
Qed.

(* An address above the head of its segment holds no header. *)
Lemma above_head_fresh (b : Z) (segs : list segment) (m : memory) (i : nat)
    (seg : segment) (a : Z) :
  same_geometry b segs → heap_inv segs m → segs !! i = Some seg →
  free_list seg < a < start_ptr seg + seg_size seg →
  m !! a = None.
Proof.
  intros Hg Hinv Hi Ha.
  destruct (m !! a) as [h|] eqn:Hm; [exfalso|done].
  destruct (inv_place _ _ Hinv _ _ Hm) as (j & sj & Hj & Hlo & Hhi).
  destruct (decide (i = j)) as [->|Hne].
  - rewrite Hi in Hj. injection Hj as <-. lia.
  - pose proof (head_in_segment _ _ _ _ _ Hg Hinv Hi) as [Hi1 Hi2].
    pose proof (head_in_segment _ _ _ _ _ Hg Hinv Hj) as [Hj1 Hj2].
    eapply (segments_apart b segs i j seg sj a a); eauto;
      unfold sizeof_block_header in *; lia.
Qed.

Lemma heads_apart (b : Z) (segs : list segment) (m : memory) (i j : nat)
    (si sj : segment) :
  same_geometry b segs → heap_inv segs m →
  segs !! i = Some si → segs !! j = Some sj → i ≠ j →
  free_list si ≠ free_list sj.
Proof.
  intros Hg Hinv Hi Hj Hne.
  pose proof (head_in_segment _ _ _ _ _ Hg Hinv Hi) as [Hi1 Hi2].
  pose proof (head_in_segment _ _ _ _ _ Hg Hinv Hj) as [Hj1 Hj2].
  eapply (segments_apart b segs i j si sj); eauto;
    unfold sizeof_block_header in *; lia.
Qed.

Lemma segment_start_positive (H : host) (segs : list segment) (i : nat) (seg : segment) :
  host_ok H → host_region H ≠ 0 → same_geometry (host_region H) segs →
  segs !! i = Some seg →
  0 < start_ptr seg ∧ start_ptr seg + seg_size seg <= SIZE_MAX.
Proof.
  intros [Hlo Hhi] Hb Hg Hi.
  destruct (geometry_lookup _ _ _ _ Hg Hi) as (Hi5 & Hs & Hz).
  unfold TOTAL_SIZE in *. destruct (decide (i < 4)%nat); lia.
Qed.

(* The invariant after the head of segment [n] has been split: the tail
   header at [new] becomes the head. *)
Lemma heap_inv_split (b : Z) (segs : list segment) (m m2 : memory) (n : nat)
    (seg : segment) (h : block_header) (new sz2 : Z) :
  same_geometry b segs → heap_inv segs m → segs !! n = Some seg →
  m !! free_list seg = Some h →
  0 < start_ptr seg → free_list seg < new → 0 <= sz2 →
  new + sizeof_block_header + sz2 = start_ptr seg + seg_size seg →
  (∃ hn, m2 !! new = Some hn ∧ next hn = 0 ∧ size hn = sz2 ∧ prev hn = prev h) →
  (∃ hb, m2 !! free_list seg = Some hb ∧ next hb = new ∧ prev hb = prev h) →
  (prev h ≠ 0 → ∃ hp, m !! prev h = Some hp ∧ m2 !! prev h = Some (set_next new hp)) →
  (∀ a, a ≠ new → a ≠ free_list seg → (prev h ≠ 0 → a ≠ prev h) → m2 !! a = m !! a) →
  heap_inv (<[n := set_free_list new seg]> segs) m2.
Proof.
  intros Hg Hinv Hn Hh Hpos Hlt Hsz2 Hend (hn & Hnew & Hnn & Hns & Hnp)
    (hb & Hblk & Hbn & Hbp) HP Hother.
  pose proof (head_in_segment _ _ _ _ _ Hg Hinv Hn) as [Hlo _].
  assert (Hfresh : m !! new = None).
  { eapply above_head_fresh; eauto. unfold sizeof_block_header in *. lia. }
  assert (HPnh : ¬ is_head segs (prev h)) by (eapply inv_prev; eauto).
  assert (HPc : prev h = 0 ∨ is_Some (m !! prev h)) by (eapply inv_closed; eauto).
  assert (Hcells : ∀ a ha, m2 !! a = Some ha →
            (prev ha = 0 ∨ is_Some (m !! prev ha)) ∧ ¬ is_head segs (prev ha) ∧
            (next ha = 0 ∨ next ha = new ∨ is_Some (m !! next ha)) ∧
            (a = new ∨ is_Some (m !! a))).
  { intros a ha Ha.
    destruct (decide (a = new)) as [->|Han].
    { rewrite Hnew in Ha. injection Ha as <-. rewrite Hnp, Hnn. auto. }
    destruct (decide (a = free_list seg)) as [->|Hab].
    { rewrite Hblk in Ha. injection Ha as <-. rewrite Hbp, Hbn. eauto 10. }
    destruct (decide (prev h ≠ 0 ∧ a = prev h)) as [[Hp0 ->]|Hap].
    { destruct (HP Hp0) as (hp & Hhp & Hhp2). rewrite Hhp2 in Ha. injection Ha as <-.
      cbn [set_next prev next].
      destruct (inv_closed _ _ Hinv _ _ Hhp) as [? _].
      split; [done|]. split; [eapply inv_prev; eauto|]. eauto. }
    rewrite Hother in Ha by (try done; intros ? ->; apply Hap; done).
    destruct (inv_closed _ _ Hinv _ _ Ha) as [? [?|?]].
    - split; [done|]. split; [eapply inv_prev; eauto|]. eauto.
    - split; [done|]. split; [eapply inv_prev; eauto|]. eauto. }
  assert (Hdom : ∀ x, is_Some (m !! x) → is_Some (m2 !! x)).
  { intros x Hx.
    destruct (decide (x = new)) as [->|Hxn]; [eauto|].
    destruct (decide (x = free_list seg)) as [->|Hxb]; [eauto|].
    destruct (decide (prev h ≠ 0 ∧ x = prev h)) as [[Hp0 ->]|Hxp].
    - destruct (HP Hp0) as (hp & _ & Hhp2). eauto.
    - rewrite Hother; [done|done|done|]. intros ? ->. apply Hxp. done. }
  assert (Hhead : ∀ v, (v = 0 ∨ is_Some (m !! v)) → ¬ is_head segs v →
                       ¬ is_head (<[n := set_free_list new seg]> segs) v).
  { intros v Hv Hnh (k & sk & Hk & Hfl).
    apply list_lookup_insert_Some in Hk as [(-> & <- & _)|[Hkn Hk]].
    - cbn [free_list set_free_list] in Hfl. subst v.
      destruct Hv as [?|[? ?]]; [lia|congruence].
    - apply Hnh. by exists k, sk. }
  split.
  - intros k sk Hk.
    apply list_lookup_insert_Some in Hk as [(-> & <- & _)|[Hkn Hk]].
    + cbn [free_list start_ptr seg_size set_free_list].
      exists hn. rewrite Hnn, Hns. repeat split; try done; lia.
    + destruct (inv_heads _ _ Hinv k sk Hk) as (hk & Hhk & Hrest).
      exists hk. split; [|done]. rewrite Hother; [done| | |].
      * intros Heq. rewrite Heq in Hhk. congruence.
      * eapply heads_apart; eauto.
      * intros _ Heq. apply HPnh. exists k, sk. done.
  - intros a ha Ha.
    destruct (Hcells _ _ Ha) as (_ & _ & _ & [->|[ha' Ha']]).
    + exists n, (set_free_list new seg). split.
      * apply list_lookup_insert_eq. by eapply lookup_lt_Some.
      * cbn [free_list start_ptr set_free_list]. lia.
    + destruct (inv_place _ _ Hinv _ _ Ha') as (j & sj & Hj & Hlo' & Hhi').
      destruct (decide (j = n)) as [->|Hjn].
      * rewrite Hn in Hj. injection Hj as <-.
        exists n, (set_free_list new seg). split.
        -- apply list_lookup_insert_eq. by eapply lookup_lt_Some.
        -- cbn [free_list start_ptr set_free_list]. lia.
      * exists j, sj. split; [|done]. by rewrite list_lookup_insert_ne.
  - intros a ha Ha. destruct (Hcells _ _ Ha) as (Hc & Hnh & _). by apply Hhead.
  - intros a ha Ha. destruct (Hcells _ _ Ha) as (Hc & _ & Hnx & _). split.
    + destruct Hc as [?|?]; [by left|right; by apply Hdom].
    + destruct Hnx as [?|[->|?]]; [by left|right; eauto|right; by apply Hdom].
Qed.

(* Taking the head of a segment's free list for a request that it fits:
   the state stays well formed, the payload starts right after the head's
   header, and either the head moves past the payload or the block is
   handed out whole and its flag is cleared.  The flags of the other heads
   are left alone. *)
Lemma take_head_cases (H : host) (st st' : allocator) (i : Z) (seg : segment)
    (h : block_header) (sz p : Z) :
  host_ok H → ready H st → segment_at st i = Ok seg →
  heap st !! free_list seg = Some h →
  0 < sz → sz + sizeof_block_header <= size h →
  take_block i (free_list seg) sz st = Ok (p, st') →
  ready H st' ∧ p = free_list seg + sizeof_block_header ∧
  ∃ segs,
    segments st = Some segs ∧ segs !! Z.to_nat i = Some seg ∧
    (segments st'
     = Some (<[Z.to_nat i := set_free_list (free_list seg + sizeof_block_header + sz) seg]> segs)
     ∨ (segments st' = Some segs ∧ is_free (heap st') (free_list seg) = false)) ∧
    (∀ (j : nat) sj, segs !! j = Some sj → j ≠ Z.to_nat i →
       is_free (heap st') (free_list sj) = is_free (heap st) (free_list sj)).
Proof.
  intros Hok (Hb0 & Hi & Hl & segs & Hs & Hg & Hinv) Hseg Hh Hsz Hfit Hrun.
  pose proof Hseg as (segs' & Hs' & _ & Hi0 & Hn)%segment_at_Ok.
  rewrite Hs in Hs'. injection Hs' as <-.
  set (n := Z.to_nat i) in *.
  destruct (inv_heads _ _ Hinv n seg Hn) as (h0 & Hh0 & Hnx & Hs0 & Hlo & Hend).
  rewrite Hh in Hh0. injection Hh0 as <-.
  destruct (segment_start_positive H segs n seg Hok Hb0 Hg Hn) as [Hpos Hmax].
  assert (H32 : sizeof_block_header = 32) by reflexivity.
  assert (Hmin : MIN_SPLIT_SIZE = 32) by reflexivity.
  assert (Hres : size_t (size h - sz) = size h - sz) by (apply size_t_small; lia).
  assert (Hptr : size_t (free_list seg + sizeof_block_header)
                 = free_list seg + sizeof_block_header) by (apply size_t_small; lia).
  assert (Hne : free_list seg ≠ 0) by lia.
  assert (HPnh : ¬ is_head segs (prev h)) by (eapply inv_prev; eauto).
  assert (HPc : prev h = 0 ∨ is_Some (heap st !! prev h)) by (eapply inv_closed; eauto).
  assert (Hbp : free_list seg ≠ prev h).
  { intros Heq. apply HPnh. exists n, seg. done. }
  unfold take_block in Hrun. rewrite Hseg in Hrun. cbn [mbind outcome_bind] in Hrun.
  rewrite Hptr in Hrun.
  destruct (decide (MIN_SPLIT_SIZE + sizeof_block_header <= size h - sz)) as [Hsplit|Hwhole].
  - set (new := free_list seg + sizeof_block_header + sz) in *.
    assert (Hnew : new = size_t (free_list seg + sizeof_block_header + sz))
      by (symmetry; apply size_t_small; unfold new; lia).
    assert (Hfresh : heap st !! new = None).
    { eapply above_head_fresh; eauto. unfold new. lia. }
    destruct (split_block_split (heap st) seg (free_list seg) sz h Hh Hne Hsz
                ltac:(rewrite Hres; done) new Hnew)
      as (m' & Hrun' & Hmn & Hmb & _ & Hmp & Hmo).
    { unfold new. lia. }
    { unfold new. lia. }
    { rewrite Hnx. unfold new. lia. }
    { destruct HPc as [->|[hp Hhp]]; [unfold new; lia|congruence]. }
    { done. }
    { rewrite Hnx. done. }
    { by left. }
    rewrite Hrun' in Hrun. cbn [mbind outcome_bind] in Hrun.
    rewrite assign_Ok in Hrun by done. cbn [mbind outcome_bind] in Hrun.
    rewrite Hmb in Hrun. cbn [default from_option id set_free
                              size next prev free segment_id] in Hrun.
    rewrite insert_id in Hrun by done.
    rewrite decide_True in Hrun by done.
    injection Hrun as <- <-.
    split; [|split; [done|]].
    + split; [exact Hb0|]. split; [exact Hi|]. split; [exact Hl|].
      exists (<[n := set_free_list new seg]> segs).
      split; [cbn [segments with_segment with_heap option_map]; by rewrite Hs|].
      split; [by apply geometry_insert|].
      cbn [heap with_segment with_heap].
      eapply (heap_inv_split (host_region H) segs (heap st) m' n seg h new
                (size h - sz - sizeof_block_header));
        [exact Hg|exact Hinv|exact Hn|exact Hh|exact Hpos| | | | | | | ].
      * unfold new. lia.
      * lia.
      * unfold new. lia.
      * eexists. split; [exact Hmn|]. cbn [next size prev].
        split; [done|]. split; [apply size_t_small; lia|done].
      * eexists. split; [exact Hmb|]. done.
      * intros Hp0. destruct HPc as [?|[hp Hhp]]; [done|].
        exists hp. split; [done|]. rewrite (Hmp Hp0), Hhp. done.
      * intros a Ha1 Ha2 Ha3. apply Hmo; [done|done| |done].
        rewrite Hnx. done.
    + exists segs. split; [done|]. split; [done|]. split.
      * left. cbn [segments with_segment with_heap option_map]. by rewrite Hs.
      * intros j sj Hj Hjn. cbn [heap with_segment with_heap]. unfold is_free.
        destruct (inv_heads _ _ Hinv j sj Hj) as (hj & Hhj & _).
        rewrite Hmo; [done| | | |].
        -- intros Heq. rewrite Heq in Hhj. congruence.
        -- eapply heads_apart; eauto.
        -- rewrite Hnx. done.
        -- intros _ Heq. apply HPnh. exists j, sj. done.
  - rewrite (split_block_whole _ _ _ _ _ Hh Hne Hsz) in Hrun by (rewrite Hres; lia).
    cbn [mbind outcome_bind] in Hrun.
    apply bind_Ok in Hrun as (m' & Hm' & Hrun). injection Hrun as <- <-.
    split; [|split; [done|]].
    + split; [exact Hb0|]. split; [exact Hi|]. split; [exact Hl|].
      exists segs. split.
      { cbn [segments with_segment with_heap option_map]. rewrite Hs. cbn.
        by rewrite list_insert_id. }
      split; [exact Hg|]. cbn [heap with_segment with_heap].
      eapply heap_inv_set_free; eauto.
    + apply assign_inv in Hm' as [_ ->]. rewrite Hh.
      cbn [default from_option id].
      exists segs. split; [done|]. split; [done|]. split.
      * right. split.
        -- cbn [segments with_segment with_heap option_map]. rewrite Hs. cbn.
           by rewrite list_insert_id.
        -- cbn [heap with_segment with_heap]. unfold is_free.
           by rewrite lookup_insert_eq.
      * intros j sj Hj Hjn. cbn [heap with_segment with_heap]. unfold is_free.
        rewrite lookup_insert_ne; [done|]. eapply heads_apart; eauto.
Qed.

(* [ready] only looks at the segment array, the headers and two flags. *)
Lemma ready_same (H : host) (st st' : allocator) :
  segments st' = segments st → heap st' = heap st →
  initialized st' = initialized st → host_live st' = host_live st →
  ready H st → ready H st'.
Proof.
  intros Hs Hh Hi Hl (Hb0 & Hi0 & Hl0 & segs & Hs0 & Hg & Hinv).
  split; [done|]. split; [congruence|]. split; [congruence|].
  exists segs. rewrite Hs, Hh. done.
Qed.

Lemma segment_at_same (st st' : allocator) (i : Z) :
  segments st' = segments st → host_live st' = host_live st →
  segment_at st' i = segment_at st i.
Proof. intros Hs Hl. unfold segment_at. by rewrite Hs, Hl. Qed.

(* On a reachable state the search returns NULL or the head of the list. *)
Lemma find_head (H : host) (st : allocator) (i : Z) (seg : segment) (a block : Z) :
  host_ok H → ready H st → segment_at st i = Ok seg → 0 < a →
  find_best_fit (heap st) (free_list seg) a = Ok block →
  block = 0 ∨
  (block = free_list seg ∧
   ∃ hb, heap st !! block = Some hb ∧ free hb = true ∧ a <= size hb).
Proof.
  intros Hok (Hb0 & Hi & Hl & segs & Hs & Hg & Hinv) Hseg Ha Hrun.
  pose proof Hseg as (segs' & Hs' & _ & Hi0 & Hn)%segment_at_Ok.
  rewrite Hs in Hs'. injection Hs' as <-.
  destruct (inv_heads _ _ Hinv _ seg Hn) as (h & Hh & Hnx & Hs0 & Hlo & Hend).
  destruct (segment_start_positive H segs _ seg Hok Hb0 Hg Hn) as [Hpos Hmax].
  assert (Hc : chain (heap st) (free_list seg) [free_list seg]).
  { cbn [chain]. split; [done|]. split; [lia|]. exists h. split; [done|]. done. }
  destruct (find_best_fit_spec _ _ _ a Ha Hc) as (b & Hrun' & Hfs).
  rewrite Hrun in Hrun'. injection Hrun' as <-.
  destruct Hfs as [[-> _]|(_ & k & hb & Hk & Hb & Hfit & _)]; [by left|right].
  destruct k; [|done]. injection Hk as <-. split; [done|].
  exists hb. split; [done|].
  unfold free_and_fits in Hfit. apply andb_true_iff in Hfit as [Hfree Hfit].
  split; [done|]. by apply Z.leb_le.
Qed.

Lemma wait_for_free_block_ready (H : host) (st st' : allocator) (i a block : Z) :
  host_ok H → ready H st → 0 < a →
  wait_for_free_block H i a st = Ok (block, st') →
  ready H st' ∧ heap st' = heap st ∧ segments st' = segments st ∧
  (block = 0 ∨
   ∃ seg hb, segment_at st' i = Ok seg ∧ block = free_list seg ∧
             heap st' !! block = Some hb ∧ free hb = true ∧ a <= size hb).
Proof.
  intros Hok Hr Ha Hrun. unfold wait_for_free_block in Hrun.
  apply bind_Ok in Hrun as (seg & Hseg & Hrun).
  apply bind_Ok in Hrun as (_ & _ & Hrun).
  apply bind_Ok in Hrun as (_ & _ & Hrun).
  apply bind_Ok in Hrun as (b & Hfind & Hrun).
  destruct (find_head H st i seg a b Hok Hr Hseg Ha Hfind)
    as [->|(-> & hb & Hb & Hfree & Hfit)].
  - destruct (negb (0 =? 0) || (TOTAL_SIZE <? a)); injection Hrun as <- <-.
    + split; [done|]. split; [done|]. split; [done|]. by left.
    + split; [by eapply ready_same; [| | | |exact Hr]|].
      split; [done|]. split; [done|]. by left.
  - destruct (negb (free_list seg =? 0) || (TOTAL_SIZE <? a)); injection Hrun as <- <-.
    + split; [done|]. split; [done|]. split; [done|]. right. eauto 10.
    + split; [by eapply ready_same; [| | | |exact Hr]|].
      split; [done|]. split; [done|]. right.
      exists seg, hb. split; [|done].
      rewrite <- Hseg. by apply segment_at_same.
Qed.

Lemma wait_small_segments_ready (H : host) (n : nat) :
  ∀ (st st' : allocator) (i a block j : Z),
    host_ok H → ready H st → 0 < a →
    wait_small_segments H n i a st = Ok (block, j, st') →
    ready H st' ∧ heap st' = heap st ∧ segments st' = segments st ∧
    (block = 0 ∨
     ∃ seg hb, segment_at st' j = Ok seg ∧ block = free_list seg ∧
               heap st' !! block = Some hb ∧ free hb = true ∧ a <= size hb).
Proof.
  induction n as [|n IH]; intros st st' i a block j Hok Hr Ha Hrun.
  - cbn in Hrun. injection Hrun as <- <- <-.
    split; [done|]. split; [done|]. split; [done|]. by left.
  - cbn [wait_small_segments] in Hrun.
    apply bind_Ok in Hrun as ([b st1] & Hw & Hrun).
    destruct (wait_for_free_block_ready H st st1 i a b Hok Hr Ha Hw)
      as (Hr1 & Hh1 & Hs1 & Hb).
    destruct (negb (b =? 0)) eqn:Hnz.
    + injection Hrun as <- <- <-. done.
    + destruct (IH st1 st' (i + 1) a block j Hok Hr1 Ha Hrun) as (Hr2 & Hh2 & Hs2 & Hb2).
      split; [done|]. split; [congruence|]. split; [congruence|]. done.
Qed.

(* The state built by initialization satisfies the invariant. *)
Lemma initial_heap_inv (b : Z) :
  0 < b → heap_inv (initial_segments b) (initial_heap b).
Proof.
  intros Hb.
  assert (Hcell : ∀ a h, initial_heap b !! a = Some h →
            next h = 0 ∧ prev h = 0 ∧
            ∃ (i : nat) seg, initial_segments b !! i = Some seg ∧
                             a = start_ptr seg ∧ a = free_list seg).
  { intros a h Ha. unfold initial_heap in Ha.
    repeat (apply lookup_insert_Some in Ha as [[<- <-]|[_ Ha]];
            [split; [done|]; split; [done|]|]).
    - by exists 4%nat, (mk_segment 83886080 (b + 20971520) (b + 20971520)).
    - by exists 3%nat, (mk_segment 5242880 (b + 15728640) (b + 15728640)).
    - by exists 2%nat, (mk_segment 5242880 (b + 10485760) (b + 10485760)).
    - by exists 1%nat, (mk_segment 5242880 (b + 5242880) (b + 5242880)).
    - by exists 0%nat, (mk_segment 5242880 b b).
    - by rewrite lookup_empty in Ha. }
  assert (Hnh : ¬ is_head (initial_segments b) 0).
  { intros (i & seg & Hi & Hfl).
    destruct i as [|[|[|[|[|i]]]]]; cbn in Hi; try discriminate;
      injection Hi as <-; cbn in Hfl; lia. }
  split.
  - intros i seg Hi.
    destruct i as [|[|[|[|[|i]]]]]; cbn in Hi; try discriminate;
      injection Hi as <-; cbn [free_list start_ptr seg_size];
      eexists; (split; [initial_heap_lookup; reflexivity|]);
      cbn [next size]; unfold sizeof_block_header; lia.
  - intros a h Ha. destruct (Hcell _ _ Ha) as (_ & _ & i & seg & Hi & -> & Hfl).
    exists i, seg. split; [done|]. lia.
  - intros a h Ha. destruct (Hcell _ _ Ha) as (_ & -> & _). done.
  - intros a h Ha. destruct (Hcell _ _ Ha) as (-> & -> & _). split; by left.
Qed.

Lemma actual_size_plain (sz : Z) :
  0 < sz <= SIZE_MAX - sizeof_block_header →
  actual_size sz = sz + sizeof_block_header.
Proof.
  intros Hsz. unfold actual_size. apply size_t_small.
  unfold SIZE_MAX, sizeof_block_header in *. lia.
Qed.

(* What a call to my_malloc does on an initialized state: it fails and
   leaves the headers and the heads alone, or it serves the request from the
   head of one segment, which was free and fits the footprint. *)
Lemma my_malloc_cases (H : host) (sz : Z) (st st' : allocator) (p : Z) :
  host_ok H → 0 < sz <= SIZE_MAX - sizeof_block_header → ready H st →
  my_malloc H sz st = Ok (p, st') →
  ready H st' ∧
  ∃ segs,
    segments st = Some segs ∧
    ((p = 0 ∧ segments st' = Some segs ∧ heap st' = heap st) ∨
     (∃ (n : nat) seg,
        segs !! n = Some seg ∧
        is_free (heap st) (free_list seg) = true ∧
        free_list seg + sizeof_block_header + sz + sizeof_block_header
          <= start_ptr seg + seg_size seg ∧
        p = free_list seg + sizeof_block_header ∧
        (segments st'
         = Some (<[n := set_free_list (free_list seg + sizeof_block_header + sz) seg]> segs)
         ∨ (segments st' = Some segs ∧ is_free (heap st') (free_list seg) = false)) ∧
        (∀ (j : nat) sj, segs !! j = Some sj → j ≠ n →
           is_free (heap st') (free_list sj) = is_free (heap st) (free_list sj)))).
Proof.
  intros Hok Hsz Hr Hrun.
  pose proof Hr as (Hb0 & Hi & Hl & segs & Hs & Hg & Hinv).
  pose proof (actual_size_plain sz Hsz) as Hact.
  assert (Hpos : 0 < actual_size sz) by (rewrite Hact; unfold sizeof_block_header; lia).
  unfold my_malloc in Hrun.
  apply bind_Ok in Hrun as (_ & _ & Hrun).
  destruct (mutexes_destroyed st) eqn:Hmd; [discriminate|].
  rewrite Hi in Hrun. unfold TRUE in Hrun. cbv beta iota zeta in Hrun.
  cbn [negb] in Hrun.
  set (st2 := mk_allocator _ _ _ _ _ _ _ _) in Hrun.
  assert (Hr2 : ready H st2) by (by eapply ready_same; [| | | |exact Hr]).
  assert (Hh2 : heap st2 = heap st) by reflexivity.
  assert (Hs2 : segments st2 = Some segs) by exact Hs.
  clearbody st2.
  assert (Hhit : ∀ st3 seg_id seg3 hb,
            ready H st3 → segments st3 = Some segs →
            (∀ a, is_free (heap st3) a = is_free (heap st) a) →
            segment_at st3 seg_id = Ok seg3 →
            heap st3 !! free_list seg3 = Some hb → free hb = true →
            actual_size sz <= size hb →
            take_block seg_id (free_list seg3) sz st3 = Ok (p, st') →
            ready H st' ∧
            ∃ segs0,
              segments st = Some segs0 ∧
              ((p = 0 ∧ segments st' = Some segs0 ∧ heap st' = heap st) ∨
               (∃ (n : nat) seg,
                  segs0 !! n = Some seg ∧
                  is_free (heap st) (free_list seg) = true ∧
                  free_list seg + sizeof_block_header + sz + sizeof_block_header
                    <= start_ptr seg + seg_size seg ∧
                  p = free_list seg + sizeof_block_header ∧
                  (segments st'
                   = Some (<[n := set_free_list
                                    (free_list seg + sizeof_block_header + sz) seg]> segs0)
                   ∨ (segments st' = Some segs0 ∧
                      is_free (heap st') (free_list seg) = false)) ∧
                  (∀ (j : nat) sj, segs0 !! j = Some sj → j ≠ n →
                     is_free (heap st') (free_list sj)
                     = is_free (heap st) (free_list sj))))).
  { intros st3 seg_id seg3 hb Hr3 Hs3 Hfl3 Hseg3 Hb Hfree Hfit Htake.
    destruct (take_head_cases H st3 st' seg_id seg3 hb sz p Hok Hr3 Hseg3 Hb
                ltac:(lia) ltac:(lia) Htake)
      as (Hr' & Hp & segs3 & Hs3' & Hn3 & Hcase & Hother).
    rewrite Hs3 in Hs3'. injection Hs3' as <-.
    split; [exact Hr'|]. exists segs. split; [exact Hs|]. right.
    exists (Z.to_nat seg_id), seg3.
    pose proof Hr3 as (_ & _ & _ & segs3 & Hs3' & Hg3 & Hinv3).
    rewrite Hs3 in Hs3'. injection Hs3' as <-.
    destruct (inv_heads _ _ Hinv3 _ seg3 Hn3) as (h0 & Hh0 & _ & _ & _ & Hend).
    rewrite Hb in Hh0. injection Hh0 as <-.
    split; [done|]. split.
    { rewrite <- Hfl3. unfold is_free. by rewrite Hb. }
    split; [lia|]. split; [done|]. split; [done|].
    intros j sj Hj Hjn. rewrite (Hother j sj Hj Hjn). apply Hfl3. }
  apply bind_Ok in Hrun as (seg & Hseg & Hrun).
  apply bind_Ok in Hrun as (block & Hfind & Hrun).
  destruct (find_head H st2 _ seg _ block Hok Hr2 Hseg Hpos Hfind)
    as [->|(-> & hb & Hb & Hfree & Hfit)].
  - (* the first search misses: the other segments are tried *)
    cbn [Z.eqb negb] in Hrun.
    apply bind_Ok in Hrun as ([[block seg_id] st3] & Hw & Hrun).
    assert (Hr3 : ready H st3 ∧ heap st3 = heap st2 ∧ segments st3 = segments st2 ∧
              (block = 0 ∨
               ∃ seg3 hb, segment_at st3 seg_id = Ok seg3 ∧ block = free_list seg3 ∧
                          heap st3 !! block = Some hb ∧ free hb = true ∧
                          actual_size sz <= size hb)).
    { destruct (sz <=? LARGE_SIZE).
      - eapply wait_small_segments_ready; eauto.
      - apply bind_Ok in Hw as ([b4 st4] & Hw4 & Hw). injection Hw as <- <- <-.
        eapply wait_for_free_block_ready; eauto. }
    destruct Hr3 as (Hr3 & Hh3 & Hs3 & Hblock).
    destruct (block =? 0) eqn:Hz.
    { injection Hrun as <- <-. split; [done|]. exists segs. split; [done|]. left.
      split; [done|]. split; congruence. }
    apply Z.eqb_neq in Hz.
    destruct Hblock as [?|(seg3 & hb & Hseg3 & -> & Hb & Hfree & Hfit)]; [done|].
    apply bind_Ok in Hrun as (m & Hm & Hrun).
    pose proof Hr3 as (_ & Hi3 & Hl3 & segs3 & Hs3' & Hg3 & Hinv3).
    pose proof Hm as [_ Hmeq]%assign_inv. rewrite Hb in Hmeq.
    cbn [default from_option id] in Hmeq.
    eapply (Hhit (with_heap m st3) seg_id seg3 (set_segment_id seg_id hb));
      [ | | | | | | |exact Hrun].
    + split; [done|]. split; [done|]. split; [done|]. exists segs3.
      split; [done|]. split; [done|]. cbn [heap with_heap].
      eapply heap_inv_set_segment_id; eauto.
    + cbn [segments with_heap]. congruence.
    + intros a. cbn [heap with_heap]. rewrite Hmeq, <- Hh2, <- Hh3. unfold is_free.
      destruct (decide (a = free_list seg3)) as [->|Hne].
      * rewrite lookup_insert_eq, Hb. done.
      * by rewrite lookup_insert_ne.
    + rewrite <- Hseg3. by apply segment_at_same.
    + cbn [heap with_heap]. rewrite Hmeq. by rewrite lookup_insert_eq.
    + done.
    + cbn [size set_segment_id]. done.
  - (* the first search hits *)
    pose proof Hseg as (segs' & Hs' & _ & Hi0 & Hn)%segment_at_Ok.
    pose proof Hr2 as (_ & _ & _ & segs2 & Hs2' & Hg2 & Hinv2).
    rewrite Hs2 in Hs'. injection Hs' as <-.
    rewrite Hs2 in Hs2'. injection Hs2' as <-.
    destruct (segment_start_positive H segs _ seg Hok Hb0 Hg2 Hn) as [Hp0 _].
    pose proof (head_in_segment _ _ _ _ _ Hg2 Hinv2 Hn) as [Hlo _].
    rewrite (proj2 (Z.eqb_neq (free_list seg) 0)) in Hrun by lia.
    cbn [negb] in Hrun.
    eapply (Hhit st2 _ seg hb); [done|done| |done|done|done|done|exact Hrun].
    intros a. by rewrite Hh2.
Qed.

Lemma my_malloc_ready (H : host) (sz : Z) (st st' : allocator) (p : Z) :
  host_ok H → 0 < sz <= SIZE_MAX - sizeof_block_header → ready H st →
  my_malloc H sz st = Ok (p, st') → ready H st'.
Proof.
  intros Hok Hsz Hr Hrun.
  by destruct (my_malloc_cases H sz st st' p Hok Hsz Hr Hrun) as [Hr' _].
Qed.

Lemma my_malloc_unready_cases (H : host) (sz : Z) (st st' : allocator) (p : Z) :
  0 < sz <= SIZE_MAX - sizeof_block_header → unready st →
  my_malloc H sz st = Ok (p, st') →
  (p = 0 ∧ unready st') ∨
  (host_region H ≠ 0 ∧
   my_malloc H sz
     (mk_allocator (host_region H) (Some (initial_segments (host_region H)))
        (initial_heap (host_region H)) true (current_segment st) TRUE
        (waits st) (mutexes_destroyed st)) = Ok (p, st')).
Proof.
  intros Hsz (Hi & Hl & Hs) Hrun.
  destruct (decide (host_region H = 0)) as [Hb0|Hb0].
  { left. unfold my_malloc in Hrun.
    apply bind_Ok in Hrun as (_ & _ & Hrun).
    destruct (mutexes_destroyed st); [discriminate|].
    rewrite Hi in Hrun. unfold FALSE, initialize_allocator in Hrun.
    rewrite decide_True in Hrun by done. cbv beta iota zeta in Hrun.
    cbn [negb] in Hrun. injection Hrun as <- <-. by repeat split. }
  destruct (host_array H) eqn:Ha.
  - right. split; [done|].
    rewrite <- Hrun. clear Hrun. unfold my_malloc.
    destruct (assert (0 <? sz)); cbn [mbind outcome_bind]; try done.
    cbn [mutexes_destroyed initialized].
    destruct (mutexes_destroyed st) eqn:Hmd; [done|].
    rewrite Hi. unfold FALSE, TRUE. rewrite initialize_allocator_eq by done.
    cbv beta iota zeta. rewrite Hi, Hmd.
    cbn [base_ptr segments heap host_live current_segment initialized waits
         mutexes_destroyed].
    reflexivity.
  - left. unfold my_malloc in Hrun.
    apply bind_Ok in Hrun as (_ & _ & Hrun).
    destruct (mutexes_destroyed st); [discriminate|].
    rewrite Hi in Hrun. unfold FALSE, initialize_allocator in Hrun.
    rewrite decide_False in Hrun by done. rewrite Ha in Hrun.
    cbv beta iota zeta in Hrun. cbn [negb] in Hrun.
    injection Hrun as <- <-. by repeat split.
Qed.

Lemma started_ready (H : host) (n : Z) (w : list timespec) (d : bool) :
  host_ok H → host_region H ≠ 0 →
  ready H (mk_allocator (host_region H) (Some (initial_segments (host_region H)))
             (initial_heap (host_region H)) true n TRUE w d).
Proof.
  intros Hok Hb0.
  split; [done|]. split; [done|]. split; [done|].
  exists (initial_segments (host_region H)). split; [done|]. split.
  - unfold same_geometry. by apply Forall_Forall2_diag, Forall_forall.
  - cbn [heap]. apply initial_heap_inv. destruct Hok. lia.
Qed.

Lemma my_malloc_unready (H : host) (sz : Z) (st st' : allocator) (p : Z) :
  host_ok H → 0 < sz <= SIZE_MAX - sizeof_block_header → unready st →
  my_malloc H sz st = Ok (p, st') → unready st' ∨ ready H st'.
Proof.
  intros Hok Hsz Hu Hrun.
  destruct (my_malloc_unready_cases H sz st st' p Hsz Hu Hrun)
    as [[_ Hu']|[Hb0 Hrun']]; [by left|right].
  eapply (my_malloc_ready H sz _ st' p Hok Hsz); [|exact Hrun'].
  by apply started_ready.
Qed.

Lemma my_free_unready (ptr : Z) (st st' : allocator) :
  unready st → my_free ptr st = Ok st' → st' = st.
Proof.
  intros (_ & Hl & _) Hrun. unfold my_free in Hrun.
  destruct (decide (ptr = 0)); [by injection Hrun|].
  rewrite Hl in Hrun. done.
Qed.

Lemma run_plain (H : host) (cs : list command) :
  ∀ (ptrs ptrs' : list Z) (st st' : allocator),
    host_ok H → plain_script cs → unready st ∨ ready H st →
    run H cs ptrs st = Ok (ptrs', st') → unready st' ∨ ready H st'.
Proof.
  induction cs as [|c cs IH]; intros ptrs ptrs' st st' Hok Hcs Hst Hrun.
  - cbn in Hrun. by injection Hrun as _ <-.
  - destruct c as [sz|k|]; cbn [run plain_script] in *.
    + destruct Hcs as [Hsz Hcs].
      apply bind_Ok in Hrun as ([p st1] & Hm & Hrun).
      eapply IH; [done|done| |exact Hrun].
      destruct Hst as [Hu|Hr].
      * eapply my_malloc_unready; eauto.
      * right. eapply my_malloc_ready; eauto.
    + apply bind_Ok in Hrun as (st1 & Hf & Hrun).
      eapply IH; [done|done| |exact Hrun].
      destruct Hst as [Hu|Hr].
      * left. by rewrite (my_free_unready _ _ _ Hu Hf).
      * right. eapply my_free_ready; eauto.
    + done.
Qed.

(* The free list of a segment never holds anything but the last block of
   the segment. *)
Lemma free_list_single (H : host) (cs : list command)
    (ptrs : list Z) (st : allocator) (segs : list segment) (i : nat) (seg : segment) :
  host_ok H → plain_script cs →
  run H cs [] startup = Ok (ptrs, st) →
  segments st = Some segs → segs !! i = Some seg →
  free_list_blocks (heap st) seg = Some [free_list seg] ∧
  ∃ h, heap st !! free_list seg = Some h ∧
       start_ptr seg <= free_list seg ∧
       free_list seg + sizeof_block_header + size h = start_ptr seg + seg_size seg.
Proof.
  intros Hok Hcs Hrun Hs Hi.
  assert (Hst : unready st ∨ ready H st).
  { eapply run_plain; [exact Hok|exact Hcs| |exact Hrun]. left. by repeat split. }
  destruct Hst as [(_ & _ & Hnone)|(Hb0 & _ & _ & segs' & Hs' & Hg & Hinv)];
    [congruence|].
  rewrite Hs in Hs'. injection Hs' as <-.
  destruct (inv_heads _ _ Hinv i seg Hi) as (h & Hh & Hnx & Hs0 & Hlo & Hend).
  destruct (segment_start_positive H segs i seg Hok Hb0 Hg Hi) as [Hpos _].
  split.
  - apply free_list_blocks_chain. cbn [chain].
    split; [done|]. split; [lia|]. exists h. done.
  - exists h. done.
Qed.

(** * Live allocations *)

Lemma payloads_overlap_sym (p s q t : Z) :
  payloads_overlap p s q t → payloads_overlap q t p s.
Proof. unfold payloads_overlap. lia. Qed.

Lemma apart_in (live : list (Z * Z)) (p s q t : Z) :
  apart live → (p, s) ∈ live → (q, t) ∈ live → (p, s) ≠ (q, t) →
  ¬ payloads_overlap p s q t.
Proof.
  induction live as [|[p0 s0] live IH]; cbn [apart].
  - intros _ Hp. by apply not_elem_of_nil in Hp.
  - intros [Hhd Htl] Hp Hq Hne.
    apply elem_of_cons in Hp as [Hp|Hp]; apply elem_of_cons in Hq as [Hq|Hq].
    + congruence.
    + injection Hp as -> ->. by apply Hhd.
    + injection Hq as -> ->. intros Ho%payloads_overlap_sym. by apply (Hhd p s).
    + by apply IH.
Qed.

Lemma apart_filter (P : Z * Z → Prop) `{∀ e, Decision (P e)} (live : list (Z * Z)) :
  apart live → apart (filter P live).
Proof.
  induction live as [|[p s] live IH]; cbn [apart]; [done|].
  intros [Hhd Htl]. rewrite filter_cons. destruct (decide (P (p, s))).
  - cbn [apart]. split; [|by apply IH].
    intros q t Hin. apply list_elem_of_filter in Hin as [_ Hin]. by apply Hhd.
  - by apply IH.
Qed.

(* Writing a link or a size does not change any free flag. *)
Lemma assign_flags (m m' : memory) (p : Z) (f : block_header → block_header) :
  (∀ h, free (f h) = free h) →
  assign m p f = Ok m' → ∀ a, is_free m' a = is_free m a.
Proof.
  intros Hf [_ ->]%assign_inv a. unfold is_free.
  destruct (decide (a = p)) as [->|Hne].
  - rewrite lookup_insert_eq, Hf. by destruct (m !! p).
  - by rewrite lookup_insert_ne.
Qed.

Lemma merge_blocks_flags (m m' : memory) (block1 block2 : Z) :
  merge_blocks m block1 block2 = Ok m' → ∀ a, is_free m' a = is_free m a.
Proof.
  intros Hrun a. unfold merge_blocks in Hrun.
  apply bind_Ok in Hrun as (_ & _ & Hrun).
  apply bind_Ok in Hrun as (_ & _ & Hrun).
  apply bind_Ok in Hrun as (b1 & _ & Hrun).
  apply bind_Ok in Hrun as (b2 & _ & Hrun).
  apply bind_Ok in Hrun as (_ & _ & Hrun).
  apply bind_Ok in Hrun as (_ & _ & Hrun).
  apply bind_Ok in Hrun as (m1 & Hm1 & Hrun).
  assert (H1 : is_free m1 a = is_free m a).
  { destruct (decide (prev b2 = 0)); [by injection Hm1 as <-|].
    by eapply assign_flags; [|exact Hm1]. }
  clear Hm1 b1 b2.
  apply bind_Ok in Hrun as (b2 & _ & Hrun).
  apply bind_Ok in Hrun as (m2 & Hm2 & Hrun).
  assert (H2 : is_free m2 a = is_free m1 a).
  { destruct (decide (next b2 = 0)); [by injection Hm2 as <-|].
    by eapply assign_flags; [|exact Hm2]. }
  clear Hm2 b2.
  apply bind_Ok in Hrun as (b1 & _ & Hrun).
  apply bind_Ok in Hrun as (b2 & _ & Hrun).
  apply bind_Ok in Hrun as (m3 & Hm3 & Hrun).
  assert (H3 : is_free m3 a = is_free m2 a) by (by eapply assign_flags; [|exact Hm3]).
  clear Hm3 b1 b2.
  apply bind_Ok in Hrun as (b2 & _ & Hrun).
  apply bind_Ok in Hrun as (m4 & Hm4 & Hrun).
  assert (H4 : is_free m4 a = is_free m3 a) by (by eapply assign_flags; [|exact Hm4]).
  clear Hm4 b2.
  apply bind_Ok in Hrun as (b2 & _ & Hrun).
  assert (H5 : is_free m' a = is_free m4 a).
  { destruct (decide (next b2 = 0)); [by injection Hrun as <-|].
    by eapply assign_flags; [|exact Hrun]. }
  congruence.
Qed.

(* my_free sets the flag of the released block and no other. *)
Lemma my_free_flags (ptr : Z) (st st' : allocator) :
  my_free ptr st = Ok st' →
  segments st' = segments st ∧
  ∀ a, a ≠ size_t (ptr - sizeof_block_header) →
       is_free (heap st') a = is_free (heap st) a.
Proof.
  intros Hrun. unfold my_free in Hrun.
  destruct (decide (ptr = 0)); [by injection Hrun as <-|].
  destruct (negb (host_live st)); [done|].
  set (hdr := size_t (ptr - sizeof_block_header)) in *. clearbody hdr.
  apply bind_Ok in Hrun as (h & _ & Hrun).
  apply bind_Ok in Hrun as (_ & _ & Hrun).
  apply bind_Ok in Hrun as (m1 & Hm1 & Hrun).
  apply assign_inv in Hm1 as [_ Hm1].
  apply bind_Ok in Hrun as (h1 & _ & Hrun).
  apply bind_Ok in Hrun as (c & _ & Hrun).
  apply bind_Ok in Hrun as ([m2 hdr2] & Hm2 & Hrun).
  assert (H2 : ∀ a, is_free m2 a = is_free m1 a).
  { intros a. destruct c.
    - apply bind_Ok in Hm2 as (m' & Hm' & Hm2).
      apply bind_Ok in Hm2 as (h' & _ & Hm2). injection Hm2 as <- <-.
      by eapply merge_blocks_flags.
    - by injection Hm2 as <- <-. }
  clear Hm2.
  apply bind_Ok in Hrun as (h2 & _ & Hrun).
  apply bind_Ok in Hrun as (c2 & _ & Hrun).
  apply bind_Ok in Hrun as (m3 & Hm3 & Hrun). injection Hrun as <-.
  split; [done|]. intros a Ha. cbn [heap with_heap].
  assert (H3 : is_free m3 a = is_free m2 a).
  { destruct c2; [by eapply merge_blocks_flags|by injection Hm3 as <-]. }
  rewrite H3, H2, Hm1. unfold is_free. by rewrite lookup_insert_ne.
Qed.

(* An allocation keeps the live payloads in place and apart. *)
Lemma my_malloc_live (H : host) (sz : Z) (st st' : allocator) (p : Z)
    (segs : list segment) (live : list (Z * Z)) :
  host_ok H → 0 < sz <= SIZE_MAX - sizeof_block_header → ready H st →
  segments st = Some segs → live_inv segs (heap st) live →
  my_malloc H sz st = Ok (p, st') →
  ∃ segs', segments st' = Some segs' ∧
    live_inv segs' (heap st') (if decide (p = 0) then live else (p, sz) :: live).
Proof.
  intros Hok Hsz Hr Hs [Hpl Hap] Hrun.
  destruct (my_malloc_cases H sz st st' p Hok Hsz Hr Hrun) as (Hr' & segs0 & Hs0 & Hcase).
  rewrite Hs in Hs0. injection Hs0 as <-.
  destruct Hr as (Hb & _ & _ & segs1 & Hs1 & Hg & Hinv).
  rewrite Hs in Hs1. injection Hs1 as <-.
  destruct Hcase as [(-> & Hs' & Hh')|(n & seg & Hn & Hfree & Hfit & -> & Hsegs' & Hother)].
  { exists segs. rewrite decide_True by done. by rewrite Hh'. }
  pose proof (head_in_segment _ _ _ _ _ Hg Hinv Hn) as [Hlo Hhi].
  pose proof (segment_start_positive H segs n seg Hok Hb Hg Hn) as [Hpos _].
  unfold sizeof_block_header in *.
  rewrite decide_False by lia.
  assert (Hold : ∀ q t, (q, t) ∈ live →
            0 < t ∧ ∃ (i : nat) segi, segs !! i = Some segi ∧
              ((i = n ∧ start_ptr seg + 32 <= q ∧ q + t <= free_list seg) ∨
               (i ≠ n ∧
                ((start_ptr segi + 32 <= q ∧ q + t <= free_list segi) ∨
                 (q = free_list segi + 32 ∧ q + t <= start_ptr segi + seg_size segi ∧
                  is_free (heap st') (free_list segi) = false))))).
  { intros q t Hin. destruct (Hpl q t Hin) as (Ht & i & segi & Hi & Hc).
    split; [done|]. exists i, segi. split; [done|].
    destruct (decide (i = n)) as [->|Hne].
    - left. rewrite Hn in Hi. injection Hi as <-.
      destruct Hc as [Hc|(_ & _ & Hc)]; [done|congruence].
    - right. split; [done|]. destruct Hc as [Hc|(? & ? & Hc)]; [by left|right].
      by rewrite (Hother i segi Hi Hne). }
  assert (Hnew : ∀ q t, (q, t) ∈ live →
            ¬ payloads_overlap (free_list seg + 32) sz q t).
  { intros q t Hin. destruct (Hold q t Hin) as (Ht & i & segi & Hi & Hc).
    unfold payloads_overlap.
    destruct Hc as [(-> & ? & ?)|(Hne & Hc)]; [lia|].
    pose proof (head_in_segment _ _ _ _ _ Hg Hinv Hi) as [Hlo' Hhi'].
    destruct (geometry_lookup _ _ _ _ Hg Hi) as (? & ? & ?).
    destruct (geometry_lookup _ _ _ _ Hg Hn) as (? & ? & ?).
    unfold sizeof_block_header in *.
    destruct Hc as [?|(? & ? & _)]; repeat case_decide; lia. }
  destruct Hsegs' as [Hs'|[Hs' Hfl]].
  - eexists. split; [exact Hs'|]. split; [|by cbn [apart]].
    intros q t [Heq|Hin]%elem_of_cons.
    + injection Heq as -> ->. split; [lia|].
      eexists n, _. split; [apply list_lookup_insert_eq; by eapply lookup_lt_Some|].
      left. destruct seg. cbn in *. unfold sizeof_block_header. lia.
    + destruct (Hold q t Hin) as (Ht & i & segi & Hi & [(-> & ? & ?)|(Hne & Hc)]).
      * split; [done|].
        eexists n, _. split; [apply list_lookup_insert_eq; by eapply lookup_lt_Some|].
        left. destruct seg. cbn in *. unfold sizeof_block_header. lia.
      * split; [done|]. exists i, segi.
        split; [by rewrite list_lookup_insert_ne|done].
  - exists segs. split; [done|]. split; [|by cbn [apart]].
    intros q t [Heq|Hin]%elem_of_cons.
    + injection Heq as -> ->. split; [lia|].
      exists n, seg. split; [done|]. right. unfold sizeof_block_header. repeat split; [lia|done].
    + destruct (Hold q t Hin) as (Ht & i & segi & Hi & [(-> & ? & ?)|(Hne & Hc)]).
      * split; [done|]. exists n, seg. split; [done|]. by left.
      * split; [done|]. by exists i, segi.
Qed.

(* Releasing a live allocation keeps the others in place and apart. *)
Lemma my_free_live (H : host) (st st' : allocator) (p sz : Z)
    (segs : list segment) (live : list (Z * Z)) :
  host_ok H → ready H st →
  segments st = Some segs → live_inv segs (heap st) live →
  (p, sz) ∈ live → my_free p st = Ok st' →
  segments st' = Some segs ∧
  live_inv segs (heap st') (filter (λ e, e ≠ (p, sz)) live).
Proof.
  intros Hok Hr Hs [Hpl Hap] Hin Hrun.
  destruct (my_free_flags p st st' Hrun) as [Hs' Hfl].
  destruct Hr as (Hb & _ & _ & segs1 & Hs1 & Hg & Hinv).
  rewrite Hs in Hs1. injection Hs1 as <-.
  split; [congruence|]. split; [|by apply apart_filter].
  intros q t [Hne Hq]%list_elem_of_filter.
  destruct (Hpl q t Hq) as (Ht & i & segi & Hi & Hc).
  split; [done|]. exists i, segi. split; [done|].
  destruct Hc as [Hc|(Hqe & Hend & Hc)]; [by left|right].
  split; [done|]. split; [done|].
  rewrite Hfl; [done|].
  destruct (Hpl p sz Hin) as (Hsz & j & segj & Hj & Hcp).
  pose proof (segment_start_positive H segs j segj Hok Hb Hg Hj) as [Hpos Hmax].
  pose proof (head_in_segment _ _ _ _ _ Hg Hinv Hj) as [Hlo Hhi].
  unfold sizeof_block_header in *.
  assert (Hp : 32 < p <= SIZE_MAX) by (destruct Hcp as [?|(? & ? & _)]; lia).
  rewrite size_t_small by lia.
  intros Heq.
  apply (apart_in live p sz q t Hap Hin Hq); [congruence|].
  unfold payloads_overlap. lia.
Qed.

Lemma reachable_safe (H : host) (st : allocator) (live : list (Z * Z)) :
  host_ok H → reachable H st live → safe H st live.
Proof.
  intros Hok Hreach.
  induction Hreach as [|st st' live sz p _ IH Hsz Hrun
                        |st st' live p sz _ IH Hin Hrun
                        |st st' live _ IH Hrun].
  - left. by repeat split.
  - destruct IH as [[Hu ->]|(Hr & segs & Hs & Hlive)].
    + destruct (my_malloc_unready_cases H sz st st' p Hsz Hu Hrun)
        as [[-> Hu']|[Hb0 Hrun']].
      * left. by rewrite decide_True.
      * right.
        pose proof (started_ready H (current_segment st) (waits st)
                      (mutexes_destroyed st) Hok Hb0) as Hr1.
        split; [exact (my_malloc_ready H sz _ st' p Hok Hsz Hr1 Hrun')|].
        eapply (my_malloc_live H sz _ st' p _ [] Hok Hsz Hr1); [done| |exact Hrun'].
        split; [|done]. intros q t Hq. by apply not_elem_of_nil in Hq.
    + right. split; [exact (my_malloc_ready H sz st st' p Hok Hsz Hr Hrun)|].
      exact (my_malloc_live H sz st st' p segs live Hok Hsz Hr Hs Hlive Hrun).
  - destruct IH as [[Hu ->]|(Hr & segs & Hs & Hlive)].
    + by apply not_elem_of_nil in Hin.
    + right. split; [exact (my_free_ready H p st st' Hr Hrun)|].
      exists segs. exact (my_free_live H st st' p sz segs live Hok Hr Hs Hlive Hin Hrun).
  - assert (st' = st) as -> by (unfold my_free in Hrun; by injection Hrun).
    exact IH.
Qed.

Lemma apart_lookup (live : list (Z * Z)) :
  apart live →
  ∀ (i j : nat) p s q t, i ≠ j →
    live !! i = Some (p, s) → live !! j = Some (q, t) →
    ¬ payloads_overlap p s q t.
Proof.
  induction live as [|[p0 s0] live IH]; cbn [apart]; [by intros _ i j p s q t _ Hi|].
  intros [Hhd Htl] i j p s q t Hij Hi Hj.
  destruct i as [|i]; destruct j as [|j]; [done| | |].
  - injection Hi as -> ->. apply Hhd. by eapply list_elem_of_lookup_2.
  - injection Hj as -> ->. intros Ho%payloads_overlap_sym. revert Ho.
    apply Hhd. by eapply list_elem_of_lookup_2.
  - eapply (IH Htl i j); [lia|exact Hi|exact Hj].
Qed.

(** X1: safety of the calls the interface allows.  In every state reached from
    the start of the program by allocations whose footprint does not wrap
    and by releases of NULL or of live pointers, each live allocation has a
    positive size and lies inside the backing region, after a header's worth
    of bytes; no two live allocations share a byte, whether they asked for
    the same size or not: in particular no pointer is live twice. *)
Theorem live_allocations_apart (H : host) (st : allocator) (live : list (Z * Z)) :
  host_ok H → reachable H st live →
  (∀ p s, (p, s) ∈ live →
     0 < s ∧
     host_region H + sizeof_block_header <= p ∧ p + s <= host_region H + TOTAL_SIZE) ∧
  (∀ (i j : nat) p s q t, i ≠ j →
     live !! i = Some (p, s) → live !! j = Some (q, t) →
     ¬ payloads_overlap p s q t) ∧
  NoDup live.
Proof.
  intros Hok Hreach.
  destruct (reachable_safe H st live Hok Hreach)
    as [[_ ->]|(Hr & segs & Hs & Hpl & Hap)].
  { split; [intros p s Hin; by apply not_elem_of_nil in Hin|].
    split; [|apply NoDup_nil_2].
    intros i j p s q t _ Hi. by rewrite lookup_nil in Hi. }
  destruct Hr as (Hb & _ & _ & segs1 & Hs1 & Hg & Hinv).
  rewrite Hs in Hs1. injection Hs1 as <-.
  split; [|split; [by apply apart_lookup|]].
  - intros p s Hin. destruct (Hpl p s Hin) as (Hsz & i & seg & Hi & Hc).
    split; [done|].
    pose proof (head_in_segment _ _ _ _ _ Hg Hinv Hi) as [Hlo Hhi].
    destruct (geometry_lookup _ _ _ _ Hg Hi) as (Hi5 & Hst & Hsize).
    unfold sizeof_block_header, TOTAL_SIZE in *.
    case_decide; destruct Hc as [?|(? & ? & _)]; lia.
  - apply NoDup_alt. intros i j [p s] Hi Hj.
    destruct (decide (i = j)) as [|Hne]; [done|exfalso].
    apply (apart_lookup live Hap i j p s p s Hne Hi Hj).
    destruct (Hpl p s) as [Hsz _]; [by eapply list_elem_of_lookup_2|].
    unfold payloads_overlap. lia.
Qed.

Lemma live_allocations_apart_witness :
  ∃ st,
    reachable host0 st [(10489888, 64); (5247008, 64)] ∧
    (∀ p s, (p, s) ∈ [(10489888, 64); (5247008, 64)] →
       0 < s ∧
       host_region host0 + sizeof_block_header <= p ∧
       p + s <= host_region host0 + TOTAL_SIZE) ∧
    (∀ (i j : nat) p s q t, i ≠ j →
       [(10489888, 64); (5247008, 64)] !! i = Some (p, s) →
       [(10489888, 64); (5247008, 64)] !! j = Some (q, t) →
       ¬ payloads_overlap p s q t) ∧
    NoDup [(10489888, 64); (5247008, 64)].
Proof.
  assert (Hok : host_ok host0)
    by (unfold host_ok, host0, TOTAL_SIZE, SIZE_MAX; cbn; lia).
  assert (Hsz : 0 < 64 <= SIZE_MAX - sizeof_block_header)
    by (unfold SIZE_MAX, sizeof_block_header; lia).
  assert (Hreach : ∃ st, reachable host0 st [(10489888, 64); (5247008, 64)]).
  { eexists.
    refine (reach_free host0 _ _ [(10489888, 64); (5247008, 64); (4128, 64)]
              4128 64 _ _ _).
    - refine (reach_malloc host0 _ _ [(5247008, 64); (4128, 64)] 64 10489888 _ Hsz _).
      + refine (reach_malloc host0 _ _ [(4128, 64)] 64 5247008 _ Hsz _).
        * refine (reach_malloc host0 _ _ [] 64 4128 (reach_start host0) Hsz _).
          vm_compute; reflexivity.
        * vm_compute; reflexivity.
      + vm_compute; reflexivity.
    - apply elem_of_cons. right. apply elem_of_cons. right. apply elem_of_cons. by left.
    - vm_compute; reflexivity. }
  destruct Hreach as [st Hreach]. exists st. split; [exact Hreach|].
  exact (live_allocations_apart host0 st _ Hok Hreach).
Defined.

(** ** add_to_free_list *)

Lemma dlseg_NoDup (m : memory) (l : list Z) (pv p lst : Z) :
  dlseg m pv p l lst 0 → NoDup l.
Proof. intros Hd. eapply chain_NoDup, dlseg_chain, Hd. Qed.

(** X13: pushing a block on a free list.  On a doubly linked list that ends in
    NULL (it may be empty) and for a block marked free that is not on the
    list, add_to_free_list returns the block; the list from the block is the
    block followed by the old list, the [prev] link of the new head is NULL
    and that of the old head is the block; and the call changes no size, no
    free flag and no segment index, and writes no header that did not
    exist. *)
Theorem add_to_free_list_pushes (m : memory) (seg : segment) (l : list Z)
    (new_block : Z) (nb : block_header) :
  free_list_is m seg l →
  new_block ≠ 0 → m !! new_block = Some nb → free nb = TRUE → new_block ∉ l →
  ∃ m',
    add_to_free_list m (free_list seg) new_block = Ok (m', new_block) ∧
    free_list_is m' (set_free_list new_block seg) (new_block :: l) ∧
    (∀ a h, m !! a = Some h →
       ∃ h', m' !! a = Some h' ∧ size h' = size h ∧ free h' = free h ∧
             segment_id h' = segment_id h) ∧
    (∀ a, m !! a = None → m' !! a = None).
Proof.
  intros [lst Hd] Hne Hnb Hfree Hnin.
  unfold add_to_free_list.
  assert (Hz : (new_block =? 0) = false) by (apply Z.eqb_neq; done).
  rewrite Hz. cbn [negb assert mbind outcome_bind].
  rewrite (deref_Some _ _ _ Hnb). cbn [mbind outcome_bind].
  rewrite Hfree. cbn [Bool.eqb TRUE assert mbind outcome_bind].
  destruct l as [|a l].
  - destruct Hd as [Hfl ->]. rewrite decide_True by done.
    rewrite assign_Ok by done. cbn [mbind outcome_bind].
    rewrite assign_Ok by done. cbn [mbind outcome_bind].
    rewrite Hnb, lookup_insert_eq. cbn [default from_option id].
    rewrite insert_insert_eq.
    eexists. split; [reflexivity|]. split; [|split].
    + exists new_block. cbn [dlseg free_list set_free_list].
      split; [done|]. split; [done|]. eexists. rewrite lookup_insert_eq.
      split; [reflexivity|]. done.
    + intros a h Ha. destruct (decide (a = new_block)) as [->|Hane].
      * rewrite lookup_insert_eq. eexists. split; [reflexivity|].
        rewrite Hnb in Ha. injection Ha as <-. done.
      * rewrite lookup_insert_ne by done. eauto.
    + intros a Ha. rewrite lookup_insert_ne; [done|]. congruence.
  - pose proof (dlseg_NoDup _ _ _ _ _ Hd) as Hnd.
    apply NoDup_cons in Hnd as [Hal Hnd].
    cbn [dlseg] in Hd. destruct Hd as (Hfl & Ha0 & ha & Hha & Hpv & Hd).
    apply not_elem_of_cons in Hnin as [Hna Hnin].
    rewrite decide_False by congruence. rewrite Hfl.
    rewrite assign_Ok by done. cbn [mbind outcome_bind].
    rewrite assign_Ok by done. cbn [mbind outcome_bind].
    rewrite assign_Ok by done. cbn [mbind outcome_bind].
    rewrite Hnb. rewrite (lookup_insert_ne _ new_block a) by done.
    rewrite Hha. rewrite (lookup_insert_ne _ a new_block) by done.
    rewrite lookup_insert_eq. cbn [default from_option id].
    set (m' := <[new_block := _]> _).
    assert (Hm'n : m' !! new_block = Some (set_prev 0 (set_next a nb)))
      by (unfold m'; by rewrite lookup_insert_eq).
    assert (Hm'a : m' !! a = Some (set_prev new_block ha)).
    { unfold m'. rewrite lookup_insert_ne by done. by rewrite lookup_insert_eq. }
    assert (Hm'o : ∀ x, x ≠ new_block → x ≠ a → m' !! x = m !! x).
    { intros x Hx1 Hx2. unfold m'. by rewrite !lookup_insert_ne. }
    exists m'. split; [reflexivity|]. split; [|split].
    + exists lst. cbn [dlseg free_list set_free_list].
      split; [done|]. split; [done|]. eexists. split; [exact Hm'n|].
      split; [done|]. cbn [next set_prev set_next].
      split; [done|]. split; [done|]. eexists. split; [exact Hm'a|].
      split; [done|]. cbn [next set_prev].
      eapply dlseg_frame; [|exact Hd].
      intros x hx Hx Hmx. exists hx. rewrite Hm'o; [done| |]; set_solver.
    + intros x hx Hx. destruct (decide (x = new_block)) as [->|Hx1].
      * eexists. split; [exact Hm'n|]. rewrite Hnb in Hx. injection Hx as <-. done.
      * destruct (decide (x = a)) as [->|Hx2].
        -- eexists. split; [exact Hm'a|]. rewrite Hha in Hx. injection Hx as <-. done.
        -- exists hx. by rewrite Hm'o.
    + intros x Hx. rewrite Hm'o; [done| |]; congruence.
Qed.

(** ** What my_free writes *)

Lemma my_free_sets_flag (ptr : Z) (st st' : allocator) :
  ptr ≠ 0 → my_free ptr st = Ok st' →
  is_free (heap st') (size_t (ptr - sizeof_block_header)) = true.
Proof.
  intros Hp Hrun. unfold my_free in Hrun.
  destruct (decide (ptr = 0)); [done|].
  destruct (negb (host_live st)); [done|].
  set (hdr := size_t (ptr - sizeof_block_header)) in *. clearbody hdr.
  apply bind_Ok in Hrun as (h & _ & Hrun).
  apply bind_Ok in Hrun as (_ & _ & Hrun).
  apply bind_Ok in Hrun as (m1 & Hm1 & Hrun).
  apply assign_inv in Hm1 as [_ Hm1].
  apply bind_Ok in Hrun as (h1 & _ & Hrun).
  apply bind_Ok in Hrun as (c & _ & Hrun).
  apply bind_Ok in Hrun as ([m2 hdr2] & Hm2 & Hrun).
  assert (H2 : ∀ a, is_free m2 a = is_free m1 a).
  { intros a. destruct c.
    - apply bind_Ok in Hm2 as (m' & Hm' & Hm2).
      apply bind_Ok in Hm2 as (h' & _ & Hm2). injection Hm2 as <- <-.
      by eapply merge_blocks_flags.
    - by injection Hm2 as <- <-. }
  clear Hm2.
  apply bind_Ok in Hrun as (h2 & _ & Hrun).
  apply bind_Ok in Hrun as (c2 & _ & Hrun).
  apply bind_Ok in Hrun as (m3 & Hm3 & Hrun). injection Hrun as <-.
  cbn [heap with_heap].
  assert (H3 : is_free m3 hdr = is_free m2 hdr).
  { destruct c2; [by eapply merge_blocks_flags|by injection Hm3 as <-]. }
  rewrite H3, H2, Hm1. unfold is_free. by rewrite lookup_insert_eq.
Qed.



(** ** After a failed start, after teardown *)

(** X15: a failed start is final.  When the host refuses the backing region or
    the segment array on the first call, my_malloc returns NULL, leaves
    [initialized] clear and destroys its two static mutexes; every later
    call to my_malloc then locks a destroyed mutex, whatever the host would
    now answer. *)
Theorem failed_start_is_final (H : host) (sz : Z) (st : allocator) :
  unready st → mutexes_destroyed st = false → 0 < sz →
  host_region H = 0 ∨ host_array H = false →
  ∃ st',
    my_malloc H sz st = Ok (0, st') ∧
    initialized st' = FALSE ∧ segments st' = None ∧ heap st' = heap st ∧
    ∀ H' sz', 0 < sz' → my_malloc H' sz' st' = Undefined.
Proof.
  intros (Hi & Hl & Hs) Hmd Hsz Hfail.
  unfold my_malloc.
  rewrite (proj2 (Z.ltb_lt 0 sz) Hsz). cbn [assert mbind outcome_bind].
  rewrite Hmd, Hi. unfold FALSE at 1.
  assert (Hinit : ∃ st1, initialize_allocator H st = (None, st1) ∧
            heap st1 = heap st ∧ initialized st1 = initialized st).
  { unfold initialize_allocator.
    destruct (decide (host_region H = 0)) as [|Hb]; [by eexists|].
    destruct Hfail as [|Ha]; [done|]. rewrite Ha. by eexists. }
  destruct Hinit as (st1 & -> & Hh1 & Hi1).
  cbv beta iota zeta. cbn [negb].
  eexists. split; [reflexivity|]. cbn [initialized segments heap].
  split; [congruence|]. split; [done|]. split; [done|].
  intros H' sz' Hsz'. unfold my_malloc.
  rewrite (proj2 (Z.ltb_lt 0 sz') Hsz'). cbn [assert mbind outcome_bind].
  reflexivity.
Qed.

Lemma failed_start_is_final_witness :
  ∃ st',
    my_malloc (mk_host 4096 false 1000) 64 startup = Ok (0, st') ∧
    initialized st' = FALSE ∧ segments st' = None ∧ heap st' = heap startup ∧
    ∀ H' sz', 0 < sz' → my_malloc H' sz' st' = Undefined.
Proof.
  apply (failed_start_is_final (mk_host 4096 false 1000) 64 startup).
  - by repeat split.
  - reflexivity.
  - lia.
  - by right.
Defined.

(** X16: teardown is final, and needs a started allocator.  Once
    free_base_memory has returned, a release of any pointer other than NULL
    reads a header in the region that was handed back, and a second
    free_base_memory reaches into the segment array that was handed back;
    a release of NULL still returns.  Before the first successful start the
    segment array is NULL and free_base_memory goes through it. *)
Theorem teardown_is_final (st st' : allocator) :
  free_base_memory st = Ok st' →
  (∀ p, p ≠ 0 → my_free p st' = Undefined) ∧
  free_base_memory st' = Undefined ∧
  my_free 0 st' = Ok st' ∧
  segments st ≠ None.
Proof.
  intros Hrun. unfold free_base_memory in Hrun.
  destruct (segments st) as [segs|] eqn:Hs; [|done].
  destruct (host_live st) eqn:Hl; [|done].
  injection Hrun as <-.
  split; [|split; [|split]].
  - intros p Hp. unfold my_free. rewrite decide_False by done. reflexivity.
  - reflexivity.
  - reflexivity.
  - done.
Qed.

Lemma teardown_is_final_witness :
  ∃ st',
    free_base_memory (state_after host0 [Malloc 64]) = Ok st' ∧
    (∀ p, p ≠ 0 → my_free p st' = Undefined) ∧
    free_base_memory st' = Undefined ∧
    my_free 0 st' = Ok st' ∧
    segments (state_after host0 [Malloc 64]) ≠ None.
Proof.
  eexists. split; [vm_compute; reflexivity|].
  apply (teardown_is_final (state_after host0 [Malloc 64])).
  vm_compute; reflexivity.
Defined.

(** ** The calls, run forward *)

Lemma head_fits_head (H : host) (st : allocator) (segs : list segment)
    (n : nat) (seg : segment) (a : Z) :
  ready H st → segments st = Some segs → segs !! n = Some seg →
  ∃ h, heap st !! free_list seg = Some h ∧ next h = 0 ∧
       free_list seg + sizeof_block_header + size h = start_ptr seg + seg_size seg ∧
       head_fits segs (heap st) n a = free_and_fits a h.
Proof.
  intros (_ & _ & _ & segs' & Hs' & _ & Hinv) Hs Hn.
  rewrite Hs in Hs'. injection Hs' as <-.
  destruct (inv_heads _ _ Hinv n seg Hn) as (h & Hh & Hnx & _ & _ & Hend).
  exists h. unfold head_fits. by rewrite Hn, Hh.
Qed.

Lemma segment_at_ready (H : host) (st : allocator) (segs : list segment)
    (n : nat) (seg : segment) :
  ready H st → segments st = Some segs → segs !! n = Some seg →
  segment_at st (Z.of_nat n) = Ok seg.
Proof.
  intros (_ & _ & Hl & _) Hs Hn. unfold segment_at. rewrite Hs, Hl.
  rewrite (proj2 (Z.leb_le 0 (Z.of_nat n))) by lia. cbn [andb].
  by rewrite Nat2Z.id, Hn.
Qed.

Lemma head_positive (H : host) (st : allocator) (segs : list segment)
    (n : nat) (seg : segment) :
  host_ok H → ready H st → segments st = Some segs → segs !! n = Some seg →
  0 < free_list seg ∧ free_list seg + sizeof_block_header <= SIZE_MAX.
Proof.
  intros Hok (Hb0 & _ & _ & segs' & Hs' & Hg & Hinv) Hs Hn.
  rewrite Hs in Hs'. injection Hs' as <-.
  destruct (segment_start_positive H segs n seg Hok Hb0 Hg Hn) as [Hpos Hmax].
  pose proof (head_in_segment _ _ _ _ _ Hg Hinv Hn) as [Hlo Hhi]. lia.
Qed.

(* On the one block of a free list, the search is a test of that block. *)
Lemma find_best_fit_head (H : host) (st : allocator) (segs : list segment)
    (n : nat) (seg : segment) (a : Z) :
  host_ok H → ready H st → segments st = Some segs → segs !! n = Some seg →
  0 < a →
  find_best_fit (heap st) (free_list seg) a
  = Ok (if head_fits segs (heap st) n a then free_list seg else 0).
Proof.
  intros Hok Hr Hs Hn Ha.
  destruct (head_fits_head H st segs n seg a Hr Hs Hn) as (h & Hh & Hnx & _ & ->).
  destruct (head_positive H st segs n seg Hok Hr Hs Hn) as [Hpos _].
  assert (Hc : chain (heap st) (free_list seg) [free_list seg]).
  { cbn [chain]. split; [done|]. split; [lia|]. exists h. done. }
  destruct (find_best_fit_spec _ _ _ a Ha Hc) as (b & -> & Hfs). f_equal.
  destruct Hfs as [[-> Hno]|(Hb0 & k & hb & Hk & Hb & Hfit & _)].
  - rewrite (Hno (free_list seg) h); [done| |done]. by left.
  - destruct k; [|done]. injection Hk as <-.
    rewrite Hh in Hb. injection Hb as <-. by rewrite Hfit.
Qed.

Lemma with_waits_same (st : allocator) : with_waits (waits st) st = st.
Proof. by destruct st. Qed.

Lemma ready_with_waits (H : host) (ws : list timespec) (st : allocator) :
  ready H st → ready H (with_waits ws st).
Proof. by apply ready_same. Qed.

Lemma ready_advance (H : host) (st : allocator) : ready H st → ready H (advance st).
Proof. by apply ready_same. Qed.

(* One timed wait at most, and none when the head fits or the footprint
   exceeds TOTAL_SIZE. *)
Lemma wait_for_free_block_eval (H : host) (st : allocator) (segs : list segment)
    (n : nat) (seg : segment) (a : Z) :
  host_ok H → ready H st → segments st = Some segs → segs !! n = Some seg →
  0 < a →
  wait_for_free_block H (Z.of_nat n) a st
  = Ok (if head_fits segs (heap st) n a then free_list seg else 0,
        if head_fits segs (heap st) n a || (TOTAL_SIZE <? a) then st
        else with_waits (wait_timeout (host_time H) :: waits st) st).
Proof.
  intros Hok Hr Hs Hn Ha. unfold wait_for_free_block.
  rewrite (segment_at_ready H st segs n seg Hr Hs Hn). cbn [mbind outcome_bind].
  rewrite (proj2 (Z.ltb_lt 0 a) Ha). cbn [assert mbind outcome_bind].
  destruct (head_positive H st segs n seg Hok Hr Hs Hn) as [Hpos _].
  rewrite (proj2 (Z.eqb_neq (free_list seg) 0)) by lia.
  cbn [negb assert mbind outcome_bind].
  rewrite (find_best_fit_head H st segs n seg a Hok Hr Hs Hn Ha).
  cbn [mbind outcome_bind].
  destruct (head_fits segs (heap st) n a).
  - rewrite (proj2 (Z.eqb_neq (free_list seg) 0)) by lia. done.
  - cbn [Z.eqb negb orb]. by destruct (TOTAL_SIZE <? a).
Qed.

Lemma segments_length (H : host) (st : allocator) (segs : list segment) :
  ready H st → segments st = Some segs → length segs = 5%nat.
Proof.
  intros (_ & _ & _ & segs' & Hs' & Hg & _) Hs.
  rewrite Hs in Hs'. injection Hs' as <-.
  by apply Forall2_length in Hg.
Qed.

Lemma first_fit_bounds (segs : list segment) (m : memory) (a : Z) (k : nat) :
  ∀ (i j : nat), first_fit segs m k i a = Some j →
    (i ≤ j < i + k)%nat ∧ head_fits segs m j a = true ∧
    ∀ x : nat, (i ≤ x < j)%nat → head_fits segs m x a = false.
Proof.
  induction k as [|k IH]; intros i j; cbn [first_fit]; [done|].
  destruct (head_fits segs m i a) eqn:Hi.
  - intros [= <-]. split; [lia|]. split; [done|]. intros x Hx. lia.
  - intros Hj. destruct (IH _ _ Hj) as (Hb & Hf & Hbelow).
    split; [lia|]. split; [done|]. intros x Hx.
    destruct (decide (x = i)) as [->|Hne]; [done|]. apply Hbelow. lia.
Qed.

Lemma first_fit_None (segs : list segment) (m : memory) (a : Z) (k : nat) :
  ∀ i : nat, first_fit segs m k i a = None →
    ∀ x : nat, (i ≤ x < i + k)%nat → head_fits segs m x a = false.
Proof.
  induction k as [|k IH]; intros i; cbn [first_fit]; [intros _ x Hx; lia|].
  destruct (head_fits segs m i a) eqn:Hi; [done|].
  intros Hn x Hx. destruct (decide (x = i)) as [->|Hne]; [done|].
  apply (IH _ Hn). lia.
Qed.

Lemma repeat_middle {A : Type} (t : A) (k : nat) (ws : list A) :
  repeat t k ++ t :: ws = t :: repeat t k ++ ws.
Proof. induction k as [|k IH]; cbn; [done|]. by rewrite IH. Qed.

(* The loop over the small segments stops at the first head that fits and
   has waited once on each segment before it. *)
Lemma wait_small_segments_eval (H : host) (segs : list segment) (a : Z) (k : nat) :
  ∀ (i : nat) (ws : list timespec) (st : allocator),
    host_ok H → ready H st → segments st = Some segs →
    (i + k ≤ 5)%nat → 0 < a <= TOTAL_SIZE →
    wait_small_segments H k (Z.of_nat i) a (with_waits ws st)
    = Ok (match first_fit segs (heap st) k i a with
          | Some j =>
              (head_of segs j, Z.of_nat j,
               with_waits (repeat (wait_timeout (host_time H)) (j - i) ++ ws) st)
          | None =>
              (0, Z.of_nat (i + k),
               with_waits (repeat (wait_timeout (host_time H)) k ++ ws) st)
          end).
Proof.
  induction k as [|k IH]; intros i ws st Hok Hr Hs Hik Ha.
  - cbn [wait_small_segments first_fit repeat app]. by rewrite Nat.add_0_r.
  - cbn [wait_small_segments first_fit].
    pose proof (segments_length H st segs Hr Hs) as Hlen.
    destruct (lookup_lt_is_Some_2 segs i) as [seg Hseg]; [lia|].
    rewrite (wait_for_free_block_eval H (with_waits ws st) segs i seg a Hok
               (ready_with_waits H ws st Hr) Hs Hseg ltac:(lia)).
    cbn [mbind outcome_bind heap with_waits].
    destruct (head_positive H st segs i seg Hok Hr Hs Hseg) as [Hpos _].
    destruct (head_fits segs (heap st) i a) eqn:Hfit.
    + cbn [orb]. rewrite (proj2 (Z.eqb_neq (free_list seg) 0)) by lia.
      cbn [negb]. unfold head_of. rewrite Hseg. cbn [fmap option_fmap option_map default from_option id].
      by rewrite Nat.sub_diag.
    + cbn [orb Z.eqb negb].
      rewrite (proj2 (Z.ltb_ge TOTAL_SIZE a)) by lia.
      change (with_waits (wait_timeout (host_time H) :: waits (with_waits ws st))
                (with_waits ws st))
        with (with_waits (wait_timeout (host_time H) :: ws) st).
      replace (Z.of_nat i + 1) with (Z.of_nat (S i)) by lia.
      rewrite (IH (S i) _ st Hok Hr Hs ltac:(lia) Ha).
      destruct (first_fit segs (heap st) k (S i) a) as [j|] eqn:Hff.
      * destruct (first_fit_bounds _ _ _ _ _ _ Hff) as [Hj _].
        rewrite repeat_middle.
        replace (j - i)%nat with (S (j - S i)) by lia. done.
      * rewrite repeat_middle. by replace (i + S k)%nat with (S i + k)%nat by lia.
Qed.

(* Taking the head of a free list that fits: the call returns the payload
   address right after the head's header; it keeps the segment indices of
   the headers in range, removes no header, and leaves the statics alone. *)
Lemma take_head_returns (H : host) (st : allocator) (segs : list segment)
    (n : nat) (seg : segment) (h : block_header) (sz : Z) :
  host_ok H → ready H st → valid_ids (heap st) →
  segments st = Some segs → segs !! n = Some seg →
  heap st !! free_list seg = Some h →
  0 < sz → sz + sizeof_block_header <= size h →
  ∃ st',
    take_block (Z.of_nat n) (free_list seg) sz st
    = Ok (free_list seg + sizeof_block_header, st') ∧
    valid_ids (heap st') ∧
    (∀ a, is_Some (heap st !! a) → is_Some (heap st' !! a)) ∧
    mutexes_destroyed st' = mutexes_destroyed st ∧
    current_segment st' = current_segment st ∧
    waits st' = waits st.
Proof.
  intros Hok Hr Hids Hs Hn Hh Hsz Hfit.
  pose proof (segment_at_ready H st segs n seg Hr Hs Hn) as Hseg.
  destruct Hr as (Hb0 & Hi & Hl & segs' & Hs' & Hg & Hinv).
  rewrite Hs in Hs'. injection Hs' as <-.
  destruct (inv_heads _ _ Hinv n seg Hn) as (h0 & Hh0 & Hnx & Hs0 & Hlo & Hend).
  rewrite Hh in Hh0. injection Hh0 as <-.
  destruct (segment_start_positive H segs n seg Hok Hb0 Hg Hn) as [Hpos Hmax].
  assert (H32 : sizeof_block_header = 32) by reflexivity.
  assert (Hmin : MIN_SPLIT_SIZE = 32) by reflexivity.
  assert (Hres : size_t (size h - sz) = size h - sz) by (apply size_t_small; lia).
  assert (Hptr : size_t (free_list seg + sizeof_block_header)
                 = free_list seg + sizeof_block_header) by (apply size_t_small; lia).
  assert (Hne : free_list seg ≠ 0) by lia.
  assert (HPnh : ¬ is_head segs (prev h)) by (eapply inv_prev; eauto).
  assert (HPc : prev h = 0 ∨ is_Some (heap st !! prev h)) by (eapply inv_closed; eauto).
  assert (Hbp : free_list seg ≠ prev h).
  { intros Heq. apply HPnh. exists n, seg. done. }
  unfold take_block. rewrite Hseg. cbn [mbind outcome_bind]. rewrite Hptr.
  destruct (decide (MIN_SPLIT_SIZE + sizeof_block_header <= size h - sz)) as [Hsplit|Hwhole].
  - set (new := free_list seg + sizeof_block_header + sz) in *.
    assert (Hnew : new = size_t (free_list seg + sizeof_block_header + sz))
      by (symmetry; apply size_t_small; unfold new; lia).
    assert (Hfresh : heap st !! new = None).
    { eapply above_head_fresh; eauto. unfold new. lia. }
    destruct (split_block_split (heap st) seg (free_list seg) sz h Hh Hne Hsz
                ltac:(rewrite Hres; done) new Hnew)
      as (m' & Hrun' & Hmn & Hmb & _ & Hmp & Hmo).
    { unfold new. lia. }
    { unfold new. lia. }
    { rewrite Hnx. unfold new. lia. }
    { destruct HPc as [->|[hp Hhp]]; [unfold new; lia|congruence]. }
    { done. }
    { rewrite Hnx. done. }
    { by left. }
    rewrite Hrun'. cbn [mbind outcome_bind].
    rewrite assign_Ok by done. cbn [mbind outcome_bind].
    rewrite Hmb. cbn [default from_option id set_free size next prev free segment_id].
    rewrite insert_id by done.
    eexists. split; [reflexivity|]. cbn [heap with_segment with_heap
      mutexes_destroyed current_segment waits].
    split; [|split; [|done]].
    + intros a ha Ha.
      destruct (decide (a = new)) as [->|Ha1].
      { rewrite Hmn in Ha. injection Ha as <-. cbn [segment_id]. eapply Hids, Hh. }
      destruct (decide (a = free_list seg)) as [->|Ha2].
      { rewrite Hmb in Ha. injection Ha as <-. cbn [segment_id]. eapply Hids, Hh. }
      destruct (decide (prev h = 0)) as [Hp0|Hp0].
      { rewrite Hmo in Ha; [by eapply Hids|done|done|by rewrite Hnx|done]. }
      destruct (decide (a = prev h)) as [->|Ha3].
      { rewrite (Hmp Hp0) in Ha. injection Ha as <-.
        destruct HPc as [?|[hp Hhp]]; [done|]. rewrite Hhp.
        cbn [default from_option id set_next segment_id]. eapply Hids, Hhp. }
      rewrite Hmo in Ha; [by eapply Hids|done|done|by rewrite Hnx|done].
    + intros a Ha.
      destruct (decide (a = new)) as [->|Ha1]; [by rewrite Hmn|].
      destruct (decide (a = free_list seg)) as [->|Ha2]; [by rewrite Hmb|].
      destruct (decide (prev h = 0)) as [Hp0|Hp0].
      { rewrite Hmo; [done|done|done|by rewrite Hnx|done]. }
      destruct (decide (a = prev h)) as [->|Ha3]; [by rewrite (Hmp Hp0)|].
      rewrite Hmo; [done|done|done|by rewrite Hnx|done].
  - rewrite (split_block_whole _ _ _ _ _ Hh Hne Hsz) by (rewrite Hres; lia).
    cbn [mbind outcome_bind].
    rewrite assign_Ok by done. cbn [mbind outcome_bind]. rewrite Hh.
    cbn [default from_option id].
    eexists. split; [reflexivity|]. cbn [heap with_segment with_heap
      mutexes_destroyed current_segment waits].
    split; [|split; [|done]].
    + intros a ha Ha. destruct (decide (a = free_list seg)) as [->|Ha2].
      * rewrite lookup_insert_eq in Ha. injection Ha as <-.
        cbn [set_free segment_id]. eapply Hids, Hh.
      * rewrite lookup_insert_ne in Ha by done. by eapply Hids.
    + intros a Ha. apply lookup_insert_is_Some'. by right.
Qed.

Lemma my_malloc_started (H : host) (sz : Z) (st : allocator) :
  initialized st = TRUE → mutexes_destroyed st = false → 0 < sz →
  my_malloc H sz st
  = (seg ← segment_at (advance st) (current_segment st);
     block ← find_best_fit (heap st) (free_list seg) (actual_size sz);
     if negb (block =? 0) then take_block (current_segment st) block sz (advance st)
     else
       '(block, seg_id, st) ←
         (if sz <=? LARGE_SIZE then
            wait_small_segments H (Z.to_nat (NUM_SEGMENTS - 1)) 0 (actual_size sz)
              (advance st)
          else
            '(block, st) ← wait_for_free_block H (NUM_SEGMENTS - 1) (actual_size sz)
                             (advance st);
            Ok (block, NUM_SEGMENTS - 1, st));
       if block =? 0 then Ok (0, st)
       else
         m ← assign (heap st) block (set_segment_id seg_id);
         take_block seg_id block sz (with_heap m st)).
Proof.
  intros Hi Hmd Hsz. unfold my_malloc.
  rewrite (proj2 (Z.ltb_lt 0 sz) Hsz). cbn [assert mbind outcome_bind].
  rewrite Hmd, Hi. reflexivity.
Qed.

Lemma take_fit (H : host) (st : allocator) (segs : list segment)
    (n : nat) (seg : segment) (sz : Z) :
  host_ok H → ready H st → valid_ids (heap st) →
  segments st = Some segs → segs !! n = Some seg →
  0 < sz → head_fits segs (heap st) n (sz + sizeof_block_header) = true →
  ∃ st',
    take_block (Z.of_nat n) (free_list seg) sz st
    = Ok (free_list seg + sizeof_block_header, st') ∧
    ready H st' ∧ valid_ids (heap st') ∧
    (∀ a, is_Some (heap st !! a) → is_Some (heap st' !! a)) ∧
    mutexes_destroyed st' = mutexes_destroyed st ∧
    current_segment st' = current_segment st ∧
    waits st' = waits st.
Proof.
  intros Hok Hr Hids Hs Hn Hsz Hfit.
  destruct (head_fits_head H st segs n seg (sz + sizeof_block_header) Hr Hs Hn)
    as (h & Hh & _ & _ & Hhf).
  rewrite Hfit in Hhf. symmetry in Hhf. unfold free_and_fits in Hhf.
  apply andb_true_iff in Hhf as [_ Hle%Z.leb_le].
  destruct (take_head_returns H st segs n seg h sz Hok Hr Hids Hs Hn Hh Hsz Hle)
    as (st' & Hrun & Hids' & Hgrow & Hstat).
  exists st'. split; [exact Hrun|]. split; [|done].
  pose proof (segment_at_ready H st segs n seg Hr Hs Hn) as Hseg.
  by destruct (take_head_cases H st st' (Z.of_nat n) seg h sz _ Hok Hr Hseg Hh Hsz Hle Hrun).
Qed.

(* The same after the block has been given the index of the segment it was
   found in, as my_malloc does after a wait. *)
Lemma relabel_take_fit (H : host) (st : allocator) (segs : list segment)
    (n : nat) (seg : segment) (sz : Z) :
  host_ok H → ready H st → valid_ids (heap st) →
  segments st = Some segs → segs !! n = Some seg →
  0 < sz → head_fits segs (heap st) n (sz + sizeof_block_header) = true →
  ∃ st',
    (m ← assign (heap st) (free_list seg) (set_segment_id (Z.of_nat n));
     take_block (Z.of_nat n) (free_list seg) sz (with_heap m st))
    = Ok (free_list seg + sizeof_block_header, st') ∧
    ready H st' ∧ valid_ids (heap st') ∧
    (∀ a, is_Some (heap st !! a) → is_Some (heap st' !! a)) ∧
    mutexes_destroyed st' = mutexes_destroyed st ∧
    current_segment st' = current_segment st ∧
    waits st' = waits st.
Proof.
  intros Hok Hr Hids Hs Hn Hsz Hfit.
  destruct (head_fits_head H st segs n seg (sz + sizeof_block_header) Hr Hs Hn)
    as (h & Hh & _ & _ & Hhf).
  destruct (head_positive H st segs n seg Hok Hr Hs Hn) as [Hpos _].
  pose proof (segments_length H st segs Hr Hs) as Hlen.
  pose proof (lookup_lt_Some _ _ _ Hn) as Hn5.
  rewrite assign_Ok by lia. cbn [mbind outcome_bind]. rewrite Hh.
  cbn [default from_option id].
  set (m := <[free_list seg := set_segment_id (Z.of_nat n) h]> (heap st)).
  assert (Hr1 : ready H (with_heap m st)).
  { destruct Hr as (Hb0 & Hi & Hl & segs' & Hs' & Hg & Hinv).
    split; [done|]. split; [done|]. split; [done|]. exists segs'.
    split; [done|]. split; [done|]. cbn [heap with_heap].
    eapply (heap_inv_set_segment_id segs' (heap st) m (free_list seg) (Z.of_nat n));
      [done|by eexists|].
    rewrite assign_Ok by lia. by rewrite Hh. }
  assert (Hids1 : valid_ids (heap (with_heap m st))).
  { intros a ha. cbn [heap with_heap]. unfold m.
    destruct (decide (a = free_list seg)) as [->|Hne].
    - rewrite lookup_insert_eq. intros [= <-]. cbn [set_segment_id segment_id].
      unfold NUM_SEGMENTS. lia.
    - rewrite lookup_insert_ne by done. apply Hids. }
  assert (Hfit1 : head_fits segs (heap (with_heap m st)) n (sz + sizeof_block_header)
                  = true).
  { rewrite <- Hfit, Hhf. unfold head_fits. rewrite Hn. cbn [heap with_heap].
    unfold m. by rewrite lookup_insert_eq. }
  destruct (take_fit H (with_heap m st) segs n seg sz Hok Hr1 Hids1 Hs Hn Hsz Hfit1)
    as (st' & Hrun & Hr' & Hids' & Hgrow & Hstat).
  exists st'. split; [exact Hrun|]. split; [done|]. split; [done|]. split; [|done].
  intros a Ha. apply Hgrow. cbn [heap with_heap]. unfold m.
  apply lookup_insert_is_Some'. by right.
Qed.

Lemma steady_advance (H : host) (st : allocator) : steady H st → steady H (advance st).
Proof.
  intros (Hr & Hmd & Hc & Hids). split; [by apply ready_advance|].
  split; [done|]. split; [|done]. cbn [current_segment advance].
  apply Z.mod_pos_bound. unfold NUM_SEGMENTS. lia.
Qed.

Lemma current_segment_lookup (H : host) (st : allocator) (segs : list segment) :
  steady H st → segments st = Some segs →
  ∃ seg, segs !! Z.to_nat (current_segment st) = Some seg.
Proof.
  intros (Hr & _ & Hc & _) Hs.
  pose proof (segments_length H st segs Hr Hs) as Hlen.
  apply lookup_lt_is_Some_2. unfold NUM_SEGMENTS in Hc. lia.
Qed.

(* The first search of my_malloc. *)
Lemma my_malloc_first_search (H : host) (sz : Z) (st : allocator)
    (segs : list segment) (seg : segment) :
  host_ok H → steady H st → segments st = Some segs →
  0 < sz <= SIZE_MAX - sizeof_block_header →
  segs !! Z.to_nat (current_segment st) = Some seg →
  my_malloc H sz st
  = (if head_fits segs (heap st) (Z.to_nat (current_segment st))
          (sz + sizeof_block_header)
     then take_block (current_segment st) (free_list seg) sz (advance st)
     else
       '(block, seg_id, st) ←
         (if sz <=? LARGE_SIZE then
            wait_small_segments H (Z.to_nat (NUM_SEGMENTS - 1)) 0
              (sz + sizeof_block_header) (advance st)
          else
            '(block, st) ← wait_for_free_block H (NUM_SEGMENTS - 1)
                             (sz + sizeof_block_header) (advance st);
            Ok (block, NUM_SEGMENTS - 1, st));
       if block =? 0 then Ok (0, st)
       else
         m ← assign (heap st) block (set_segment_id seg_id);
         take_block seg_id block sz (with_heap m st)).
Proof.
  intros Hok (Hr & Hmd & Hc & Hids) Hs Hsz Hn.
  pose proof Hr as (_ & Hi & _).
  rewrite (my_malloc_started H sz st Hi Hmd ltac:(lia)).
  rewrite (actual_size_plain sz Hsz).
  pose proof (segment_at_ready H (advance st) segs _ seg (ready_advance H st Hr) Hs Hn)
    as Hseg.
  rewrite Z2Nat.id in Hseg by lia. rewrite Hseg. cbn [mbind outcome_bind].
  rewrite (find_best_fit_head H st segs _ seg _ Hok Hr Hs Hn)
    by (unfold sizeof_block_header; lia).
  cbn [mbind outcome_bind].
  destruct (head_positive H st segs _ seg Hok Hr Hs Hn) as [Hpos _].
  destruct (head_fits segs (heap st) _ _); [|done].
  rewrite (proj2 (Z.eqb_neq (free_list seg) 0)) by lia. done.
Qed.

Lemma head_of_lookup (segs : list segment) (n : nat) (seg : segment) :
  segs !! n = Some seg → head_of segs n = free_list seg.
Proof. intros Hn. unfold head_of. by rewrite Hn. Qed.

(* The round robin segment serves. *)
Lemma my_malloc_hit (H : host) (sz : Z) (st : allocator)
    (segs : list segment) (seg : segment) :
  host_ok H → steady H st → segments st = Some segs →
  0 < sz <= SIZE_MAX - sizeof_block_header →
  segs !! Z.to_nat (current_segment st) = Some seg →
  head_fits segs (heap st) (Z.to_nat (current_segment st)) (sz + sizeof_block_header)
  = true →
  ∃ st',
    my_malloc H sz st = Ok (free_list seg + sizeof_block_header, st') ∧
    steady H st' ∧
    (∀ a, is_Some (heap st !! a) → is_Some (heap st' !! a)) ∧
    current_segment st' = (current_segment st + 1) mod (NUM_SEGMENTS - 1) ∧
    waits st' = waits st.
Proof.
  intros Hok Hst Hs Hsz Hn Hfit.
  rewrite (my_malloc_first_search H sz st segs seg Hok Hst Hs Hsz Hn), Hfit.
  pose proof (steady_advance H st Hst) as (Hr1 & Hmd1 & Hc1 & Hids1).
  destruct Hst as (Hr & Hmd & Hc & Hids).
  destruct (take_fit H (advance st) segs _ seg sz Hok Hr1 Hids1 Hs Hn ltac:(lia) Hfit)
    as (st' & Hrun & Hr' & Hids' & Hgrow & Hmd' & Hc' & Hw').
  rewrite Z2Nat.id in Hrun by lia.
  exists st'. split; [exact Hrun|]. split.
  { split; [done|]. split; [congruence|]. split; [|done]. by rewrite Hc'. }
  split; [exact Hgrow|]. split; [exact Hc'|exact Hw'].
Qed.

(* The round robin segment misses and the request is a small one. *)
Lemma my_malloc_small_miss (H : host) (sz : Z) (st : allocator)
    (segs : list segment) :
  host_ok H → steady H st → segments st = Some segs →
  0 < sz <= LARGE_SIZE →
  head_fits segs (heap st) (Z.to_nat (current_segment st)) (sz + sizeof_block_header)
  = false →
  my_malloc H sz st
  = match first_fit segs (heap st) 4 0 (sz + sizeof_block_header) with
    | Some j =>
        m ← assign (heap st) (head_of segs j) (set_segment_id (Z.of_nat j));
        take_block (Z.of_nat j) (head_of segs j) sz
          (with_heap m
             (with_waits (repeat (wait_timeout (host_time H)) j ++ waits st)
                (advance st)))
    | None =>
        Ok (0, with_waits (repeat (wait_timeout (host_time H)) 4 ++ waits st)
                 (advance st))
    end.
Proof.
  intros Hok Hst Hs Hsz Hmiss.
  destruct (current_segment_lookup H st segs Hst Hs) as [seg Hn].
  assert (Hplain : 0 < sz <= SIZE_MAX - sizeof_block_header)
    by (unfold LARGE_SIZE, SIZE_MAX, sizeof_block_header in *; lia).
  rewrite (my_malloc_first_search H sz st segs seg Hok Hst Hs Hplain Hn), Hmiss.
  rewrite (proj2 (Z.leb_le sz LARGE_SIZE)) by lia.
  destruct Hst as (Hr & Hmd & Hc & Hids).
  pose proof (ready_advance H st Hr) as Hr1.
  rewrite <- (with_waits_same (advance st)) at 1.
  change (Z.to_nat (NUM_SEGMENTS - 1)) with 4%nat.
  change (wait_small_segments H 4 0) with (wait_small_segments H 4 (Z.of_nat 0)).
  rewrite (wait_small_segments_eval H segs _ 4 0 _ (advance st) Hok Hr1 Hs)
    by (unfold LARGE_SIZE, TOTAL_SIZE, sizeof_block_header in *; lia).
  cbn [mbind outcome_bind heap advance].
  destruct (first_fit segs (heap st) 4 0 (sz + sizeof_block_header)) as [j|] eqn:Hff.
  - destruct (first_fit_bounds _ _ _ _ _ _ Hff) as (Hj & _ & _).
    pose proof (segments_length H st segs Hr Hs) as Hlen.
    destruct (lookup_lt_is_Some_2 segs j) as [sj Hsj]; [lia|].
    destruct (head_positive H st segs j sj Hok Hr Hs Hsj) as [Hpos _].
    rewrite (head_of_lookup _ _ _ Hsj).
    rewrite (proj2 (Z.eqb_neq (free_list sj) 0)) by lia.
    by rewrite Nat.sub_0_r.
  - done.
Qed.

(* The round robin segment misses and the request is a large one. *)
Lemma my_malloc_large_miss (H : host) (sz : Z) (st : allocator)
    (segs : list segment) :
  host_ok H → steady H st → segments st = Some segs →
  LARGE_SIZE < sz <= SIZE_MAX - sizeof_block_header →
  head_fits segs (heap st) (Z.to_nat (current_segment st)) (sz + sizeof_block_header)
  = false →
  my_malloc H sz st
  = if head_fits segs (heap st) 4 (sz + sizeof_block_header) then
      m ← assign (heap st) (head_of segs 4) (set_segment_id 4);
      take_block 4 (head_of segs 4) sz (with_heap m (advance st))
    else
      Ok (0, if TOTAL_SIZE <? sz + sizeof_block_header then advance st
             else with_waits (wait_timeout (host_time H) :: waits st) (advance st)).
Proof.
  intros Hok Hst Hs Hsz Hmiss.
  destruct (current_segment_lookup H st segs Hst Hs) as [seg Hn].
  assert (Hplain : 0 < sz <= SIZE_MAX - sizeof_block_header)
    by (unfold LARGE_SIZE in *; lia).
  rewrite (my_malloc_first_search H sz st segs seg Hok Hst Hs Hplain Hn), Hmiss.
  rewrite (proj2 (Z.leb_gt sz LARGE_SIZE)) by lia.
  destruct Hst as (Hr & Hmd & Hc & Hids).
  pose proof (ready_advance H st Hr) as Hr1.
  pose proof (segments_length H st segs Hr Hs) as Hlen.
  destruct (lookup_lt_is_Some_2 segs 4) as [s4 Hs4]; [lia|].
  change (NUM_SEGMENTS - 1) with (Z.of_nat 4).
  rewrite (wait_for_free_block_eval H (advance st) segs 4 s4 _ Hok Hr1 Hs Hs4)
    by (unfold sizeof_block_header; lia).
  cbn [mbind outcome_bind heap advance].
  destruct (head_positive H st segs 4 s4 Hok Hr Hs Hs4) as [Hpos _].
  rewrite (head_of_lookup _ _ _ Hs4).
  destruct (head_fits segs (heap st) 4 (sz + sizeof_block_header)).
  - cbn [orb]. rewrite (proj2 (Z.eqb_neq (free_list s4) 0)) by lia. done.
  - cbn [orb Z.eqb]. done.
Qed.

Lemma steady_with_waits (H : host) (ws : list timespec) (st : allocator) :
  steady H st → steady H (with_waits ws st).
Proof.
  intros (Hr & Hmd & Hc & Hids). split; [by apply ready_with_waits|]. done.
Qed.

(* On a started allocator a request whose footprint does not wrap returns:
   NULL, or the payload address of the head of some free list. *)
Lemma my_malloc_steady (H : host) (sz : Z) (st : allocator) (segs : list segment) :
  host_ok H → steady H st → segments st = Some segs →
  0 < sz <= SIZE_MAX - sizeof_block_header →
  ∃ p st',
    my_malloc H sz st = Ok (p, st') ∧ steady H st' ∧
    (∀ a, is_Some (heap st !! a) → is_Some (heap st' !! a)) ∧
    (p = 0 ∨ ∃ (n : nat) seg, segs !! n = Some seg ∧
                              p = free_list seg + sizeof_block_header).
Proof.
  intros Hok Hst Hs Hsz.
  destruct (current_segment_lookup H st segs Hst Hs) as [seg Hn].
  pose proof Hst as (Hr & Hmd & Hc & Hids).
  pose proof (segments_length H st segs Hr Hs) as Hlen.
  assert (Hserve : ∀ (j : nat) sj ws,
            segs !! j = Some sj →
            head_fits segs (heap st) j (sz + sizeof_block_header) = true →
            ∃ p st',
              (m ← assign (heap st) (head_of segs j) (set_segment_id (Z.of_nat j));
               take_block (Z.of_nat j) (head_of segs j) sz
                 (with_heap m (with_waits ws (advance st)))) = Ok (p, st') ∧
              steady H st' ∧
              (∀ a, is_Some (heap st !! a) → is_Some (heap st' !! a)) ∧
              (p = 0 ∨ ∃ (n : nat) seg, segs !! n = Some seg ∧
                                        p = free_list seg + sizeof_block_header)).
  { intros j sj ws Hj Hfit.
    pose proof (steady_with_waits H ws _ (steady_advance H st Hst))
      as (Hr2 & Hmd2 & Hc2 & Hids2).
    destruct (relabel_take_fit H (with_waits ws (advance st)) segs j sj sz
                Hok Hr2 Hids2 Hs Hj ltac:(lia) Hfit)
      as (st' & Hrun & Hr' & Hids' & Hgrow & Hmd' & Hc' & _).
    rewrite (head_of_lookup _ _ _ Hj).
    exists (free_list sj + sizeof_block_header), st'.
    split; [exact Hrun|]. split.
    { split; [done|]. split; [congruence|]. split; [by rewrite Hc'|done]. }
    split; [exact Hgrow|]. right. by exists j, sj. }
  destruct (head_fits segs (heap st) (Z.to_nat (current_segment st))
              (sz + sizeof_block_header)) eqn:Hfit.
  - destruct (my_malloc_hit H sz st segs seg Hok Hst Hs Hsz Hn Hfit)
      as (st' & Hrun & Hst' & Hgrow & _).
    exists (free_list seg + sizeof_block_header), st'.
    split; [done|]. split; [done|]. split; [done|]. right. eauto.
  - destruct (decide (sz <= LARGE_SIZE)) as [Hle|Hgt].
    + rewrite (my_malloc_small_miss H sz st segs Hok Hst Hs ltac:(lia) Hfit).
      destruct (first_fit segs (heap st) 4 0 (sz + sizeof_block_header))
        as [j|] eqn:Hff.
      * destruct (first_fit_bounds _ _ _ _ _ _ Hff) as (Hj & Hfj & _).
        destruct (lookup_lt_is_Some_2 segs j) as [sj Hsj]; [lia|].
        by apply (Hserve j sj).
      * eexists 0, _. split; [reflexivity|].
        split; [by apply steady_with_waits, steady_advance|].
        split; [done|by left].
    + rewrite (my_malloc_large_miss H sz st segs Hok Hst Hs ltac:(lia) Hfit).
      destruct (head_fits segs (heap st) 4 (sz + sizeof_block_header)) eqn:Hf4.
      * destruct (lookup_lt_is_Some_2 segs 4) as [s4 Hs4]; [lia|].
        rewrite <- (with_waits_same (advance st)).
        exact (Hserve 4%nat s4 _ Hs4 Hf4).
      * eexists 0, _. split; [reflexivity|]. split; [|split; [|by left]].
        -- destruct (TOTAL_SIZE <? sz + sizeof_block_header);
             [by apply steady_advance|by apply steady_with_waits, steady_advance].
        -- by destruct (TOTAL_SIZE <? sz + sizeof_block_header).
Qed.

(** ** my_free, run forward *)

Lemma guarded_assign (m : memory) (p : Z) (f : block_header → block_header) :
  ∃ m', (if decide (p = 0) then Ok m else assign m p f) = Ok m' ∧
        ∀ a, is_Some (m !! a) → is_Some (m' !! a).
Proof.
  destruct (decide (p = 0)); [by exists m|].
  rewrite assign_Ok by done. eexists. split; [done|].
  intros a Ha. apply lookup_insert_is_Some'. by right.
Qed.

Lemma assign_returns (m : memory) (p : Z) (f : block_header → block_header) :
  p ≠ 0 →
  ∃ m', assign m p f = Ok m' ∧ ∀ a, is_Some (m !! a) → is_Some (m' !! a).
Proof.
  intros Hp. rewrite assign_Ok by done. eexists. split; [done|].
  intros a Ha. apply lookup_insert_is_Some'. by right.
Qed.

Lemma deref_is_Some (m : memory) (p : Z) :
  is_Some (m !! p) → ∃ h, deref m p = Ok h ∧ m !! p = Some h.
Proof. intros [h Hh]. exists h. by rewrite (deref_Some _ _ _ Hh). Qed.

(* The assertions of merge_blocks are all that can stop it. *)
Lemma merge_blocks_returns (m : memory) (block1 block2 : Z) (b1 b2 : block_header) :
  m !! block1 = Some b1 → m !! block2 = Some b2 →
  block1 ≠ 0 → block2 ≠ 0 → free b1 = true → free b2 = true →
  size_t (block1 + sizeof_block_header + size b1) = block2 →
  ∃ m', merge_blocks m block1 block2 = Ok m' ∧
        ∀ a, is_Some (m !! a) → is_Some (m' !! a).
Proof.
  intros H1 H2 Hn1 Hn2 Hf1 Hf2 Hadj. unfold merge_blocks.
  rewrite (proj2 (Z.eqb_neq block1 0)), (proj2 (Z.eqb_neq block2 0)) by done.
  cbn [negb assert mbind outcome_bind].
  rewrite (deref_Some _ _ _ H1), (deref_Some _ _ _ H2). cbn [mbind outcome_bind].
  rewrite Hf1, Hf2, Hadj, Z.eqb_refl. cbn [andb assert mbind outcome_bind].
  destruct (guarded_assign m (prev b2) (set_next (next b2))) as (m1 & -> & Hg1).
  cbn [mbind outcome_bind].
  destruct (deref_is_Some m1 block2) as (h2 & -> & _); [by apply Hg1|].
  cbn [mbind outcome_bind].
  destruct (guarded_assign m1 (next h2) (set_prev (prev h2))) as (m2 & -> & Hg2).
  cbn [mbind outcome_bind].
  destruct (deref_is_Some m2 block1) as (h1' & -> & _); [by apply Hg2, Hg1|].
  cbn [mbind outcome_bind].
  destruct (deref_is_Some m2 block2) as (h2' & -> & _); [by apply Hg2, Hg1|].
  cbn [mbind outcome_bind].
  destruct (assign_returns m2 block1
              (set_size (size_t (size h1' + (size h2' + sizeof_block_header)))) Hn1)
    as (m3 & -> & Hg3).
  cbn [mbind outcome_bind].
  destruct (deref_is_Some m3 block2) as (h2'' & -> & _); [by apply Hg3, Hg2, Hg1|].
  cbn [mbind outcome_bind].
  destruct (assign_returns m3 block1 (set_next (next h2'')) Hn1) as (m4 & -> & Hg4).
  cbn [mbind outcome_bind].
  destruct (deref_is_Some m4 block2) as (h2''' & -> & _);
    [by apply Hg4, Hg3, Hg2, Hg1|].
  cbn [mbind outcome_bind].
  destruct (guarded_assign m4 (next h2''') (set_prev block1)) as (m5 & -> & Hg5).
  exists m5. split; [done|]. intros a Ha. by apply Hg5, Hg4, Hg3, Hg2, Hg1.
Qed.

Section keeps.
(* A property of headers that no assignment of merge_blocks or my_free
   breaks. *)
Variable P : block_header → Prop.
Hypothesis P_indeterminate : P indeterminate.
Hypothesis P_next : ∀ v h, P h → P (set_next v h).
Hypothesis P_prev : ∀ v h, P h → P (set_prev v h).
Hypothesis P_size : ∀ v h, P h → P (set_size v h).
Hypothesis P_free : ∀ v h, P h → P (set_free v h).

Lemma assign_keeps (m m' : memory) (p : Z) (f : block_header → block_header) :
  (∀ h, P h → P (f h)) →
  map_Forall (λ _, P) m → assign m p f = Ok m' → map_Forall (λ _, P) m'.
Proof.
  intros Hf Hm [_ ->]%assign_inv. apply map_Forall_insert_2; [|done].
  apply Hf. destruct (m !! p) as [h|] eqn:Hh; [|done]. exact (Hm p h Hh).
Qed.

Lemma merge_blocks_keeps (m m' : memory) (block1 block2 : Z) :
  map_Forall (λ _, P) m → merge_blocks m block1 block2 = Ok m' →
  map_Forall (λ _, P) m'.
Proof.
  intros Hm Hrun. unfold merge_blocks in Hrun.
  apply bind_Ok in Hrun as (_ & _ & Hrun).
  apply bind_Ok in Hrun as (_ & _ & Hrun).
  apply bind_Ok in Hrun as (b1 & _ & Hrun).
  apply bind_Ok in Hrun as (b2 & _ & Hrun).
  apply bind_Ok in Hrun as (_ & _ & Hrun).
  apply bind_Ok in Hrun as (_ & _ & Hrun).
  apply bind_Ok in Hrun as (m1 & Hm1 & Hrun).
  assert (H1 : map_Forall (λ _, P) m1).
  { destruct (decide (prev b2 = 0)); [by injection Hm1 as <-|].
    eapply assign_keeps; [|exact Hm|exact Hm1]. auto. }
  clear Hm1 b1 b2.
  apply bind_Ok in Hrun as (b2 & _ & Hrun).
  apply bind_Ok in Hrun as (m2 & Hm2 & Hrun).
  assert (H2 : map_Forall (λ _, P) m2).
  { destruct (decide (next b2 = 0)); [by injection Hm2 as <-|].
    eapply assign_keeps; [|exact H1|exact Hm2]. auto. }
  clear Hm2 b2.
  apply bind_Ok in Hrun as (b1 & _ & Hrun).
  apply bind_Ok in Hrun as (b2 & _ & Hrun).
  apply bind_Ok in Hrun as (m3 & Hm3 & Hrun).
  assert (H3 : map_Forall (λ _, P) m3)
    by (eapply assign_keeps; [|exact H2|exact Hm3]; auto).
  clear Hm3 b1 b2.
  apply bind_Ok in Hrun as (b2 & _ & Hrun).
  apply bind_Ok in Hrun as (m4 & Hm4 & Hrun).
  assert (H4 : map_Forall (λ _, P) m4)
    by (eapply assign_keeps; [|exact H3|exact Hm4]; auto).
  clear Hm4 b2.
  apply bind_Ok in Hrun as (b2 & _ & Hrun).
  destruct (decide (next b2 = 0)); [by injection Hrun as <-|].
  eapply assign_keeps; [|exact H4|exact Hrun]. auto.
Qed.

Lemma my_free_keeps (ptr : Z) (st st' : allocator) :
  map_Forall (λ _, P) (heap st) → my_free ptr st = Ok st' →
  map_Forall (λ _, P) (heap st').
Proof.
  intros Hm Hrun. unfold my_free in Hrun.
  destruct (decide (ptr = 0)); [by injection Hrun as <-|].
  destruct (negb (host_live st)); [done|].
  set (hdr := size_t (ptr - sizeof_block_header)) in *. clearbody hdr.
  apply bind_Ok in Hrun as (h & _ & Hrun).
  apply bind_Ok in Hrun as (_ & _ & Hrun).
  apply bind_Ok in Hrun as (m1 & Hm1 & Hrun).
  assert (H1 : map_Forall (λ _, P) m1)
    by (eapply assign_keeps; [|exact Hm|exact Hm1]; auto).
  apply bind_Ok in Hrun as (h1 & _ & Hrun).
  apply bind_Ok in Hrun as (c & _ & Hrun).
  apply bind_Ok in Hrun as ([m2 hdr2] & Hm2 & Hrun).
  assert (H2 : map_Forall (λ _, P) m2).
  { destruct c.
    - apply bind_Ok in Hm2 as (m' & Hm' & Hm2).
      apply bind_Ok in Hm2 as (h' & _ & Hm2). injection Hm2 as <- <-.
      by eapply merge_blocks_keeps.
    - by injection Hm2 as <- <-. }
  apply bind_Ok in Hrun as (h2 & _ & Hrun).
  apply bind_Ok in Hrun as (c2 & _ & Hrun).
  apply bind_Ok in Hrun as (m3 & Hm3 & Hrun). injection Hrun as <-.
  cbn [heap with_heap].
  destruct c2; [by eapply merge_blocks_keeps|by injection Hm3 as <-].
Qed.
End keeps.

Lemma my_free_valid_ids (ptr : Z) (st st' : allocator) :
  valid_ids (heap st) → my_free ptr st = Ok st' → valid_ids (heap st').
Proof.
  intros Hids Hrun.
  by apply (my_free_keeps (λ h, 0 <= segment_id h < NUM_SEGMENTS)
              ltac:(done) ltac:(done) ltac:(done) ltac:(done) ltac:(done) ptr st st').
Qed.

(* Merging a block into its left neighbour leaves its [prev] link on that
   neighbour. *)
Lemma merge_blocks_prev (m m' : memory) (block1 block2 : Z) (h2 : block_header) :
  merge_blocks m block1 block2 = Ok m' →
  m !! block2 = Some h2 → prev h2 = block1 →
  ∃ h2', m' !! block2 = Some h2' ∧ prev h2' = block1.
Proof.
  intros Hrun Hh2 Hp2.
  assert (Hstep : ∀ (m0 m1 : memory) (p : Z) (f : block_header → block_header),
            (∀ h, prev (f h) = prev h ∨ prev (f h) = block1) →
            (∃ h, m0 !! block2 = Some h ∧ prev h = block1) →
            assign m0 p f = Ok m1 →
            ∃ h, m1 !! block2 = Some h ∧ prev h = block1).
  { intros m0 m1 p f Hf (h & Hh & Hp) [_ ->]%assign_inv.
    destruct (decide (p = block2)) as [->|Hne].
    - rewrite lookup_insert_eq, Hh. cbn [default from_option id].
      eexists. split; [done|]. destruct (Hf h); congruence.
    - rewrite lookup_insert_ne by done. eauto. }
  unfold merge_blocks in Hrun.
  apply bind_Ok in Hrun as (_ & _ & Hrun).
  apply bind_Ok in Hrun as (_ & _ & Hrun).
  apply bind_Ok in Hrun as (b1 & _ & Hrun).
  apply bind_Ok in Hrun as (b2 & _ & Hrun).
  apply bind_Ok in Hrun as (_ & _ & Hrun).
  apply bind_Ok in Hrun as (_ & _ & Hrun).
  apply bind_Ok in Hrun as (m1 & Hm1 & Hrun).
  assert (H1 : ∃ h, m1 !! block2 = Some h ∧ prev h = block1).
  { destruct (decide (prev b2 = 0)); [injection Hm1 as <-; eauto|].
    eapply (Hstep m m1); [|eauto|exact Hm1]. intros h. by left. }
  clear Hm1 b1 b2.
  apply bind_Ok in Hrun as (b2 & Hb2%deref_Ok & Hrun).
  apply bind_Ok in Hrun as (m2 & Hm2 & Hrun).
  assert (H2 : ∃ h, m2 !! block2 = Some h ∧ prev h = block1).
  { destruct (decide (next b2 = 0)); [by injection Hm2 as <-|].
    eapply (Hstep m1 m2); [|exact H1|exact Hm2]. intros h. right.
    destruct H1 as (h' & Hh' & Hp'). rewrite Hb2 in Hh'. injection Hh' as <-.
    done. }
  clear Hm2 Hb2 b2.
  apply bind_Ok in Hrun as (b1 & _ & Hrun).
  apply bind_Ok in Hrun as (b2 & _ & Hrun).
  apply bind_Ok in Hrun as (m3 & Hm3 & Hrun).
  assert (H3 : ∃ h, m3 !! block2 = Some h ∧ prev h = block1).
  { eapply (Hstep m2 m3); [|exact H2|exact Hm3]. intros h. by left. }
  clear Hm3 b1 b2.
  apply bind_Ok in Hrun as (b2 & _ & Hrun).
  apply bind_Ok in Hrun as (m4 & Hm4 & Hrun).
  assert (H4 : ∃ h, m4 !! block2 = Some h ∧ prev h = block1).
  { eapply (Hstep m3 m4); [|exact H3|exact Hm4]. intros h. by left. }
  clear Hm4 b2.
  apply bind_Ok in Hrun as (b2 & _ & Hrun).
  destruct (decide (next b2 = 0)); [by injection Hrun as <-|].
  eapply (Hstep m4 m'); [|exact H4|exact Hrun]. intros h. by right.
Qed.

Lemma is_free_true (m : memory) (a : Z) :
  is_free m a = true → ∃ h, m !! a = Some h ∧ free h = true.
Proof. unfold is_free. destruct (m !! a) as [h|]; [eauto|done]. Qed.

(* A release of a pointer that has a header below it returns. *)
Lemma my_free_returns (H : host) (p : Z) (st : allocator) :
  ready H st → valid_ids (heap st) →
  sizeof_block_header < p <= SIZE_MAX →
  is_Some (heap st !! (p - sizeof_block_header)) →
  ∃ st',
    my_free p st = Ok st' ∧
    (∀ a, is_Some (heap st !! a) → is_Some (heap st' !! a)) ∧
    mutexes_destroyed st' = mutexes_destroyed st ∧
    current_segment st' = current_segment st ∧
    waits st' = waits st.
Proof.
  intros Hr Hids Hp [h Hh].
  pose proof Hr as (Hb0 & Hi & Hl & segs & Hs & Hg & Hinv).
  pose proof (segments_length H st segs Hr Hs) as Hlen.
  assert (H32 : sizeof_block_header = 32) by reflexivity.
  unfold my_free. rewrite decide_False by lia. rewrite Hl. cbn [negb].
  rewrite (size_t_small (p - sizeof_block_header)) by lia.
  set (hdr := p - sizeof_block_header) in *.
  assert (Hhdr : hdr ≠ 0) by (unfold hdr; lia).
  rewrite (deref_Some _ _ _ Hh). cbn [mbind outcome_bind].
  pose proof (Hids _ _ Hh) as Hid.
  destruct (lookup_lt_is_Some_2 segs (Z.to_nat (segment_id h))) as [sh Hsh].
  { unfold NUM_SEGMENTS in Hid. lia. }
  pose proof (segment_at_ready H st segs _ sh Hr Hs Hsh) as Hseg.
  rewrite Z2Nat.id in Hseg by lia. rewrite Hseg. cbn [mbind outcome_bind].
  rewrite assign_Ok by done. cbn [mbind outcome_bind]. rewrite Hh.
  cbn [default from_option id].
  set (m1 := <[hdr := set_free TRUE h]> (heap st)).
  assert (Hinv1 : heap_inv segs m1).
  { eapply (heap_inv_set_free segs (heap st) m1 hdr TRUE); [done|by eexists|].
    rewrite assign_Ok by done. by rewrite Hh. }
  assert (Hg1 : ∀ a, is_Some (heap st !! a) → is_Some (m1 !! a)).
  { intros a Ha. apply lookup_insert_is_Some'. by right. }
  assert (Hm1 : m1 !! hdr = Some (set_free TRUE h)) by apply lookup_insert_eq.
  rewrite (deref_Some _ _ _ Hm1). cbn [mbind outcome_bind prev set_free].
  (* the second half: coalescing with next *)
  assert (Hstage2 : ∀ m2 hdr2,
            heap_inv segs m2 → hdr2 ≠ 0 → is_free m2 hdr2 = true →
            (∀ a, is_Some (m1 !! a) → is_Some (m2 !! a)) →
            ∃ st',
              (h ← deref m2 hdr2;
               c ← (if decide (next h = 0) then Ok false
                    else
                      n ← deref m2 (next h);
                      Ok (free n &&
                          (size_t (hdr2 + sizeof_block_header + size h) =? next h)));
               m ← (if c : bool then merge_blocks m2 hdr2 (next h) else Ok m2);
               Ok (with_heap m st)) = Ok st' ∧
              (∀ a, is_Some (heap st !! a) → is_Some (heap st' !! a)) ∧
              mutexes_destroyed st' = mutexes_destroyed st ∧
              current_segment st' = current_segment st ∧
              waits st' = waits st).
  { intros m2 hdr2 Hinv2 Hn2 Hf2 Hg2.
    destruct (is_free_true _ _ Hf2) as (h2 & Hh2 & Hfree2).
    rewrite (deref_Some _ _ _ Hh2). cbn [mbind outcome_bind].
    destruct (decide (next h2 = 0)) as [Hnx|Hnx].
    { cbn [mbind outcome_bind]. eexists. split; [reflexivity|].
      cbn [heap with_heap]. split; [|done]. intros a Ha. by apply Hg2, Hg1. }
    destruct (inv_closed _ _ Hinv2 _ _ Hh2) as [_ [?|[hn Hhn]]]; [done|].
    rewrite (deref_Some _ _ _ Hhn). cbn [mbind outcome_bind].
    destruct (free hn && (size_t (hdr2 + sizeof_block_header + size h2) =? next h2))
      eqn:Hc.
    - apply andb_true_iff in Hc as [Hfn Hadj%Z.eqb_eq].
      destruct (merge_blocks_returns m2 hdr2 (next h2) h2 hn Hh2 Hhn Hn2 Hnx
                  Hfree2 Hfn Hadj) as (m3 & -> & Hg3).
      cbn [mbind outcome_bind]. eexists. split; [reflexivity|].
      cbn [heap with_heap]. split; [|done]. intros a Ha. by apply Hg3, Hg2, Hg1.
    - cbn [mbind outcome_bind]. eexists. split; [reflexivity|].
      cbn [heap with_heap]. split; [|done]. intros a Ha. by apply Hg2, Hg1. }
  assert (Hf1 : is_free m1 hdr = true) by (unfold is_free; by rewrite Hm1).
  destruct (decide (prev h = 0)) as [Hpv|Hpv].
  { cbn [mbind outcome_bind]. by apply Hstage2. }
  destruct (inv_closed _ _ Hinv1 _ _ Hm1) as [[?|[hp Hhp]] _]; [done|].
  cbn [prev set_free] in Hhp.
  rewrite (deref_Some _ _ _ Hhp). cbn [mbind outcome_bind].
  destruct (free hp && (size_t (prev h + sizeof_block_header + size hp) =? hdr))
    eqn:Hc.
  - apply andb_true_iff in Hc as [Hfp Hadj%Z.eqb_eq].
    destruct (merge_blocks_returns m1 (prev h) hdr hp (set_free TRUE h) Hhp Hm1 Hpv
                Hhdr Hfp ltac:(done) Hadj) as (m2 & Hrun & Hg2).
    rewrite Hrun. cbn [mbind outcome_bind].
    destruct (merge_blocks_prev m1 m2 (prev h) hdr _ Hrun Hm1 ltac:(done))
      as (h' & Hh' & Hp').
    rewrite (deref_Some _ _ _ Hh'). cbn [mbind outcome_bind]. rewrite Hp'.
    apply Hstage2; [|done| |done].
    + eapply merge_blocks_inv; [exact Hinv1| |exact Hrun].
      exact (inv_prev _ _ Hinv1 hdr (set_free TRUE h) Hm1).
    + rewrite (merge_blocks_flags _ _ _ _ Hrun). unfold is_free. by rewrite Hhp.
  - cbn [mbind outcome_bind]. by apply Hstage2.
Qed.

(** ** Scripts run to their end *)

Lemma initial_valid_ids (b : Z) : valid_ids (initial_heap b).
Proof.
  intros a h Ha. unfold initial_heap in Ha.
  repeat (apply lookup_insert_Some in Ha as [[_ <-]|[_ Ha]];
          [cbn [segment_id]; unfold NUM_SEGMENTS; lia|]).
  by rewrite lookup_empty in Ha.
Qed.

(* The first call, when the host grants both blocks, continues as a call on
   the initialized state. *)
Lemma my_malloc_first_call (H : host) (sz : Z) (st : allocator) :
  unready st → mutexes_destroyed st = false →
  host_region H ≠ 0 → host_array H = true →
  my_malloc H sz st
  = my_malloc H sz
      (mk_allocator (host_region H) (Some (initial_segments (host_region H)))
         (initial_heap (host_region H)) true (current_segment st) TRUE
         (waits st) false).
Proof.
  intros (Hi & Hl & Hs) Hmd Hb0 Ha. unfold my_malloc.
  destruct (assert (0 <? sz)); cbn [mbind outcome_bind]; try done.
  cbn [mutexes_destroyed initialized]. rewrite Hmd, Hi.
  unfold FALSE, TRUE. rewrite initialize_allocator_eq by done.
  cbv beta iota zeta. rewrite Hi, Hmd.
  cbn [base_ptr segments heap host_live current_segment initialized waits
       mutexes_destroyed].
  reflexivity.
Qed.

Lemma started_steady (H : host) (n : Z) (w : list timespec) :
  host_ok H → host_region H ≠ 0 → 0 <= n < NUM_SEGMENTS - 1 →
  steady H (mk_allocator (host_region H) (Some (initial_segments (host_region H)))
              (initial_heap (host_region H)) true n TRUE w false).
Proof.
  intros Hok Hb0 Hn. split; [by apply started_ready|]. split; [done|].
  split; [done|]. apply initial_valid_ids.
Qed.

Lemma run_returns (H : host) (cs : list command) :
  ∀ (ptrs : list Z) (st : allocator),
    host_ok H → plain_script cs → steady H st →
    (∀ p, p ∈ ptrs →
       p = 0 ∨ (sizeof_block_header < p <= SIZE_MAX ∧
                is_Some (heap st !! (p - sizeof_block_header)))) →
    ∃ ptrs' st', run H cs ptrs st = Ok (ptrs', st') ∧ steady H st'.
Proof.
  induction cs as [|c cs IH]; intros ptrs st Hok Hcs Hst Hptrs.
  - by exists ptrs, st.
  - destruct c as [sz|k|]; cbn [run plain_script] in *; [| |done].
    + destruct Hcs as [Hsz Hcs].
      pose proof Hst as (Hr & _).
      pose proof Hr as (_ & _ & _ & segs & Hs & _).
      destruct (my_malloc_steady H sz st segs Hok Hst Hs Hsz)
        as (p & st1 & -> & Hst1 & Hgrow & Hp).
      cbn [mbind outcome_bind]. apply IH; [done|done|done|].
      intros q [Hq|Hq]%elem_of_app.
      * destruct (Hptrs q Hq) as [?|[? ?]]; [by left|right]. split; [done|].
        by apply Hgrow.
      * apply list_elem_of_singleton in Hq as ->.
        destruct Hp as [?|(n & seg & Hn & ->)]; [by left|right].
        destruct (head_positive H st segs n seg Hok Hr Hs Hn) as [Hpos Hmax].
        split; [lia|]. apply Hgrow.
        destruct (head_fits_head H st segs n seg 0 Hr Hs Hn) as (h & Hh & _).
        replace (free_list seg + sizeof_block_header - sizeof_block_header)
          with (free_list seg) by lia.
        by eexists.
    + pose proof Hst as (Hr & Hmd & Hc & Hids).
      assert (Hq : default 0 (ptrs !! k) = 0 ∨
                   (sizeof_block_header < default 0 (ptrs !! k) <= SIZE_MAX ∧
                    is_Some (heap st !! (default 0 (ptrs !! k) - sizeof_block_header)))).
      { destruct (ptrs !! k) as [q|] eqn:Hk; [|by left].
        apply Hptrs. by eapply list_elem_of_lookup_2. }
      destruct Hq as [->|[Hq1 Hq2]].
      * cbn [my_free decide]. unfold my_free. rewrite decide_True by done.
        cbn [mbind outcome_bind]. by apply IH.
      * destruct (my_free_returns H _ st Hr Hids Hq1 Hq2)
          as (st1 & Hrun & Hgrow & Hmd1 & Hc1 & _).
        rewrite Hrun. cbn [mbind outcome_bind]. apply IH; [done|done| |].
        -- split; [by eapply my_free_ready|]. split; [congruence|].
           split; [by rewrite Hc1|]. by eapply my_free_valid_ids.
        -- intros q Hq. destruct (Hptrs q Hq) as [?|[? ?]]; [by left|right].
           split; [done|]. by apply Hgrow.
Qed.

(* From the start of the program, on a host that grants the two blocks. *)
Lemma run_from_start (H : host) (cs : list command) :
  host_ok H → host_region H ≠ 0 → host_array H = true → plain_script cs →
  ∃ ptrs st, run H cs [] startup = Ok (ptrs, st) ∧ (st = startup ∨ steady H st).
Proof.
  intros Hok Hb0 Ha. induction cs as [|c cs IH]; intros Hcs.
  - eexists _, _. split; [done|by left].
  - destruct c as [sz|k|]; cbn [run plain_script] in *; [| |done].
    + destruct Hcs as [Hsz Hcs].
      rewrite (my_malloc_first_call H sz startup) by (done || by repeat split).
      cbn [current_segment waits startup].
      pose proof (started_steady H 0 [] Hok Hb0 ltac:(unfold NUM_SEGMENTS; lia))
        as Hst.
      destruct (my_malloc_steady H sz _ _ Hok Hst eq_refl Hsz)
        as (p & st1 & -> & Hst1 & Hgrow & Hp).
      cbn [mbind outcome_bind app].
      destruct (run_returns H cs [p] st1 Hok Hcs Hst1) as (ptrs' & st' & Hrun & Hst').
      { intros q Hq%list_elem_of_singleton. subst q.
        destruct Hp as [?|(n & seg & Hn & ->)]; [by left|right].
        pose proof Hst as (Hr & _).
        destruct (head_positive H _ _ n seg Hok Hr eq_refl Hn) as [Hpos Hmax].
        split; [lia|]. apply Hgrow.
        destruct (head_fits_head H _ _ n seg 0 Hr eq_refl Hn) as (h & Hh & _).
        replace (free_list seg + sizeof_block_header - sizeof_block_header)
          with (free_list seg) by lia.
        by eexists. }
      exists ptrs', st'. split; [done|by right].
    + rewrite lookup_nil. cbn [default from_option].
      unfold my_free. rewrite decide_True by done.
      cbn [mbind outcome_bind]. by apply IH.
Qed.

(* A state reached from the start in which the segments exist. *)
Lemma reached_steady (H : host) (cs : list command) (ptrs : list Z)
    (st : allocator) (segs : list segment) :
  host_ok H → host_region H ≠ 0 → host_array H = true → plain_script cs →
  run H cs [] startup = Ok (ptrs, st) → segments st = Some segs →
  steady H st.
Proof.
  intros Hok Hb0 Ha Hcs Hrun Hs.
  destruct (run_from_start H cs Hok Hb0 Ha Hcs) as (ptrs0 & st0 & Hrun0 & Hst0).
  rewrite Hrun in Hrun0. injection Hrun0 as <- <-.
  destruct Hst0 as [->|?]; [discriminate|done].
Qed.

(** X2: no legitimate use goes wrong.  When the host grants the two blocks,
    every sequence of calls to my_malloc whose footprint does not wrap and
    of calls to my_free on NULL or on pointers that my_malloc has returned
    (released or not: a pointer may be released twice) runs to its end from
    the start of the program: no assertion fires, no header is read through
    NULL or outside the headers written so far, and every walk of a free list
    ends. *)
Theorem plain_script_runs (H : host) (cs : list command) :
  host_ok H → host_region H ≠ 0 → host_array H = true → plain_script cs →
  ∃ ptrs st, run H cs [] startup = Ok (ptrs, st).
Proof.
  intros Hok Hb0 Ha Hcs.
  destruct (run_from_start H cs Hok Hb0 Ha Hcs) as (ptrs & st & Hrun & _).
  by exists ptrs, st.
Qed.

Lemma plain_script_runs_witness :
  ∃ ptrs st,
    run host0 [Malloc 64; Free 0%nat; Free 0%nat; Malloc 5000000; Free 7%nat;
               Malloc 4194305] [] startup = Ok (ptrs, st).
Proof.
  apply (plain_script_runs host0).
  - unfold host_ok, host0, TOTAL_SIZE, SIZE_MAX. cbn. lia.
  - discriminate.
  - reflexivity.
  - cbn. unfold SIZE_MAX, sizeof_block_header. lia.
Defined.

(** ** Which segment serves a request *)

Lemma first_fit_complete (segs : list segment) (m : memory) (a : Z) (j : nat) (k : nat) :
  ∀ i : nat, (i ≤ j < i + k)%nat →
    head_fits segs m j a = true →
    (∀ x : nat, (i ≤ x < j)%nat → head_fits segs m x a = false) →
    first_fit segs m k i a = Some j.
Proof.
  induction k as [|k IH]; intros i Hij Hfit Hbelow; [lia|].
  cbn [first_fit]. destruct (decide (i = j)) as [->|Hne].
  - by rewrite Hfit.
  - rewrite Hbelow by lia. apply IH; [lia|done|]. intros x Hx. apply Hbelow. lia.
Qed.

Lemma host0_ok : host_ok host0.
Proof. unfold host_ok, host0, TOTAL_SIZE, SIZE_MAX. cbn. lia. Qed.

(** X3: the round robin segment is tried first, for any size.  In a state
    reached from the start of the program, when the head of the free list of
    segment [current_segment] is marked free and has room for the footprint
    size + sizeof(header), my_malloc returns the payload address of that
    block without any timed wait and advances [current_segment] by one
    modulo NUM_SEGMENTS - 1.  LARGE_SIZE plays no part: a request above it
    is served from a small segment in this way. *)
Theorem round_robin_segment_serves (H : host) (cs : list command) (ptrs : list Z)
    (st : allocator) (segs : list segment) (seg : segment) (sz : Z) :
  host_ok H → host_region H ≠ 0 → host_array H = true → plain_script cs →
  run H cs [] startup = Ok (ptrs, st) → segments st = Some segs →
  0 < sz <= SIZE_MAX - sizeof_block_header →
  segs !! Z.to_nat (current_segment st) = Some seg →
  head_fits segs (heap st) (Z.to_nat (current_segment st)) (sz + sizeof_block_header)
  = true →
  ∃ st',
    my_malloc H sz st = Ok (free_list seg + sizeof_block_header, st') ∧
    current_segment st' = (current_segment st + 1) mod (NUM_SEGMENTS - 1) ∧
    waits st' = waits st.
Proof.
  intros Hok Hb0 Ha Hcs Hrun Hs Hsz Hn Hfit.
  pose proof (reached_steady H cs ptrs st segs Hok Hb0 Ha Hcs Hrun Hs) as Hst.
  destruct (my_malloc_hit H sz st segs seg Hok Hst Hs Hsz Hn Hfit)
    as (st' & Hm & _ & _ & Hc & Hw).
  by exists st'.
Qed.

Lemma round_robin_segment_serves_witness :
  ∃ st',
    my_malloc host0 4194305 (state_after host0 [Malloc 64])
    = Ok (4096 + 5242880 + sizeof_block_header, st') ∧
    current_segment st' = 2 ∧
    waits st' = [].
Proof.
  apply (round_robin_segment_serves host0 [Malloc 64] [4128]
           (state_after host0 [Malloc 64])
           [mk_segment 5242880 4096 4192;
            mk_segment 5242880 (4096 + 5242880) (4096 + 5242880);
            mk_segment 5242880 (4096 + 10485760) (4096 + 10485760);
            mk_segment 5242880 (4096 + 15728640) (4096 + 15728640);
            mk_segment 83886080 (4096 + 20971520) (4096 + 20971520)]
           (mk_segment 5242880 (4096 + 5242880) (4096 + 5242880)) 4194305).
  - exact host0_ok.
  - discriminate.
  - reflexivity.
  - cbn. unfold SIZE_MAX, sizeof_block_header. lia.
  - vm_compute; reflexivity.
  - vm_compute; reflexivity.
  - unfold SIZE_MAX, sizeof_block_header. lia.
  - vm_compute; reflexivity.
  - vm_compute; reflexivity.
Defined.

(* What a small request gets on a started allocator. *)
Lemma small_request_outcome (H : host) (st : allocator) (segs : list segment) (sz : Z) :
  host_ok H → steady H st → segments st = Some segs →
  0 < sz <= LARGE_SIZE →
  ∃ p st',
    my_malloc H sz st = Ok (p, st') ∧
    (p = 0 ↔ ∀ x : nat, (x < 4)%nat →
               head_fits segs (heap st) x (sz + sizeof_block_header) = false) ∧
    (p = 0 →
     heap st' = heap st ∧ segments st' = segments st ∧
     waits st' = repeat (wait_timeout (host_time H)) 4 ++ waits st) ∧
    (p ≠ 0 →
     host_region H + sizeof_block_header <= p ∧
     p + sz <= host_region H + 4 * 5242880).
Proof.
  intros Hok Hst Hs Hsz.
  pose proof Hst as (Hr & Hmd & Hc & Hids).
  pose proof Hr as (_ & _ & _ & segs' & Hs' & Hg & Hinv).
  rewrite Hs in Hs'. injection Hs' as <-.
  pose proof (segments_length H st segs Hr Hs) as Hlen.
  assert (Hplain : 0 < sz <= SIZE_MAX - sizeof_block_header)
    by (unfold LARGE_SIZE, SIZE_MAX, sizeof_block_header in *; lia).
  (* a pointer taken from a small segment *)
  assert (Hin : ∀ (j : nat) sj,
            (j < 4)%nat → segs !! j = Some sj →
            head_fits segs (heap st) j (sz + sizeof_block_header) = true →
            free_list sj + sizeof_block_header ≠ 0 ∧
            host_region H + sizeof_block_header
            <= free_list sj + sizeof_block_header ∧
            free_list sj + sizeof_block_header + sz <= host_region H + 4 * 5242880).
  { intros j sj Hj Hsj Hfit.
    destruct (head_fits_head H st segs j sj (sz + sizeof_block_header) Hr Hs Hsj)
      as (h & Hh & _ & Hend & Hhf).
    rewrite Hfit in Hhf. symmetry in Hhf. unfold free_and_fits in Hhf.
    apply andb_true_iff in Hhf as [_ Hle%Z.leb_le].
    destruct (head_positive H st segs j sj Hok Hr Hs Hsj) as [Hpos _].
    pose proof (head_in_segment _ _ _ _ _ Hg Hinv Hsj) as [Hlo _].
    destruct (geometry_lookup _ _ _ _ Hg Hsj) as (_ & Hstart & Hsize).
    rewrite decide_True in Hsize by done.
    unfold sizeof_block_header in *. lia. }
  destruct (head_fits segs (heap st) (Z.to_nat (current_segment st))
              (sz + sizeof_block_header)) eqn:Hfit.
  - destruct (current_segment_lookup H st segs Hst Hs) as [seg Hn].
    destruct (my_malloc_hit H sz st segs seg Hok Hst Hs Hplain Hn Hfit)
      as (st' & Hm & _).
    assert (Hc4 : (Z.to_nat (current_segment st) < 4)%nat)
      by (unfold NUM_SEGMENTS in Hc; lia).
    destruct (Hin _ seg Hc4 Hn Hfit) as (Hnz & Hlo & Hhi).
    exists (free_list seg + sizeof_block_header), st'.
    split; [exact Hm|]. split; [|split; [done|done]].
    split; [done|]. intros Hnone. rewrite Hnone in Hfit by done. done.
  - rewrite (my_malloc_small_miss H sz st segs Hok Hst Hs Hsz Hfit).
    destruct (first_fit segs (heap st) 4 0 (sz + sizeof_block_header))
      as [j|] eqn:Hff.
    + destruct (first_fit_bounds _ _ _ _ _ _ Hff) as (Hj & Hfj & _).
      destruct (lookup_lt_is_Some_2 segs j) as [sj Hsj]; [lia|].
      pose proof (steady_with_waits H
                    (repeat (wait_timeout (host_time H)) j ++ waits st) _
                    (steady_advance H st Hst)) as (Hr2 & Hmd2 & Hc2 & Hids2).
      destruct (relabel_take_fit H _ segs j sj sz Hok Hr2 Hids2 Hs Hsj
                  ltac:(lia) Hfj) as (st' & Hm & _).
      rewrite (head_of_lookup _ _ _ Hsj).
      destruct (Hin j sj ltac:(lia) Hsj Hfj) as (Hnz & Hlo & Hhi).
      exists (free_list sj + sizeof_block_header), st'.
      split; [exact Hm|]. split; [|split; [done|done]].
      split; [done|]. intros Hnone. rewrite Hnone in Hfj by lia. done.
    + exists 0. eexists. split; [reflexivity|]. split; [|split; [done|done]].
      split; [|done]. intros _ x Hx.
      apply (first_fit_None _ _ _ _ _ Hff). lia.
Qed.

(** X4: the small segments are the only ones a small request can get.  In a
    state reached from the start of the program, a call to my_malloc with
    0 < size <= LARGE_SIZE returns.  It returns NULL exactly when none of
    the heads of the first NUM_SEGMENTS - 1 free lists is marked free with
    room for the footprint, whatever the fifth segment holds; the call has
    then waited once on each of these segments and changed neither a header
    nor a free_list pointer.  A pointer that is not NULL has its [size] bytes
    inside the first four segments. *)
Theorem small_request_uses_small_segments (H : host) (cs : list command)
    (ptrs : list Z) (st : allocator) (segs : list segment) (sz : Z) :
  host_ok H → host_region H ≠ 0 → host_array H = true → plain_script cs →
  run H cs [] startup = Ok (ptrs, st) → segments st = Some segs →
  0 < sz <= LARGE_SIZE →
  ∃ p st',
    my_malloc H sz st = Ok (p, st') ∧
    (p = 0 ↔ ∀ x : nat, (x < 4)%nat →
               head_fits segs (heap st) x (sz + sizeof_block_header) = false) ∧
    (p = 0 →
     heap st' = heap st ∧ segments st' = segments st ∧
     waits st' = repeat (wait_timeout (host_time H)) 4 ++ waits st) ∧
    (p ≠ 0 →
     host_region H + sizeof_block_header <= p ∧
     p + sz <= host_region H + 4 * 5242880).
Proof.
  intros Hok Hb0 Ha Hcs Hrun Hs Hsz.
  apply small_request_outcome; [exact Hok| |exact Hs|exact Hsz].
  exact (reached_steady H cs ptrs st segs Hok Hb0 Ha Hcs Hrun Hs).
Qed.

Lemma small_request_uses_small_segments_witness :
  ∃ p st',
    let st := state_after host0 [Malloc 5242000; Malloc 5242000; Malloc 5242000;
                                 Malloc 5242000] in
    let segs := [mk_segment 5242880 4096 (4096 + 5242032);
                 mk_segment 5242880 (4096 + 5242880) (4096 + 5242880 + 5242032);
                 mk_segment 5242880 (4096 + 10485760) (4096 + 10485760 + 5242032);
                 mk_segment 5242880 (4096 + 15728640) (4096 + 15728640 + 5242032);
                 mk_segment 83886080 (4096 + 20971520) (4096 + 20971520)] in
    my_malloc host0 1000 st = Ok (p, st') ∧
    (p = 0 ↔ ∀ x : nat, (x < 4)%nat →
               head_fits segs (heap st) x (1000 + sizeof_block_header) = false) ∧
    (p = 0 →
     heap st' = heap st ∧ segments st' = segments st ∧
     waits st' = repeat (wait_timeout (host_time host0)) 4 ++ waits st) ∧
    (p ≠ 0 →
     host_region host0 + sizeof_block_header <= p ∧
     p + 1000 <= host_region host0 + 4 * 5242880).
Proof.
  apply (small_request_uses_small_segments host0
           [Malloc 5242000; Malloc 5242000; Malloc 5242000; Malloc 5242000]
           [4128; 4128 + 5242880; 4128 + 10485760; 4128 + 15728640]).
  - exact host0_ok.
  - discriminate.
  - reflexivity.
  - cbn. unfold SIZE_MAX, sizeof_block_header. lia.
  - vm_compute; reflexivity.
  - vm_compute; reflexivity.
  - unfold LARGE_SIZE. lia.
Defined.

(** X5: the fallback visits the small segments in index order.  In a state
    reached from the start of the program, when the head of the round robin
    segment does not fit a request of at most LARGE_SIZE bytes, my_malloc
    serves it from the small segment of least index whose head is marked free
    with room for the footprint, after one timed wait on each small segment
    of lower index. *)
Theorem small_request_falls_back_in_order (H : host) (cs : list command)
    (ptrs : list Z) (st : allocator) (segs : list segment) (sz : Z)
    (j : nat) (sj : segment) :
  host_ok H → host_region H ≠ 0 → host_array H = true → plain_script cs →
  run H cs [] startup = Ok (ptrs, st) → segments st = Some segs →
  0 < sz <= LARGE_SIZE →
  head_fits segs (heap st) (Z.to_nat (current_segment st)) (sz + sizeof_block_header)
  = false →
  (j < 4)%nat → segs !! j = Some sj →
  head_fits segs (heap st) j (sz + sizeof_block_header) = true →
  (∀ x : nat, (x < j)%nat →
     head_fits segs (heap st) x (sz + sizeof_block_header) = false) →
  ∃ st',
    my_malloc H sz st = Ok (free_list sj + sizeof_block_header, st') ∧
    waits st' = repeat (wait_timeout (host_time H)) j ++ waits st ∧
    current_segment st' = (current_segment st + 1) mod (NUM_SEGMENTS - 1).
Proof.
  intros Hok Hb0 Ha Hcs Hrun Hs Hsz Hmiss Hj Hsj Hfj Hbelow.
  pose proof (reached_steady H cs ptrs st segs Hok Hb0 Ha Hcs Hrun Hs) as Hst.
  rewrite (my_malloc_small_miss H sz st segs Hok Hst Hs Hsz Hmiss).
  rewrite (first_fit_complete segs (heap st) _ j 4 0 ltac:(lia) Hfj)
    by (intros x Hx; apply Hbelow; lia).
  pose proof (steady_with_waits H
                (repeat (wait_timeout (host_time H)) j ++ waits st) _
                (steady_advance H st Hst)) as (Hr2 & Hmd2 & Hc2 & Hids2).
  destruct (relabel_take_fit H _ segs j sj sz Hok Hr2 Hids2 Hs Hsj
              ltac:(lia) Hfj) as (st' & Hm & _ & _ & _ & _ & Hc' & Hw').
  rewrite (head_of_lookup _ _ _ Hsj).
  exists st'. split; [exact Hm|]. split; [exact Hw'|exact Hc'].
Qed.

Lemma small_request_falls_back_in_order_witness :
  ∃ st',
    my_malloc host0 1000
      (state_after host0 [Malloc 5242000; Malloc 64; Malloc 64; Malloc 64])
    = Ok (4096 + 5242880 + 96 + sizeof_block_header, st') ∧
    waits st' = repeat (wait_timeout (host_time host0)) 1 ++ [] ∧
    current_segment st' = 1.
Proof.
  apply (small_request_falls_back_in_order host0
           [Malloc 5242000; Malloc 64; Malloc 64; Malloc 64]
           [4128; 4128 + 5242880; 4128 + 10485760; 4128 + 15728640]
           (state_after host0 [Malloc 5242000; Malloc 64; Malloc 64; Malloc 64])
           [mk_segment 5242880 4096 (4096 + 5242032);
            mk_segment 5242880 (4096 + 5242880) (4096 + 5242880 + 96);
            mk_segment 5242880 (4096 + 10485760) (4096 + 10485760 + 96);
            mk_segment 5242880 (4096 + 15728640) (4096 + 15728640 + 96);
            mk_segment 83886080 (4096 + 20971520) (4096 + 20971520)]
           1000 1%nat (mk_segment 5242880 (4096 + 5242880) (4096 + 5242880 + 96))).
  - exact host0_ok.
  - discriminate.
  - reflexivity.
  - cbn. unfold SIZE_MAX, sizeof_block_header. lia.
  - vm_compute; reflexivity.
  - vm_compute; reflexivity.
  - unfold LARGE_SIZE. lia.
  - vm_compute; reflexivity.
  - lia.
  - reflexivity.
  - vm_compute; reflexivity.
  - intros x Hx. assert (x = 0%nat) as -> by lia. vm_compute; reflexivity.
Defined.

(** X6: a large request has two candidates.  In a state reached from the start
    of the program, a call to my_malloc with size above LARGE_SIZE (and a
    footprint that does not wrap) returns.  It is served by the round robin
    small segment when the head of that segment fits, else by the fifth
    segment when its head fits, and no other segment is tried: it returns
    NULL exactly when neither of the two heads is marked free with room for
    the footprint. *)
Theorem large_request_has_two_candidates (H : host) (cs : list command)
    (ptrs : list Z) (st : allocator) (segs : list segment) (sz : Z) :
  host_ok H → host_region H ≠ 0 → host_array H = true → plain_script cs →
  run H cs [] startup = Ok (ptrs, st) → segments st = Some segs →
  LARGE_SIZE < sz <= SIZE_MAX - sizeof_block_header →
  ∃ p st',
    my_malloc H sz st = Ok (p, st') ∧
    (p = 0 ↔
     head_fits segs (heap st) (Z.to_nat (current_segment st))
       (sz + sizeof_block_header) = false ∧
     head_fits segs (heap st) 4 (sz + sizeof_block_header) = false) ∧
    (p ≠ 0 →
     p = head_of segs
           (if head_fits segs (heap st) (Z.to_nat (current_segment st))
                 (sz + sizeof_block_header)
            then Z.to_nat (current_segment st) else 4%nat)
         + sizeof_block_header).
Proof.
  intros Hok Hb0 Ha Hcs Hrun Hs Hsz.
  pose proof (reached_steady H cs ptrs st segs Hok Hb0 Ha Hcs Hrun Hs) as Hst.
  pose proof Hst as (Hr & Hmd & Hc & Hids).
  pose proof (segments_length H st segs Hr Hs) as Hlen.
  assert (Hplain : 0 < sz <= SIZE_MAX - sizeof_block_header)
    by (unfold LARGE_SIZE in *; lia).
  destruct (head_fits segs (heap st) (Z.to_nat (current_segment st))
              (sz + sizeof_block_header)) eqn:Hfit.
  - destruct (current_segment_lookup H st segs Hst Hs) as [seg Hn].
    destruct (my_malloc_hit H sz st segs seg Hok Hst Hs Hplain Hn Hfit)
      as (st' & Hm & _).
    destruct (head_positive H st segs _ seg Hok Hr Hs Hn) as [Hpos _].
    exists (free_list seg + sizeof_block_header), st'.
    split; [exact Hm|]. split.
    + split; [unfold sizeof_block_header; lia|]. by intros [? _].
    + intros _. by rewrite (head_of_lookup _ _ _ Hn).
  - rewrite (my_malloc_large_miss H sz st segs Hok Hst Hs Hsz Hfit).
    destruct (head_fits segs (heap st) 4 (sz + sizeof_block_header)) eqn:Hf4.
    + destruct (lookup_lt_is_Some_2 segs 4) as [s4 Hs4]; [lia|].
      pose proof (steady_advance H st Hst) as (Hr2 & Hmd2 & Hc2 & Hids2).
      destruct (relabel_take_fit H _ segs 4 s4 sz Hok Hr2 Hids2 Hs Hs4
                  ltac:(lia) Hf4) as (st' & Hm & _).
      destruct (head_positive H st segs _ s4 Hok Hr Hs Hs4) as [Hpos _].
      rewrite (head_of_lookup _ _ _ Hs4).
      exists (free_list s4 + sizeof_block_header), st'.
      split; [exact Hm|]. split; [|done].
      split; [unfold sizeof_block_header; lia|]. by intros [_ ?].
    + exists 0. eexists. split; [reflexivity|]. split; [done|done].
Qed.

Lemma large_request_has_two_candidates_witness :
  ∃ p st',
    let st := state_after host0 [Malloc 64] in
    let segs := [mk_segment 5242880 4096 4192;
                 mk_segment 5242880 (4096 + 5242880) (4096 + 5242880);
                 mk_segment 5242880 (4096 + 10485760) (4096 + 10485760);
                 mk_segment 5242880 (4096 + 15728640) (4096 + 15728640);
                 mk_segment 83886080 (4096 + 20971520) (4096 + 20971520)] in
    my_malloc host0 6000000 st = Ok (p, st') ∧
    (p = 0 ↔
     head_fits segs (heap st) (Z.to_nat (current_segment st))
       (6000000 + sizeof_block_header) = false ∧
     head_fits segs (heap st) 4 (6000000 + sizeof_block_header) = false) ∧
    (p ≠ 0 →
     p = head_of segs
           (if head_fits segs (heap st) (Z.to_nat (current_segment st))
                 (6000000 + sizeof_block_header)
            then Z.to_nat (current_segment st) else 4%nat)
         + sizeof_block_header).
Proof.
  apply (large_request_has_two_candidates host0 [Malloc 64] [4128]).
  - exact host0_ok.
  - discriminate.
  - reflexivity.
  - cbn. unfold SIZE_MAX, sizeof_block_header. lia.
  - vm_compute; reflexivity.
  - vm_compute; reflexivity.
  - unfold LARGE_SIZE, SIZE_MAX, sizeof_block_header. lia.
Defined.

(** X7: a request beyond the capacity, when its footprint does not wrap.  In a
    state reached from the start of the program, a call to my_malloc whose
    footprint size + sizeof(header) exceeds TOTAL_SIZE without wrapping
    returns NULL; it performs no timed wait and changes neither a header nor
    a free_list pointer. *)
Theorem oversize_request_refused_without_wait (H : host) (cs : list command)
    (ptrs : list Z) (st : allocator) (segs : list segment) (sz : Z) :
  host_ok H → host_region H ≠ 0 → host_array H = true → plain_script cs →
  run H cs [] startup = Ok (ptrs, st) → segments st = Some segs →
  TOTAL_SIZE - sizeof_block_header < sz <= SIZE_MAX - sizeof_block_header →
  ∃ st',
    my_malloc H sz st = Ok (0, st') ∧
    waits st' = waits st ∧ heap st' = heap st ∧ segments st' = segments st.
Proof.
  intros Hok Hb0 Ha Hcs Hrun Hs Hsz.
  pose proof (reached_steady H cs ptrs st segs Hok Hb0 Ha Hcs Hrun Hs) as Hst.
  pose proof Hst as (Hr & Hmd & Hc & Hids).
  pose proof Hr as (_ & _ & _ & segs' & Hs' & Hg & Hinv).
  rewrite Hs in Hs'. injection Hs' as <-.
  assert (Hnofit : ∀ n : nat,
            head_fits segs (heap st) n (sz + sizeof_block_header) = false).
  { intros n. destruct (segs !! n) as [seg|] eqn:Hn.
    - destruct (head_fits_head H st segs n seg (sz + sizeof_block_header) Hr Hs Hn)
        as (h & Hh & _ & Hend & ->).
      pose proof (head_in_segment _ _ _ _ _ Hg Hinv Hn) as [Hlo _].
      destruct (geometry_lookup _ _ _ _ Hg Hn) as (_ & Hstart & Hsize).
      unfold free_and_fits. apply andb_false_iff. right. apply Z.leb_gt.
      unfold TOTAL_SIZE, sizeof_block_header in *. case_decide; lia.
    - unfold head_fits. by rewrite Hn. }
  rewrite (my_malloc_large_miss H sz st segs Hok Hst Hs) by
    (rewrite ?Hnofit; unfold LARGE_SIZE, TOTAL_SIZE, sizeof_block_header in *;
     done || lia).
  rewrite Hnofit.
  rewrite (proj2 (Z.ltb_lt TOTAL_SIZE (sz + sizeof_block_header))) by lia.
  by eexists.
Qed.

Lemma oversize_request_refused_without_wait_witness :
  ∃ st',
    my_malloc host0 104857600 (state_after host0 [Malloc 64]) = Ok (0, st') ∧
    waits st' = waits (state_after host0 [Malloc 64]) ∧
    heap st' = heap (state_after host0 [Malloc 64]) ∧
    segments st' = segments (state_after host0 [Malloc 64]).
Proof.
  apply (oversize_request_refused_without_wait host0 [Malloc 64] [4128]
           (state_after host0 [Malloc 64])
           [mk_segment 5242880 4096 4192;
            mk_segment 5242880 (4096 + 5242880) (4096 + 5242880);
            mk_segment 5242880 (4096 + 10485760) (4096 + 10485760);
            mk_segment 5242880 (4096 + 15728640) (4096 + 15728640);
            mk_segment 83886080 (4096 + 20971520) (4096 + 20971520)]).
  - exact host0_ok.
  - discriminate.
  - reflexivity.
  - cbn. unfold SIZE_MAX, sizeof_block_header. lia.
  - vm_compute; reflexivity.
  - vm_compute; reflexivity.
  - unfold TOTAL_SIZE, SIZE_MAX, sizeof_block_header. lia.
Defined.

(** ** The heads only move up *)

Lemma heads_above_refl (segs : list segment) :
  Forall2 (λ s s', free_list s <= free_list s') segs segs.
Proof. apply Forall_Forall2_diag, Forall_forall. intros s _. lia. Qed.

Lemma heads_above_insert (segs : list segment) (n : nat) (seg : segment) (v : Z) :
  segs !! n = Some seg → free_list seg <= v →
  Forall2 (λ s s', free_list s <= free_list s') segs (<[n := set_free_list v seg]> segs).
Proof.
  intros Hn Hv. rewrite <- (list_insert_id segs n seg Hn) at 1.
  apply Forall2_insert; [apply heads_above_refl|]. cbn [free_list set_free_list]. lia.
Qed.

Lemma heads_above_trans (l1 l2 l3 : list segment) :
  Forall2 (λ s s', free_list s <= free_list s') l1 l2 →
  Forall2 (λ s s', free_list s <= free_list s') l2 l3 →
  Forall2 (λ s s', free_list s <= free_list s') l1 l3.
Proof.
  intros H12. revert l3.
  induction H12 as [|x y l k Hxy _ IH]; intros l3 H23;
    inversion H23 as [|? z ? k3 Hyz Hk]; subst; constructor; [lia|by apply IH].
Qed.

Lemma frontier_run (H : host) (cs : list command) :
  ∀ (ptrs ptrs' : list Z) (st st' : allocator) (segs : list segment),
    host_ok H → plain_script cs → ready H st → segments st = Some segs →
    run H cs ptrs st = Ok (ptrs', st') →
    ∃ segs' new,
      segments st' = Some segs' ∧ ptrs' = ptrs ++ new ∧
      Forall2 (λ s s', free_list s <= free_list s') segs segs' ∧
      ∀ p, p ∈ new → p ≠ 0 →
        ∃ (n : nat) seg, segs !! n = Some seg ∧
          free_list seg + sizeof_block_header <= p < start_ptr seg + seg_size seg.
Proof.
  induction cs as [|c cs IH]; intros ptrs ptrs' st st' segs Hok Hcs Hr Hs Hrun.
  - cbn in Hrun. injection Hrun as <- <-. exists segs, [].
    split; [done|]. split; [by rewrite app_nil_r|]. split; [apply heads_above_refl|].
    intros p Hp. by apply not_elem_of_nil in Hp.
  - destruct c as [sz|k|]; cbn [run plain_script] in *; [| |done].
    + destruct Hcs as [Hsz Hcs].
      apply bind_Ok in Hrun as ([p st1] & Hm & Hrun).
      destruct (my_malloc_cases H sz st st1 p Hok Hsz Hr Hm)
        as (Hr1 & segs0 & Hs0 & Hcase).
      rewrite Hs in Hs0. injection Hs0 as <-.
      pose proof Hr1 as (_ & _ & _ & segs1 & Hs1 & Hg1 & _).
      pose proof Hr as (_ & _ & _ & segs0 & Hs0 & Hg & Hinv).
      rewrite Hs in Hs0. injection Hs0 as <-.
      assert (Hstep : Forall2 (λ s s', free_list s <= free_list s') segs segs1 ∧
                (p ≠ 0 →
                 ∃ (n : nat) seg, segs !! n = Some seg ∧
                   free_list seg + sizeof_block_header <= p
                   < start_ptr seg + seg_size seg)).
      { destruct Hcase as [(-> & Hs' & _)|(n & seg & Hn & _ & Hfit & -> & Hs' & _)].
        - rewrite Hs1 in Hs'. injection Hs' as ->.
          split; [apply heads_above_refl|done].
        - split.
          + destruct Hs' as [Hs'|[Hs' _]]; rewrite Hs1 in Hs'; injection Hs' as ->.
            * apply heads_above_insert; [done|]. unfold sizeof_block_header. lia.
            * apply heads_above_refl.
          + intros _. exists n, seg. split; [done|].
            unfold sizeof_block_header in *. lia. }
      destruct Hstep as [Habove Hp].
      destruct (IH _ _ _ _ segs1 Hok Hcs Hr1 Hs1 Hrun)
        as (segs' & new & Hs' & -> & Habove' & Hnew).
      exists segs', (p :: new). split; [done|].
      split; [by rewrite <- app_assoc|]. split.
      * exact (heads_above_trans _ _ _ Habove Habove').
      * intros q [->|Hq]%elem_of_cons Hq0; [by apply Hp|].
        destruct (Hnew q Hq Hq0) as (n & seg1 & Hn1 & Hlo & Hhi).
        destruct (Forall2_lookup_r _ _ _ _ _ Habove Hn1) as (seg & Hn & Hle).
        exists n, seg. split; [done|].
        destruct (geometry_lookup _ _ _ _ Hg Hn) as (_ & Hst0 & Hsz0).
        destruct (geometry_lookup _ _ _ _ Hg1 Hn1) as (_ & Hst1 & Hsz1).
        rewrite Hst0, Hsz0, <- Hst1, <- Hsz1. lia.
    + apply bind_Ok in Hrun as (st1 & Hf & Hrun).
      destruct (my_free_flags _ _ _ Hf) as [Hs1 _]. rewrite Hs in Hs1.
      exact (IH _ _ _ _ segs Hok Hcs (my_free_ready H _ st st1 Hr Hf) Hs1 Hrun).
Qed.

(** X8: memory below the head of a free list is not handed out again.  Take a
    state reached from the start of the program and continue with any calls
    to my_malloc (footprint not wrapping) and my_free.  The head of each
    free list is then at the same address or higher, and every pointer that
    my_malloc returns in the continuation, NULL apart, lies in some segment
    at least sizeof(header) bytes above the head that the segment had before
    the continuation.  So a block below a head, such as a block carved by a
    split and then released, is never returned again. *)
Theorem memory_below_head_not_reused (H : host) (cs1 cs2 : list command)
    (ptrs ptrs' : list Z) (st st' : allocator) (segs : list segment) :
  host_ok H → plain_script cs1 → plain_script cs2 →
  run H cs1 [] startup = Ok (ptrs, st) → segments st = Some segs →
  run H cs2 ptrs st = Ok (ptrs', st') →
  ∃ segs' new,
    segments st' = Some segs' ∧ ptrs' = ptrs ++ new ∧
    Forall2 (λ s s', free_list s <= free_list s') segs segs' ∧
    ∀ p, p ∈ new → p ≠ 0 →
      ∃ (n : nat) seg, segs !! n = Some seg ∧
        free_list seg + sizeof_block_header <= p < start_ptr seg + seg_size seg.
Proof.
  intros Hok Hcs1 Hcs2 Hrun1 Hs Hrun2.
  assert (Hst : unready st ∨ ready H st).
  { eapply run_plain; [exact Hok|exact Hcs1| |exact Hrun1]. left. by repeat split. }
  destruct Hst as [(_ & _ & Hnone)|Hr]; [congruence|].
  exact (frontier_run H cs2 ptrs ptrs' st st' segs Hok Hcs2 Hr Hs Hrun2).
Qed.

Lemma memory_below_head_not_reused_witness :
  ∃ st' segs' new,
    run host0 [Free 0%nat; Malloc 64; Malloc 64; Malloc 64; Malloc 64] [4128]
      (state_after host0 [Malloc 64]) = Ok ([4128] ++ new, st') ∧
    segments st' = Some segs' ∧
    Forall2 (λ s s', free_list s <= free_list s')
      [mk_segment 5242880 4096 4192;
       mk_segment 5242880 (4096 + 5242880) (4096 + 5242880);
       mk_segment 5242880 (4096 + 10485760) (4096 + 10485760);
       mk_segment 5242880 (4096 + 15728640) (4096 + 15728640);
       mk_segment 83886080 (4096 + 20971520) (4096 + 20971520)] segs' ∧
    4128 ∉ new.
Proof.
  destruct (memory_below_head_not_reused host0 [Malloc 64]
              [Free 0%nat; Malloc 64; Malloc 64; Malloc 64; Malloc 64]
              [4128] [4128; 5247008; 10489888; 15732768; 4224]
              (state_after host0 [Malloc 64])
              (state_after host0 [Malloc 64; Free 0%nat; Malloc 64; Malloc 64;
                                  Malloc 64; Malloc 64])
              [mk_segment 5242880 4096 4192;
               mk_segment 5242880 (4096 + 5242880) (4096 + 5242880);
               mk_segment 5242880 (4096 + 10485760) (4096 + 10485760);
               mk_segment 5242880 (4096 + 15728640) (4096 + 15728640);
               mk_segment 83886080 (4096 + 20971520) (4096 + 20971520)])
    as (segs' & new & Hs' & Hnew & Habove & Hptrs).
  - exact host0_ok.
  - cbn. unfold SIZE_MAX, sizeof_block_header. lia.
  - cbn. unfold SIZE_MAX, sizeof_block_header. lia.
  - vm_compute; reflexivity.
  - vm_compute; reflexivity.
  - vm_compute; reflexivity.
  - exists (state_after host0 [Malloc 64; Free 0%nat; Malloc 64; Malloc 64;
                               Malloc 64; Malloc 64]), segs', new.
    split; [rewrite <- Hnew; vm_compute; reflexivity|].
    split; [exact Hs'|]. split; [exact Habove|].
    cbn [app] in Hnew. injection Hnew as <-.
    intros Hin. repeat (apply elem_of_cons in Hin as [Hin|Hin]; [discriminate|]).
    by apply not_elem_of_nil in Hin.
Defined.

(** ** merge_blocks on two neighbours of a list *)

Lemma merge_blocks_cells (m : memory) (block1 block2 : Z) (b1 b2 : block_header) :
  m !! block1 = Some b1 → m !! block2 = Some b2 →
  block1 ≠ 0 → block2 ≠ 0 → block1 ≠ block2 →
  free b1 = true → free b2 = true →
  size_t (block1 + sizeof_block_header + size b1) = block2 →
  prev b2 = block1 → next b2 ≠ block1 → next b2 ≠ block2 →
  ∃ m',
    merge_blocks m block1 block2 = Ok m' ∧
    m' !! block1
    = Some (mk_block_header (size_t (size b1 + (size b2 + sizeof_block_header)))
              (next b2) (prev b1) (free b1) (segment_id b1)) ∧
    (next b2 ≠ 0 →
     m' !! next b2 = Some (set_prev block1 (default indeterminate (m !! next b2)))) ∧
    (∀ a, a ≠ block1 → (next b2 ≠ 0 → a ≠ next b2) → m' !! a = m !! a).
Proof.
  intros H1 H2 Hn1 Hn2 Hne Hf1 Hf2 Hadj Hp2 Hx1 Hx2. unfold merge_blocks.
  rewrite (proj2 (Z.eqb_neq block1 0)), (proj2 (Z.eqb_neq block2 0)) by done.
  cbn [negb assert mbind outcome_bind].
  rewrite (deref_Some _ _ _ H1), (deref_Some _ _ _ H2). cbn [mbind outcome_bind].
  rewrite Hf1, Hf2, Hadj, Z.eqb_refl. cbn [andb assert mbind outcome_bind].
  destruct b1 as [s1 n1 p1 f1 i1], b2 as [s2 n2 p2 f2 i2].
  cbn [size next prev free segment_id] in *. subst p2.
  destruct (decide (n2 = 0)) as [->|Hx];
    repeat step;
    (eexists; split; [reflexivity|]); lookups;
    repeat split; intros;
    repeat match goal with
           | Hi : ?x ≠ 0 → _, Hx : ?x ≠ 0 |- _ => specialize (Hi Hx)
           end;
    lookups; first [done | subst f1; reflexivity].
Qed.

(** X12: coalescing two neighbours.  Let block1 and block2 follow one another on
    a segment's free list, both marked free, block2 starting right where the
    payload of block1 ends.  Then merge_blocks returns; block1 has grown by
    the header and the payload of block2, so that it ends where block2
    ended; block2 has left the list, whose other blocks keep their order;
    and no header other than block1 and the successor of block2 has been
    written. *)
Theorem merge_blocks_coalesces (m : memory) (seg : segment) (l1 l2 : list Z)
    (block1 block2 : Z) (b1 b2 : block_header) :
  free_list_is m seg (l1 ++ block1 :: block2 :: l2) →
  m !! block1 = Some b1 → m !! block2 = Some b2 →
  free b1 = TRUE → free b2 = TRUE →
  0 <= block1 → 0 <= size b1 → 0 <= size b2 →
  block1 + sizeof_block_header + size b1 = block2 →
  block2 + sizeof_block_header + size b2 <= SIZE_MAX →
  ∃ m',
    merge_blocks m block1 block2 = Ok m' ∧
    free_list_is m' seg (l1 ++ block1 :: l2) ∧
    m' !! block1
    = Some (mk_block_header (size b1 + sizeof_block_header + size b2)
              (next b2) (prev b1) TRUE (segment_id b1)) ∧
    (∀ a, a ≠ block1 → a ≠ next b2 → m' !! a = m !! a).
Proof.
  intros [lst Hd] H1 H2 Hf1 Hf2 Hb1 Hs1 Hs2 Hadj Hmax.
  pose proof (dlseg_NoDup _ _ _ _ _ Hd) as Hnd.
  apply dlseg_app in Hd as (mid & q & Hd1 & Hd2).
  cbn [dlseg] in Hd2.
  destruct Hd2 as (-> & Hn1 & h1 & Hh1 & Hp1 & Hnx & Hn2 & h2 & Hh2 & Hp2 & Hd2).
  rewrite H1 in Hh1. injection Hh1 as <-.
  pose proof H2 as Hb2.
  rewrite H2 in Hh2. injection Hh2 as <-.
  apply NoDup_app in Hnd as (Hnd1 & Hdisj & Hnd2).
  apply NoDup_cons in Hnd2 as [Hnin1 Hnd2].
  apply NoDup_cons in Hnd2 as [Hnin2 Hnd2].
  assert (Hne : block1 ≠ block2) by (intros ->; apply Hnin1; by left).
  assert (Hx : next b2 = 0 ∧ l2 = [] ∨ next b2 ∈ l2).
  { destruct (dlseg_head _ _ _ _ _ _ Hd2) as [[-> ->]|?]; [by left|by right]. }
  assert (Hx1 : next b2 ≠ block1).
  { destruct Hx as [[-> _]|Hin]; [done|]. intros Heq. apply Hnin1. right. congruence. }
  assert (Hx2 : next b2 ≠ block2).
  { destruct Hx as [[-> _]|Hin]; [done|]. intros Heq. apply Hnin2. congruence. }
  assert (H32 : sizeof_block_header = 32) by reflexivity.
  destruct (merge_blocks_cells m block1 block2 b1 b2 H1 Hb2 Hn1 Hn2 Hne Hf1 Hf2)
    as (m' & Hrun & Hc1 & Hcx & Hco); [|done|done|done|].
  { rewrite Hadj. apply size_t_small. lia. }
  rewrite size_t_small in Hc1 by lia.
  exists m'. split; [exact Hrun|]. split; [|split].
  - assert (Hl1 : ∀ a, a ∈ l1 → m' !! a = m !! a).
    { intros a Ha. apply Hco.
      - intros ->. apply (Hdisj block1 Ha). by left.
      - intros Hx0 ->. destruct Hx as [[? _]|Hin]; [done|].
        apply (Hdisj (next b2) Ha). right. by right. }
    assert (Hl2 : ∀ a, a ∈ l2 → a ≠ next b2 → m' !! a = m !! a).
    { intros a Ha Hane. apply Hco; [|done]. intros ->. apply Hnin1. by right. }
    destruct l2 as [|c l2].
    + destruct Hd2 as [Hn0 ->]. exists block1. apply dlseg_app.
      exists mid, block1. split.
      * eapply dlseg_frame; [|exact Hd1]. intros a h Ha Hh. exists h.
        by rewrite Hl1.
      * cbn [dlseg]. split; [done|]. split; [done|]. eexists. split; [exact Hc1|].
        cbn [prev next]. done.
    + cbn [dlseg] in Hd2. destruct Hd2 as (Hnc & Hc0 & hc & Hhc & Hpc & Hd2).
      exists lst. apply dlseg_app. exists mid, block1. split.
      * eapply dlseg_frame; [|exact Hd1]. intros a h Ha Hh. exists h.
        by rewrite Hl1.
      * cbn [dlseg]. split; [done|]. split; [done|]. eexists. split; [exact Hc1|].
        cbn [prev next]. split; [done|]. split; [done|]. split; [done|].
        rewrite Hnc in Hcx. rewrite (Hcx Hc0), Hhc. cbn [default from_option id].
        eexists. split; [reflexivity|]. cbn [prev next set_prev].
        split; [done|].
        apply NoDup_cons in Hnd2 as [Hcn Hnd2].
        eapply dlseg_frame; [|exact Hd2]. intros a h Ha Hh. exists h.
        rewrite Hl2; [done|by right|]. rewrite Hnc. intros ->. done.
  - rewrite Hc1. f_equal. f_equal; [lia|done].
  - intros a Ha1 Ha2. by apply Hco.
Qed.

Lemma merge_blocks_coalesces_witness :
  let m : memory := <[200 := mk_block_header 50 0 100 TRUE 0]>
                      (<[100 := mk_block_header 68 200 0 TRUE 0]> ∅) in
  ∃ m',
    merge_blocks m 100 200 = Ok m' ∧
    free_list_is m' (mk_segment 1000 100 100) ([] ++ 100 :: []) ∧
    m' !! 100
    = Some (mk_block_header (68 + sizeof_block_header + 50) 0 0 TRUE 0) ∧
    (∀ a, a ≠ 100 → a ≠ 0 → m' !! a = m !! a).
Proof.
  intros m.
  apply (merge_blocks_coalesces m (mk_segment 1000 100 100) [] [] 100 200
           (mk_block_header 68 200 0 TRUE 0) (mk_block_header 50 0 100 TRUE 0)).
  - exists 200. cbn [app dlseg free_list].
    split; [done|]. split; [done|]. eexists. split; [vm_compute; reflexivity|].
    split; [done|]. split; [done|]. split; [done|]. eexists.
    split; [vm_compute; reflexivity|]. done.
  - vm_compute; reflexivity.
  - vm_compute; reflexivity.
  - reflexivity.
  - reflexivity.
  - lia.
  - cbn. lia.
  - cbn. lia.
  - reflexivity.
  - unfold SIZE_MAX, sizeof_block_header. cbn. lia.
Defined.

Lemma add_to_free_list_pushes_witness :
  let m : memory := <[200 := mk_block_header 50 0 0 TRUE 0]>
                      (<[100 := mk_block_header 68 0 0 TRUE 0]> ∅) in
  ∃ m',
    add_to_free_list m 100 200 = Ok (m', 200) ∧
    free_list_is m' (set_free_list 200 (mk_segment 1000 100 100)) [200; 100] ∧
    (∀ a h, m !! a = Some h →
       ∃ h', m' !! a = Some h' ∧ size h' = size h ∧ free h' = free h ∧
             segment_id h' = segment_id h) ∧
    (∀ a, m !! a = None → m' !! a = None).
Proof.
  intros m.
  apply (add_to_free_list_pushes m (mk_segment 1000 100 100) [100] 200
           (mk_block_header 50 0 0 TRUE 0)).
  - exists 100. cbn [dlseg free_list].
    split; [done|]. split; [done|]. eexists. split; [vm_compute; reflexivity|].
    done.
  - done.
  - vm_compute; reflexivity.
  - reflexivity.
  - intros Hin. apply list_elem_of_singleton in Hin. discriminate.
Defined.

(** ** The free lists of the allocator *)

(** X9: every free list is one block long.  In every state reached from the
    start of the program by calls to my_malloc whose footprint does not wrap
    and by calls to my_free, the free list of each segment consists of
    exactly one block; this block ends where the segment ends; and
    find_best_fit on the list is the test of that one block: it returns the
    block when it is marked free and has the requested size, NULL
    otherwise. *)
Theorem free_list_is_one_block (H : host) (cs : list command) (ptrs : list Z)
    (st : allocator) (segs : list segment) (i : nat) (seg : segment) :
  host_ok H → plain_script cs →
  run H cs [] startup = Ok (ptrs, st) →
  segments st = Some segs → segs !! i = Some seg →
  free_list_blocks (heap st) seg = Some [free_list seg] ∧
  ∃ h,
    heap st !! free_list seg = Some h ∧ next h = 0 ∧
    free_list seg + sizeof_block_header + size h = start_ptr seg + seg_size seg ∧
    ∀ a, 0 < a →
      find_best_fit (heap st) (free_list seg) a
      = Ok (if free h && (a <=? size h) then free_list seg else 0).
Proof.
  intros Hok Hcs Hrun Hs Hi.
  destruct (free_list_single H cs ptrs st segs i seg Hok Hcs Hrun Hs Hi)
    as (Hl & _).
  split; [exact Hl|].
  assert (Hst : unready st ∨ ready H st).
  { eapply run_plain; [exact Hok|exact Hcs| |exact Hrun]. left. by repeat split. }
  destruct Hst as [(_ & _ & Hnone)|Hr]; [congruence|].
  destruct (head_fits_head H st segs i seg 0 Hr Hs Hi) as (h & Hh & Hnx & Hend & _).
  exists h. split; [done|]. split; [done|]. split; [done|].
  intros a Ha.
  rewrite (find_best_fit_head H st segs i seg a Hok Hr Hs Hi Ha).
  unfold head_fits. by rewrite Hi, Hh.
Qed.

Lemma free_list_is_one_block_witness :
  let st := state_after host0 [Malloc 64; Malloc 100; Free 0%nat] in
  let seg := mk_segment 5242880 4096 4192 in
  free_list_blocks (heap st) seg = Some [free_list seg] ∧
  ∃ h,
    heap st !! free_list seg = Some h ∧ next h = 0 ∧
    free_list seg + sizeof_block_header + size h = start_ptr seg + seg_size seg ∧
    ∀ a, 0 < a →
      find_best_fit (heap st) (free_list seg) a
      = Ok (if free h && (a <=? size h) then free_list seg else 0).
Proof.
  intros st seg.
  apply (free_list_is_one_block host0 [Malloc 64; Malloc 100; Free 0%nat]
           [4128; 5247008] st
           [mk_segment 5242880 4096 4192;
            mk_segment 5242880 (4096 + 5242880) (4096 + 5242880 + 132);
            mk_segment 5242880 (4096 + 10485760) (4096 + 10485760);
            mk_segment 5242880 (4096 + 15728640) (4096 + 15728640);
            mk_segment 83886080 (4096 + 20971520) (4096 + 20971520)] 0%nat seg).
  - exact host0_ok.
  - cbn. unfold SIZE_MAX, sizeof_block_header. lia.
  - vm_compute; reflexivity.
  - vm_compute; reflexivity.
  - reflexivity.
Defined.

(** ** The test harness *)

Lemma choose_size_bounds (RAND_MAX r1 r2 : Z) :
  0 <= r2 →
  0 < choose_size RAND_MAX r1 r2 <= LARGE_SIZE ∧
  SIXTEEN_B <= choose_size RAND_MAX r1 r2 <= ONE_HUNDRED_KB.
Proof.
  intros Hr2. unfold choose_size.
  unfold SIXTEEN_B, ONE_KB, FIFTY_KB, ONE_HUNDRED_KB, LARGE_SIZE.
  cbv zeta.
  pose proof (Z.rem_bound_pos r2 (1024 - 16 + 1) Hr2 ltac:(lia)).
  pose proof (Z.rem_bound_pos r2 (51200 - 1024 + 1) Hr2 ltac:(lia)).
  pose proof (Z.rem_bound_pos r2 (102400 - 51200 + 1) Hr2 ltac:(lia)).
  destruct (_ <? _)%float; [lia|]. destruct (_ <? _)%float; lia.
Qed.

(** X17: the sizes the harness asks for.  Whatever the two calls to rand()
    return (the second not negative, as rand() promises), choose_size
    returns between 16 and 102400 bytes: never 0, which my_malloc rejects by
    assertion, and never more than LARGE_SIZE, so that by the rules of
    my_malloc the harness is never served from the fifth segment. *)
Theorem choose_size_range (RAND_MAX r1 r2 : Z) :
  0 <= r2 →
  SIXTEEN_B <= choose_size RAND_MAX r1 r2 <= ONE_HUNDRED_KB ∧
  0 < choose_size RAND_MAX r1 r2 <= LARGE_SIZE ∧
  0 < choose_size RAND_MAX r1 r2 <= SIZE_MAX - sizeof_block_header.
Proof.
  intros Hr2. destruct (choose_size_bounds RAND_MAX r1 r2 Hr2) as [Hl Hb].
  split; [exact Hb|]. split; [exact Hl|].
  unfold LARGE_SIZE, SIZE_MAX, sizeof_block_header in *. lia.
Qed.

Lemma choose_size_range_witness :
  SIXTEEN_B <= choose_size 2147483647 1000000000 123456789 <= ONE_HUNDRED_KB ∧
  0 < choose_size 2147483647 1000000000 123456789 <= LARGE_SIZE ∧
  0 < choose_size 2147483647 1000000000 123456789 <= SIZE_MAX - sizeof_block_header.
Proof. apply (choose_size_range 2147483647 1000000000 123456789). lia. Defined.

(** ** add_to_free_list on a block that is already listed *)

Lemma find_best_fit_loop_cycle (m : memory) (sz : Z) (S : Z → Prop) :
  (∀ a, S a → a ≠ 0 ∧ ∃ h, m !! a = Some h ∧ S (next h)) →
  ∀ (fuel : nat) (best_fit current : Z),
    S current → best_fit = 0 ∨ S best_fit →
    find_best_fit_loop fuel m sz best_fit current = Diverges.
Proof.
  intros HS. induction fuel as [|fuel IH]; intros best_fit current Hc Hb;
    destruct (HS _ Hc) as (Hc0 & c & Hhc & Hnc); cbn [find_best_fit_loop];
    rewrite decide_False by done; [done|].
  rewrite (deref_Some _ _ _ Hhc). cbn [mbind outcome_bind].
  destruct (free_and_fits sz c).
  - destruct Hb as [->|Hb].
    + rewrite decide_True by done. cbn [mbind outcome_bind]. apply IH; [done|by right].
    + destruct (HS _ Hb) as (Hb0 & b & Hhb & _).
      rewrite decide_False by done. rewrite (deref_Some _ _ _ Hhb).
      cbn [mbind outcome_bind]. apply IH; [done|].
      destruct (size c <? size b); by right.
  - cbn [mbind outcome_bind]. by apply IH.
Qed.

Lemma dlseg_next (m : memory) (l : list Z) :
  ∀ (pv p lst nx : Z), dlseg m pv p l lst nx →
    ∀ a, a ∈ l → ∃ h, m !! a = Some h ∧ (next h ∈ l ∨ next h = nx).
Proof.
  induction l as [|x l IH]; intros pv p lst nx Hd a Ha.
  - by apply not_elem_of_nil in Ha.
  - cbn [dlseg] in Hd. destruct Hd as (-> & Hx0 & h & Hh & _ & Hd).
    apply elem_of_cons in Ha as [->|Ha].
    + exists h. split; [done|].
      destruct (dlseg_head _ _ _ _ _ _ Hd) as [[_ ->]|Hin]; [by right|].
      left. by right.
    + destruct (IH _ _ _ _ Hd a Ha) as (ha & Hha & [Hin|Hnx]).
      * exists ha. split; [done|]. left. by right.
      * exists ha. split; [done|]. by right.
Qed.

(** X14: the caller of add_to_free_list must pass a block that is not on the
    list.  When the block is already listed, the call still returns, but
    the [next] links from the returned head come back to it: a search of the
    list for any size then never reaches NULL. *)
Theorem add_listed_block_makes_a_cycle (m : memory) (seg : segment) (l : list Z)
    (new_block : Z) (nb : block_header) :
  free_list_is m seg l → new_block ∈ l →
  m !! new_block = Some nb → free nb = TRUE →
  ∃ m',
    add_to_free_list m (free_list seg) new_block = Ok (m', new_block) ∧
    ∀ sz, 0 < sz → find_best_fit m' new_block sz = Diverges.
Proof.
  intros [lst Hd] Hin Hnb Hfree.
  pose proof (dlseg_NoDup _ _ _ _ _ Hd) as Hnd.
  pose proof (dlseg_nonzero _ _ _ _ _ _ _ Hd Hin) as Hne.
  assert (Hfl : free_list seg ≠ 0).
  { destruct (dlseg_head _ _ _ _ _ _ Hd) as [[-> _]|Hh].
    - by apply not_elem_of_nil in Hin.
    - exact (dlseg_nonzero _ _ _ _ _ _ _ Hd Hh). }
  apply list_elem_of_split in Hin as (l1 & l2 & ->).
  apply dlseg_app in Hd as (mid & q & Hd1 & Hd2).
  assert (q = new_block) as -> by (cbn [dlseg] in Hd2; by destruct Hd2).
  apply NoDup_app in Hnd as (_ & Hdisj & _).
  unfold add_to_free_list.
  rewrite (proj2 (Z.eqb_neq new_block 0)) by done.
  cbn [negb assert mbind outcome_bind].
  rewrite (deref_Some _ _ _ Hnb). cbn [mbind outcome_bind].
  rewrite Hfree. cbn [Bool.eqb TRUE assert mbind outcome_bind].
  rewrite decide_False by done.
  rewrite assign_Ok by done. cbn [mbind outcome_bind].
  rewrite assign_Ok by done. cbn [mbind outcome_bind].
  rewrite assign_Ok by done. cbn [mbind outcome_bind].
  eexists. split; [reflexivity|].
  intros sz Hsz. unfold find_best_fit.
  rewrite (proj2 (Z.ltb_lt 0 sz) Hsz). cbn [assert mbind outcome_bind].
  apply (find_best_fit_loop_cycle _ sz (λ a, a = new_block ∨ a ∈ l1));
    [|by left|by left].
  intros a [->|Ha].
  - split; [done|]. rewrite lookup_insert_eq. eexists. split; [reflexivity|].
    cbn [next set_prev].
    destruct (decide (free_list seg = new_block)) as [Heq|Hneq].
    + rewrite Heq. rewrite lookup_insert_eq. cbn [default from_option id next set_prev].
      rewrite lookup_insert_eq. cbn [default from_option id next set_next]. by left.
    + rewrite (lookup_insert_ne _ (free_list seg) new_block) by done.
      rewrite lookup_insert_eq. cbn [default from_option id next set_next].
      destruct (dlseg_head _ _ _ _ _ _ Hd1) as [[_ ?]|?]; [done|by right].
  - assert (Han : a ≠ new_block).
    { intros ->. apply (Hdisj new_block Ha). by left. }
    split; [exact (dlseg_nonzero _ _ _ _ _ _ _ Hd1 Ha)|].
    destruct (dlseg_next _ _ _ _ _ _ Hd1 a Ha) as (ha & Hha & Hnx).
    rewrite lookup_insert_ne by done.
    destruct (decide (a = free_list seg)) as [->|Haf].
    + rewrite lookup_insert_eq. rewrite lookup_insert_ne by done. rewrite Hha.
      cbn [default from_option id]. eexists. split; [reflexivity|].
      cbn [next set_prev]. destruct Hnx; [by right|by left].
    + rewrite !lookup_insert_ne by done. exists ha. split; [done|].
      destruct Hnx; [by right|by left].
Qed.

Lemma add_listed_block_makes_a_cycle_witness :
  let m : memory := <[200 := mk_block_header 50 0 100 TRUE 0]>
                      (<[100 := mk_block_header 68 200 0 TRUE 0]> ∅) in
  ∃ m',
    add_to_free_list m 100 200 = Ok (m', 200) ∧
    ∀ sz, 0 < sz → find_best_fit m' 200 sz = Diverges.
Proof.
  intros m.
  apply (add_listed_block_makes_a_cycle m (mk_segment 1000 100 100) [100; 200] 200
           (mk_block_header 50 0 100 TRUE 0)).
  - exists 200. cbn [dlseg free_list].
    split; [done|]. split; [done|]. eexists. split; [vm_compute; reflexivity|].
    split; [done|]. split; [done|]. split; [done|]. eexists.
    split; [vm_compute; reflexivity|]. done.
  - apply elem_of_cons. right. apply elem_of_cons. by left.
  - vm_compute; reflexivity.
  - reflexivity.
Defined.


(** ** The segment index kept in each header *)

(* [m'] has the headers of [m], each with the segment index it had. *)
Lemma assign_same_ids (m m' : memory) (p : Z) (f : block_header → block_header) :
  is_Some (m !! p) → (∀ h, segment_id (f h) = segment_id h) →
  assign m p f = Ok m' →
  ∀ a h', m' !! a = Some h' → ∃ h, m !! a = Some h ∧ segment_id h' = segment_id h.
Proof.
  intros [hp Hp] Hf [_ ->]%assign_inv a h'. rewrite Hp. cbn [default from_option id].
  destruct (decide (a = p)) as [->|Hne].
  - rewrite lookup_insert_eq. intros [= <-]. eauto.
  - rewrite lookup_insert_ne by done. eauto.
Qed.

Lemma merge_blocks_same_ids (segs : list segment) (m m' : memory) (block1 block2 : Z) :
  heap_inv segs m → ¬ is_head segs block1 →
  merge_blocks m block1 block2 = Ok m' →
  ∀ a h', m' !! a = Some h' → ∃ h, m !! a = Some h ∧ segment_id h' = segment_id h.
Proof.
  intros Hinv Hnh Hrun.
  assert (Htrans : ∀ m0 m1 : memory,
            (∀ a h', m0 !! a = Some h' →
               ∃ h, m !! a = Some h ∧ segment_id h' = segment_id h) →
            (∀ a h', m1 !! a = Some h' →
               ∃ h, m0 !! a = Some h ∧ segment_id h' = segment_id h) →
            ∀ a h', m1 !! a = Some h' →
              ∃ h, m !! a = Some h ∧ segment_id h' = segment_id h).
  { intros m0 m1 H0 H1 a h' Ha. destruct (H1 a h' Ha) as (h0 & Ha0 & He0).
    destruct (H0 a h0 Ha0) as (h & Hh & He). exists h. split; [done|congruence]. }
  assert (HR0 : ∀ a h', m !! a = Some h' →
            ∃ h, m !! a = Some h ∧ segment_id h' = segment_id h) by eauto.
  unfold merge_blocks in Hrun.
  apply bind_Ok in Hrun as (_ & _ & Hrun).
  apply bind_Ok in Hrun as (_ & _ & Hrun).
  apply bind_Ok in Hrun as (b1 & Hb1%deref_Ok & Hrun).
  apply bind_Ok in Hrun as (b2 & Hb2%deref_Ok & Hrun).
  apply bind_Ok in Hrun as (_ & _ & Hrun).
  apply bind_Ok in Hrun as (_ & _ & Hrun).
  apply bind_Ok in Hrun as (m1 & Hm1 & Hrun).
  assert (Hinv1 : heap_inv segs m1 ∧
            ∀ a h', m1 !! a = Some h' →
              ∃ h, m !! a = Some h ∧ segment_id h' = segment_id h).
  { destruct (decide (prev b2 = 0)); [by injection Hm1 as <-|].
    destruct (inv_closed _ _ Hinv _ _ Hb2) as [[?|?] ?]; [done|]. split.
    - eapply heap_inv_set_next; [exact Hinv|done| |done|exact Hm1].
      eapply inv_prev; eauto.
    - eapply assign_same_ids; [|  |exact Hm1]; done. }
  destruct Hinv1 as [Hinv1 HR1].
  clear Hm1 Hinv Hb1 Hb2 b1 b2.
  apply bind_Ok in Hrun as (b2 & Hb2%deref_Ok & Hrun).
  apply bind_Ok in Hrun as (m2 & Hm2 & Hrun).
  assert (Hinv2 : heap_inv segs m2 ∧
            ∀ a h', m2 !! a = Some h' →
              ∃ h, m !! a = Some h ∧ segment_id h' = segment_id h).
  { destruct (decide (next b2 = 0)); [by injection Hm2 as <-|].
    destruct (inv_closed _ _ Hinv1 _ _ Hb2) as [? [?|?]]; [done|]. split.
    - eapply heap_inv_set_prev; [exact Hinv1|done| |done|exact Hm2].
      eapply inv_prev; eauto.
    - apply (Htrans m1 m2 HR1). eapply assign_same_ids; [| |exact Hm2]; done. }
  destruct Hinv2 as [Hinv2 HR2].
  clear Hm2 Hinv1 HR1 Hb2 b2 m1.
  apply bind_Ok in Hrun as (b1 & Hb1%deref_Ok & Hrun).
  apply bind_Ok in Hrun as (b2 & Hb2%deref_Ok & Hrun).
  apply bind_Ok in Hrun as (m3 & Hm3 & Hrun).
  assert (Hinv3 : heap_inv segs m3)
    by (eapply (heap_inv_set_size segs m2 m3 block1); [exact Hinv2|eauto|done|exact Hm3]).
  assert (HR3 : ∀ a h', m3 !! a = Some h' →
            ∃ h, m !! a = Some h ∧ segment_id h' = segment_id h).
  { apply (Htrans m2 m3 HR2). eapply assign_same_ids; [| |exact Hm3]; eauto. }
  assert (Hs3 : is_Some (m3 !! block1)) by (eapply assign_is_Some; eauto).
  clear Hm3 Hinv2 HR2 Hb1 Hb2 b1 b2 m2.
  apply bind_Ok in Hrun as (b2 & Hb2%deref_Ok & Hrun).
  apply bind_Ok in Hrun as (m4 & Hm4 & Hrun).
  assert (Hinv4 : heap_inv segs m4).
  { eapply (heap_inv_set_next segs m3 m4 block1); [exact Hinv3|done|done| |exact Hm4].
    eapply inv_closed; eauto. }
  assert (HR4 : ∀ a h', m4 !! a = Some h' →
            ∃ h, m !! a = Some h ∧ segment_id h' = segment_id h).
  { apply (Htrans m3 m4 HR3). eapply assign_same_ids; [| |exact Hm4]; done. }
  clear Hm4 Hinv3 HR3 Hb2 b2 Hs3 m3.
  apply bind_Ok in Hrun as (b2 & Hb2%deref_Ok & Hrun).
  destruct (decide (next b2 = 0)); [by injection Hrun as <-|].
  destruct (inv_closed _ _ Hinv4 _ _ Hb2) as [? [?|?]]; [done|].
  apply (Htrans m4 m' HR4). eapply assign_same_ids; [| |exact Hrun]; done.
Qed.

Lemma my_free_same_ids (H : host) (ptr : Z) (st st' : allocator) :
  ready H st → my_free ptr st = Ok st' →
  ∀ a h', heap st' !! a = Some h' →
    ∃ h, heap st !! a = Some h ∧ segment_id h' = segment_id h.
Proof.
  intros (Hb0 & Hi & Hl & segs & Hs & Hg & Hinv) Hrun. unfold my_free in Hrun.
  destruct (decide (ptr = 0)); [injection Hrun as <-; eauto|].
  rewrite Hl in Hrun. cbn [negb] in Hrun.
  set (hdr := size_t (ptr - sizeof_block_header)) in *. clearbody hdr.
  apply bind_Ok in Hrun as (h & Hh%deref_Ok & Hrun).
  apply bind_Ok in Hrun as (_ & _ & Hrun).
  apply bind_Ok in Hrun as (m1 & Hm1 & Hrun).
  assert (Hinv1 : heap_inv segs m1) by (eapply heap_inv_set_free; eauto).
  assert (HR1 : ∀ a h', m1 !! a = Some h' →
            ∃ h, heap st !! a = Some h ∧ segment_id h' = segment_id h)
    by (eapply assign_same_ids; [| |exact Hm1]; eauto).
  clear Hm1 Hh h Hinv.
  apply bind_Ok in Hrun as (h & Hh%deref_Ok & Hrun).
  apply bind_Ok in Hrun as (c & Hc & Hrun).
  apply bind_Ok in Hrun as ([m2 hdr2] & Hm2 & Hrun).
  assert (Hinv2 : heap_inv segs m2 ∧
            ∀ a h', m2 !! a = Some h' →
              ∃ h, heap st !! a = Some h ∧ segment_id h' = segment_id h).
  { destruct c.
    - apply bind_Ok in Hm2 as (m' & Hm' & Hm2).
      apply bind_Ok in Hm2 as (h' & _ & Hm2). injection Hm2 as <- <-.
      assert (Hnh : ¬ is_head segs (prev h)) by (eapply inv_prev; eauto).
      split; [by eapply merge_blocks_inv|].
      intros a h0 Ha.
      destruct (merge_blocks_same_ids segs m1 m' _ _ Hinv1 Hnh Hm' a h0 Ha)
        as (h1 & Ha1 & He1).
      destruct (HR1 a h1 Ha1) as (h2 & Ha2 & He2). exists h2. split; [done|congruence].
    - by injection Hm2 as <- <-. }
  destruct Hinv2 as [Hinv2 HR2].
  clear Hm2 Hc c Hh h Hinv1 HR1 m1.
  apply bind_Ok in Hrun as (h & Hh%deref_Ok & Hrun).
  apply bind_Ok in Hrun as (c & Hc & Hrun).
  apply bind_Ok in Hrun as (m3 & Hm3 & Hrun). injection Hrun as <-.
  cbn [heap with_heap].
  destruct c; [|by injection Hm3 as <-].
  destruct (decide (next h = 0)) as [|Hn]; [by injection Hc|].
  assert (Hnh : ¬ is_head segs hdr2) by (eapply linked_not_head; eauto).
  intros a h0 Ha.
  destruct (merge_blocks_same_ids segs m2 m3 _ _ Hinv2 Hnh Hm3 a h0 Ha)
    as (h1 & Ha1 & He1).
  destruct (HR2 a h1 Ha1) as (h2 & Ha2 & He2). exists h2. split; [done|congruence].
Qed.

Lemma my_free_ids_match (H : host) (ptr : Z) (st st' : allocator) (segs : list segment) :
  ready H st → segments st = Some segs → ids_match segs (heap st) →
  my_free ptr st = Ok st' → ids_match segs (heap st').
Proof.
  intros Hr Hs Hids Hrun a h' Ha.
  destruct (my_free_same_ids H ptr st st' Hr Hrun a h' Ha) as (h & Hh & ->).
  exact (Hids a h Hh).
Qed.

Lemma ids_match_move (b : Z) (segs : list segment) (m : memory) (n : nat)
    (seg : segment) (v : Z) (a : Z) (h : block_header) :
  ids_match segs m → segs !! n = Some seg → free_list seg <= v →
  m !! a = Some h →
  0 <= segment_id h ∧
  ∃ seg', <[n := set_free_list v seg]> segs !! Z.to_nat (segment_id h) = Some seg' ∧
          start_ptr seg' <= a <= free_list seg'.
Proof.
  intros Hids Hn Hv Ha. destruct (Hids a h Ha) as (Hid & sa & Hsa & Hlo & Hhi).
  split; [done|]. destruct (decide (Z.to_nat (segment_id h) = n)) as [Heq|Hne].
  - rewrite Heq in *. rewrite Hn in Hsa. injection Hsa as <-.
    exists (set_free_list v seg). split.
    + apply list_lookup_insert_eq. by eapply lookup_lt_Some.
    + cbn [start_ptr free_list set_free_list]. lia.
  - exists sa. split; [by rewrite list_lookup_insert_ne|done].
Qed.

(* The head of a free list carries the index of its segment. *)
Lemma head_id (H : host) (st : allocator) (segs : list segment) (n : nat)
    (seg : segment) (h : block_header) :
  host_ok H → ready H st → segments st = Some segs → ids_match segs (heap st) →
  segs !! n = Some seg → heap st !! free_list seg = Some h →
  segment_id h = Z.of_nat n.
Proof.
  intros Hok (Hb0 & _ & _ & segs' & Hs' & Hg & Hinv) Hs Hids Hn Hh.
  rewrite Hs in Hs'. injection Hs' as <-.
  destruct (Hids _ _ Hh) as (Hid & sa & Hsa & Hlo & Hhi).
  destruct (decide (Z.to_nat (segment_id h) = n)) as [Heq|Hne]; [lia|].
  exfalso.
  pose proof (head_in_segment _ _ _ _ _ Hg Hinv Hn) as [Hlo1 Hhi1].
  pose proof (head_in_segment _ _ _ _ _ Hg Hinv Hsa) as [Hlo2 Hhi2].
  apply (segments_apart _ _ _ _ _ _ (free_list seg) (free_list seg) Hg Hsa Hn Hne);
    [|unfold sizeof_block_header in *; lia|done].
  unfold sizeof_block_header in *. lia.
Qed.

(* Taking the head keeps the segment indices in step with the segments. *)
Lemma take_head_ids (H : host) (st st' : allocator) (segs : list segment)
    (n : nat) (seg : segment) (h : block_header) (sz p : Z) :
  host_ok H → ready H st → ids_match segs (heap st) →
  segments st = Some segs → segs !! n = Some seg →
  heap st !! free_list seg = Some h →
  0 < sz → sz + sizeof_block_header <= size h →
  take_block (Z.of_nat n) (free_list seg) sz st = Ok (p, st') →
  p = free_list seg + sizeof_block_header ∧
  (∃ hb, heap st' !! free_list seg = Some hb ∧ free hb = FALSE ∧
         sz <= size hb < sz + MIN_SPLIT_SIZE + sizeof_block_header) ∧
  ∃ segs', segments st' = Some segs' ∧ ids_match segs' (heap st').
Proof.
  intros Hok Hr Hids Hs Hn Hh Hsz Hfit Hrun.
  pose proof (head_id H st segs n seg h Hok Hr Hs Hids Hn Hh) as Hidh.
  pose proof (segment_at_ready H st segs n seg Hr Hs Hn) as Hseg.
  destruct Hr as (Hb0 & Hi & Hl & segs' & Hs' & Hg & Hinv).
  rewrite Hs in Hs'. injection Hs' as <-.
  destruct (inv_heads _ _ Hinv n seg Hn) as (h0 & Hh0 & Hnx & Hs0 & Hlo & Hend).
  rewrite Hh in Hh0. injection Hh0 as <-.
  destruct (segment_start_positive H segs n seg Hok Hb0 Hg Hn) as [Hpos Hmax].
  assert (H32 : sizeof_block_header = 32) by reflexivity.
  assert (Hmin : MIN_SPLIT_SIZE = 32) by reflexivity.
  assert (Hres : size_t (size h - sz) = size h - sz) by (apply size_t_small; lia).
  assert (Hptr : size_t (free_list seg + sizeof_block_header)
                 = free_list seg + sizeof_block_header) by (apply size_t_small; lia).
  assert (Hne : free_list seg ≠ 0) by lia.
  assert (HPnh : ¬ is_head segs (prev h)) by (eapply inv_prev; eauto).
  assert (HPc : prev h = 0 ∨ is_Some (heap st !! prev h)) by (eapply inv_closed; eauto).
  assert (Hbp : free_list seg ≠ prev h).
  { intros Heq. apply HPnh. exists n, seg. done. }
  unfold take_block in Hrun. rewrite Hseg in Hrun. cbn [mbind outcome_bind] in Hrun.
  rewrite Hptr in Hrun.
  destruct (decide (MIN_SPLIT_SIZE + sizeof_block_header <= size h - sz)) as [Hsplit|Hwhole].
  - set (new := free_list seg + sizeof_block_header + sz) in *.
    assert (Hnew : new = size_t (free_list seg + sizeof_block_header + sz))
      by (symmetry; apply size_t_small; unfold new; lia).
    assert (Hfresh : heap st !! new = None).
    { eapply above_head_fresh; eauto. unfold new. lia. }
    destruct (split_block_split (heap st) seg (free_list seg) sz h Hh Hne Hsz
                ltac:(rewrite Hres; done) new Hnew)
      as (m' & Hrun' & Hmn & Hmb & _ & Hmp & Hmo).
    { unfold new. lia. }
    { unfold new. lia. }
    { rewrite Hnx. unfold new. lia. }
    { destruct HPc as [->|[hp Hhp]]; [unfold new; lia|congruence]. }
    { done. }
    { rewrite Hnx. done. }
    { by left. }
    rewrite Hrun' in Hrun. cbn [mbind outcome_bind] in Hrun.
    rewrite assign_Ok in Hrun by done. cbn [mbind outcome_bind] in Hrun.
    rewrite Hmb in Hrun. cbn [default from_option id set_free
                              size next prev free segment_id] in Hrun.
    rewrite insert_id in Hrun by done.
    rewrite decide_True in Hrun by done.
    injection Hrun as <- <-.
    split; [done|]. split.
    { cbn [heap with_segment with_heap]. eexists. split; [exact Hmb|].
      cbn [free size]. split; [done|]. lia. }
    exists (<[n := set_free_list new seg]> segs).
    split; [cbn [segments with_segment with_heap option_map]; rewrite Hs;
            by rewrite Nat2Z.id|].
    cbn [heap with_segment with_heap].
    assert (Hself : ∀ a, start_ptr seg <= a <= new →
              0 <= Z.of_nat n ∧
              ∃ seg', <[n := set_free_list new seg]> segs
                        !! Z.to_nat (Z.of_nat n) = Some seg' ∧
                      start_ptr seg' <= a <= free_list seg').
    { intros a Ha. split; [lia|]. exists (set_free_list new seg). split.
      - rewrite Nat2Z.id. apply list_lookup_insert_eq. by eapply lookup_lt_Some.
      - cbn [start_ptr free_list set_free_list]. lia. }
    assert (Hold : ∀ a ha, heap st !! a = Some ha →
              0 <= segment_id ha ∧
              ∃ seg', <[n := set_free_list new seg]> segs
                        !! Z.to_nat (segment_id ha) = Some seg' ∧
                      start_ptr seg' <= a <= free_list seg').
    { intros a ha Ha.
      eapply (ids_match_move (host_region H) segs (heap st) n seg new a ha); eauto.
      unfold new. lia. }
    intros a ha Ha.
    destruct (decide (a = new)) as [->|Ha1].
    { rewrite Hmn in Ha. injection Ha as <-. cbn [segment_id]. rewrite Hidh.
      apply Hself. unfold new. lia. }
    destruct (decide (a = free_list seg)) as [->|Ha2].
    { rewrite Hmb in Ha. injection Ha as <-. cbn [segment_id]. rewrite Hidh.
      apply Hself. unfold new. lia. }
    destruct (decide (prev h = 0)) as [Hp0|Hp0].
    { rewrite Hmo in Ha; [by eapply Hold|done|done|by rewrite Hnx|done]. }
    destruct (decide (a = prev h)) as [->|Ha3].
    { rewrite (Hmp Hp0) in Ha. injection Ha as <-.
      destruct HPc as [?|[hp Hhp]]; [done|]. rewrite Hhp.
      cbn [default from_option id set_next segment_id]. by eapply Hold. }
    rewrite Hmo in Ha; [by eapply Hold|done|done|by rewrite Hnx|done].
  - rewrite (split_block_whole _ _ _ _ _ Hh Hne Hsz) in Hrun by (rewrite Hres; lia).
    cbn [mbind outcome_bind] in Hrun.
    rewrite assign_Ok in Hrun by done. cbn [mbind outcome_bind] in Hrun.
    rewrite Hh in Hrun. cbn [default from_option id] in Hrun.
    injection Hrun as <- <-.
    split; [done|]. split.
    { cbn [heap with_segment with_heap]. rewrite lookup_insert_eq.
      eexists. split; [reflexivity|]. cbn [free size set_free]. split; [done|]. lia. }
    exists segs. split.
    { cbn [segments with_segment with_heap option_map]. rewrite Hs, Nat2Z.id. cbn.
      by rewrite list_insert_id. }
    cbn [heap with_segment with_heap]. intros a ha Ha.
    destruct (decide (a = free_list seg)) as [->|Ha2].
    + rewrite lookup_insert_eq in Ha. injection Ha as <-.
      cbn [set_free segment_id]. by eapply Hids.
    + rewrite lookup_insert_ne in Ha by done. by eapply Hids.
Qed.

(* The head already carries the index that my_malloc writes after a wait. *)
Lemma relabel_noop (H : host) (st : allocator) (segs : list segment) (n : nat)
    (seg : segment) :
  host_ok H → ready H st → segments st = Some segs → ids_match segs (heap st) →
  segs !! n = Some seg →
  assign (heap st) (free_list seg) (set_segment_id (Z.of_nat n)) = Ok (heap st).
Proof.
  intros Hok Hr Hs Hids Hn.
  destruct (head_fits_head H st segs n seg 0 Hr Hs Hn) as (h & Hh & _).
  destruct (head_positive H st segs n seg Hok Hr Hs Hn) as [Hpos _].
  rewrite assign_Ok by lia. rewrite Hh. cbn [default from_option id]. f_equal.
  apply insert_id. rewrite Hh. f_equal.
  rewrite <- (head_id H st segs n seg h Hok Hr Hs Hids Hn Hh). by destruct h.
Qed.

Lemma my_malloc_ids (H : host) (sz : Z) (st st' : allocator) (p : Z)
    (segs : list segment) :
  host_ok H → steady H st → segments st = Some segs → ids_match segs (heap st) →
  0 < sz <= SIZE_MAX - sizeof_block_header →
  my_malloc H sz st = Ok (p, st') →
  (p ≠ 0 →
   ∃ hb, heap st' !! (p - sizeof_block_header) = Some hb ∧ free hb = FALSE ∧
         sz <= size hb < sz + MIN_SPLIT_SIZE + sizeof_block_header) ∧
  ∃ segs', segments st' = Some segs' ∧ ids_match segs' (heap st').
Proof.
  intros Hok Hst Hs Hids Hsz Hrun.
  destruct (current_segment_lookup H st segs Hst Hs) as [seg Hn].
  pose proof Hst as (Hr & Hmd & Hc & Hv).
  pose proof (segments_length H st segs Hr Hs) as Hlen.
  assert (Htake : ∀ (j : nat) sj st2,
            ready H st2 → segments st2 = Some segs → heap st2 = heap st →
            segs !! j = Some sj →
            head_fits segs (heap st) j (sz + sizeof_block_header) = true →
            take_block (Z.of_nat j) (free_list sj) sz st2 = Ok (p, st') →
            (p ≠ 0 →
             ∃ hb, heap st' !! (p - sizeof_block_header) = Some hb ∧ free hb = FALSE ∧
                   sz <= size hb < sz + MIN_SPLIT_SIZE + sizeof_block_header) ∧
            ∃ segs', segments st' = Some segs' ∧ ids_match segs' (heap st')).
  { intros j sj st2 Hr2 Hs2 Hh2 Hj Hfit Htk.
    destruct (head_fits_head H st segs j sj (sz + sizeof_block_header) Hr Hs Hj)
      as (h & Hh & _ & _ & Hhf).
    rewrite Hfit in Hhf. symmetry in Hhf. unfold free_and_fits in Hhf.
    apply andb_true_iff in Hhf as [_ Hle%Z.leb_le].
    destruct (take_head_ids H st2 st' segs j sj h sz p Hok Hr2
                ltac:(by rewrite Hh2) Hs2 Hj ltac:(by rewrite Hh2) ltac:(lia) Hle Htk)
      as (-> & Hb & Hsegs).
    split; [|done]. intros _.
    replace (free_list sj + sizeof_block_header - sizeof_block_header)
      with (free_list sj) by lia.
    done. }
  destruct (head_fits segs (heap st) (Z.to_nat (current_segment st))
              (sz + sizeof_block_header)) eqn:Hfit.
  - rewrite (my_malloc_first_search H sz st segs seg Hok Hst Hs Hsz Hn), Hfit in Hrun.
    rewrite <- (Z2Nat.id (current_segment st)) in Hrun at 1 by lia.
    exact (Htake (Z.to_nat (current_segment st)) seg (advance st)
             (ready_advance H st Hr) Hs eq_refl Hn Hfit Hrun).
  - destruct (decide (sz <= LARGE_SIZE)) as [Hle|Hgt].
    + rewrite (my_malloc_small_miss H sz st segs Hok Hst Hs ltac:(lia) Hfit) in Hrun.
      destruct (first_fit segs (heap st) 4 0 (sz + sizeof_block_header))
        as [j|] eqn:Hff.
      * destruct (first_fit_bounds _ _ _ _ _ _ Hff) as (Hj & Hfj & _).
        destruct (lookup_lt_is_Some_2 segs j) as [sj Hsj]; [lia|].
        rewrite (head_of_lookup _ _ _ Hsj) in Hrun.
        rewrite (relabel_noop H st segs j sj Hok Hr Hs Hids Hsj) in Hrun.
        cbn [mbind outcome_bind] in Hrun.
        match type of Hrun with
        | take_block _ _ _ ?s = _ => refine (Htake j sj s _ _ _ Hsj Hfj Hrun)
        end; [by apply (ready_same H st)|done|done].
      * injection Hrun as <- <-. split; [done|]. exists segs. done.
    + rewrite (my_malloc_large_miss H sz st segs Hok Hst Hs ltac:(lia) Hfit) in Hrun.
      destruct (head_fits segs (heap st) 4 (sz + sizeof_block_header)) eqn:Hf4.
      * destruct (lookup_lt_is_Some_2 segs 4) as [s4 Hs4]; [lia|].
        rewrite (head_of_lookup _ _ _ Hs4) in Hrun.
        pose proof (relabel_noop H st segs 4 s4 Hok Hr Hs Hids Hs4) as Hre.
        change (Z.of_nat 4) with 4 in Hre. rewrite Hre in Hrun.
        cbn [mbind outcome_bind] in Hrun.
        match type of Hrun with
        | take_block _ _ _ ?s = _ => refine (Htake 4%nat s4 s _ _ _ Hs4 Hf4 Hrun)
        end; [by apply (ready_same H st)|done|done].
      * injection Hrun as <- <-. split; [done|]. exists segs.
        by destruct (TOTAL_SIZE <? sz + sizeof_block_header).
Qed.

Lemma my_free_statics (ptr : Z) (st st' : allocator) :
  my_free ptr st = Ok st' →
  mutexes_destroyed st' = mutexes_destroyed st ∧
  current_segment st' = current_segment st ∧
  waits st' = waits st.
Proof.
  intros Hrun. unfold my_free in Hrun.
  destruct (decide (ptr = 0)); [by injection Hrun as <-|].
  destruct (negb (host_live st)); [done|].
  apply bind_Ok in Hrun as (h & _ & Hrun).
  apply bind_Ok in Hrun as (_ & _ & Hrun).
  apply bind_Ok in Hrun as (m1 & _ & Hrun).
  apply bind_Ok in Hrun as (h1 & _ & Hrun).
  apply bind_Ok in Hrun as (c & _ & Hrun).
  apply bind_Ok in Hrun as ([m2 hdr2] & _ & Hrun).
  apply bind_Ok in Hrun as (h2 & _ & Hrun).
  apply bind_Ok in Hrun as (c2 & _ & Hrun).
  apply bind_Ok in Hrun as (m3 & _ & Hrun). by injection Hrun as <-.
Qed.

Lemma my_free_steady (H : host) (ptr : Z) (st st' : allocator) :
  steady H st → my_free ptr st = Ok st' → steady H st'.
Proof.
  intros (Hr & Hmd & Hc & Hv) Hrun.
  destruct (my_free_statics ptr st st' Hrun) as (Hmd' & Hc' & _).
  split; [by eapply my_free_ready|]. split; [congruence|].
  split; [by rewrite Hc'|]. by eapply my_free_valid_ids.
Qed.

Lemma run_ids (H : host) (cs : list command) :
  ∀ (ptrs ptrs' : list Z) (st st' : allocator) (segs : list segment),
    host_ok H → plain_script cs → steady H st →
    segments st = Some segs → ids_match segs (heap st) →
    run H cs ptrs st = Ok (ptrs', st') →
    steady H st' ∧ ∃ segs', segments st' = Some segs' ∧ ids_match segs' (heap st').
Proof.
  induction cs as [|c cs IH]; intros ptrs ptrs' st st' segs Hok Hcs Hst Hs Hids Hrun.
  - cbn in Hrun. injection Hrun as _ <-. split; [done|]. by exists segs.
  - destruct c as [sz|k|]; cbn [run plain_script] in *; [| |done].
    + destruct Hcs as [Hsz Hcs].
      apply bind_Ok in Hrun as ([p st1] & Hm & Hrun).
      destruct (my_malloc_steady H sz st segs Hok Hst Hs Hsz)
        as (p0 & st0 & Hm0 & Hst0 & _).
      rewrite Hm in Hm0. injection Hm0 as <- <-.
      destruct (my_malloc_ids H sz st st1 p segs Hok Hst Hs Hids Hsz Hm)
        as (_ & segs1 & Hs1 & Hids1).
      exact (IH _ _ _ _ segs1 Hok Hcs Hst0 Hs1 Hids1 Hrun).
    + apply bind_Ok in Hrun as (st1 & Hf & Hrun).
      pose proof Hst as (Hr & _).
      destruct (my_free_flags _ _ _ Hf) as [Hs1 _]. rewrite Hs in Hs1.
      refine (IH _ _ _ _ segs Hok Hcs (my_free_steady H _ st st1 Hst Hf) Hs1 _ Hrun).
      by eapply my_free_ids_match.
Qed.

Lemma initial_ids_match (b : Z) : ids_match (initial_segments b) (initial_heap b).
Proof.
  intros a h Ha. unfold initial_heap in Ha.
  repeat (apply lookup_insert_Some in Ha as [[<- <-]|[_ Ha]];
          [cbn [segment_id]; split; [lia|]; eexists; split; [reflexivity|];
           cbn [start_ptr free_list]; lia|]).
  by rewrite lookup_empty in Ha.
Qed.

Lemma run_ids_from_start (H : host) (cs : list command) :
  ∀ (ptrs : list Z) (st : allocator) (segs : list segment),
    host_ok H → host_region H ≠ 0 → host_array H = true → plain_script cs →
    run H cs [] startup = Ok (ptrs, st) → segments st = Some segs →
    steady H st ∧ ids_match segs (heap st).
Proof.
  induction cs as [|c cs IH]; intros ptrs st segs Hok Hb0 Ha Hcs Hrun Hs.
  - cbn in Hrun. injection Hrun as _ <-. done.
  - destruct c as [sz|k|]; cbn [run plain_script] in *; [| |done].
    + destruct Hcs as [Hsz Hcs].
      rewrite (my_malloc_first_call H sz startup) in Hrun by (done || by repeat split).
      cbn [current_segment waits startup] in Hrun.
      pose proof (started_steady H 0 [] Hok Hb0 ltac:(unfold NUM_SEGMENTS; lia))
        as Hst.
      apply bind_Ok in Hrun as ([p st1] & Hm & Hrun).
      destruct (my_malloc_steady H sz _ _ Hok Hst eq_refl Hsz)
        as (p0 & st0 & Hm0 & Hst0 & _).
      rewrite Hm in Hm0. injection Hm0 as <- <-.
      destruct (my_malloc_ids H sz _ st1 p _ Hok Hst eq_refl
                  (initial_ids_match (host_region H)) Hsz Hm)
        as (_ & segs1 & Hs1 & Hids1).
      destruct (run_ids H cs _ _ _ _ segs1 Hok Hcs Hst0 Hs1 Hids1 Hrun)
        as (Hst' & segs' & Hs' & Hids').
      rewrite Hs in Hs'. injection Hs' as <-. done.
    + rewrite lookup_nil in Hrun. cbn [default from_option] in Hrun.
      unfold my_free in Hrun. rewrite decide_True in Hrun by done.
      cbn [mbind outcome_bind] in Hrun. by eapply IH.
Qed.

(** X18: each header names its segment.  In every state reached from the start
    of the program by calls to my_malloc whose footprint does not wrap and
    by calls to my_free, the [segment_id] of every header is the index of
    the segment in which the header lies, at or below the head of that
    segment's free list: it is the right index for my_free to find the
    segment from.  In particular the head of the free list of segment j
    carries j, so the assignment block->segment_id = seg_id that my_malloc
    makes after a wait changes nothing. *)
Theorem header_names_its_segment (H : host) (cs : list command) (ptrs : list Z)
    (st : allocator) (segs : list segment) :
  host_ok H → host_region H ≠ 0 → host_array H = true → plain_script cs →
  run H cs [] startup = Ok (ptrs, st) → segments st = Some segs →
  (∀ a h, heap st !! a = Some h →
     0 <= segment_id h < NUM_SEGMENTS ∧
     ∃ seg, segs !! Z.to_nat (segment_id h) = Some seg ∧
            start_ptr seg <= a <= free_list seg ∧
            a + sizeof_block_header <= start_ptr seg + seg_size seg) ∧
  (∀ (j : nat) sj, segs !! j = Some sj →
     assign (heap st) (free_list sj) (set_segment_id (Z.of_nat j)) = Ok (heap st)).
Proof.
  intros Hok Hb0 Ha Hcs Hrun Hs.
  destruct (run_ids_from_start H cs ptrs st segs Hok Hb0 Ha Hcs Hrun Hs)
    as [Hst Hids].
  pose proof Hst as (Hr & _ & _ & Hv).
  pose proof Hr as (_ & _ & _ & segs' & Hs' & Hg & Hinv).
  rewrite Hs in Hs'. injection Hs' as <-.
  split.
  - intros a h Hh. split; [exact (Hv a h Hh)|].
    destruct (Hids a h Hh) as (_ & seg & Hseg & Hlo & Hhi).
    exists seg. split; [done|]. split; [done|].
    pose proof (head_in_segment _ _ _ _ _ Hg Hinv Hseg) as [_ Hend]. lia.
  - intros j sj Hj. by apply (relabel_noop H st segs j sj).
Qed.

Lemma header_names_its_segment_witness :
  let st := state_after host0 [Malloc 64; Malloc 5242000; Free 0%nat; Malloc 100] in
  let segs := [mk_segment 5242880 4096 4192;
               mk_segment 5242880 (4096 + 5242880) (4096 + 5242880 + 5242032);
               mk_segment 5242880 (4096 + 10485760) (4096 + 10485760 + 132);
               mk_segment 5242880 (4096 + 15728640) (4096 + 15728640);
               mk_segment 83886080 (4096 + 20971520) (4096 + 20971520)] in
  (∀ a h, heap st !! a = Some h →
     0 <= segment_id h < NUM_SEGMENTS ∧
     ∃ seg, segs !! Z.to_nat (segment_id h) = Some seg ∧
            start_ptr seg <= a <= free_list seg ∧
            a + sizeof_block_header <= start_ptr seg + seg_size seg) ∧
  (∀ (j : nat) sj, segs !! j = Some sj →
     assign (heap st) (free_list sj) (set_segment_id (Z.of_nat j)) = Ok (heap st)).
Proof.
  intros st segs.
  apply (header_names_its_segment host0
           [Malloc 64; Malloc 5242000; Free 0%nat; Malloc 100]
           [4128; 5247008; 10489888]).
  - exact host0_ok.
  - discriminate.
  - reflexivity.
  - cbn. unfold SIZE_MAX, sizeof_block_header. lia.
  - vm_compute; reflexivity.
  - vm_compute; reflexivity.
Defined.

(** ** What a call to my_malloc leaves behind *)

(** X19: the block handed out.  In a state reached from the start of the
    program, when a call to my_malloc whose footprint does not wrap returns
    a pointer that is not NULL, the header right below the pointer is marked
    allocated and its size is at least the requested size and less than the
    requested size plus MIN_SPLIT_SIZE + sizeof(header): a block is handed
    out whole only when less than that is left over. *)
Theorem returned_block_is_allocated (H : host) (cs : list command) (ptrs : list Z)
    (st st' : allocator) (segs : list segment) (sz p : Z) :
  host_ok H → host_region H ≠ 0 → host_array H = true → plain_script cs →
  run H cs [] startup = Ok (ptrs, st) → segments st = Some segs →
  0 < sz <= SIZE_MAX - sizeof_block_header →
  my_malloc H sz st = Ok (p, st') → p ≠ 0 →
  ∃ hb,
    heap st' !! (p - sizeof_block_header) = Some hb ∧ free hb = FALSE ∧
    sz <= size hb < sz + MIN_SPLIT_SIZE + sizeof_block_header.
Proof.
  intros Hok Hb0 Ha Hcs Hrun Hs Hsz Hm Hp.
  destruct (run_ids_from_start H cs ptrs st segs Hok Hb0 Ha Hcs Hrun Hs)
    as [Hst Hids].
  destruct (my_malloc_ids H sz st st' p segs Hok Hst Hs Hids Hsz Hm) as [Hb _].
  by apply Hb.
Qed.

Lemma returned_block_is_allocated_witness :
  ∃ hb,
    heap (state_after host0 [Malloc 64; Malloc 100]) !! (5247008 - sizeof_block_header)
    = Some hb ∧ free hb = FALSE ∧
    100 <= size hb < 100 + MIN_SPLIT_SIZE + sizeof_block_header.
Proof.
  apply (returned_block_is_allocated host0 [Malloc 64] [4128]
           (state_after host0 [Malloc 64])
           (state_after host0 [Malloc 64; Malloc 100])
           [mk_segment 5242880 4096 4192;
            mk_segment 5242880 (4096 + 5242880) (4096 + 5242880);
            mk_segment 5242880 (4096 + 10485760) (4096 + 10485760);
            mk_segment 5242880 (4096 + 15728640) (4096 + 15728640);
            mk_segment 83886080 (4096 + 20971520) (4096 + 20971520)] 100 5247008).
  - exact host0_ok.
  - discriminate.
  - reflexivity.
  - cbn. unfold SIZE_MAX, sizeof_block_header. lia.
  - vm_compute; reflexivity.
  - vm_compute; reflexivity.
  - unfold SIZE_MAX, sizeof_block_header. lia.
  - vm_compute; reflexivity.
  - discriminate.
Defined.

(** X20: the timed waits of one call.  In a state reached from the start of the
    program, a call to my_malloc whose footprint does not wrap performs at
    most NUM_SEGMENTS - 1 timed waits, each with the deadline that
    wait_for_free_block computes; at most NUM_SEGMENTS - 2 when it returns a
    pointer that is not NULL; and at most one when the size is above
    LARGE_SIZE. *)
Theorem my_malloc_waits_bounded (H : host) (cs : list command) (ptrs : list Z)
    (st : allocator) (segs : list segment) (sz : Z) :
  host_ok H → host_region H ≠ 0 → host_array H = true → plain_script cs →
  run H cs [] startup = Ok (ptrs, st) → segments st = Some segs →
  0 < sz <= SIZE_MAX - sizeof_block_header →
  ∃ p st' (k : nat),
    my_malloc H sz st = Ok (p, st') ∧
    waits st' = repeat (wait_timeout (host_time H)) k ++ waits st ∧
    (k ≤ 4)%nat ∧ (p ≠ 0 → (k ≤ 3)%nat) ∧ (LARGE_SIZE < sz → (k ≤ 1)%nat).
Proof.
  intros Hok Hb0 Ha Hcs Hrun Hs Hsz.
  pose proof (reached_steady H cs ptrs st segs Hok Hb0 Ha Hcs Hrun Hs) as Hst.
  pose proof Hst as (Hr & Hmd & Hc & Hids).
  pose proof (segments_length H st segs Hr Hs) as Hlen.
  destruct (head_fits segs (heap st) (Z.to_nat (current_segment st))
              (sz + sizeof_block_header)) eqn:Hfit.
  - destruct (current_segment_lookup H st segs Hst Hs) as [seg Hn].
    destruct (my_malloc_hit H sz st segs seg Hok Hst Hs Hsz Hn Hfit)
      as (st' & Hm & _ & _ & _ & Hw).
    exists (free_list seg + sizeof_block_header), st', 0%nat.
    split; [exact Hm|]. split; [exact Hw|]. repeat split; lia.
  - destruct (decide (sz <= LARGE_SIZE)) as [Hle|Hgt].
    + rewrite (my_malloc_small_miss H sz st segs Hok Hst Hs ltac:(lia) Hfit).
      destruct (first_fit segs (heap st) 4 0 (sz + sizeof_block_header))
        as [j|] eqn:Hff.
      * destruct (first_fit_bounds _ _ _ _ _ _ Hff) as (Hj & Hfj & _).
        destruct (lookup_lt_is_Some_2 segs j) as [sj Hsj]; [lia|].
        pose proof (steady_with_waits H
                      (repeat (wait_timeout (host_time H)) j ++ waits st) _
                      (steady_advance H st Hst)) as (Hr2 & Hmd2 & Hc2 & Hids2).
        destruct (relabel_take_fit H _ segs j sj sz Hok Hr2 Hids2 Hs Hsj
                    ltac:(lia) Hfj) as (st' & Hm & _ & _ & _ & _ & _ & Hw').
        rewrite (head_of_lookup _ _ _ Hsj).
        exists (free_list sj + sizeof_block_header), st', j.
        split; [exact Hm|]. split; [exact Hw'|]. repeat split; lia.
      * exists 0. eexists. exists 4%nat. split; [reflexivity|].
        split; [done|]. repeat split; [lia|done|lia].
    + rewrite (my_malloc_large_miss H sz st segs Hok Hst Hs ltac:(lia) Hfit).
      destruct (head_fits segs (heap st) 4 (sz + sizeof_block_header)) eqn:Hf4.
      * destruct (lookup_lt_is_Some_2 segs 4) as [s4 Hs4]; [lia|].
        pose proof (steady_advance H st Hst) as (Hr2 & Hmd2 & Hc2 & Hids2).
        destruct (relabel_take_fit H _ segs 4 s4 sz Hok Hr2 Hids2 Hs Hs4
                    ltac:(lia) Hf4) as (st' & Hm & _ & _ & _ & _ & _ & Hw').
        rewrite (head_of_lookup _ _ _ Hs4).
        exists (free_list s4 + sizeof_block_header), st', 0%nat.
        split; [exact Hm|]. split; [exact Hw'|]. repeat split; lia.
      * destruct (TOTAL_SIZE <? sz + sizeof_block_header).
        -- exists 0. eexists. exists 0%nat. split; [reflexivity|].
           split; [done|]. repeat split; lia.
        -- exists 0. eexists. exists 1%nat. split; [reflexivity|].
           split; [done|]. repeat split; [lia|done|lia].
Qed.

Lemma my_malloc_waits_bounded_witness :
  ∃ p st' (k : nat),
    my_malloc host0 100 (state_after host0 [Malloc 64]) = Ok (p, st') ∧
    waits st' = repeat (wait_timeout (host_time host0)) k
                ++ waits (state_after host0 [Malloc 64]) ∧
    (k ≤ 4)%nat ∧ (p ≠ 0 → (k ≤ 3)%nat) ∧ (LARGE_SIZE < 100 → (k ≤ 1)%nat).
Proof.
  apply (my_malloc_waits_bounded host0 [Malloc 64] [4128]
           (state_after host0 [Malloc 64])
           [mk_segment 5242880 4096 4192;
            mk_segment 5242880 (4096 + 5242880) (4096 + 5242880);
            mk_segment 5242880 (4096 + 10485760) (4096 + 10485760);
            mk_segment 5242880 (4096 + 15728640) (4096 + 15728640);
            mk_segment 83886080 (4096 + 20971520) (4096 + 20971520)] 100).
  - exact host0_ok.
  - discriminate.
  - reflexivity.
  - cbn. unfold SIZE_MAX, sizeof_block_header. lia.
  - vm_compute; reflexivity.
  - vm_compute; reflexivity.
  - unfold SIZE_MAX, sizeof_block_header. lia.
Defined.

(** X21: the assertions of my_malloc.  In a state reached from the start of the
    program and for a size from 0 to SIZE_MAX - sizeof(header) + 1, a call to
    my_malloc ends in a failed assertion in exactly two cases: size 0, which
    my_malloc itself rejects, and size SIZE_MAX - sizeof(header) + 1, whose
    footprint wraps to exactly 0 and is rejected by find_best_fit. *)
Theorem my_malloc_assertion_cases (H : host) (cs : list command) (ptrs : list Z)
    (st : allocator) (segs : list segment) (sz : Z) :
  host_ok H → host_region H ≠ 0 → host_array H = true → plain_script cs →
  run H cs [] startup = Ok (ptrs, st) → segments st = Some segs →
  0 <= sz <= SIZE_MAX - sizeof_block_header + 1 →
  my_malloc H sz st = AssertFail ↔
  sz = 0 ∨ sz = SIZE_MAX - sizeof_block_header + 1.
Proof.
  intros Hok Hb0 Ha Hcs Hrun Hs Hsz.
  pose proof (reached_steady H cs ptrs st segs Hok Hb0 Ha Hcs Hrun Hs) as Hst.
  pose proof Hst as (Hr & Hmd & Hc & Hids).
  pose proof Hr as (_ & Hi & _).
  split.
  - intros Hfail.
    destruct (decide (sz = 0)) as [|Hn0]; [by left|].
    destruct (decide (sz = SIZE_MAX - sizeof_block_header + 1)) as [|Hnw]; [by right|].
    destruct (my_malloc_steady H sz st segs Hok Hst Hs ltac:(lia))
      as (p & st' & Hm & _).
    congruence.
  - intros [->| ->]; [done|].
    rewrite (my_malloc_started H _ st Hi Hmd)
      by (unfold SIZE_MAX, sizeof_block_header; lia).
    destruct (current_segment_lookup H st segs Hst Hs) as [seg Hn].
    pose proof (segment_at_ready H (advance st) segs _ seg (ready_advance H st Hr) Hs Hn)
      as Hseg.
    rewrite Z2Nat.id in Hseg by lia. rewrite Hseg. reflexivity.
Qed.

Lemma my_malloc_assertion_cases_witness :
  my_malloc host0 (SIZE_MAX - sizeof_block_header + 1) (state_after host0 [Malloc 64])
  = AssertFail ↔
  SIZE_MAX - sizeof_block_header + 1 = 0 ∨
  SIZE_MAX - sizeof_block_header + 1 = SIZE_MAX - sizeof_block_header + 1.
Proof.
  apply (my_malloc_assertion_cases host0 [Malloc 64] [4128]
           (state_after host0 [Malloc 64])
           [mk_segment 5242880 4096 4192;
            mk_segment 5242880 (4096 + 5242880) (4096 + 5242880);
            mk_segment 5242880 (4096 + 10485760) (4096 + 10485760);
            mk_segment 5242880 (4096 + 15728640) (4096 + 15728640);
            mk_segment 83886080 (4096 + 20971520) (4096 + 20971520)]).
  - exact host0_ok.
  - discriminate.
  - reflexivity.
  - cbn. unfold SIZE_MAX, sizeof_block_header. lia.
  - vm_compute; reflexivity.
  - vm_compute; reflexivity.
  - unfold SIZE_MAX, sizeof_block_header. lia.
Defined.

(** X22: the segments keep their place.  In every state reached from the start
    of the program by calls to my_malloc whose footprint does not wrap and
    by calls to my_free, the five segments have the sizes and the start
    addresses that initialize_allocator gave them, so they still tile the
    backing region, and the head of each free list lies inside its segment
    with room for its header. *)
Theorem segments_keep_their_place (H : host) (cs : list command) (ptrs : list Z)
    (st : allocator) (segs : list segment) :
  host_ok H → plain_script cs →
  run H cs [] startup = Ok (ptrs, st) → segments st = Some segs →
  length segs = Z.to_nat NUM_SEGMENTS ∧
  ∀ (i : nat) seg, segs !! i = Some seg →
    start_ptr seg = host_region H + Z.of_nat i * trunc_double SEG_1_TO_4_SIZE ∧
    seg_size seg = trunc_double (if Z.of_nat i <? NUM_SEGMENTS - 1
                                 then SEG_1_TO_4_SIZE else SEG_5_SIZE) ∧
    start_ptr seg <= free_list seg ∧
    free_list seg + sizeof_block_header <= start_ptr seg + seg_size seg.
Proof.
  intros Hok Hcs Hrun Hs.
  assert (Hst : unready st ∨ ready H st).
  { eapply run_plain; [exact Hok|exact Hcs| |exact Hrun]. left. by repeat split. }
  destruct Hst as [(_ & _ & Hnone)|Hr]; [congruence|].
  split; [exact (segments_length H st segs Hr Hs)|].
  pose proof Hr as (_ & _ & _ & segs' & Hs' & Hg & Hinv).
  rewrite Hs in Hs'. injection Hs' as <-.
  intros i seg Hi.
  destruct (geometry_lookup _ _ _ _ Hg Hi) as (Hi5 & Hstart & Hsize).
  pose proof (head_in_segment _ _ _ _ _ Hg Hinv Hi) as [Hlo Hhi].
  rewrite SEG_1_TO_4_SIZE_eq. split; [done|]. split; [|done].
  rewrite Hsize. unfold NUM_SEGMENTS.
  destruct (decide (i < 4)%nat) as [Hlt|Hge].
  - rewrite (proj2 (Z.ltb_lt (Z.of_nat i) (5 - 1))) by lia.
    by rewrite SEG_1_TO_4_SIZE_eq.
  - rewrite (proj2 (Z.ltb_ge (Z.of_nat i) (5 - 1))) by lia.
    by rewrite SEG_5_SIZE_eq.
Qed.

Lemma segments_keep_their_place_witness :
  let segs := [mk_segment 5242880 4096 4192;
               mk_segment 5242880 (4096 + 5242880) (4096 + 5242880 + 132);
               mk_segment 5242880 (4096 + 10485760) (4096 + 10485760);
               mk_segment 5242880 (4096 + 15728640) (4096 + 15728640);
               mk_segment 83886080 (4096 + 20971520) (4096 + 20971520)] in
  length segs = Z.to_nat NUM_SEGMENTS ∧
  ∀ (i : nat) seg, segs !! i = Some seg →
    start_ptr seg = host_region host0 + Z.of_nat i * trunc_double SEG_1_TO_4_SIZE ∧
    seg_size seg = trunc_double (if Z.of_nat i <? NUM_SEGMENTS - 1
                                 then SEG_1_TO_4_SIZE else SEG_5_SIZE) ∧
    start_ptr seg <= free_list seg ∧
    free_list seg + sizeof_block_header <= start_ptr seg + seg_size seg.
Proof.
  intros segs.
  apply (segments_keep_their_place host0 [Malloc 64; Malloc 100; Free 0%nat]
           [4128; 5247008]
           (state_after host0 [Malloc 64; Malloc 100; Free 0%nat]) segs).
  - exact host0_ok.
  - cbn. unfold SIZE_MAX, sizeof_block_header. lia.
  - vm_compute; reflexivity.
  - vm_compute; reflexivity.
Defined.


(** ** The harness on the allocator *)

Lemma run_small_places (H : host) (cs : list command) :
  ∀ (ptrs ptrs' : list Z) (st st' : allocator),
    host_ok H → steady H st →
    Forall (λ c, match c with
                 | Malloc sz => 0 < sz <= LARGE_SIZE
                 | Free _ => True
                 | Teardown => False
                 end) cs →
    (∀ p, p ∈ ptrs → p = 0 ∨ host_region H + sizeof_block_header <= p
                               < host_region H + 4 * 5242880) →
    run H cs ptrs st = Ok (ptrs', st') →
    ∀ p, p ∈ ptrs' → p = 0 ∨ host_region H + sizeof_block_header <= p
                               < host_region H + 4 * 5242880.
Proof.
  induction cs as [|c cs IH]; intros ptrs ptrs' st st' Hok Hst Hcs Hptrs Hrun.
  - cbn in Hrun. by injection Hrun as <- _.
  - apply Forall_cons in Hcs as [Hc Hcs].
    destruct c as [sz|k|]; cbn [run] in Hrun; [| |done].
    + apply bind_Ok in Hrun as ([p st1] & Hm & Hrun).
      pose proof Hst as (Hr & _).
      pose proof Hr as (_ & _ & _ & segs & Hs & _).
      destruct (small_request_outcome H st segs sz Hok Hst Hs Hc)
        as (p0 & st0 & Hm0 & _ & _ & Hplace).
      rewrite Hm in Hm0. injection Hm0 as <- <-.
      assert (Hplain : 0 < sz <= SIZE_MAX - sizeof_block_header)
        by (unfold LARGE_SIZE, SIZE_MAX, sizeof_block_header in *; lia).
      destruct (my_malloc_steady H sz st segs Hok Hst Hs Hplain)
        as (p1 & st2 & Hm1 & Hst1 & _).
      rewrite Hm in Hm1. injection Hm1 as <- <-.
      apply (IH _ _ _ _ Hok Hst1 Hcs) with (2 := Hrun).
      intros q [Hq|Hq]%elem_of_app; [by apply Hptrs|].
      apply list_elem_of_singleton in Hq as ->.
      destruct (decide (p = 0)) as [|Hp]; [by left|right].
      destruct (Hplace Hp). lia.
    + apply bind_Ok in Hrun as (st1 & Hf & Hrun).
      exact (IH _ _ _ _ Hok (my_free_steady H _ st st1 Hst Hf) Hcs Hptrs Hrun).
Qed.

(** X23: the harness never reaches the fifth segment.  When the host grants the
    two blocks, any sequence of the calls that the workers of the harness
    make (my_malloc on a size drawn by choose_size, my_free on a result of
    my_malloc) runs to its end from the start of the program, and every
    pointer that my_malloc returns in it is NULL or lies in the first four
    segments: the fifth segment, four fifths of the backing region, is never
    used by the harness. *)
Theorem harness_stays_in_small_segments (H : host) (RAND_MAX : Z)
    (cs : list command) :
  host_ok H → host_region H ≠ 0 → host_array H = true →
  harness_script RAND_MAX cs →
  ∃ ptrs st,
    run H cs [] startup = Ok (ptrs, st) ∧
    ∀ p, p ∈ ptrs →
      p = 0 ∨ host_region H + sizeof_block_header <= p < host_region H + 4 * 5242880.
Proof.
  intros Hok Hb0 Ha Hcs.
  assert (Hsmall : Forall (λ c, match c with
                                | Malloc sz => 0 < sz <= LARGE_SIZE
                                | Free _ => True
                                | Teardown => False
                                end) cs).
  { eapply Forall_impl; [exact Hcs|]. intros [sz|k|]; [|done|done].
    intros (r1 & r2 & Hr2 & ->). by destruct (choose_size_bounds RAND_MAX r1 r2 Hr2). }
  assert (Hplain : plain_script cs).
  { clear Hcs. induction Hsmall as [|c cs Hc _ IH]; [done|].
    destruct c as [sz|k|]; cbn [plain_script]; [|done|done].
    split; [|done]. unfold LARGE_SIZE, SIZE_MAX, sizeof_block_header in *. lia. }
  destruct (run_from_start H cs Hok Hb0 Ha Hplain) as (ptrs & st & Hrun & _).
  exists ptrs, st. split; [exact Hrun|].
  clear Hplain Hcs. revert ptrs st Hrun.
  induction Hsmall as [|c cs Hc Hsmall IH]; intros ptrs st Hrun.
  - cbn in Hrun. injection Hrun as <- _. intros p Hp. by apply not_elem_of_nil in Hp.
  - destruct c as [sz|k|]; cbn [run] in Hrun; [| |done].
    + rewrite (my_malloc_first_call H sz startup) in Hrun by (done || by repeat split).
      cbn [current_segment waits startup] in Hrun.
      pose proof (started_steady H 0 [] Hok Hb0 ltac:(unfold NUM_SEGMENTS; lia))
        as Hst.
      apply bind_Ok in Hrun as ([p st1] & Hm & Hrun).
      match type of Hst with
      | steady _ ?s =>
          destruct (small_request_outcome H s _ sz Hok Hst eq_refl Hc)
            as (p0 & st0 & Hm0 & _ & _ & Hplace)
      end.
      rewrite Hm in Hm0. injection Hm0 as <- <-.
      assert (Hplain : 0 < sz <= SIZE_MAX - sizeof_block_header)
        by (unfold LARGE_SIZE, SIZE_MAX, sizeof_block_header in *; lia).
      destruct (my_malloc_steady H sz _ _ Hok Hst eq_refl Hplain)
        as (p1 & st2 & Hm1 & Hst1 & _).
      rewrite Hm in Hm1. injection Hm1 as <- <-.
      apply (run_small_places H cs _ _ _ _ Hok Hst1 Hsmall) with (2 := Hrun).
      intros q Hq. cbn [app] in Hq. apply list_elem_of_singleton in Hq as ->.
      destruct (decide (p = 0)) as [|Hp]; [by left|right].
      destruct (Hplace Hp). lia.
    + rewrite lookup_nil in Hrun. cbn [default from_option] in Hrun.
      unfold my_free in Hrun. rewrite decide_True in Hrun by done.
      cbn [mbind outcome_bind] in Hrun. exact (IH ptrs st Hrun).
Qed.

Lemma harness_stays_in_small_segments_witness :
  ∃ ptrs st,
    run host0 [Malloc (choose_size 2147483647 1000000000 123456789); Free 0%nat;
               Malloc (choose_size 2147483647 2100000000 987654321); Free 1%nat]
      [] startup = Ok (ptrs, st) ∧
    ∀ p, p ∈ ptrs →
      p = 0 ∨ host_region host0 + sizeof_block_header <= p
              < host_region host0 + 4 * 5242880.
Proof.
  apply (harness_stays_in_small_segments host0 2147483647).
  - exact host0_ok.
  - discriminate.
  - reflexivity.
  - repeat constructor.
    + exists 1000000000, 123456789. split; [lia|reflexivity].
    + exists 2100000000, 987654321. split; [lia|reflexivity].
Defined.

(** ** Heaps with closed links *)

Lemma assign_relinked (m0 m m' : memory) (p : Z) (f : block_header → block_header) :
  relinked m0 m → is_Some (m !! p) →
  (∀ h, m !! p = Some h →
        (prev (f h) = prev h ∨ prev (f h) = 0 ∨ is_Some (m !! prev (f h))) ∧
        (next (f h) = next h ∨ next (f h) = 0 ∨ is_Some (m !! next (f h)))) →
  assign m p f = Ok m' → relinked m0 m'.
Proof.
  intros [Hc Hd] [h Hp] Hf [_ ->]%assign_inv. rewrite Hp. cbn [default from_option id].
  assert (Hkeep : ∀ x, is_Some (<[p := f h]> m !! x) ↔ is_Some (m !! x)).
  { intros x. rewrite lookup_insert_is_Some'. split; [|by right].
    intros [->|?]; [by eexists|done]. }
  split.
  - intros a ha Ha. rewrite !Hkeep.
    destruct (decide (a = p)) as [->|Hne].
    + rewrite lookup_insert_eq in Ha. injection Ha as <-.
      destruct (Hf h Hp) as [Hpv Hnx]. destruct (Hc p h Hp) as [Hcp Hcn].
      split.
      * destruct Hpv as [->|[?|?]]; auto.
      * destruct Hnx as [->|[?|?]]; auto.
    + rewrite lookup_insert_ne in Ha by done. exact (Hc a ha Ha).
  - intros a. by rewrite Hkeep, Hd.
Qed.

Lemma merge_blocks_relinked (m0 m m' : memory) (block1 block2 : Z) :
  relinked m0 m → merge_blocks m block1 block2 = Ok m' → relinked m0 m'.
Proof.
  intros Hq Hrun. unfold merge_blocks in Hrun.
  apply bind_Ok in Hrun as (_ & _ & Hrun).
  apply bind_Ok in Hrun as (_ & _ & Hrun).
  apply bind_Ok in Hrun as (b1 & Hb1%deref_Ok & Hrun).
  apply bind_Ok in Hrun as (b2 & Hb2%deref_Ok & Hrun).
  apply bind_Ok in Hrun as (_ & _ & Hrun).
  apply bind_Ok in Hrun as (_ & _ & Hrun).
  apply bind_Ok in Hrun as (m1 & Hm1 & Hrun).
  assert (Hq1 : relinked m0 m1).
  { destruct (decide (prev b2 = 0)); [by injection Hm1 as <-|].
    destruct (proj1 Hq _ _ Hb2) as [[?|Hpk] Hnk]; [done|].
    eapply assign_relinked; [exact Hq|exact Hpk| |exact Hm1].
    intros h _. cbn [set_next prev next]. split; [by left|]. right.
    destruct Hnk; auto. }
  assert (Hk1 : is_Some (m1 !! block1))
    by (apply (proj2 Hq1), (proj2 Hq); by eexists).
  clear Hm1 Hq Hb1 Hb2 b1 b2.
  apply bind_Ok in Hrun as (b2 & Hb2%deref_Ok & Hrun).
  apply bind_Ok in Hrun as (m2 & Hm2 & Hrun).
  assert (Hq2 : relinked m0 m2).
  { destruct (decide (next b2 = 0)); [by injection Hm2 as <-|].
    destruct (proj1 Hq1 _ _ Hb2) as [Hpk [?|Hnk]]; [done|].
    eapply assign_relinked; [exact Hq1|exact Hnk| |exact Hm2].
    intros h _. cbn [set_prev prev next]. split; [|by left]. right.
    destruct Hpk; auto. }
  assert (Hk2 : is_Some (m2 !! block1))
    by (apply (proj2 Hq2), (proj2 Hq1); done).
  clear Hm2 Hq1 Hb2 b2 Hk1 m1.
  apply bind_Ok in Hrun as (b1 & Hb1%deref_Ok & Hrun).
  apply bind_Ok in Hrun as (b2 & Hb2%deref_Ok & Hrun).
  apply bind_Ok in Hrun as (m3 & Hm3 & Hrun).
  assert (Hq3 : relinked m0 m3).
  { eapply assign_relinked; [exact Hq2|exact Hk2| |exact Hm3].
    intros h _. cbn [set_size prev next]. split; by left. }
  assert (Hk3 : is_Some (m3 !! block1))
    by (apply (proj2 Hq3), (proj2 Hq2); done).
  clear Hm3 Hq2 Hb1 Hb2 b1 b2 Hk2 m2.
  apply bind_Ok in Hrun as (b2 & Hb2%deref_Ok & Hrun).
  apply bind_Ok in Hrun as (m4 & Hm4 & Hrun).
  assert (Hq4 : relinked m0 m4).
  { destruct (proj1 Hq3 _ _ Hb2) as [_ Hnk].
    eapply assign_relinked; [exact Hq3|exact Hk3| |exact Hm4].
    intros h _. cbn [set_next prev next]. split; [by left|]. right.
    destruct Hnk; auto. }
  assert (Hk4 : is_Some (m4 !! block1))
    by (apply (proj2 Hq4), (proj2 Hq3); done).
  clear Hm4 Hq3 Hb2 b2 Hk3 m3.
  apply bind_Ok in Hrun as (b2 & Hb2%deref_Ok & Hrun).
  destruct (decide (next b2 = 0)); [by injection Hrun as <-|].
  destruct (proj1 Hq4 _ _ Hb2) as [_ [?|Hnk]]; [done|].
  eapply assign_relinked; [exact Hq4|exact Hnk| |exact Hrun].
  intros h _. cbn [set_prev prev next]. split; [|by left]. right. by right.
Qed.

(* A release creates no header and leaves no link dangling. *)
Lemma my_free_relinked (ptr : Z) (st st' : allocator) :
  links_closed (heap st) → my_free ptr st = Ok st' → relinked (heap st) (heap st').
Proof.
  intros Hc Hrun.
  assert (Hq : relinked (heap st) (heap st)) by (split; [exact Hc|done]).
  unfold my_free in Hrun.
  destruct (decide (ptr = 0)); [by injection Hrun as <-|].
  destruct (negb (host_live st)); [done|].
  set (hdr := size_t (ptr - sizeof_block_header)) in *. clearbody hdr.
  apply bind_Ok in Hrun as (h & Hh%deref_Ok & Hrun).
  apply bind_Ok in Hrun as (_ & _ & Hrun).
  apply bind_Ok in Hrun as (m1 & Hm1 & Hrun).
  assert (Hq1 : relinked (heap st) m1).
  { eapply assign_relinked; [exact Hq|by eexists| |exact Hm1].
    intros h0 _. cbn [set_free prev next]. split; by left. }
  clear Hm1 Hq.
  apply bind_Ok in Hrun as (h1 & _ & Hrun).
  apply bind_Ok in Hrun as (c & _ & Hrun).
  apply bind_Ok in Hrun as ([m2 hdr2] & Hm2 & Hrun).
  assert (Hq2 : relinked (heap st) m2).
  { destruct c.
    - apply bind_Ok in Hm2 as (m' & Hm' & Hm2).
      apply bind_Ok in Hm2 as (h' & _ & Hm2). injection Hm2 as <- <-.
      by eapply merge_blocks_relinked.
    - by injection Hm2 as <- <-. }
  clear Hm2 Hq1.
  apply bind_Ok in Hrun as (h2 & _ & Hrun).
  apply bind_Ok in Hrun as (c2 & _ & Hrun).
  apply bind_Ok in Hrun as (m3 & Hm3 & Hrun). injection Hrun as <-.
  cbn [heap with_heap].
  destruct c2; [by eapply merge_blocks_relinked|by injection Hm3 as <-].
Qed.

Lemma headers_apart_same (m m' : memory) :
  (∀ a, is_Some (m' !! a) ↔ is_Some (m !! a)) → headers_apart m → headers_apart m'.
Proof.
  intros Hd [Hr Ha]. split.
  - intros a Hk. apply Hr, Hd, Hk.
  - intros a b Hka Hkb. apply Ha; by apply Hd.
Qed.

(** X11: a release on a well-formed heap.  Take a heap whose headers do not
    overlap and whose links are NULL or the address of a header, and a
    pointer with a header right below it that carries the index of a segment
    of a started allocator that has not been torn down.  Then my_free
    returns: the tests it makes before each call to merge_blocks (neighbour
    not NULL, marked free, adjacent) are the assertions of merge_blocks, the
    block merged into its left neighbour leaves that neighbour marked free
    for the second merge, and every header it reads or writes is there.  The
    call creates no header and removes none, and it leaves a heap of the
    same kind, so the same holds of the next release. *)
Theorem my_free_keeps_heap_well_formed (ptr : Z) (st : allocator) (h : block_header)
    (seg : segment) :
  headers_apart (heap st) → links_closed (heap st) →
  ptr ≠ 0 →
  heap st !! size_t (ptr - sizeof_block_header) = Some h →
  segment_at st (segment_id h) = Ok seg →
  ∃ st', my_free ptr st = Ok st' ∧
         (∀ a, is_Some (heap st' !! a) ↔ is_Some (heap st !! a)) ∧
         headers_apart (heap st') ∧ links_closed (heap st').
Proof.
  intros Hap Hc Hp Hh Hseg.
  pose proof Hseg as (_ & _ & Hl & _)%segment_at_Ok.
  assert (Hrun : ∃ st', my_free ptr st = Ok st').
  { unfold my_free. rewrite decide_False by done. rewrite Hl. cbn [negb].
    set (hdr := size_t (ptr - sizeof_block_header)) in *.
    assert (Hhdr : hdr ≠ 0).
    { destruct (proj1 Hap hdr) as [? _]; [by eexists|lia]. }
    clearbody hdr.
    rewrite (deref_Some _ _ _ Hh). cbn [mbind outcome_bind].
    rewrite Hseg. cbn [mbind outcome_bind].
    assert (Hq : relinked (heap st) (heap st)) by (split; [exact Hc|done]).
    destruct (assign (heap st) hdr (set_free TRUE)) as [m1| | |] eqn:Hm1;
      try (rewrite assign_Ok in Hm1 by done; discriminate).
    assert (Hq1 : relinked (heap st) m1).
    { eapply assign_relinked; [exact Hq|by eexists| |exact Hm1].
      intros h0 _. cbn [set_free prev next]. split; by left. }
    rewrite assign_Ok in Hm1 by done. injection Hm1 as <-.
    rewrite Hh in *. cbn [default from_option id] in *.
    cbn [mbind outcome_bind].
    set (m1 := <[hdr := set_free TRUE h]> (heap st)) in *.
    assert (Hm1 : m1 !! hdr = Some (set_free TRUE h)) by apply lookup_insert_eq.
    rewrite (deref_Some _ _ _ Hm1). cbn [mbind outcome_bind prev set_free].
    assert (Hstage2 : ∀ m2 hdr2,
              relinked (heap st) m2 → hdr2 ≠ 0 → is_free m2 hdr2 = true →
              ∃ st',
                (h ← deref m2 hdr2;
                 c ← (if decide (next h = 0) then Ok false
                      else
                        n ← deref m2 (next h);
                        Ok (free n &&
                            (size_t (hdr2 + sizeof_block_header + size h) =? next h)));
                 m ← (if c : bool then merge_blocks m2 hdr2 (next h) else Ok m2);
                 Ok (with_heap m st)) = Ok st').
    { intros m2 hdr2 Hq2 Hn2 Hf2.
      destruct (is_free_true _ _ Hf2) as (h2 & Hh2 & Hfree2).
      rewrite (deref_Some _ _ _ Hh2). cbn [mbind outcome_bind].
      destruct (decide (next h2 = 0)) as [Hnx|Hnx].
      { cbn [mbind outcome_bind]. by eexists. }
      destruct (proj1 Hq2 _ _ Hh2) as [_ [?|[hn Hhn]]]; [done|].
      rewrite (deref_Some _ _ _ Hhn). cbn [mbind outcome_bind].
      destruct (free hn && (size_t (hdr2 + sizeof_block_header + size h2) =? next h2))
        eqn:Hcn.
      - apply andb_true_iff in Hcn as [Hfn Hadj%Z.eqb_eq].
        destruct (merge_blocks_returns m2 hdr2 (next h2) h2 hn Hh2 Hhn Hn2 Hnx
                    Hfree2 Hfn Hadj) as (m3 & -> & _).
        cbn [mbind outcome_bind]. by eexists.
      - cbn [mbind outcome_bind]. by eexists. }
    assert (Hf1 : is_free m1 hdr = true) by (unfold is_free; by rewrite Hm1).
    destruct (decide (prev h = 0)) as [Hpv|Hpv].
    { cbn [mbind outcome_bind]. by apply Hstage2. }
    destruct (proj1 Hq1 _ _ Hm1) as [[?|[hp Hhp]] _]; [done|].
    cbn [prev set_free] in Hhp.
    rewrite (deref_Some _ _ _ Hhp). cbn [mbind outcome_bind].
    destruct (free hp && (size_t (prev h + sizeof_block_header + size hp) =? hdr))
      eqn:Hcp.
    - apply andb_true_iff in Hcp as [Hfp Hadj%Z.eqb_eq].
      destruct (merge_blocks_returns m1 (prev h) hdr hp (set_free TRUE h) Hhp Hm1 Hpv
                  Hhdr Hfp ltac:(done) Hadj) as (m2 & Hrun & _).
      rewrite Hrun. cbn [mbind outcome_bind].
      destruct (merge_blocks_prev m1 m2 (prev h) hdr _ Hrun Hm1 ltac:(done))
        as (h' & Hh' & Hp').
      rewrite (deref_Some _ _ _ Hh'). cbn [mbind outcome_bind]. rewrite Hp'.
      apply Hstage2; [by eapply merge_blocks_relinked|done|].
      rewrite (merge_blocks_flags _ _ _ _ Hrun). unfold is_free. by rewrite Hhp.
    - cbn [mbind outcome_bind]. by apply Hstage2. }
  destruct Hrun as [st' Hrun]. exists st'. split; [exact Hrun|].
  destruct (my_free_relinked ptr st st' Hc Hrun) as [Hc' Hd'].
  split; [exact Hd'|]. split; [by eapply headers_apart_same|exact Hc'].
Qed.

(** ** The sizes stored in the headers *)

Lemma size_t_nonneg (z : Z) : 0 <= size_t z.
Proof. unfold size_t. apply Z.mod_pos_bound. unfold SIZE_MAX. lia. Qed.

(* Every size that a merge writes is the result of an unsigned sum. *)
Lemma merge_blocks_sizes (m m' : memory) (block1 block2 : Z) :
  map_Forall (λ _ h, 0 <= size h) m → merge_blocks m block1 block2 = Ok m' →
  map_Forall (λ _ h, 0 <= size h) m'.
Proof.
  intros Hm Hrun.
  assert (Hstep : ∀ (m0 m1 : memory) (p : Z) (f : block_header → block_header),
            (∀ h, 0 <= size h → 0 <= size (f h)) →
            map_Forall (λ _ h, 0 <= size h) m0 → assign m0 p f = Ok m1 →
            map_Forall (λ _ h, 0 <= size h) m1).
  { intros m0 m1 p f Hf. by apply (assign_keeps (λ h, 0 <= size h)). }
  unfold merge_blocks in Hrun.
  apply bind_Ok in Hrun as (_ & _ & Hrun).
  apply bind_Ok in Hrun as (_ & _ & Hrun).
  apply bind_Ok in Hrun as (b1 & _ & Hrun).
  apply bind_Ok in Hrun as (b2 & _ & Hrun).
  apply bind_Ok in Hrun as (_ & _ & Hrun).
  apply bind_Ok in Hrun as (_ & _ & Hrun).
  apply bind_Ok in Hrun as (m1 & Hm1 & Hrun).
  assert (H1 : map_Forall (λ _ h, 0 <= size h) m1).
  { destruct (decide (prev b2 = 0)); [by injection Hm1 as <-|].
    by eapply Hstep; [|exact Hm|exact Hm1]. }
  clear Hm1 b1 b2.
  apply bind_Ok in Hrun as (b2 & _ & Hrun).
  apply bind_Ok in Hrun as (m2 & Hm2 & Hrun).
  assert (H2 : map_Forall (λ _ h, 0 <= size h) m2).
  { destruct (decide (next b2 = 0)); [by injection Hm2 as <-|].
    by eapply Hstep; [|exact H1|exact Hm2]. }
  clear Hm2 b2.
  apply bind_Ok in Hrun as (b1 & _ & Hrun).
  apply bind_Ok in Hrun as (b2 & _ & Hrun).
  apply bind_Ok in Hrun as (m3 & Hm3 & Hrun).
  assert (H3 : map_Forall (λ _ h, 0 <= size h) m3).
  { eapply Hstep; [|exact H2|exact Hm3]. intros h _. cbn [size set_size].
    apply size_t_nonneg. }
  clear Hm3 b1 b2.
  apply bind_Ok in Hrun as (b2 & _ & Hrun).
  apply bind_Ok in Hrun as (m4 & Hm4 & Hrun).
  assert (H4 : map_Forall (λ _ h, 0 <= size h) m4)
    by (by eapply Hstep; [|exact H3|exact Hm4]).
  clear Hm4 b2.
  apply bind_Ok in Hrun as (b2 & _ & Hrun).
  destruct (decide (next b2 = 0)); [by injection Hrun as <-|].
  by eapply Hstep; [|exact H4|exact Hrun].
Qed.

Lemma my_free_sizes (ptr : Z) (st st' : allocator) :
  map_Forall (λ _ h, 0 <= size h) (heap st) → my_free ptr st = Ok st' →
  map_Forall (λ _ h, 0 <= size h) (heap st').
Proof.
  intros Hm Hrun. unfold my_free in Hrun.
  destruct (decide (ptr = 0)); [by injection Hrun as <-|].
  destruct (negb (host_live st)); [done|].
  set (hdr := size_t (ptr - sizeof_block_header)) in *. clearbody hdr.
  apply bind_Ok in Hrun as (h & _ & Hrun).
  apply bind_Ok in Hrun as (_ & _ & Hrun).
  apply bind_Ok in Hrun as (m1 & Hm1 & Hrun).
  assert (H1 : map_Forall (λ _ h, 0 <= size h) m1)
    by (by eapply (assign_keeps (λ h, 0 <= size h)); [| |exact Hm|exact Hm1]).
  apply bind_Ok in Hrun as (h1 & _ & Hrun).
  apply bind_Ok in Hrun as (c & _ & Hrun).
  apply bind_Ok in Hrun as ([m2 hdr2] & Hm2 & Hrun).
  assert (H2 : map_Forall (λ _ h, 0 <= size h) m2).
  { destruct c.
    - apply bind_Ok in Hm2 as (m' & Hm' & Hm2).
      apply bind_Ok in Hm2 as (h' & _ & Hm2). injection Hm2 as <- <-.
      by eapply merge_blocks_sizes.
    - by injection Hm2 as <- <-. }
  apply bind_Ok in Hrun as (h2 & _ & Hrun).
  apply bind_Ok in Hrun as (c2 & _ & Hrun).
  apply bind_Ok in Hrun as (m3 & Hm3 & Hrun). injection Hrun as <-.
  cbn [heap with_heap].
  destruct c2; [by eapply merge_blocks_sizes|by injection Hm3 as <-].
Qed.


(** ** What an allocation leaves of the other headers *)

(* What taking the head of a free list leaves of the other headers: their
   flags stay, none appears and none disappears; the one header that can
   appear is the new head, right after the payload. *)
Lemma take_head_frame (H : host) (st st' : allocator) (i : Z) (seg : segment)
    (h : block_header) (sz p : Z) (segs : list segment) :
  host_ok H → ready H st → segments st = Some segs → segment_at st i = Ok seg →
  heap st !! free_list seg = Some h →
  0 < sz → sz + sizeof_block_header <= size h →
  take_block i (free_list seg) sz st = Ok (p, st') →
  free_list seg + sizeof_block_header + sz + sizeof_block_header
    <= start_ptr seg + seg_size seg ∧
  (map_Forall (λ _ h0, 0 <= size h0) (heap st) →
   map_Forall (λ _ h0, 0 <= size h0) (heap st')) ∧
  is_free (heap st') (free_list seg) = false ∧
  is_Some (heap st' !! free_list seg) ∧
  (∀ a, a ≠ free_list seg → a ≠ free_list seg + sizeof_block_header + sz →
        is_free (heap st') a = is_free (heap st) a ∧
        (is_Some (heap st' !! a) ↔ is_Some (heap st !! a))) ∧
  ((segments st'
    = Some (<[Z.to_nat i := set_free_list (free_list seg + sizeof_block_header + sz) seg]> segs) ∧
    is_free (heap st') (free_list seg + sizeof_block_header + sz) = true) ∨
   (segments st' = Some segs ∧
    heap st' !! (free_list seg + sizeof_block_header + sz) = None)).
Proof.
  intros Hok (Hb0 & Hi & Hl & segs0 & Hs & Hg & Hinv) Hs0 Hseg Hh Hsz Hfit Hrun.
  rewrite Hs0 in Hs. injection Hs as <-.
  pose proof Hseg as (segs' & Hs' & _ & Hi0 & Hn)%segment_at_Ok.
  rewrite Hs0 in Hs'. injection Hs' as <-.
  set (n := Z.to_nat i) in *.
  destruct (inv_heads _ _ Hinv n seg Hn) as (h0 & Hh0 & Hnx & Hsize & Hlo & Hend).
  rewrite Hh in Hh0. injection Hh0 as <-.
  destruct (segment_start_positive H segs n seg Hok Hb0 Hg Hn) as [Hpos Hmax].
  assert (H32 : sizeof_block_header = 32) by reflexivity.
  assert (Hmin : MIN_SPLIT_SIZE = 32) by reflexivity.
  assert (Hres : size_t (size h - sz) = size h - sz) by (apply size_t_small; lia).
  assert (Hptr : size_t (free_list seg + sizeof_block_header)
                 = free_list seg + sizeof_block_header) by (apply size_t_small; lia).
  assert (Hne : free_list seg ≠ 0) by lia.
  assert (HPnh : ¬ is_head segs (prev h)) by (eapply inv_prev; eauto).
  assert (HPc : prev h = 0 ∨ is_Some (heap st !! prev h)) by (eapply inv_closed; eauto).
  assert (Hbp : free_list seg ≠ prev h).
  { intros Heq. apply HPnh. exists n, seg. done. }
  set (new := free_list seg + sizeof_block_header + sz) in *.
  assert (Hfresh : heap st !! new = None).
  { eapply above_head_fresh; eauto. unfold new. lia. }
  unfold take_block in Hrun. rewrite Hseg in Hrun. cbn [mbind outcome_bind] in Hrun.
  rewrite Hptr in Hrun.
  destruct (decide (MIN_SPLIT_SIZE + sizeof_block_header <= size h - sz)) as [Hsplit|Hwhole].
  - assert (Hnew : new = size_t (free_list seg + sizeof_block_header + sz))
      by (symmetry; apply size_t_small; unfold new; lia).
    destruct (split_block_split (heap st) seg (free_list seg) sz h Hh Hne Hsz
                ltac:(rewrite Hres; done) new Hnew)
      as (m' & Hrun' & Hmn & Hmb & _ & Hmp & Hmo).
    { unfold new. lia. }
    { unfold new. lia. }
    { rewrite Hnx. unfold new. lia. }
    { destruct HPc as [->|[hp Hhp]]; [unfold new; lia|congruence]. }
    { done. }
    { rewrite Hnx. done. }
    { by left. }
    rewrite Hrun' in Hrun. cbn [mbind outcome_bind] in Hrun.
    rewrite assign_Ok in Hrun by done. cbn [mbind outcome_bind] in Hrun.
    rewrite Hmb in Hrun. cbn [default from_option id set_free
                              size next prev free segment_id] in Hrun.
    rewrite insert_id in Hrun by done.
    rewrite decide_True in Hrun by done.
    injection Hrun as <- <-. cbn [heap segments with_segment with_heap option_map].
    split; [unfold new; lia|]. split.
    { intros Hm a ha Ha.
      destruct (decide (a = new)) as [->|Han].
      { rewrite Hmn in Ha. injection Ha as <-. cbn [size]. apply size_t_nonneg. }
      destruct (decide (a = free_list seg)) as [->|Hab].
      { rewrite Hmb in Ha. injection Ha as <-. cbn [size]. lia. }
      destruct (decide (prev h ≠ 0 ∧ a = prev h)) as [[Hp0 ->]|Hap].
      - destruct HPc as [?|[hp Hhp]]; [done|].
        rewrite (Hmp Hp0), Hhp in Ha. injection Ha as <-.
        cbn [default from_option id set_next size]. exact (Hm _ _ Hhp).
      - rewrite Hmo in Ha; [exact (Hm _ _ Ha)|done|done| |].
        + rewrite Hnx. done.
        + intros Hp0 ->. by apply Hap. }
    split; [unfold is_free; by rewrite Hmb|]. split; [by eexists|]. split.
    + intros a Ha1 Ha2.
      destruct (decide (prev h ≠ 0 ∧ a = prev h)) as [[Hp0 ->]|Hap].
      * destruct HPc as [?|[hp Hhp]]; [done|].
        unfold is_free. rewrite (Hmp Hp0), Hhp. cbn [default from_option id set_next free].
        split; [done|]. split; intros _; by eexists.
      * assert (Heq : m' !! a = heap st !! a).
        { apply Hmo; [done|done| |].
          - rewrite Hnx. done.
          - intros Hp0 ->. by apply Hap. }
        unfold is_free. by rewrite Heq.
    + left. rewrite Hs0. split; [done|]. unfold is_free. by rewrite Hmn.
  - rewrite (split_block_whole _ _ _ _ _ Hh Hne Hsz) in Hrun by (rewrite Hres; lia).
    cbn [mbind outcome_bind] in Hrun.
    apply bind_Ok in Hrun as (m' & Hm' & Hrun). injection Hrun as <- <-.
    apply assign_inv in Hm' as [_ ->]. rewrite Hh. cbn [default from_option id].
    cbn [heap segments with_segment with_heap option_map].
    split; [unfold new; lia|]. split.
    { intros Hm. apply map_Forall_insert_2; [|done].
      cbn [size set_free]. exact (Hm _ _ Hh). }
    split; [unfold is_free; by rewrite lookup_insert_eq|].
    split; [rewrite lookup_insert_eq; by eexists|]. split.
    + intros a Ha1 Ha2. unfold is_free. by rewrite lookup_insert_ne.
    + right. split.
      * rewrite Hs0. cbn. by rewrite list_insert_id.
      * rewrite lookup_insert_ne; [done|]. unfold new. lia.
Qed.

(* What a call to my_malloc leaves of the headers: a failed call changes
   nothing; a served one clears the flag of the head it takes, may write one
   new header right after the payload, which is then the new head and marked
   free, and leaves the flags of all other headers alone. *)
Lemma my_malloc_frame (H : host) (sz : Z) (st st' : allocator) (p : Z)
    (segs : list segment) :
  host_ok H → 0 < sz <= SIZE_MAX - sizeof_block_header → ready H st →
  segments st = Some segs →
  my_malloc H sz st = Ok (p, st') →
  (p = 0 ∧ segments st' = Some segs ∧ heap st' = heap st) ∨
  (∃ (n : nat) seg,
     segs !! n = Some seg ∧ p = free_list seg + sizeof_block_header ∧
     free_list seg + sizeof_block_header + sz + sizeof_block_header
       <= start_ptr seg + seg_size seg ∧
     (map_Forall (λ _ h, 0 <= size h) (heap st) →
      map_Forall (λ _ h, 0 <= size h) (heap st')) ∧
     is_free (heap st) (free_list seg) = true ∧
     is_free (heap st') (free_list seg) = false ∧
     is_Some (heap st' !! free_list seg) ∧
     (∀ a, a ≠ free_list seg → a ≠ free_list seg + sizeof_block_header + sz →
           is_free (heap st') a = is_free (heap st) a ∧
           (is_Some (heap st' !! a) ↔ is_Some (heap st !! a))) ∧
     ((segments st'
       = Some (<[n := set_free_list (free_list seg + sizeof_block_header + sz) seg]> segs) ∧
       is_free (heap st') (free_list seg + sizeof_block_header + sz) = true) ∨
      (segments st' = Some segs ∧
       heap st' !! (free_list seg + sizeof_block_header + sz) = None))).
Proof.
  intros Hok Hsz Hr Hs Hrun.
  pose proof Hr as (Hb0 & Hi & Hl & segs0 & Hs0 & Hg & Hinv).
  rewrite Hs in Hs0. injection Hs0 as <-.
  pose proof (actual_size_plain sz Hsz) as Hact.
  assert (Hpos : 0 < actual_size sz) by (rewrite Hact; unfold sizeof_block_header; lia).
  unfold my_malloc in Hrun.
  apply bind_Ok in Hrun as (_ & _ & Hrun).
  destruct (mutexes_destroyed st) eqn:Hmd; [discriminate|].
  rewrite Hi in Hrun. unfold TRUE in Hrun. cbv beta iota zeta in Hrun.
  cbn [negb] in Hrun.
  set (st2 := mk_allocator _ _ _ _ _ _ _ _) in Hrun.
  assert (Hr2 : ready H st2) by (by eapply ready_same; [| | | |exact Hr]).
  assert (Hh2 : heap st2 = heap st) by reflexivity.
  assert (Hs2 : segments st2 = Some segs) by exact Hs.
  clearbody st2.
  assert (Hhit : ∀ st3 seg_id seg3 hb,
            ready H st3 → segments st3 = Some segs →
            (∀ a, is_free (heap st3) a = is_free (heap st) a ∧
                  (is_Some (heap st3 !! a) ↔ is_Some (heap st !! a))) →
            (map_Forall (λ _ h, 0 <= size h) (heap st) →
             map_Forall (λ _ h, 0 <= size h) (heap st3)) →
            segment_at st3 seg_id = Ok seg3 →
            heap st3 !! free_list seg3 = Some hb →
            is_free (heap st) (free_list seg3) = true →
            actual_size sz <= size hb →
            take_block seg_id (free_list seg3) sz st3 = Ok (p, st') →
            ∃ (n : nat) seg,
              segs !! n = Some seg ∧ p = free_list seg + sizeof_block_header ∧
              free_list seg + sizeof_block_header + sz + sizeof_block_header
                <= start_ptr seg + seg_size seg ∧
              (map_Forall (λ _ h, 0 <= size h) (heap st) →
               map_Forall (λ _ h, 0 <= size h) (heap st')) ∧
              is_free (heap st) (free_list seg) = true ∧
              is_free (heap st') (free_list seg) = false ∧
              is_Some (heap st' !! free_list seg) ∧
              (∀ a, a ≠ free_list seg → a ≠ free_list seg + sizeof_block_header + sz →
                    is_free (heap st') a = is_free (heap st) a ∧
                    (is_Some (heap st' !! a) ↔ is_Some (heap st !! a))) ∧
              ((segments st'
                = Some (<[n := set_free_list (free_list seg + sizeof_block_header + sz) seg]>
                          segs) ∧
                is_free (heap st') (free_list seg + sizeof_block_header + sz) = true) ∨
               (segments st' = Some segs ∧
                heap st' !! (free_list seg + sizeof_block_header + sz) = None))).
  { intros st3 seg_id seg3 hb Hr3 Hs3 Hsame Hsizes Hseg3 Hb Hwas Hfit Htake.
    destruct (take_head_cases H st3 st' seg_id seg3 hb sz p Hok Hr3 Hseg3 Hb
                ltac:(lia) ltac:(lia) Htake)
      as (_ & Hp & segs3 & Hs3' & Hn3 & _).
    rewrite Hs3 in Hs3'. injection Hs3' as <-.
    destruct (take_head_frame H st3 st' seg_id seg3 hb sz p segs Hok Hr3 Hs3 Hseg3 Hb
                ltac:(lia) ltac:(lia) Htake)
      as (Hroom & Hsz' & Hf & Hk & Hfr & Hcase).
    exists (Z.to_nat seg_id), seg3.
    split; [done|]. split; [done|]. split; [done|].
    split; [intros Hm; by apply Hsz', Hsizes|].
    split; [done|]. split; [done|]. split; [done|].
    split.
    - intros a Ha1 Ha2. destruct (Hfr a Ha1 Ha2) as [Hfa Hka].
      destruct (Hsame a) as [Hfa' Hka']. split; [congruence|].
      by rewrite Hka, Hka'.
    - destruct Hcase as [[Hs' Hfn]|[Hs' Hnone]]; [by left|by right]. }
  apply bind_Ok in Hrun as (seg & Hseg & Hrun).
  apply bind_Ok in Hrun as (block & Hfind & Hrun).
  destruct (find_head H st2 _ seg _ block Hok Hr2 Hseg Hpos Hfind)
    as [->|(-> & hb & Hb & Hfree & Hfit)].
  - cbn [Z.eqb negb] in Hrun.
    apply bind_Ok in Hrun as ([[block seg_id] st3] & Hw & Hrun).
    assert (Hr3 : ready H st3 ∧ heap st3 = heap st2 ∧ segments st3 = segments st2 ∧
              (block = 0 ∨
               ∃ seg3 hb, segment_at st3 seg_id = Ok seg3 ∧ block = free_list seg3 ∧
                          heap st3 !! block = Some hb ∧ free hb = true ∧
                          actual_size sz <= size hb)).
    { destruct (sz <=? LARGE_SIZE).
      - eapply wait_small_segments_ready; eauto.
      - apply bind_Ok in Hw as ([b4 st4] & Hw4 & Hw). injection Hw as <- <- <-.
        eapply wait_for_free_block_ready; eauto. }
    destruct Hr3 as (Hr3 & Hh3 & Hs3 & Hblock).
    destruct (block =? 0) eqn:Hz.
    { injection Hrun as <- <-. left. split; [done|]. split; congruence. }
    apply Z.eqb_neq in Hz. right.
    destruct Hblock as [?|(seg3 & hb & Hseg3 & -> & Hb & Hfree & Hfit)]; [done|].
    apply bind_Ok in Hrun as (m & Hm & Hrun).
    pose proof Hr3 as (_ & Hi3 & Hl3 & segs3 & Hs3' & Hg3 & Hinv3).
    pose proof Hm as [_ Hmeq]%assign_inv. rewrite Hb in Hmeq.
    cbn [default from_option id] in Hmeq.
    eapply (Hhit (with_heap m st3) seg_id seg3 (set_segment_id seg_id hb));
      [ | | | | | | | |exact Hrun].
    + split; [done|]. split; [done|]. split; [done|]. exists segs3.
      split; [done|]. split; [done|]. cbn [heap with_heap].
      eapply heap_inv_set_segment_id; eauto.
    + cbn [segments with_heap]. congruence.
    + intros a. cbn [heap with_heap]. rewrite Hmeq, <- Hh2, <- Hh3. unfold is_free.
      destruct (decide (a = free_list seg3)) as [->|Hne].
      * rewrite lookup_insert_eq, Hb. split; [done|]. split; intros _; by eexists.
      * by rewrite lookup_insert_ne.
    + intros Hsizes. cbn [heap with_heap]. rewrite Hmeq.
      rewrite <- Hh2, <- Hh3 in Hsizes.
      apply map_Forall_insert_2; [|done].
      cbn [size set_segment_id]. exact (Hsizes _ _ Hb).
    + rewrite <- Hseg3. by apply segment_at_same.
    + cbn [heap with_heap]. rewrite Hmeq. by rewrite lookup_insert_eq.
    + unfold is_free. by rewrite <- Hh2, <- Hh3, Hb.
    + cbn [size set_segment_id]. done.
  - right.
    pose proof Hseg as (segs' & Hs' & _ & Hi0 & Hn)%segment_at_Ok.
    pose proof Hr2 as (_ & _ & _ & segs2 & Hs2' & Hg2 & Hinv2).
    rewrite Hs2 in Hs'. injection Hs' as <-.
    rewrite Hs2 in Hs2'. injection Hs2' as <-.
    destruct (segment_start_positive H segs _ seg Hok Hb0 Hg2 Hn) as [Hp0 _].
    pose proof (head_in_segment _ _ _ _ _ Hg2 Hinv2 Hn) as [Hlo _].
    rewrite (proj2 (Z.eqb_neq (free_list seg) 0)) in Hrun by lia.
    cbn [negb] in Hrun.
    eapply (Hhit st2 _ seg hb); [done|done| | |done|done| |done|exact Hrun].
    + intros a. by rewrite Hh2.
    + by rewrite Hh2.
    + unfold is_free. by rewrite <- Hh2, Hb.
Qed.

(** ** The blocks handed out and the blocks released *)

Lemma ready_header_place (H : host) (st : allocator) (segs : list segment) (a : Z) :
  host_ok H → ready H st → segments st = Some segs → is_Some (heap st !! a) →
  ∃ (j : nat) sj,
    segs !! j = Some sj ∧ start_ptr sj <= a <= free_list sj ∧
    0 < start_ptr sj ∧
    free_list sj + sizeof_block_header <= start_ptr sj + seg_size sj ∧
    start_ptr sj + seg_size sj <= SIZE_MAX.
Proof.
  intros Hok (Hb0 & _ & _ & segs0 & Hs0 & Hg & Hinv) Hs [h Ha].
  rewrite Hs in Hs0. injection Hs0 as <-.
  destruct (inv_place _ _ Hinv _ _ Ha) as (j & sj & Hj & Hlo & Hhi).
  exists j, sj. split; [done|]. split; [done|].
  destruct (segment_start_positive H segs j sj Hok Hb0 Hg Hj) as [Hpos Hmax].
  pose proof (head_in_segment _ _ _ _ _ Hg Hinv Hj) as [_ Hroom].
  done.
Qed.

Lemma initial_served_inv (H : host) (out rel : list Z) :
  host_ok H → host_region H ≠ 0 → (∀ p, p ∈ out → p = 0) →
  served_inv (initial_segments (host_region H)) (initial_heap (host_region H)) out rel.
Proof.
  intros [Hlo Hhi] Hb0 Hout.
  set (b := host_region H) in *.
  assert (Hcell : ∀ a, is_Some (initial_heap b !! a) →
            is_free (initial_heap b) a = true ∧
            ∃ (i : nat) seg, (i < 5)%nat ∧ initial_segments b !! i = Some seg ∧
                             a = free_list seg ∧ a = b + Z.of_nat i * 5242880).
  { intros a [h Ha]. unfold is_free. rewrite Ha. unfold initial_heap in Ha.
    repeat (apply lookup_insert_Some in Ha as [[<- <-]|[_ Ha]]; [split; [done|]|]).
    - exists 4%nat, (mk_segment 83886080 (b + 20971520) (b + 20971520)).
      split; [lia|]. split; [done|]. cbn. lia.
    - exists 3%nat, (mk_segment 5242880 (b + 15728640) (b + 15728640)).
      split; [lia|]. split; [done|]. cbn. lia.
    - exists 2%nat, (mk_segment 5242880 (b + 10485760) (b + 10485760)).
      split; [lia|]. split; [done|]. cbn. lia.
    - exists 1%nat, (mk_segment 5242880 (b + 5242880) (b + 5242880)).
      split; [lia|]. split; [done|]. cbn. lia.
    - exists 0%nat, (mk_segment 5242880 b b).
      split; [lia|]. split; [done|]. cbn. lia.
    - by rewrite lookup_empty in Ha. }
  split.
  - intros p Hp. left. by apply Hout.
  - intros a Ha. left. destruct (is_free_true _ _ Ha) as (h & Hh & _).
    destruct (Hcell a) as (_ & i & seg & _ & Hi & Hfl & _); [by eexists|].
    by exists i, seg.
  - intros i seg Hi. left.
    destruct i as [|[|[|[|[|i]]]]]; cbn in Hi; try discriminate;
      injection Hi as <-; cbn [free_list]; unfold is_free;
      initial_heap_lookup; reflexivity.
  - unfold TOTAL_SIZE in Hhi. split.
    + intros a Ha. destruct (Hcell a Ha) as (_ & i & seg & Hi5 & _ & _ & ->).
      unfold sizeof_block_header, SIZE_MAX in *. lia.
    + intros a a' Ha Ha' Hlt.
      destruct (Hcell a Ha) as (_ & i & seg & Hi5 & _ & _ & ->).
      destruct (Hcell a' Ha') as (_ & i' & seg' & Hi5' & _ & _ & ->).
      unfold sizeof_block_header. lia.
  - intros a h Ha. unfold initial_heap in Ha.
    repeat (apply lookup_insert_Some in Ha as [[_ <-]|[_ Ha]]; [cbn [size]; lia|]).
    by rewrite lookup_empty in Ha.
Qed.

Lemma my_free_served (H : host) (st st' : allocator) (p : Z)
    (segs : list segment) (out rel : list Z) :
  host_ok H → ready H st → segments st = Some segs →
  served_inv segs (heap st) out rel →
  p = 0 ∨ p ∈ out → my_free p st = Ok st' →
  segments st' = Some segs ∧ served_inv segs (heap st') out (p :: rel).
Proof.
  intros Hok Hr Hs [Hout Hfree Hhead Hap Hsizes] Hp Hrun.
  destruct (decide (p = 0)) as [->|Hp0].
  { assert (st' = st) as -> by (unfold my_free in Hrun; by injection Hrun).
    split; [done|]. split; [done| |done|done|done].
    intros a Ha. destruct (Hfree a Ha); [by left|right; by right]. }
  destruct Hp as [?|Hin]; [done|].
  destruct (Hout p Hin) as [?|Hrange]; [done|].
  destruct (my_free_flags p st st' Hrun) as [Hs' Hfl].
  pose proof (my_free_sets_flag p st st' Hp0 Hrun) as Hset.
  assert (Hhdr : size_t (p - sizeof_block_header) = p - sizeof_block_header)
    by (apply size_t_small; unfold sizeof_block_header in *; lia).
  rewrite Hhdr in Hfl, Hset.
  split; [congruence|]. split.
  - done.
  - intros a Ha. destruct (decide (a = p - sizeof_block_header)) as [->|Hne].
    + right. replace (p - sizeof_block_header + sizeof_block_header) with p by lia.
      by left.
    + rewrite Hfl in Ha by done. destruct (Hfree a Ha); [by left|right; by right].
  - intros i seg Hi.
    destruct (decide (free_list seg = p - sizeof_block_header)) as [->|Hne].
    + by left.
    + rewrite Hfl by done. by apply (Hhead i).
  - pose proof Hr as (_ & _ & _ & segs0 & _ & _ & Hinv).
    assert (Hc : links_closed (heap st)) by (intros a h; apply (inv_closed _ _ Hinv)).
    destruct (my_free_relinked p st st' Hc Hrun) as [_ Hd].
    by eapply headers_apart_same.
  - by eapply my_free_sizes.
Qed.

Lemma my_malloc_served (H : host) (sz : Z) (st st' : allocator) (p : Z)
    (segs : list segment) (out rel : list Z) :
  host_ok H → 0 < sz <= SIZE_MAX - sizeof_block_header → ready H st →
  segments st = Some segs → served_inv segs (heap st) out rel →
  my_malloc H sz st = Ok (p, st') →
  ∃ segs', segments st' = Some segs' ∧ served_inv segs' (heap st') (p :: out) rel.
Proof.
  intros Hok Hsz Hr Hs [Hout Hfree Hhead Hap Hsizes] Hrun.
  pose proof (my_malloc_ready H sz st st' p Hok Hsz Hr Hrun) as Hr'.
  assert (H32 : sizeof_block_header = 32) by reflexivity.
  destruct (my_malloc_frame H sz st st' p segs Hok Hsz Hr Hs Hrun)
    as [(-> & Hs' & Hh')
       |(n & seg & Hn & -> & Hfit & Hsizes' & _ & Hfb & Hkb & Hfr & Hcase)].
  { exists segs. split; [done|]. rewrite Hh'. split; [|done| |done|done].
    - intros p [->|Hp]%elem_of_cons; [by left|by apply Hout].
    - intros i seg Hi. destruct (Hhead i seg Hi); [by left|right; by right]. }
  set (b := free_list seg) in *.
  set (new := b + sizeof_block_header + sz) in *.
  pose proof Hr as (Hb0 & _ & _ & segs0 & Hs0 & Hg & Hinv).
  rewrite Hs in Hs0. injection Hs0 as <-.
  destruct (segment_start_positive H segs n seg Hok Hb0 Hg Hn) as [Hpos Hmax].
  pose proof (head_in_segment _ _ _ _ _ Hg Hinv Hn) as [Hlo Hroom]. fold b in Hlo, Hroom.
  assert (Hfresh : heap st !! new = None).
  { eapply above_head_fresh; eauto. fold b. unfold new. lia. }
  assert (Hout' : ∀ q, q ∈ (b + sizeof_block_header) :: out →
            q = 0 ∨ sizeof_block_header < q <= SIZE_MAX).
  { intros q [->|Hq]%elem_of_cons; [right; lia|by apply Hout]. }
  assert (Hother : ∀ (j : nat) sj, j ≠ n → segs !! j = Some sj →
            free_list sj ≠ b ∧ free_list sj ≠ new).
  { intros j sj Hjn Hj. split.
    - eapply heads_apart; eauto.
    - destruct (inv_heads _ _ Hinv j sj Hj) as (hj & Hhj & _). congruence. }
  assert (Hold : ∀ a, a ≠ b → a ≠ new → is_free (heap st') a = true →
            (∃ (j : nat) sj, j ≠ n ∧ segs !! j = Some sj ∧ free_list sj = a) ∨
            a + sizeof_block_header ∈ rel).
  { intros a Hab Han Ha. rewrite (proj1 (Hfr a Hab Han)) in Ha.
    destruct (Hfree a Ha) as [(j & sj & Hj & Hfl)|?]; [left|by right].
    exists j, sj. split; [|done]. intros ->. rewrite Hn in Hj. injection Hj as <-. done. }
  assert (Hheads : ∀ (j : nat) sj, j ≠ n → segs !! j = Some sj →
            is_free (heap st') (free_list sj) = true ∨
            free_list sj + sizeof_block_header ∈ (b + sizeof_block_header) :: out).
  { intros j sj Hjn Hj. destruct (Hother j sj Hjn Hj) as [Hjb Hjnew].
    rewrite (proj1 (Hfr _ Hjb Hjnew)).
    destruct (Hhead j sj Hj); [by left|right; by right]. }
  assert (Hkeys : ∀ a, is_Some (heap st' !! a) → a = new ∨ is_Some (heap st !! a)).
  { intros a Ha. destruct (decide (a = new)) as [|Han]; [by left|right].
    destruct (decide (a = b)) as [->|Hab].
    - destruct (inv_heads _ _ Hinv n seg Hn) as (hb & Hhb & _). by eexists.
    - by apply (Hfr a Hab Han). }
  assert (Hapart : headers_apart (heap st')).
  { destruct Hap as [Hrange Hpair]. split.
    - intros a Ha. destruct (Hkeys a Ha) as [->|Hk]; [|by apply Hrange].
      unfold new, SIZE_MAX in *. lia.
    - assert (Hnew : ∀ k, is_Some (heap st !! k) →
                k + sizeof_block_header <= new ∨ new + sizeof_block_header <= k).
      { intros k Hk.
        destruct (ready_header_place H st segs k Hok Hr Hs Hk)
          as (j & sj & Hj & [Hlo1 Hhi1] & Hpos1 & Hroom1 & Hmax1).
        destruct (decide (j = n)) as [->|Hjn].
        - rewrite Hn in Hj. injection Hj as <-. fold b in Hhi1. unfold new. lia.
        - destruct (geometry_lookup _ _ _ _ Hg Hj) as (Hj5 & Hsj & Hzj).
          destruct (geometry_lookup _ _ _ _ Hg Hn) as (Hn5 & Hsn & Hzn).
          unfold new.
          destruct (decide (j < 4)%nat); destruct (decide (n < 4)%nat); lia. }
      intros a a' Ha Ha' Hlt.
      destruct (Hkeys a Ha) as [->|Hk]; destruct (Hkeys a' Ha') as [->|Hk'].
      + lia.
      + destruct (Hnew a' Hk'); lia.
      + destruct (Hnew a Hk); lia.
      + by apply Hpair. }
  destruct Hcase as [[Hs' Hfn]|[Hs' Hnone]].
  - eexists. split; [exact Hs'|].
    split; [exact Hout'| | |exact Hapart|exact (Hsizes' Hsizes)].
    + intros a Ha. destruct (decide (a = new)) as [->|Han].
      { left. exists n, (set_free_list new seg).
        split; [apply list_lookup_insert_eq; by eapply lookup_lt_Some|done]. }
      destruct (decide (a = b)) as [->|Hab]; [congruence|].
      destruct (Hold a Hab Han Ha) as [(j & sj & Hjn & Hj & Hfl)|?]; [left|by right].
      exists j, sj. split; [by rewrite list_lookup_insert_ne|done].
    + intros j sj Hj.
      apply list_lookup_insert_Some in Hj as [(-> & <- & _)|[Hjn Hj]].
      * left. done.
      * apply (Hheads j sj); [congruence|done].
  - exists segs. split; [exact Hs'|].
    split; [exact Hout'| | |exact Hapart|exact (Hsizes' Hsizes)].
    + intros a Ha. destruct (decide (a = new)) as [->|Han].
      { unfold is_free in Ha. by rewrite Hnone in Ha. }
      destruct (decide (a = b)) as [->|Hab]; [congruence|].
      destruct (Hold a Hab Han Ha) as [(j & sj & Hjn & Hj & Hfl)|?]; [left|by right].
      by exists j, sj.
    + intros j sj Hj. destruct (decide (j = n)) as [->|Hjn].
      * rewrite Hn in Hj. injection Hj as <-. right. by left.
      * by apply (Hheads j sj).
Qed.

Lemma history_inv (H : host) (st : allocator) (out rel : list Z) :
  host_ok H → history H st out rel →
  (unready st ∧ ∀ p, p ∈ out → p = 0) ∨
  (ready H st ∧ ∃ segs, segments st = Some segs ∧ served_inv segs (heap st) out rel).
Proof.
  intros Hok Hh.
  induction Hh as [|st st' out rel sz p _ IH Hsz Hrun|st st' out rel p _ IH Hp Hrun].
  - left. split; [by repeat split|]. intros p Hp. by apply not_elem_of_nil in Hp.
  - destruct IH as [[Hu Hout]|(Hr & segs & Hs & Hinv)].
    + destruct (my_malloc_unready_cases H sz st st' p Hsz Hu Hrun)
        as [[-> Hu']|[Hb0 Hrun']].
      * left. split; [done|]. intros q [->|Hq]%elem_of_cons; [done|by apply Hout].
      * right.
        pose proof (started_ready H (current_segment st) (waits st)
                      (mutexes_destroyed st) Hok Hb0) as Hr1.
        split; [exact (my_malloc_ready H sz _ st' p Hok Hsz Hr1 Hrun')|].
        eapply (my_malloc_served H sz _ st' p _ out rel Hok Hsz Hr1); [done| |exact Hrun'].
        cbn [heap]. by apply initial_served_inv.
    + right. split; [exact (my_malloc_ready H sz st st' p Hok Hsz Hr Hrun)|].
      exact (my_malloc_served H sz st st' p segs out rel Hok Hsz Hr Hs Hinv Hrun).
  - destruct IH as [[Hu Hout]|(Hr & segs & Hs & Hinv)].
    + left. by rewrite (my_free_unready _ _ _ Hu Hrun).
    + right. split; [exact (my_free_ready H p st st' Hr Hrun)|].
      exists segs. exact (my_free_served H st st' p segs out rel Hok Hr Hs Hinv Hp Hrun).
Qed.

(* The states that scripts reach are among these. *)
Lemma run_history (H : host) (cs : list command) :
  ∀ (ptrs ptrs' : list Z) (st st' : allocator) (out rel : list Z),
    plain_script cs → history H st out rel → (∀ p, p ∈ ptrs → p ∈ out) →
    run H cs ptrs st = Ok (ptrs', st') →
    ∃ out' rel', history H st' out' rel' ∧ ∀ p, p ∈ ptrs' → p ∈ out'.
Proof.
  induction cs as [|c cs IH]; intros ptrs ptrs' st st' out rel Hcs Hh Hsub Hrun.
  - cbn in Hrun. injection Hrun as <- <-. by exists out, rel.
  - destruct c as [sz|k|]; cbn [run plain_script] in *; [| |done].
    + destruct Hcs as [Hsz Hcs].
      apply bind_Ok in Hrun as ([p st1] & Hm & Hrun).
      eapply (IH _ _ _ _ (p :: out) rel Hcs); [|
        |exact Hrun].
      * by eapply history_malloc.
      * intros q [Hq|Hq%list_elem_of_singleton]%elem_of_app.
        -- right. by apply Hsub.
        -- subst q. by left.
    + apply bind_Ok in Hrun as (st1 & Hf & Hrun).
      eapply (IH _ _ _ _ out (default 0 (ptrs !! k) :: rel) Hcs); [|done|exact Hrun].
      eapply history_free; [exact Hh| |exact Hf].
      destruct (ptrs !! k) as [q|] eqn:Hk; [right|by left].
      apply Hsub. by eapply list_elem_of_lookup_2.
Qed.




(** ** The headers of a reached state *)

Lemma run_well_formed (H : host) (cs : list command) (ptrs : list Z)
    (st : allocator) (segs : list segment) :
  host_ok H → plain_script cs →
  run H cs [] startup = Ok (ptrs, st) → segments st = Some segs →
  ready H st ∧ headers_apart (heap st) ∧ links_closed (heap st).
Proof.
  intros Hok Hcs Hrun Hs.
  destruct (run_history H cs [] ptrs startup st [] [] Hcs (history_start H)
              ltac:(done) Hrun) as (out & rel & Hh & _).
  destruct (history_inv H st out rel Hok Hh)
    as [[(_ & _ & Hnone) _]|(Hr & segs' & Hs' & [_ _ _ Hap])]; [congruence|].
  split; [done|]. split; [done|].
  destruct Hr as (_ & _ & _ & segs0 & _ & _ & Hinv).
  intros a h. apply (inv_closed _ _ Hinv).
Qed.

(** X24: headers never overlap.  In every state reached from the start of
    the program by calls to my_malloc whose footprint does not wrap and by
    calls to my_free, every header lies inside the backing region, two
    different headers are at least sizeof(block_header) bytes apart, and
    every prev and next link is NULL or the address of a header.  On these
    states a write to one header therefore changes no byte of another. *)
Theorem headers_never_overlap (H : host) (cs : list command) (ptrs : list Z)
    (st : allocator) (segs : list segment) :
  host_ok H → plain_script cs →
  run H cs [] startup = Ok (ptrs, st) → segments st = Some segs →
  (∀ a, is_Some (heap st !! a) →
     host_region H <= a ∧ a + sizeof_block_header <= host_region H + TOTAL_SIZE) ∧
  (∀ a b, is_Some (heap st !! a) → is_Some (heap st !! b) → a < b →
     a + sizeof_block_header <= b) ∧
  links_closed (heap st).
Proof.
  intros Hok Hcs Hrun Hs.
  destruct (run_well_formed H cs ptrs st segs Hok Hcs Hrun Hs) as (Hr & [_ Hap] & Hc).
  split; [|done].
  intros a Ha.
  destruct (ready_header_place H st segs a Hok Hr Hs Ha)
    as (j & sj & Hj & [Hlo Hhi] & _ & Hroom & _).
  destruct Hr as (_ & _ & _ & segs0 & Hs0 & Hg & _).
  rewrite Hs in Hs0. injection Hs0 as <-.
  destruct (geometry_lookup _ _ _ _ Hg Hj) as (Hj5 & Hsj & Hzj).
  unfold TOTAL_SIZE. destruct (decide (j < 4)%nat); lia.
Qed.

Lemma headers_never_overlap_witness :
  let cs := [Malloc 64; Malloc 5000000; Free 0%nat; Malloc 64; Malloc 64; Malloc 64;
             Malloc 100; Free 4%nat] in
  let st := state_after host0 cs in
  (∀ a, is_Some (heap st !! a) →
     host_region host0 <= a ∧
     a + sizeof_block_header <= host_region host0 + TOTAL_SIZE) ∧
  (∀ a b, is_Some (heap st !! a) → is_Some (heap st !! b) → a < b →
     a + sizeof_block_header <= b) ∧
  links_closed (heap st).
Proof.
  intros cs st.
  assert (Hrun : ∃ ptrs, run host0 cs [] startup = Ok (ptrs, st))
    by (eexists; vm_compute; reflexivity).
  destruct Hrun as [ptrs Hrun].
  apply (headers_never_overlap host0 cs ptrs st (default [] (segments st))).
  - exact host0_ok.
  - cbn. unfold SIZE_MAX, sizeof_block_header. lia.
  - exact Hrun.
  - vm_compute. reflexivity.
Defined.

Lemma my_free_keeps_heap_well_formed_witness :
  let st := state_after host0 [Malloc 64] in
  headers_apart (heap st) ∧ links_closed (heap st) ∧
  ∃ st', my_free 4128 st = Ok st' ∧
         (∀ a, is_Some (heap st' !! a) ↔ is_Some (heap st !! a)) ∧
         headers_apart (heap st') ∧ links_closed (heap st').
Proof.
  intros st.
  assert (Hcs : plain_script [Malloc 64])
    by (cbn; unfold SIZE_MAX, sizeof_block_header; lia).
  destruct (run_well_formed host0 [Malloc 64] [4128] st (default [] (segments st))
              host0_ok Hcs) as (_ & Hap & Hc);
    [vm_compute; reflexivity|vm_compute; reflexivity|].
  split; [exact Hap|]. split; [exact Hc|].
  apply (my_free_keeps_heap_well_formed 4128 st (mk_block_header 64 4192 0 false 0)
           (segment0 st) Hap Hc).
  - done.
  - vm_compute. reflexivity.
  - vm_compute. reflexivity.
Defined.

(** ** Live allocations and headers *)

Lemma my_malloc_clear (H : host) (sz : Z) (st st' : allocator) (p : Z)
    (segs : list segment) (live : list (Z * Z)) :
  host_ok H → 0 < sz <= SIZE_MAX - sizeof_block_header → ready H st →
  segments st = Some segs → live_inv segs (heap st) live →
  payloads_clear (heap st) live →
  my_malloc H sz st = Ok (p, st') →
  payloads_clear (heap st') (if decide (p = 0) then live else (p, sz) :: live).
Proof.
  intros Hok Hsz Hr Hs [Hpl Hap] Hclear Hrun.
  assert (H32 : sizeof_block_header = 32) by reflexivity.
  destruct (my_malloc_frame H sz st st' p segs Hok Hsz Hr Hs Hrun)
    as [(-> & Hs' & Hh')
       |(n & seg & Hn & -> & Hfit & _ & Hwas & Hfb & Hkb & Hfr & Hcase)].
  { rewrite decide_True by done. by rewrite Hh'. }
  set (b := free_list seg) in *.
  set (new := b + sizeof_block_header + sz) in *.
  pose proof Hr as (Hb0 & _ & _ & segs0 & Hs0 & Hg & Hinv).
  rewrite Hs in Hs0. injection Hs0 as <-.
  destruct (segment_start_positive H segs n seg Hok Hb0 Hg Hn) as [Hpos Hmax].
  pose proof (head_in_segment _ _ _ _ _ Hg Hinv Hn) as [Hlo Hroom]. fold b in Hlo, Hroom.
  destruct (geometry_lookup _ _ _ _ Hg Hn) as (Hn5 & Hsn & Hzn).
  rewrite decide_False by lia.
  assert (Hfresh : heap st !! new = None).
  { eapply above_head_fresh; eauto. fold b. unfold new. lia. }
  assert (Hkeys : ∀ a, is_Some (heap st' !! a) → a = new ∨ is_Some (heap st !! a)).
  { intros a Ha. destruct (decide (a = new)) as [|Han]; [by left|right].
    destruct (decide (a = b)) as [->|Hab].
    - destruct (inv_heads _ _ Hinv n seg Hn) as (hb & Hhb & _). by eexists.
    - by apply (Hfr a Hab Han). }
  assert (Hnew_key : is_Some (heap st' !! new) →
            segments st'
            = Some (<[n := set_free_list new seg]> segs)).
  { intros Hk. destruct Hcase as [[Hs' _]|[_ Hnone]]; [done|].
    rewrite Hnone in Hk. by destruct Hk. }
  intros q t [Heq|Hin]%elem_of_cons.
  - injection Heq as -> ->.
    replace (b + sizeof_block_header - sizeof_block_header) with b by lia.
    split; [done|]. split; [done|].
    intros a Ha. destruct (Hkeys a Ha) as [->|Hk]; [right; unfold new; lia|].
    destruct (ready_header_place H st segs a Hok Hr Hs Hk)
      as (j & sj & Hj & [Hlo1 Hhi1] & Hpos1 & Hroom1 & Hmax1).
    destruct (decide (j = n)) as [->|Hjn].
    + rewrite Hn in Hj. injection Hj as <-. fold b in Hhi1. left. lia.
    + destruct (geometry_lookup _ _ _ _ Hg Hj) as (Hj5 & Hsj & Hzj).
      destruct (decide (j < 4)%nat); destruct (decide (n < 4)%nat); lia.
  - destruct (Hclear q t Hin) as (Hfq & Hkq & Hcq).
    assert (Hqb : q - sizeof_block_header ≠ b) by (intros Heq; congruence).
    assert (Hqn : q - sizeof_block_header ≠ new).
    { intros Heq. rewrite Heq, Hfresh in Hkq. by destruct Hkq. }
    destruct (Hfr _ Hqb Hqn) as [Hf' Hk'].
    split; [congruence|]. split; [by apply Hk'|].
    intros a Ha. destruct (Hkeys a Ha) as [->|Hk]; [|by apply Hcq].
    destruct (Hpl q t Hin) as (Ht & i & segi & Hi & Hc).
    destruct (decide (i = n)) as [->|Hne].
    + rewrite Hn in Hi. injection Hi as <-. fold b in Hc.
      destruct Hc as [[_ Hc]|(_ & _ & Hc)]; [right; unfold new; lia|congruence].
    + pose proof (head_in_segment _ _ _ _ _ Hg Hinv Hi) as [Hlo' Hroom'].
      destruct (geometry_lookup _ _ _ _ Hg Hi) as (Hi5 & Hsi & Hzi).
      unfold new.
      destruct Hc as [[Hc1 Hc2]|(Hc1 & Hc2 & _)];
        destruct (decide (i < 4)%nat); destruct (decide (n < 4)%nat); lia.
Qed.

Lemma my_free_clear (H : host) (st st' : allocator) (p sz : Z)
    (segs : list segment) (live : list (Z * Z)) :
  host_ok H → ready H st →
  segments st = Some segs → live_inv segs (heap st) live →
  payloads_clear (heap st) live →
  (p, sz) ∈ live → my_free p st = Ok st' →
  payloads_clear (heap st') (filter (λ e, e ≠ (p, sz)) live).
Proof.
  intros Hok Hr Hs [Hpl Hap] Hclear Hin Hrun.
  destruct (my_free_flags p st st' Hrun) as [_ Hfl].
  pose proof Hr as (Hb0 & _ & _ & segs0 & Hs0 & Hg & Hinv).
  rewrite Hs in Hs0. injection Hs0 as <-.
  assert (Hc : links_closed (heap st)) by (intros a h; apply (inv_closed _ _ Hinv)).
  destruct (my_free_relinked p st st' Hc Hrun) as [_ Hd].
  destruct (Hpl p sz Hin) as (Hsz & j & segj & Hj & Hcp).
  pose proof (segment_start_positive H segs j segj Hok Hb0 Hg Hj) as [Hpos Hmax].
  pose proof (head_in_segment _ _ _ _ _ Hg Hinv Hj) as [Hlo Hhi].
  assert (H32 : sizeof_block_header = 32) by reflexivity.
  assert (Hp : 32 < p <= SIZE_MAX) by (destruct Hcp as [?|(? & ? & _)]; lia).
  rewrite size_t_small in Hfl by lia.
  intros q t [Hne Hq]%list_elem_of_filter.
  destruct (Hclear q t Hq) as (Hfq & Hkq & Hcq).
  destruct (Hpl q t Hq) as (Ht & _).
  assert (Hqp : q ≠ p).
  { intros ->. apply (apart_in live p t p sz Hap Hq Hin); [done|].
    unfold payloads_overlap. lia. }
  split; [rewrite Hfl by lia; done|]. split; [by apply Hd|].
  intros a Ha. apply Hcq. by apply Hd.
Qed.

Lemma reachable_clear (H : host) (st : allocator) (live : list (Z * Z)) :
  host_ok H → reachable H st live → payloads_clear (heap st) live.
Proof.
  intros Hok Hreach.
  induction Hreach as [|st st' live sz p Hprev IH Hsz Hrun
                        |st st' live p sz Hprev IH Hin Hrun
                        |st st' live _ IH Hrun].
  - intros p s Hp. by apply not_elem_of_nil in Hp.
  - destruct (reachable_safe H st live Hok Hprev) as [[Hu ->]|(Hr & segs & Hs & Hlive)].
    + destruct (my_malloc_unready_cases H sz st st' p Hsz Hu Hrun)
        as [[-> Hu']|[Hb0 Hrun']].
      * rewrite decide_True by done. intros q t Hq. by apply not_elem_of_nil in Hq.
      * pose proof (started_ready H (current_segment st) (waits st)
                      (mutexes_destroyed st) Hok Hb0) as Hr1.
        eapply (my_malloc_clear H sz _ st' p _ [] Hok Hsz Hr1); [done| | |exact Hrun'].
        -- split; [|done]. intros q t Hq. by apply not_elem_of_nil in Hq.
        -- intros q t Hq. by apply not_elem_of_nil in Hq.
    + exact (my_malloc_clear H sz st st' p segs live Hok Hsz Hr Hs Hlive IH Hrun).
  - destruct (reachable_safe H st live Hok Hprev) as [[Hu ->]|(Hr & segs & Hs & Hlive)].
    + by apply not_elem_of_nil in Hin.
    + exact (my_free_clear H st st' p sz segs live Hok Hr Hs Hlive IH Hin Hrun).
  - assert (st' = st) as -> by (unfold my_free in Hrun; by injection Hrun).
    exact IH.
Qed.

(** X25: live allocations are clear of the headers.  In every state reached
    from the start of the program by allocations whose footprint does not
    wrap and by releases of NULL or of live pointers, each live allocation
    has right below it a header that is marked allocated, and no header
    shares a byte with the allocation: a client that writes to its live
    allocations only changes no header. *)
Theorem live_payloads_clear_of_headers (H : host) (st : allocator)
    (live : list (Z * Z)) :
  host_ok H → reachable H st live →
  ∀ p s, (p, s) ∈ live →
    (∃ h, heap st !! (p - sizeof_block_header) = Some h ∧ free h = false) ∧
    ∀ a, is_Some (heap st !! a) → a + sizeof_block_header <= p ∨ p + s <= a.
Proof.
  intros Hok Hreach p s Hin.
  destruct (reachable_clear H st live Hok Hreach p s Hin) as (Hf & [h Hh] & Hc).
  split; [|exact Hc]. exists h. split; [done|].
  unfold is_free in Hf. by rewrite Hh in Hf.
Qed.

Lemma live_payloads_clear_of_headers_witness :
  ∃ st,
    reachable host0 st [(10489888, 64); (5247008, 64)] ∧
    ∀ p s, (p, s) ∈ [(10489888, 64); (5247008, 64)] →
      (∃ h, heap st !! (p - sizeof_block_header) = Some h ∧ free h = false) ∧
      ∀ a, is_Some (heap st !! a) → a + sizeof_block_header <= p ∨ p + s <= a.
Proof.
  assert (Hsz : 0 < 64 <= SIZE_MAX - sizeof_block_header)
    by (unfold SIZE_MAX, sizeof_block_header; lia).
  assert (Hreach : ∃ st, reachable host0 st [(10489888, 64); (5247008, 64)]).
  { eexists.
    refine (reach_free host0 _ _ [(10489888, 64); (5247008, 64); (4128, 64)]
              4128 64 _ _ _).
    - refine (reach_malloc host0 _ _ [(5247008, 64); (4128, 64)] 64 10489888 _ Hsz _).
      + refine (reach_malloc host0 _ _ [(4128, 64)] 64 5247008 _ Hsz _).
        * refine (reach_malloc host0 _ _ [] 64 4128 (reach_start host0) Hsz _).
          vm_compute; reflexivity.
        * vm_compute; reflexivity.
      + vm_compute; reflexivity.
    - apply elem_of_cons. right. apply elem_of_cons. right. apply elem_of_cons. by left.
    - vm_compute; reflexivity. }
  destruct Hreach as [st Hreach]. exists st. split; [exact Hreach|].
  exact (live_payloads_clear_of_headers host0 st _ host0_ok Hreach).
Defined.
